(* ===== verification/_CoqProject ===== *)
-Q . S2P
Prelude.v
Mem.v
Segment.v
Cpu.v
Tsc.v
Atomic.v
CString.v
Printf.v
Serial.v
Console.v
Stdio.v
Heap.v
PageTable.v
Mp.v
Desc.v
Layout.v
Apic.v
Smp.v
ApicReg.v
Ipi.v
Vpages.v
Boot.v
Cstart.v
Start.v
Host.v
Harness.v
Protocol.v
BareMetal.v
Bench.v
Suite.v
Main.v
BareBoot.v
Kernel.v
