(* ===== verification/Prelude.v ===== *)
(** * HyperBench: a hypervisor benchmark kernel and its host program

    ** The program

    HyperBench is a small multiprocessor x86-64 kernel that runs as a guest of
    a hypervisor (or on bare metal) and executes a table of benchmarks, each a
    loop over one operation that a hypervisor may have to intercept. It prints
    a line before and after each benchmark; a program on the host reads the
    guest's serial output and times the distance between two marks.

    Its parts call each other as follows. The boot loader jumps to the entry
    code (x86_64/cstart.S), which goes to 64-bit mode and calls [main].
    [main] (x86_64/main.c) builds the
    list of free pages (x86_64/heap.c), masks the interrupt controllers and
    enables the APIC (x86_64/apic.c), finds the processors (x86_64/mp.c),
    starts them, and runs the harness (harness/harness.c), which runs the
    benchmarks (benchmark/*.c). The benchmarks map pages (heap.c), send
    inter-processor interrupts (mp.c, apic.c), install and take exceptions
    (x86_64/desc.c). Everything prints with lib/printf.c over the serial line
    (x86_64/serial.c) or, in the build for bare metal, the text console
    (x86_64/console.c). The host program (host/host.c) reads what was printed.

    ** The files

    - Prelude: results with the ways C code gives none ([res], [error]), machine
      integers by wrapping [Z] ([u8], [u32], [s32], [u64], ...), the monad's
      notation, the development's tactics and hints.
    - Mem: memory as a finite map from addresses to bytes, little-endian
      accesses, [mapped], [bytes_at], [write_bytes] and their lemmas, and
      [reads], the code that only reads.
    - Segment: the descriptors, selectors and address macros of
      include/mmu.h, desc.h, asm.h and memlayout.h, and the descriptor tables of
      x86_64/cstart.S; Layout: where the compiler puts the fields of the
      headers' structures.
    - Cpu: include/processor.h on the processor's registers and modes; Tsc:
      include/rdtsc.h and host/rdtsc.h on the same registers.
    - Atomic: include/atomic.h as instructions, and threads whose accesses
      interleave.
    - CString: lib/string.c, every function.
    - Printf: lib/printf.c up to [vsnprintf]; Stdio: its [printf] and
      [print_binstr], lib/stack.c, the [assert] of include/defs.h.
    - Serial: include/io.h, x86_64/serial.c, lib/abort.c.
    - Console: x86_64/console.c.
    - Heap: the allocator of x86_64/heap.c; PageTable: its page tables with
      include/page.h; Vpages: its [alloc_vpages] called concurrently.
    - Mp: the search and the tables of x86_64/mp.c with include/mp.h, and
      x86_64/proc.c.
    - Desc: x86_64/desc.c, C and assembly, with the processor's delivery of an
      exception.
    - Apic: x86_64/apic.c; ApicReg: the registers and fields of
      include/apic.h.
    - Smp: [__on_cpu] and the handler of x86_64/mp.c, with
      include/spinlock.h, on several processors; Ipi: its gate and entry code.
    - Boot: [startothers], [mpenter] and the small functions of x86_64/main.c,
      with the entry code's copy and stacks of x86_64/cstart.S; Main: its
      [main], on top of everything else.
    - Cstart: the code of x86_64/cstart.S, as lists of instructions on the
      processor of Cpu, with the page tables it loads. Start: the same code
      executed one instruction at a time by processors that interleave with each
      other and with [startothers], on one memory.
    - Host: host/host.c. Harness: harness/harness.c. Protocol: the two together.
      BareMetal: the harness in the build with __BARE_METAL; BareBoot: that
      build's [main] up to [mpinit], which prints on the console.
    - Bench: benchmark/*.c. Suite: the benchmarks under the harness.
    - Kernel: the entry code of Cstart followed by [main] of Main, with the
      machine of Start for the other processors.

    A definition has the name of the C function or of the assembly label it
    translates; a loop of a function is [<function>_loop] or named after its
    purpose. A struct or the globals of a file are a [Record].

    ** Conventions

    - A run gives [Ok] of its result or [Err]: [Fault] is an access outside
      memory, [Undef] a step C leaves undefined, [Hang] the deliberate endless
      loops of the sources and [Fuel] the model's own bound. A theorem that a
      function returns is an equation with [Ok]; one that it does not return
      quantifies over the fuel.
    - C's pointers are addresses, since the kernel runs on an identity mapping.
      The places where the mapping matters, the accesses of the memory
      benchmarks, the loading of CR3 and the entry code once paging is on, go
      through [PageTable.translate], the processor's walk of the tables.
    - Devices are inputs: a port or register read takes the next of a list of
      answers, and every access is logged. So are the time stamp counter, the
      standard input of the host, the order in which processors run, and a
      register that an [asm] statement uses without setting it. The benchmarks
      sgdt, sidt and lgdt store through such a register: the runs of the whole
      table assume that it points at unused memory below the heap
      ([Suite.layout]), and [Suite.lgdt_reloads] says what happens elsewhere.
    - The calls of the IPI benchmark run under a schedule in which they return
      ([Suite.processors]); [Smp.OnCpu.on_cpu_completes] shows that there is
      one from every state as long as the target has its interrupts enabled.
    - The output constraint =A of rdtsc.h, RAX or RDX in 64-bit code, is taken
      to be RAX.
    - Processors interleave at single memory accesses, sequentially consistent:
      the shared words are written by locked instructions or are flags of one
      writer, for which x86's order is enough. A schedule is a list of choices
      and the theorems quantify over all schedules.
    - Loops that are not structural take fuel. [walk_fuel] (strings) is more
      than the number of mapped addresses, [poll_fuel] (the serial line) more
      than the number of answers left, [digit_fuel] more than the digits of a
      64-bit number; the theorems show that each is enough. [mpinit], the
      pinning wait of the harness and the host's loops take fuel as an argument
      and their theorems say how much is enough (the number of entries, of
      readings, of bytes). [Cstart.run] takes one unit per instruction: 25
      from [entry] to [main], 31 from a STARTUP to [mpenter].

    ** The theorems

    - Memory management (Heap, PageTable): [early_mem_init] links every page of
      upper memory, [heap_alloc_page] hands out distinct zeroed pages;
      [install_page] is an update of the function from virtual pages to
      entries that keeps the tables a tree, and [setup_mmu] yields the
      identity mapping. What happens without memory, and with a size that is
      no multiple of the page size, is stated as it is.
    - Text (CString, Printf, Console, Stdio): the string functions against
      functions on lists; [vsnprintf] against the text a format denotes, and
      its confinement to the buffer; the console against a terminal on a list
      of cells; the number round trip; [printf] against [say], the interface
      the other components print with, and in the other build against [tell].
    - Processors (Mp, Apic, Smp, Ipi, Boot, Vpages): reading the configuration
      table back; the interrupt commands both APIC interfaces send;
      [__on_cpu] as a simulation of a queue of calls, with progress, and the
      call that cannot return; [startothers] as an invariant of all
      interleavings, with progress; the concurrent allocator, and its race.
    - The way to C (Segment, Cpu, Cstart): descriptors mean what the macros are
      given; the functions of processor.h implement a file of registers, in any
      sequence; the entry code reaches [main] and [mpenter] in 64-bit mode
      without a fault, its page tables map the first 4 GiB to themselves; and a
      far jump through its table of descriptors goes where the comment of
      desc.h says, for every selector.
    - The start, instruction by instruction (Start): the machine whose
      processors execute the entry code in any interleaving is simulated by the
      machine of Boot, which takes a stack in one step; no instruction faults,
      each processor that is up has its own stack, and the start can always be
      brought to its end.
    - Words (Atomic, ApicReg, Layout): counting is exact and tickets are
      distinct in every interleaving of single accesses, because of the [lock]
      prefixes; the constants of an interrupt command are its fields; what the
      boot loader and the BIOS store in the structures of the headers, as the
      compiler lays them out, is what [early_mem_init] and [mpinit] find.
    - Exceptions (Desc, Ipi): transparency of the entry and exit code,
      resumption at a fixup, the gates of [setup_idt], what [ipi_entry] loses.
    - Measuring (Harness, Host, Protocol, BareMetal, Bench, Suite): every benchmark of the
      table runs to its end from a machine with enough pages; the transcript of
      the whole table; the host reads back every name, count and pair of times;
      the harness on bare metal prints the numbers that the host computes from
      the default build; every kernel but that of idle, which does nothing,
      executes as many operations as it reports; which pages the memory
      benchmarks touch, where the lgdt benchmark saves the GDTR; what the macros
      of rdtsc.h read (Tsc).
    - The whole (Main, Kernel): from the boot loader's memory map and the BIOS's
      table of processors the entry code reaches [main], which starts every
      processor, runs the table and shuts the machine down, in every
      interleaving, and the host's report of it is fixed.
    - The two builds (BareBoot): the build for bare metal finds the same pages
      and processors as the default one, and shows on the screen what it found.

    Interfaces between components: [Stdio.say] for printing, the class
    [IcrSender] that both APIC interfaces implement and [__on_cpu] is proved
    against, the class of machines with a serial line that the harness runs
    on, and the contract [runs_as] of a benchmark that Suite discharges for
    each and Harness and Protocol use.

    ** Not modelled

    - x86_64/entryother.S, which is not among the objects of the Makefile, the
      linker script and the build: [image_ok] and [symbols_ok] of Cstart,
      [assembled] and [stacks_ok] of Start, and [entry_code] and the layout
      hypotheses of Suite and Main, state what they provide.
    - The encoding of instructions: the bytes of [sipi_entry] are a parameter,
      of which [assembled] says where the tables are.
    - [main] in the build with __BARE_METAL after [mpinit]: [startothers] and
      the harness are the same code with its messages on the console instead of
      the serial line (BareMetal has the harness's), and it ends in
      [while(1);].
    - The hypervisor's side of a hypercall, and time: an instruction that is
      measured is an entry of a trace.
    - The constants of include/msr.h, include/traps.h, include/apic.h and
      include/param.h that no code uses, and the prototypes of
      include/defs.h. *)

From stdpp Require Import base gmap list numbers strings.
From Stdlib Require Import ZArith Lia.

#[local] Open Scope Z_scope.

#[global] Arguments Z.eqb : simpl never.
#[global] Arguments Z.leb : simpl never.
#[global] Arguments Z.ltb : simpl never.
#[global] Arguments Z.mul : simpl never.
#[global] Arguments Z.add : simpl never.
#[global] Arguments Z.sub : simpl never.

(** ** Results: values, and the ways C code does not produce one *)

(** What stops a run: a load or store outside the mapped addresses, a step
    whose behaviour C leaves undefined (signed overflow, an array index out
    of bounds, a use of a value that was never returned), the deliberate
    [while(1);] of the sources, and the model's own fuel. *)
Inductive error :=
  | Fault
  | Undef
  | Hang
  | Fuel.

#[export] Instance error_eq_dec : EqDecision error.
Proof. solve_decision. Defined.

Inductive res (A : Type) :=
  | Ok (a : A)
  | Err (e : error).

Arguments Ok {A} _.
Arguments Err {A} _.

#[export] Instance res_ret : MRet res := fun A a => Ok a.

#[export] Instance res_bind : MBind res := fun A B f r =>
  match r with
  | Ok a => f a
  | Err e => Err e
  end.

Definition of_option {A} (e : error) (o : option A) : res A :=
  match o with
  | Some a => Ok a
  | None => Err e
  end.

(** ** Machine integers *)

(** The conversions to the unsigned types of 8, 16, 32 and 64 bits, and to the
    signed ones (two's complement, as gcc defines the out-of-range
    conversion). *)
Definition u8 (z : Z) : Z := z mod 256.
Definition u16 (z : Z) : Z := z mod 65536.
Definition u32 (z : Z) : Z := z mod 4294967296.
Definition u64 (z : Z) : Z := z mod 18446744073709551616.

(** [char] is signed on x86-64, [int] has 32 bits, [long] and [long long] 64. *)
Definition s8 (z : Z) : Z := (z + 128) mod 256 - 128.
Definition s32 (z : Z) : Z := (z + 2147483648) mod 4294967296 - 2147483648.
Definition s64 (z : Z) : Z :=
  (z + 9223372036854775808) mod 18446744073709551616 - 9223372036854775808.

(** Signed arithmetic: C leaves overflow undefined. *)
Definition int_ok (z : Z) : bool := (-2147483648 <=? z) && (z <=? 2147483647).
Definition long_ok (z : Z) : bool :=
  (-9223372036854775808 <=? z) && (z <=? 9223372036854775807).
Definition int_chk (z : Z) : res Z := if int_ok z then Ok z else Err Undef.
Definition long_chk (z : Z) : res Z := if long_ok z then Ok z else Err Undef.

(** ** Characters and text *)

(** A string literal as the bytes the compiler stores for it, without the
    terminating zero. *)
Definition bytes_of_string (s : string) : list Z :=
  (fun c => Z.of_N (Ascii.N_of_ascii c)) <$> String.list_ascii_of_string s.

Definition chr (s : string) : Z :=
  match bytes_of_string s with c :: _ => c | [] => 0 end.

Definition CR : Z := 13.
Definition LF : Z := 10.

(** ** Automation *)

Create HintDb hb.
Create Rewrite HintDb hb.

(** Unfolds the machine-integer conversions and lets [lia] see the division
    behind each remainder. *)
Ltac mach :=
  unfold u8, u16, u32, u64, s8, s32, s64 in *;
  Z.to_euclidean_division_equations; lia.

(** Sequencing after a step that succeeded. *)
Ltac mret := cbn [mbind res_bind].
Ltac mret_in H := cbn [mbind res_bind] in H.

(** Splits the boolean tests of the code in the goal and in the hypotheses. *)
Ltac btests :=
  repeat match goal with
  | H : _ && _ = true |- _ => apply andb_true_iff in H; destruct H
  | H : _ || _ = false |- _ => apply orb_false_iff in H; destruct H
  | H : (_ <=? _) = true |- _ => apply Z.leb_le in H
  | H : (_ <=? _) = false |- _ => apply Z.leb_gt in H
  | H : (_ <? _) = true |- _ => apply Z.ltb_lt in H
  | H : (_ <? _) = false |- _ => apply Z.ltb_ge in H
  | H : (_ =? _) = true |- _ => apply Z.eqb_eq in H
  | H : (_ =? _) = false |- _ => apply Z.eqb_neq in H
  end.

(** Case analysis on the next boolean test of the goal. *)
Ltac btest :=
  match goal with
  | |- context [?a <=? ?b] => destruct (Z.leb_spec a b)
  | |- context [?a <? ?b] => destruct (Z.ltb_spec a b)
  | |- context [?a =? ?b] => destruct (Z.eqb_spec a b)
  end.

(** Decides a closed proposition by evaluation. *)
Ltac by_eval := refine (bool_decide_unpack _ _); vm_compute; exact I.

(** ** Lemmas on results *)

Lemma res_bind_ok {A B} (r : res A) (f : A -> res B) b :
  r ≫= f = Ok b -> exists a, r = Ok a /\ f a = Ok b.
Proof. destruct r as [a|e]; simpl; [|discriminate]. eauto. Qed.

Lemma res_bind_assoc {A B C} (r : res A) (f : A -> res B) (g : B -> res C) :
  (r ≫= f) ≫= g = r ≫= (fun a => f a ≫= g).
Proof. by destruct r. Qed.

Lemma int_chk_ok z : -2147483648 <= z <= 2147483647 -> int_chk z = Ok z.
Proof.
  intros H. unfold int_chk, int_ok.
  rewrite (proj2 (Z.leb_le _ _)), (proj2 (Z.leb_le _ _)) by lia. reflexivity.
Qed.

Lemma long_chk_ok z :
  -9223372036854775808 <= z <= 9223372036854775807 -> long_chk z = Ok z.
Proof.
  intros H. unfold long_chk, long_ok.
  rewrite (proj2 (Z.leb_le _ _)), (proj2 (Z.leb_le _ _)) by lia. reflexivity.
Qed.

(** ** Lemmas on machine integers *)

Lemma u8_range z : 0 <= u8 z < 256.
Proof. mach. Qed.

Lemma u8_small z : 0 <= z < 256 -> u8 z = z.
Proof. mach. Qed.

Lemma u16_small z : 0 <= z < 65536 -> u16 z = z.
Proof. mach. Qed.

Lemma u32_small z : 0 <= z < 4294967296 -> u32 z = z.
Proof. mach. Qed.

Lemma u64_small z : 0 <= z < 18446744073709551616 -> u64 z = z.
Proof. mach. Qed.

Lemma u64_range z : 0 <= u64 z < 18446744073709551616.
Proof. mach. Qed.

Lemma s8_inj a b : 0 <= a < 256 -> 0 <= b < 256 -> s8 a = s8 b -> a = b.
Proof. mach. Qed.

Lemma s8_zero a : 0 <= a < 256 -> s8 a = 0 <-> a = 0.
Proof. mach. Qed.

Lemma s8_ascii a : 0 <= a < 128 -> s8 a = a.
Proof. mach. Qed.

Lemma u8_s8 a : 0 <= a < 256 -> u8 (s8 a) = a.
Proof. mach. Qed.

Lemma s32_small z : -2147483648 <= z < 2147483648 -> s32 z = z.
Proof. mach. Qed.

(** ** Masks *)

Lemma land_mask x n w :
  0 <= n <= w -> Z.land x (2 ^ w - 2 ^ n) = x mod 2 ^ w - x mod 2 ^ n.
Proof.
  intros Hn.
  assert (Hm : 2 ^ w - 2 ^ n = Z.shiftl (Z.ones (w - n)) n).
  { rewrite Z.shiftl_mul_pow2, Z.ones_equiv by lia.
    rewrite Z.mul_pred_l, <- Z.pow_add_r by lia. do 2 f_equal. lia. }
  assert (Hr : x mod 2 ^ w - x mod 2 ^ n = Z.shiftl (Z.shiftr (x mod 2 ^ w) n) n).
  { rewrite Z.shiftl_mul_pow2, Z.shiftr_div_pow2 by lia.
    assert (E : (x mod 2 ^ w) mod 2 ^ n = x mod 2 ^ n).
    { apply Z.mod_mod_divide. exists (2 ^ (w - n)). rewrite <- Z.pow_add_r by lia. f_equal. lia. }
    rewrite <- E. pose proof (Z.div_mod (x mod 2 ^ w) (2 ^ n) ltac:(apply Z.pow_nonzero; lia)). lia. }
  rewrite Hm, Hr. apply Z.bits_inj'. intros i Hi.
  rewrite Z.land_spec, !Z.shiftl_spec by lia.
  destruct (Z.ltb_spec i n).
  - rewrite !(Z.testbit_neg_r _ (i - n)) by lia. apply andb_false_r.
  - rewrite Z.shiftr_spec, Z.sub_add by lia.
    destruct (Z.ltb_spec i w).
    + rewrite Z.ones_spec_low, Z.mod_pow2_bits_low by lia. apply andb_true_r.
    + rewrite Z.ones_spec_high, Z.mod_pow2_bits_high by lia. apply andb_false_r.
Qed.

(** Or-ing in bits below the lowest set bit is adding. *)
Lemma lor_disjoint p a n :
  p mod 2 ^ n = 0 -> 0 <= n -> 0 <= a < 2 ^ n -> Z.lor p a = p + a.
Proof.
  intros Hp Hn Ha.
  assert (Hl : Z.land p a = 0).
  { apply Z.bits_inj'. intros i Hi. rewrite Z.land_spec, Z.bits_0.
    rewrite <- (Z.mod_small a (2 ^ n)) by lia. destruct (Z.ltb_spec i n).
    - rewrite <- (Z.mod_pow2_bits_low p n) by lia. by rewrite Hp, Z.bits_0.
    - rewrite Z.mod_pow2_bits_high by lia. apply andb_false_r. }
  by rewrite <- Z.lxor_lor, <- Z.add_nocarry_lxor.
Qed.

#[export] Hint Resolve u8_range u64_range u8_small u16_small u32_small u64_small : hb.
#[export] Hint Rewrite int_chk_ok long_chk_ok using lia : hb.
