(* ===== verification/Mem.v ===== *)
(** * Physical memory

    The kernel runs on an identity mapping, so a C pointer is a physical
    address. Memory is a finite map from addresses to bytes; its domain is
    the set of addresses an access reaches without a fault. Multi-byte
    accesses are little endian. The second part gives the predicates the
    other files state their contracts with ([mapped], [bytes_at],
    [write_bytes]) and the lemmas that relate them to single accesses. *)

From stdpp Require Import base gmap list numbers strings.
From Stdlib Require Import ZArith Lia.
From S2P Require Import Prelude.

#[local] Open Scope Z_scope.

Abbreviation mem := (gmap Z Z).

(** ** Accesses *)

Definition load8 (m : mem) (a : Z) : res Z := of_option Fault (m !! a).

Definition store8 (m : mem) (a v : Z) : res mem :=
  match m !! a with
  | Some _ => Ok (<[a := u8 v]> m)
  | None => Err Fault
  end.

Fixpoint load_le (n : nat) (m : mem) (a : Z) : res Z :=
  match n with
  | O => Ok 0
  | S n' => b ← load8 m a; r ← load_le n' m (a + 1); Ok (b + 256 * r)
  end.

Fixpoint store_le (n : nat) (m : mem) (a v : Z) : res mem :=
  match n with
  | O => Ok m
  | S n' => m' ← store8 m a v; store_le n' m' (a + 1) (v / 256)
  end.

Definition load16 := load_le 2.
Definition load32 := load_le 4.
Definition load64 := load_le 8.
Definition store16 := store_le 2.
Definition store32 := store_le 4.
Definition store64 := store_le 8.

(** ** Predicates on regions *)

(** Every stored byte is a byte. *)
Definition mem_wf (m : mem) : Prop := map_Forall (fun _ v => 0 <= v < 256) m.

(** The [n] addresses from [a] on are mapped. *)
Definition mapped (m : mem) (a n : Z) : Prop :=
  forall x, a <= x < a + n -> is_Some (m !! x).

(** The bytes [l] are stored from [a] on. *)
Definition bytes_at (m : mem) (a : Z) (l : list Z) : Prop :=
  forall (i : nat) b, l !! i = Some b -> m !! (a + Z.of_nat i) = Some b.

(** The memory after the bytes [l] are written from [a] on. *)
Fixpoint write_bytes (m : mem) (a : Z) (l : list Z) : mem :=
  match l with
  | [] => m
  | b :: l' => <[a := b]> (write_bytes m (a + 1) l')
  end.

(** The [n] little-endian bytes of a value. *)
Fixpoint le_bytes (n : nat) (v : Z) : list Z :=
  match n with
  | O => []
  | S n' => u8 v :: le_bytes n' (v / 256)
  end.

(** The value of little-endian bytes. *)
Fixpoint le_value (l : list Z) : Z :=
  match l with
  | [] => 0
  | b :: l' => b + 256 * le_value l'
  end.

(** Two memories map the same addresses. *)
Definition same_dom (m m' : mem) : Prop := forall x, is_Some (m !! x) <-> is_Some (m' !! x).

(** ** Deciding the predicates on concrete memories *)

Fixpoint bytes_at_b (m : mem) (a : Z) (l : list Z) : bool :=
  match l with
  | [] => true
  | b :: l' => bool_decide (m !! a = Some b) && bytes_at_b m (a + 1) l'
  end.

Fixpoint mapped_run (n : nat) (m : mem) (a : Z) : bool :=
  match n with
  | O => true
  | S n' => bool_decide (is_Some (m !! a)) && mapped_run n' m (a + 1)
  end.

Definition mapped_b (m : mem) (a n : Z) : bool := mapped_run (Z.to_nat n) m a.

Definition mem_wf_b (m : mem) : bool :=
  forallb (fun kv => (0 <=? kv.2) && (kv.2 <? 256)) (map_to_list m).

Definition decision_of {P : Prop} (b : bool) (H : b = true <-> P) : Decision P :=
  match b as b0 return (b0 = true <-> P) -> Decision P with
  | true => fun H => left (proj1 H eq_refl)
  | false => fun H => right (fun p => diff_false_true (proj2 H p))
  end H.

(** ** Single accesses *)

Lemma load8_ok m a b : m !! a = Some b -> load8 m a = Ok b.
Proof. unfold load8. intros ->. reflexivity. Qed.

Lemma load8_inv m a b : load8 m a = Ok b -> m !! a = Some b.
Proof. unfold load8. destruct (m !! a); simpl; congruence. Qed.

Lemma store8_ok m a v : is_Some (m !! a) -> store8 m a v = Ok (<[a := u8 v]> m).
Proof. unfold store8. intros [b ->]. reflexivity. Qed.

Lemma store8_inv m a v m' : store8 m a v = Ok m' -> m' = <[a := u8 v]> m.
Proof. unfold store8. destruct (m !! a); congruence. Qed.

(** ** Regions *)

Lemma mapped_sub m a n b k : mapped m a n -> a <= b -> b + k <= a + n -> mapped m b k.
Proof. intros H ? ? x ?. apply H. lia. Qed.

Lemma mapped_head m a n : mapped m a n -> 0 < n -> is_Some (m !! a).
Proof. intros H ?. apply H. lia. Qed.

Lemma mapped_insert m a n x v : mapped m a n -> mapped (<[x := v]> m) a n.
Proof.
  intros H y Hy. destruct (decide (x = y)) as [->|Hne].
  - rewrite lookup_insert_eq. eauto.
  - rewrite lookup_insert_ne by done. apply H, Hy.
Qed.

Lemma bytes_at_nil m a : bytes_at m a [].
Proof. intros i b. rewrite lookup_nil. discriminate. Qed.

Lemma bytes_at_cons m a b l :
  bytes_at m a (b :: l) <-> m !! a = Some b /\ bytes_at m (a + 1) l.
Proof.
  split.
  - intros H. split.
    + specialize (H 0%nat b eq_refl). by rewrite Z.add_0_r in H.
    + intros i c Hc. specialize (H (S i) c Hc). rewrite <- H. f_equal. lia.
  - intros [H1 H2] [|i] c Hc; simpl in Hc.
    + rewrite Z.add_0_r. congruence.
    + rewrite <- (H2 i c Hc). f_equal. lia.
Qed.

Lemma bytes_at_app m a l1 l2 :
  bytes_at m a (l1 ++ l2) <-> bytes_at m a l1 /\ bytes_at m (a + Z.of_nat (length l1)) l2.
Proof.
  revert a. induction l1 as [|b l1 IH]; intros a; simpl.
  - rewrite Z.add_0_r. pose proof (bytes_at_nil m a). tauto.
  - rewrite !bytes_at_cons, IH.
    replace (a + 1 + Z.of_nat (length l1)) with (a + Z.of_nat (S (length l1))) by lia.
    tauto.
Qed.

Lemma bytes_at_mapped m a l : bytes_at m a l -> mapped m a (Z.of_nat (length l)).
Proof.
  intros H x Hx. destruct (lookup_lt_is_Some_2 l (Z.to_nat (x - a))) as [b Hb]; [lia|].
  specialize (H _ _ Hb). replace (a + Z.of_nat (Z.to_nat (x - a))) with x in H by lia. eauto.
Qed.

Lemma bytes_at_frame m m' a l :
  (forall x, a <= x < a + Z.of_nat (length l) -> m' !! x = m !! x) ->
  bytes_at m a l -> bytes_at m' a l.
Proof.
  intros Hf H i b Hb. rewrite Hf; [apply H, Hb|].
  apply lookup_lt_Some in Hb. lia.
Qed.

Lemma bytes_at_b_spec m a l : bytes_at_b m a l = true <-> bytes_at m a l.
Proof.
  revert a. induction l as [|b l IH]; intros a; simpl.
  - pose proof (bytes_at_nil m a). tauto.
  - rewrite andb_true_iff, bool_decide_eq_true, IH, bytes_at_cons. done.
Qed.

Lemma mapped_run_spec n m a : mapped_run n m a = true <-> mapped m a (Z.of_nat n).
Proof.
  revert a. induction n as [|n IH]; intros a; cbn [mapped_run].
  - split; [|done]. intros _ x Hx. lia.
  - rewrite andb_true_iff, bool_decide_eq_true, IH. split.
    + intros [H1 H2] x Hx. destruct (decide (x = a)) as [->|]; [done|]. apply H2. lia.
    + intros H. split; [apply H; lia|]. intros x Hx. apply H. lia.
Qed.

Lemma mapped_b_spec m a n : mapped_b m a n = true <-> mapped m a n.
Proof.
  unfold mapped_b. rewrite mapped_run_spec. unfold mapped.
  split; intros H x Hx; apply H; lia.
Qed.

Lemma mem_wf_b_spec m : mem_wf_b m = true <-> mem_wf m.
Proof.
  unfold mem_wf_b. rewrite forallb_forall. split.
  - intros H k v Hk. specialize (H (k, v)).
    rewrite <- list_elem_of_In, elem_of_map_to_list in H. specialize (H Hk).
    simpl in H. btests. lia.
  - intros H [k v] Hk. apply list_elem_of_In, elem_of_map_to_list, H in Hk.
    simpl in *. rewrite andb_true_iff, Z.leb_le, Z.ltb_lt. lia.
Qed.

#[export] Instance bytes_at_dec m a l : Decision (bytes_at m a l) :=
  decision_of _ (bytes_at_b_spec m a l).
#[export] Instance mapped_dec m a n : Decision (mapped m a n) :=
  decision_of _ (mapped_b_spec m a n).
#[export] Instance mem_wf_dec m : Decision (mem_wf m) := decision_of _ (mem_wf_b_spec m).

(** ** Writing a list of bytes *)

Lemma write_bytes_in (m : mem) a l x (b : Z) :
  l !! Z.to_nat (x - a) = Some b -> a <= x -> write_bytes m a l !! x = Some b.
Proof.
  revert a. induction l as [|c l IH]; intros a Hl Ha; simpl in *; [done|].
  destruct (decide (a = x)) as [->|Hne].
  - rewrite Z.sub_diag in Hl. simpl in Hl. rewrite lookup_insert_eq. done.
  - rewrite lookup_insert_ne by done. apply IH; [|lia].
    replace (Z.to_nat (x - a)) with (S (Z.to_nat (x - (a + 1)))) in Hl by lia. done.
Qed.

Lemma write_bytes_out (m : mem) a l x :
  x < a \/ a + Z.of_nat (length l) <= x -> write_bytes m a l !! x = m !! x.
Proof.
  revert a. induction l as [|c l IH]; intros a H; simpl in *; [done|].
  rewrite lookup_insert_ne by lia. apply IH. lia.
Qed.

Lemma write_bytes_at m a l : bytes_at (write_bytes m a l) a l.
Proof.
  intros i b Hb. apply write_bytes_in; [|lia].
  replace (Z.to_nat (a + Z.of_nat i - a)) with i by lia. done.
Qed.

Lemma bytes_at_write_disjoint m a l b k :
  bytes_at m a l ->
  a + Z.of_nat (length l) <= b \/ b + Z.of_nat (length k) <= a ->
  bytes_at (write_bytes m b k) a l.
Proof. intros H Hd. eapply bytes_at_frame; [|exact H]. intros. apply write_bytes_out. lia. Qed.

Lemma write_bytes_dom m a l :
  mapped m a (Z.of_nat (length l)) -> same_dom m (write_bytes m a l).
Proof.
  intros Hm x. destruct (decide (a <= x < a + Z.of_nat (length l))) as [Hin|Hout].
  - split; [|intros; apply Hm; lia].
    destruct (lookup_lt_is_Some_2 l (Z.to_nat (x - a))) as [b Hb]; [lia|].
    rewrite (write_bytes_in _ _ _ _ b) by (done || lia). eauto.
  - rewrite write_bytes_out by lia. done.
Qed.

Lemma same_dom_mapped m m' a n : same_dom m m' -> mapped m a n -> mapped m' a n.
Proof. intros Hd H x Hx. apply Hd, H, Hx. Qed.

Lemma same_dom_refl m : same_dom m m.
Proof. intros x. done. Qed.

Lemma same_dom_trans m1 m2 m3 : same_dom m1 m2 -> same_dom m2 m3 -> same_dom m1 m3.
Proof. intros H1 H2 x. rewrite (H1 x). apply H2. Qed.

Lemma same_dom_insert (m : mem) a v : is_Some (m !! a) -> same_dom m (<[a := v]> m).
Proof.
  intros Ha x. destruct (decide (a = x)) as [->|Hne].
  - rewrite lookup_insert_eq. split; eauto.
  - by rewrite lookup_insert_ne.
Qed.

Lemma same_dom_sym m m' : same_dom m m' -> same_dom m' m.
Proof. intros H x. symmetry. apply H. Qed.

#[export] Instance same_dom_equiv : Equivalence same_dom.
Proof.
  split; [intros m; apply same_dom_refl | intros m m'; apply same_dom_sym
         | intros m1 m2 m3; apply same_dom_trans].
Qed.

#[export] Instance mapped_proper : Proper (same_dom ==> eq ==> eq ==> iff) mapped.
Proof. intros m m' Hd a ? <- n ? <-. split; apply same_dom_mapped; [|symmetry]; done. Qed.

Lemma write_bytes_app m a l1 l2 :
  write_bytes m a (l1 ++ l2) =
  write_bytes (write_bytes m (a + Z.of_nat (length l1)) l2) a l1.
Proof.
  revert a. induction l1 as [|b l1 IH]; intros a; simpl.
  - by rewrite Z.add_0_r.
  - rewrite IH. do 3 f_equal. lia.
Qed.

(** Writing one more byte after a run of bytes. *)
Lemma write_bytes_snoc m a l b :
  write_bytes m a (l ++ [b]) = <[a + Z.of_nat (length l) := b]> (write_bytes m a l).
Proof.
  apply map_eq. intros x. rewrite write_bytes_app. simpl.
  destruct (decide (a <= x < a + Z.of_nat (length l))) as [Hin|Hout].
  - destruct (lookup_lt_is_Some_2 l (Z.to_nat (x - a))) as [c Hc]; [lia|].
    rewrite lookup_insert_ne by lia.
    by rewrite !(write_bytes_in _ a l x c) by (done || lia).
  - rewrite write_bytes_out by lia.
    destruct (decide (x = a + Z.of_nat (length l))) as [->|Hne].
    + by rewrite !lookup_insert_eq.
    + rewrite !lookup_insert_ne by done. by rewrite write_bytes_out by lia.
Qed.

Lemma write_bytes_insert_comm m a l x v :
  x < a \/ a + Z.of_nat (length l) <= x ->
  write_bytes (<[x := v]> m) a l = <[x := v]> (write_bytes m a l).
Proof.
  revert a. induction l as [|b l IH]; intros a H; simpl in *; [done|].
  rewrite IH by lia. apply insert_insert_ne. lia.
Qed.

Lemma write_bytes_comm m a l b k :
  a + Z.of_nat (length l) <= b \/ b + Z.of_nat (length k) <= a ->
  write_bytes (write_bytes m a l) b k = write_bytes (write_bytes m b k) a l.
Proof.
  revert a. induction l as [|c l IH]; intros a H; simpl in *; [done|].
  rewrite write_bytes_insert_comm, IH by lia. done.
Qed.

(** ** Little-endian words *)

Lemma length_le_bytes n v : length (le_bytes n v) = n.
Proof. revert v. induction n; simpl; auto. Qed.

Lemma store_le_ok n m a v :
  mapped m a (Z.of_nat n) -> store_le n m a v = Ok (write_bytes m a (le_bytes n v)).
Proof.
  revert m a v. induction n as [|n IH]; intros m a v Hm; [done|].
  cbn [store_le le_bytes write_bytes].
  rewrite store8_ok by (apply Hm; lia). simpl.
  rewrite IH by (apply mapped_insert; eapply mapped_sub; [exact Hm| |]; lia).
  f_equal. rewrite write_bytes_insert_comm by lia. done.
Qed.

Lemma load_le_ok m a l :
  bytes_at m a l -> load_le (length l) m a = Ok (le_value l).
Proof.
  revert a. induction l as [|b l IH]; intros a H; [done|].
  apply bytes_at_cons in H as [H1 H2]. cbn [length load_le le_value].
  rewrite (load8_ok _ _ _ H1). simpl. rewrite (IH _ H2). done.
Qed.

Lemma le_value_bytes n v : le_value (le_bytes n v) = v mod 256 ^ Z.of_nat n.
Proof.
  revert v. induction n as [|n IH]; intros v; cbn [le_bytes le_value].
  - by rewrite Z.mod_1_r.
  - rewrite IH, Nat2Z.inj_succ, Z.pow_succ_r by lia. unfold u8.
    rewrite Z.rem_mul_r; lia.
Qed.

Lemma load_le_frame n m m' a :
  (forall x, a <= x < a + Z.of_nat n -> m' !! x = m !! x) ->
  load_le n m' a = load_le n m a.
Proof.
  revert a. induction n as [|n IH]; intros a H; [done|]. cbn [load_le].
  unfold load8. rewrite H by lia. rewrite IH by (intros; apply H; lia). done.
Qed.

Lemma load_le_total n m a : mapped m a (Z.of_nat n) -> exists v, load_le n m a = Ok v.
Proof.
  revert a. induction n as [|n IH]; intros a H; cbn [load_le]; [eauto|].
  destruct (H a) as [b Hb]; [lia|]. rewrite (load8_ok _ _ _ Hb). simpl.
  destruct (IH (a + 1)) as [v ->]; [eapply mapped_sub; [exact H| |]; lia|]. simpl. eauto.
Qed.

Lemma load_le_mapped n m a v : load_le n m a = Ok v -> mapped m a (Z.of_nat n).
Proof.
  revert a v. induction n as [|n IH]; intros a v H x Hx; [lia|]. cbn [load_le] in H.
  apply res_bind_ok in H as (b & Hb & H). apply res_bind_ok in H as (r & Hr & _).
  destruct (Z.eq_dec x a) as [->|Hne]; [apply load8_inv in Hb; eauto|]. apply (IH _ _ Hr). lia.
Qed.

Lemma load_le_range n m a v :
  mem_wf m -> load_le n m a = Ok v -> 0 <= v < 256 ^ Z.of_nat n.
Proof.
  intros Hwf. revert a v. induction n as [|n IH]; intros a v; cbn [load_le].
  - intros [= <-]. simpl. lia.
  - intros (b & Hb & (r & Hr & [= <-])%res_bind_ok)%res_bind_ok.
    apply load8_inv, Hwf in Hb. apply IH in Hr.
    rewrite Nat2Z.inj_succ, Z.pow_succ_r by lia. lia.
Qed.

Lemma load_store_le_same n m a v :
  load_le n (write_bytes m a (le_bytes n v)) a = Ok (v mod 256 ^ Z.of_nat n).
Proof.
  rewrite <- le_value_bytes. rewrite <- (length_le_bytes n v) at 1.
  apply load_le_ok, write_bytes_at.
Qed.

Lemma load_store_le_other n k m a b v :
  a + Z.of_nat n <= b \/ b + Z.of_nat k <= a ->
  load_le n (write_bytes m b (le_bytes k v)) a = load_le n m a.
Proof.
  intros H. apply load_le_frame. intros x Hx. apply write_bytes_out.
  rewrite length_le_bytes. lia.
Qed.

(** A store of [n] bytes, what a load of them sees and what it leaves alone. *)
Lemma store_le_spec n m a v :
  mapped m a (Z.of_nat n) ->
  exists m', store_le n m a v = Ok m' /\ load_le n m' a = Ok (v mod 256 ^ Z.of_nat n) /\
    same_dom m m' /\ (forall x, x < a \/ a + Z.of_nat n <= x -> m' !! x = m !! x).
Proof.
  intros Hm. exists (write_bytes m a (le_bytes n v)). split; [by apply store_le_ok|].
  split; [apply load_store_le_same|].
  split; [by apply write_bytes_dom; rewrite length_le_bytes|].
  intros x Hx. apply write_bytes_out. by rewrite length_le_bytes.
Qed.

Lemma store_le_first n m a v m' :
  mapped m a (Z.of_nat (S n)) -> store_le (S n) m a v = Ok m' -> m' !! a = Some (u8 v).
Proof.
  intros Hm. rewrite store_le_ok by done. intros [= <-]. cbn [le_bytes write_bytes].
  apply lookup_insert_eq.
Qed.

(** A 64-bit store and what later loads see of it. *)
Lemma store64_ok m a v :
  mapped m a 8 -> exists m', store64 m a v = Ok m' /\ m' = write_bytes m a (le_bytes 8 v).
Proof. intros H. unfold store64. rewrite store_le_ok by done. eauto. Qed.

Lemma load64_same m a v : 0 <= v < 18446744073709551616 ->
  load64 (write_bytes m a (le_bytes 8 v)) a = Ok v.
Proof.
  intros Hv. unfold load64. rewrite load_store_le_same. change (256 ^ Z.of_nat 8) with 18446744073709551616.
  by rewrite Z.mod_small.
Qed.

Lemma load64_frame m m' a :
  (forall x, a <= x < a + 8 -> m' !! x = m !! x) -> load64 m' a = load64 m a.
Proof. apply (load_le_frame 8). Qed.

Lemma write64_out m a v x :
  x < a \/ a + 8 <= x -> write_bytes m a (le_bytes 8 v) !! x = m !! x.
Proof. intros H. apply write_bytes_out. rewrite length_le_bytes. lia. Qed.

Lemma write64_dom m a v : mapped m a 8 -> same_dom m (write_bytes m a (le_bytes 8 v)).
Proof. intros H. apply write_bytes_dom. by rewrite length_le_bytes. Qed.

(** ** Well-formed memories *)

Lemma mem_wf_insert (m : mem) a v : mem_wf m -> 0 <= v < 256 -> mem_wf (<[a := v]> m).
Proof. intros H Hv. by apply map_Forall_insert_2. Qed.

Lemma mem_wf_write m a l :
  mem_wf m -> Forall (fun b => 0 <= b < 256) l -> mem_wf (write_bytes m a l).
Proof.
  intros H Hl. revert a. induction Hl as [|b l Hb Hl IH]; intros a; simpl; [done|].
  apply mem_wf_insert; auto.
Qed.

Lemma le_bytes_range n v : Forall (fun b => 0 <= b < 256) (le_bytes n v).
Proof. revert v. induction n; intros v; simpl; constructor; auto using u8_range. Qed.

Lemma bytes_at_range m a l : mem_wf m -> bytes_at m a l -> Forall (fun b => 0 <= b < 256) l.
Proof. intros Hwf H. apply Forall_lookup. intros i b Hb. eapply Hwf, H, Hb. Qed.

(** A run of distinct mapped addresses is no longer than the memory is large:
    this is what makes [size m] enough fuel for a loop that walks upwards. *)
Lemma mapped_size (m : mem) a (n : nat) : mapped m a (Z.of_nat n) -> (n <= size m)%nat.
Proof.
  intros H.
  set (X := list_to_set (seqZ a (Z.of_nat n)) : gset Z).
  assert (HX : size X = n).
  { unfold X. rewrite size_list_to_set by apply NoDup_seqZ.
    rewrite length_seqZ. lia. }
  rewrite <- HX, <- size_dom. apply subseteq_size.
  intros x Hx. unfold X in Hx. apply elem_of_list_to_set, elem_of_seqZ in Hx.
  apply elem_of_dom, H. lia.
Qed.

Lemma same_dom_size m m' : same_dom m m' -> size m = size m'.
Proof.
  intros H. rewrite <- !size_dom. f_equal. apply set_eq. intros x.
  rewrite !elem_of_dom. apply H.
Qed.

(** ** Code that only reads *)

(** What [f] returns on a memory it returns on every larger one: its loads
    are the only accesses. *)
Definition reads {A} (f : mem -> res A) : Prop :=
  forall m m' v, m ⊆ m' -> f m = Ok v -> f m' = Ok v.

Lemma reads_const {A} (r : res A) : reads (fun _ => r).
Proof. by intros m m' v. Qed.

Lemma reads_bind {A B} (f : mem -> res A) (g : A -> mem -> res B) :
  reads f -> (forall x, reads (g x)) -> reads (fun m => x ← f m; g x m).
Proof.
  intros Hf Hg m m' v Hs. intros (x & E & H)%res_bind_ok. rewrite (Hf _ _ _ Hs E). exact (Hg x _ _ _ Hs H).
Qed.

Lemma reads_if {A} (b : bool) (f g : mem -> res A) :
  reads f -> reads g -> reads (fun m => if b then f m else g m).
Proof. by destruct b. Qed.

Lemma reads_load8 a : reads (fun m => load8 m a).
Proof. intros m m' v Hs E%load8_inv. apply load8_ok. by eapply lookup_weaken. Qed.

Lemma bytes_at_weaken m m' a l : m ⊆ m' -> bytes_at m a l -> bytes_at m' a l.
Proof. intros Hs Hb i b Hi. eapply lookup_weaken; [by apply Hb|done]. Qed.

(** Decomposes a goal [reads f] along the code of [f]. *)
Ltac reads_with tac :=
  repeat first
    [ tac | apply reads_load8 | apply reads_const | apply reads_if
    | apply reads_bind; [|intros ?] ].

Lemma reads_load_le n a : reads (fun m => load_le n m a).
Proof. revert a. induction n as [|n IH]; intros a; cbn [load_le]; reads_with ltac:(apply IH). Qed.

Lemma load_mono n (m m' : mem) a v : m ⊆ m' -> load_le n m a = Ok v -> load_le n m' a = Ok v.
Proof. intros Hs. by apply reads_load_le. Qed.

Lemma mapped_mono (m m' : mem) a n : m ⊆ m' -> mapped m a n -> mapped m' a n.
Proof. intros Hs Hm x Hx. destruct (Hm x Hx) as [v Hv]. exists v. by eapply lookup_weaken. Qed.

Lemma replicate_mapped a n : 0 <= n -> mapped (write_bytes ∅ a (replicate (Z.to_nat n) 0)) a n.
Proof.
  intros Hn. pose proof (bytes_at_mapped _ _ _ (write_bytes_at ∅ a (replicate (Z.to_nat n) 0))) as H.
  by rewrite length_replicate, Z2Nat.id in H by lia.
Qed.

Lemma union_mapped (m1 m2 : mem) a n : mapped m2 a n -> mapped (m1 ∪ m2) a n.
Proof. intros H x Hx. rewrite lookup_union. apply union_is_Some. right. by apply H. Qed.

#[export] Hint Resolve bytes_at_mapped mem_wf_insert mem_wf_write le_bytes_range
  same_dom_refl : hb.
