(* ===== verification/Segment.v ===== *)
(** * Descriptors and addresses: include/mmu.h, include/desc.h, include/asm.h

    The bit-field structures of the headers as records with the 64-bit word
    they stand for, the macros that fill them, the selectors of desc.h and the
    two descriptor tables of x86_64/cstart.S; then the parts of an address and
    of a page-table entry. A bit-field keeps the low bits of what is stored in
    it. What the processor reads from a descriptor follows the Intel SDM,
    volume 3, chapter 3. *)

From stdpp Require Import base gmap list numbers strings.
From Stdlib Require Import ZArith Lia.
From S2P Require Import Prelude Mem.

#[local] Open Scope Z_scope.

(** ** Bit-fields *)

(** Fields with their widths, the lowest first, as one word, and back. *)
Fixpoint pack (fs : list (Z * Z)) : Z :=
  match fs with
  | [] => 0
  | (v, w) :: fs' => v mod 2 ^ w + 2 ^ w * pack fs'
  end.

Fixpoint unpack (ws : list Z) (v : Z) : list Z :=
  match ws with
  | [] => []
  | w :: ws' => v mod 2 ^ w :: unpack ws' (v / 2 ^ w)
  end.

(** ** Segment descriptors *)

Record segdesc := mkSegdesc {
  sd_lim_15_0 : Z;
  sd_base_15_0 : Z;
  sd_base_23_16 : Z;
  sd_type : Z;
  sd_s : Z;
  sd_dpl : Z;
  sd_p : Z;
  sd_lim_19_16 : Z;
  sd_avl : Z;
  sd_rsv1 : Z;
  sd_db : Z;
  sd_g : Z;
  sd_base_31_24 : Z;
}.

Definition segdesc_widths : list Z := [16; 16; 8; 4; 1; 2; 1; 4; 1; 1; 1; 1; 8].

Definition segdesc_fields (d : segdesc) : list Z :=
  [sd_lim_15_0 d; sd_base_15_0 d; sd_base_23_16 d; sd_type d; sd_s d; sd_dpl d; sd_p d; sd_lim_19_16 d;
   sd_avl d; sd_rsv1 d; sd_db d; sd_g d; sd_base_31_24 d].

Definition segdesc_word (d : segdesc) : Z := pack (zip (segdesc_fields d) segdesc_widths).

Definition segdesc_of (w : Z) : segdesc :=
  match unpack segdesc_widths w with
  | [a; b; c; d; e; f; g; h; i; j; k; l; n] => mkSegdesc a b c d e f g h i j k l n
  | _ => mkSegdesc 0 0 0 0 0 0 0 0 0 0 0 0 0
  end.

Definition STA_X : Z := 8.
Definition STA_W : Z := 2.
Definition STA_R : Z := 2.
Definition STS_IG32 : Z := 14.
Definition STS_TG32 : Z := 15.

Definition SEG (type base lim dpl : Z) : segdesc :=
  mkSegdesc (Z.land (Z.shiftr lim 12) 65535) (Z.land (u32 base) 65535) (Z.land (Z.shiftr (u32 base) 16) 255)
    type 1 dpl 1 (Z.shiftr (u32 lim) 28) 0 0 1 1 (Z.shiftr (u32 base) 24).

Definition SEG16 (type base lim dpl : Z) : segdesc :=
  mkSegdesc (Z.land lim 65535) (Z.land (u32 base) 65535) (Z.land (Z.shiftr (u32 base) 16) 255)
    type 1 dpl 1 (Z.shiftr (u32 lim) 16) 0 0 1 0 (Z.shiftr (u32 base) 24).

(** The bytes that the assembler macro emits. *)
Definition SEG_ASM (type base lim : Z) : list Z :=
  le_bytes 2 (Z.land (Z.shiftr lim 12) 65535) ++ le_bytes 2 (Z.land base 65535) ++
  [u8 (Z.land (Z.shiftr base 16) 255); u8 (Z.lor 144 type); u8 (Z.lor 192 (Z.land (Z.shiftr lim 28) 15));
   u8 (Z.land (Z.shiftr base 24) 255)].

(** What the processor makes of a descriptor. *)
Definition seg_base (d : segdesc) : Z := sd_base_15_0 d + 2 ^ 16 * sd_base_23_16 d + 2 ^ 24 * sd_base_31_24 d.
Definition seg_limit (d : segdesc) : Z :=
  let raw := sd_lim_15_0 d + 2 ^ 16 * sd_lim_19_16 d in
  if sd_g d =? 0 then raw else raw * 4096 + 4095.

(** The size of a code segment: [sd_rsv1] is the L bit of long mode. *)
Inductive seg_size := Size16 | Size32 | Size64.

#[export] Instance seg_size_eq_dec : EqDecision seg_size.
Proof. solve_decision. Defined.

Definition seg_code (d : segdesc) : bool := negb (sd_s d =? 0) && Z.testbit (sd_type d) 3.
Definition seg_size_of (d : segdesc) : seg_size :=
  if seg_code d && negb (sd_rsv1 d =? 0) then Size64 else if sd_db d =? 0 then Size16 else Size32.

(** ** The descriptor tables of cstart.S and the selectors of desc.h *)

Definition gdt32 : list Z := [0; 0x00cf9b000000ffff; 0x00cf93000000ffff].

Definition gdt64 : list Z :=
  [0;
   0x00af9b000000ffff;
   0x00cf93000000ffff;
   0x00af1b000000ffff;
   0x00cf9b000000ffff;
   0x008f9b000000ffff;
   0x008f93000000ffff;
   0x00cffb000000ffff;
   0x00cff3000000ffff;
   0x00affb000000ffff;
   0xffff + 2 ^ 32 * 0x9200 + 2 ^ 48 * 0x00cf;
   0; 0; 0; 0; 0].

Definition KERNEL_CS : Z := 0x08.
Definition KERNEL_DS : Z := 0x10.
Definition NP_SEL : Z := 0x18.
Definition KERNEL_CS32 : Z := 0x20.
Definition KERNEL_CS16 : Z := 0x28.
Definition KERNEL_DS16 : Z := 0x30.
Definition USER_CS32 : Z := 0x3b.
Definition USER_DS : Z := 0x43.
Definition USER_CS64 : Z := 0x4b.
Definition FIRST_SPARE_SEL : Z := 0x50.
Definition TSS_MAIN : Z := 0x80.

(** The comment of desc.h for 64-bit code, the rows that name a segment:
    selector, whether it is code, its size, its ring and whether it is present.
    The null descriptor and the spare entries from FIRST_SPARE_SEL on name
    none, and TSS_MAIN a task state. *)
Definition selector_table : list (Z * (bool * seg_size * Z * bool)) :=
  [(KERNEL_CS, (true, Size64, 0, true)); (KERNEL_DS, (false, Size32, 0, true));
   (NP_SEL, (true, Size64, 0, false)); (KERNEL_CS32, (true, Size32, 0, true));
   (KERNEL_CS16, (true, Size16, 0, true)); (KERNEL_DS16, (false, Size16, 0, true));
   (USER_CS32, (true, Size32, 3, true)); (USER_DS, (false, Size32, 3, true));
   (USER_CS64, (true, Size64, 3, true))].

(** The size of the code that the comment lists for a selector, if it is a
    present code segment of ring 0. *)
Definition code_selector (sel : Z) : option seg_size :=
  match list_find (fun e => e.1 = sel) selector_table with
  | Some (_, (_, (code, sz, ring, present))) => if code && (ring =? 0) && present then Some sz else None
  | None => None
  end.

Lemma code_selector_cases sel :
  code_selector sel =
  if sel =? KERNEL_CS then Some Size64 else if sel =? KERNEL_CS32 then Some Size32
  else if sel =? KERNEL_CS16 then Some Size16 else None.
Proof.
  unfold code_selector, selector_table. cbn [list_find fst].
  repeat match goal with |- context [decide (?a = sel)] => destruct (decide (a = sel)) as [<-|?]; [reflexivity|] end.
  by rewrite !(proj2 (Z.eqb_neq sel _)) by congruence.
Qed.

(** ** Gates *)

Record gatedesc := mkGatedesc {
  gd_off_15_0 : Z;
  gd_cs : Z;
  gd_args : Z;
  gd_rsv1 : Z;
  gd_type : Z;
  gd_s : Z;
  gd_dpl : Z;
  gd_p : Z;
  gd_off_31_16 : Z;
}.

Definition gatedesc_widths : list Z := [16; 16; 5; 3; 4; 1; 2; 1; 16].

Definition gatedesc_fields (g : gatedesc) : list Z :=
  [gd_off_15_0 g; gd_cs g; gd_args g; gd_rsv1 g; gd_type g; gd_s g; gd_dpl g; gd_p g; gd_off_31_16 g].

Definition gatedesc_word (g : gatedesc) : Z := pack (zip (gatedesc_fields g) gatedesc_widths).

Definition gatedesc_of (w : Z) : gatedesc :=
  match unpack gatedesc_widths w with
  | [a; b; c; d; e; f; g; h; i] => mkGatedesc a b c d e f g h i
  | _ => mkGatedesc 0 0 0 0 0 0 0 0 0
  end.

Definition SETGATE (istrap : bool) (sel off d : Z) : gatedesc :=
  mkGatedesc (Z.land (u32 off) 65535) sel 0 0 (if istrap then STS_TG32 else STS_IG32) 0 d 1 (Z.shiftr (u32 off) 16).

(** ** Addresses and entries *)

Definition PTXSHIFT : Z := 12.
Definition PDXSHIFT : Z := 22.
Definition PGSIZE : Z := Z.shiftl 1 12.

Definition PDX (va : Z) : Z := Z.land (Z.shiftr (u32 va) PDXSHIFT) 1023.
Definition PTX (va : Z) : Z := Z.land (Z.shiftr (u32 va) PTXSHIFT) 1023.
Definition PGADDR (d t o : Z) : Z := u32 (Z.lor (Z.lor (u32 (Z.shiftl d PDXSHIFT)) (u32 (Z.shiftl t PTXSHIFT))) o).

Definition PGROUNDUP (sz : Z) : Z := Z.land (u64 (sz + PGSIZE - 1)) (u64 (Z.lnot (PGSIZE - 1))).
Definition PGROUNDDOWN (a : Z) : Z := Z.land a (u64 (Z.lnot (PGSIZE - 1))).

Definition PTE_ADDR (pte : Z) : Z := Z.land (u32 pte) (u32 (Z.lnot 4095)).
Definition PTE_FLAGS (pte : Z) : Z := Z.land (u32 pte) 4095.

(** memlayout.h: [V2P] computes with 32 bits, [P2V] with a pointer; the forms
    without casts are for the assembler. *)
Definition EXTMEM : Z := 0x100000.
Definition KERNBASE : Z := 0x80000000.
Definition KERNLINK : Z := KERNBASE + EXTMEM.
Definition V2P (a : Z) : Z := u32 (u32 a - KERNBASE).
Definition P2V (a : Z) : Z := u64 (a + KERNBASE).
Definition V2P_WO (x : Z) : Z := x - KERNBASE.
Definition P2V_WO (x : Z) : Z := x + KERNBASE.

(** io.h: the kernel's addresses are physical ones. *)
Definition virt_to_phys (virt : Z) : Z := u64 virt.
Definition phys_to_virt (phys : Z) : Z := u64 phys.

(** ** Lemmas *)

Lemma unpack_pack ws : forall vs,
  Forall (fun w => 0 <= w) ws -> length vs = length ws ->
  unpack ws (pack (zip vs ws)) = zip_with (fun v w => v mod 2 ^ w) vs ws.
Proof.
  induction ws as [|w ws IH]; intros [|v vs] Hw Hl; try done. cbn [zip zip_with pack unpack].
  apply Forall_cons in Hw as [Hw Hws]. pose proof (Z.pow_pos_nonneg 2 w ltac:(lia) Hw) as Hp.
  rewrite (Z.mul_comm (2 ^ w)), Z.mod_add, Z.mod_mod, Z.div_add, Z.div_small, Z.add_0_l by (lia || apply Z.mod_pos_bound; lia).
  f_equal. apply IH; [done|]. simpl in Hl. lia.
Qed.

Lemma pack_range ws : forall vs,
  Forall (fun w => 0 <= w) ws -> length vs = length ws -> 0 <= pack (zip vs ws) < 2 ^ foldr Z.add 0 ws.
Proof.
  induction ws as [|w ws IH]; intros [|v vs] Hw Hl; try done. cbn [zip zip_with pack foldr].
  apply Forall_cons in Hw as [Hw Hws]. pose proof (Z.pow_pos_nonneg 2 w ltac:(lia) Hw) as Hp.
  assert (H0 : 0 <= foldr Z.add 0 ws).
  { clear -Hws. induction Hws; cbn [foldr]; lia. }
  specialize (IH vs Hws ltac:(simpl in Hl; lia)). rewrite Z.pow_add_r by done.
  pose proof (Z.mod_pos_bound v (2 ^ w) Hp). nia.
Qed.

(** Masks and shifts as arithmetic. *)
Lemma land_low x n : 0 <= n -> Z.land x (2 ^ n - 1) = x mod 2 ^ n.
Proof. intros Hn. rewrite <- Z.land_ones by done. f_equal. rewrite Z.ones_equiv. lia. Qed.

Lemma land_fields x :
  Z.land x 65535 = x mod 2 ^ 16 /\ Z.land x 4095 = x mod 2 ^ 12 /\ Z.land x 1023 = x mod 2 ^ 10 /\
  Z.land x 255 = x mod 2 ^ 8 /\ Z.land x 15 = x mod 2 ^ 4.
Proof.
  exact (conj (land_low x 16 ltac:(lia)) (conj (land_low x 12 ltac:(lia)) (conj (land_low x 10 ltac:(lia))
    (conj (land_low x 8 ltac:(lia)) (land_low x 4 ltac:(lia)))))).
Qed.

Ltac bits_arith :=
  rewrite ?(fun x => proj1 (land_fields x)), ?(fun x => proj1 (proj2 (land_fields x))),
    ?(fun x => proj1 (proj2 (proj2 (land_fields x)))), ?(fun x => proj1 (proj2 (proj2 (proj2 (land_fields x))))),
    ?(fun x => proj2 (proj2 (proj2 (proj2 (land_fields x))))), ?Z.shiftr_div_pow2, ?Z.shiftl_mul_pow2 by lia.

Lemma segdesc_roundtrip d :
  segdesc_of (segdesc_word d) =
  match zip_with (fun v w => v mod 2 ^ w) (segdesc_fields d) segdesc_widths with
  | [a; b; c; d; e; f; g; h; i; j; k; l; n] => mkSegdesc a b c d e f g h i j k l n
  | _ => d
  end.
Proof.
  unfold segdesc_of, segdesc_word. rewrite unpack_pack; [reflexivity|by_eval|reflexivity].
Qed.

Lemma gatedesc_roundtrip g :
  gatedesc_of (gatedesc_word g) =
  match zip_with (fun v w => v mod 2 ^ w) (gatedesc_fields g) gatedesc_widths with
  | [a; b; c; d; e; f; h; i; j] => mkGatedesc a b c d e f h i j
  | _ => g
  end.
Proof.
  unfold gatedesc_of, gatedesc_word. rewrite unpack_pack; [reflexivity|by_eval|reflexivity].
Qed.

Ltac seg_fields :=
  cbn [zip_with zip segdesc_fields segdesc_widths SEG SEG16 sd_lim_15_0 sd_base_15_0 sd_base_23_16 sd_type
       sd_s sd_dpl sd_p sd_lim_19_16 sd_avl sd_rsv1 sd_db sd_g sd_base_31_24].

Lemma base_parts b :
  0 <= b < 2 ^ 32 ->
  b mod 2 ^ 16 mod 2 ^ 16 + 2 ^ 16 * ((b / 2 ^ 16) mod 2 ^ 8 mod 2 ^ 8) + 2 ^ 24 * ((b / 2 ^ 24) mod 2 ^ 8) = b.
Proof. intros Hb. Z.to_euclidean_division_equations. lia. Qed.

Lemma limit_parts l :
  0 <= l < 2 ^ 32 ->
  ((l / 2 ^ 12) mod 2 ^ 16 mod 2 ^ 16 + 2 ^ 16 * ((l / 2 ^ 28) mod 2 ^ 4)) * 4096 + 4095 = l - l mod 4096 + 4095.
Proof. intros Hl. Z.to_euclidean_division_equations. lia. Qed.

Lemma limit16_parts l :
  0 <= l < 2 ^ 32 -> l mod 2 ^ 16 mod 2 ^ 16 + 2 ^ 16 * ((l / 2 ^ 16) mod 2 ^ 4) = l mod 2 ^ 20.
Proof. intros Hl. Z.to_euclidean_division_equations. lia. Qed.

(** A list of bytes is the little-endian form of its value. *)
Lemma le_bytes_of_value l : Forall (fun b => 0 <= b < 256) l -> le_bytes (length l) (le_value l) = l.
Proof.
  induction 1 as [|b l Hb Hl IH]; [done|]. cbn [length le_bytes le_value].
  replace (b + 256 * le_value l) with (b + le_value l * 256) by lia.
  unfold u8. rewrite Z.mod_add, Z.mod_small, Z.div_add, Z.div_small, Z.add_0_l by lia. by rewrite IH.
Qed.

Lemma seg_asm_bytes type base lim :
  0 <= base < 2 ^ 32 -> 0 <= lim < 2 ^ 32 -> 0 <= type < 16 ->
  SEG_ASM type base lim = le_bytes 8 (segdesc_word (SEG type base lim 0)).
Proof.
  intros Hb Hl Ht. assert (Hv : le_value (SEG_ASM type base lim) = segdesc_word (SEG type base lim 0)).
  { unfold SEG_ASM, segdesc_word. seg_fields. cbn [pack le_bytes app le_value]. bits_arith.
    rewrite !(u32_small base), !(u32_small lim) by lia.
    rewrite (lor_disjoint 144 type 4), (lor_disjoint 192 _ 4) by (try done; try lia; apply Z.mod_pos_bound; lia).
    generalize (Z.mod_pos_bound (lim / 2 ^ 12) (2 ^ 16) ltac:(lia)) (Z.mod_pos_bound base (2 ^ 16) ltac:(lia))
      (Z.mod_pos_bound (base / 2 ^ 16) (2 ^ 8) ltac:(lia)) (Z.mod_pos_bound (lim / 2 ^ 28) (2 ^ 4) ltac:(lia))
      (Z.mod_pos_bound (base / 2 ^ 24) (2 ^ 8) ltac:(lia)).
    generalize ((lim / 2 ^ 12) mod 2 ^ 16) (base mod 2 ^ 16) ((base / 2 ^ 16) mod 2 ^ 8) ((lim / 2 ^ 28) mod 2 ^ 4)
      ((base / 2 ^ 24) mod 2 ^ 8).
    intros L B M N H HL HB HM HN HH. rewrite !(Z.mod_small L), !(Z.mod_small B), !(Z.mod_small M), !(Z.mod_small type) by lia.
    mach. }
  rewrite <- Hv. symmetry. apply (le_bytes_of_value (SEG_ASM type base lim)).
  unfold SEG_ASM. cbn [le_bytes app]. repeat constructor; mach.
Qed.

(** ** Claims *)

(** C33: the descriptor that [SEG] builds, stored as the eight bytes of a
    table and read by the processor, is the segment asked for: its base is
    [base], its limit is [lim] rounded up to the end of a page and so never
    below [lim], its type, ring and presence are as given. [SEG16] keeps the
    20 low bits of its limit exactly, and the assembler's [SEG_ASM] emits the
    same bytes as [SEG] in ring 0. *)
Theorem seg_describes type base lim dpl :
  0 <= base < 2 ^ 32 -> 0 <= lim < 2 ^ 32 -> 0 <= type < 16 -> 0 <= dpl < 4 ->
  let d := segdesc_of (segdesc_word (SEG type base lim dpl)) in
  let d16 := segdesc_of (segdesc_word (SEG16 type base lim dpl)) in
  seg_base d = base /\ seg_limit d = lim - lim mod 4096 + 4095 /\ lim <= seg_limit d < 2 ^ 32 /\
  sd_type d = type /\ sd_dpl d = dpl /\ sd_p d = 1 /\ sd_s d = 1 /\
  seg_base d16 = base /\ seg_limit d16 = lim mod 2 ^ 20 /\
  SEG_ASM type base lim = le_bytes 8 (segdesc_word (SEG type base lim 0)).
Proof.
  intros Hb Hl Ht Hd d d16. unfold d, d16. rewrite !segdesc_roundtrip. seg_fields. unfold seg_base, seg_limit. seg_fields.
  change (1 mod 2 ^ 1 =? 0) with false. change (0 mod 2 ^ 1 =? 0) with true. cbv zeta iota. bits_arith.
  rewrite !(u32_small base), !(u32_small lim) by lia.
  rewrite limit_parts, limit16_parts, base_parts by done. rewrite !(Z.mod_small type), !(Z.mod_small dpl) by lia.
  split; [done|]. split; [done|]. split; [Z.to_euclidean_division_equations; lia|].
  do 6 (split; [done|]). by apply seg_asm_bytes.
Qed.

(** The parts of an address: a 32-bit address is put together again from
    its directory index, its table index and its offset, and an entry from its
    address and its flags; rounding down and up give the multiples of the page
    size around a size, and rounding up returns 0 for the sizes above the last
    page boundary. *)
Theorem address_parts va pte sz :
  0 <= va < 2 ^ 32 -> 0 <= pte < 2 ^ 32 -> 0 <= sz < 2 ^ 64 ->
  PGADDR (PDX va) (PTX va) (PTE_FLAGS va) = va /\ 0 <= PDX va < 1024 /\ 0 <= PTX va < 1024 /\
  PTE_ADDR pte + PTE_FLAGS pte = pte /\
  PGROUNDDOWN sz mod PGSIZE = 0 /\ PGROUNDDOWN sz <= sz < PGROUNDDOWN sz + PGSIZE /\
  PGROUNDUP sz mod PGSIZE = 0 /\ (sz <= 2 ^ 64 - PGSIZE -> sz <= PGROUNDUP sz < sz + PGSIZE) /\
  (2 ^ 64 - PGSIZE < sz -> PGROUNDUP sz = 0).
Proof.
  intros Hv Hp Hs. change PGSIZE with 4096. unfold PGADDR, PDX, PTX, PTE_FLAGS, PTE_ADDR, PGROUNDDOWN, PGROUNDUP, PDXSHIFT, PTXSHIFT.
  change (u64 (Z.lnot (PGSIZE - 1))) with (2 ^ 64 - 2 ^ 12). change (u32 (Z.lnot 4095)) with (2 ^ 32 - 2 ^ 12).
  change PGSIZE with 4096. rewrite !land_mask by lia. bits_arith. rewrite !(u32_small va), !(u32_small pte) by lia.
  rewrite !(u32_small (_ * _)) by (Z.to_euclidean_division_equations; lia).
  rewrite (lor_disjoint _ ((va / 2 ^ 12) mod 2 ^ 10 * 2 ^ 12) 22) by (Z.to_euclidean_division_equations; lia).
  rewrite (lor_disjoint _ (va mod 2 ^ 12) 12) by (Z.to_euclidean_division_equations; lia).
  repeat split; try intros; mach.
Qed.

(** The gate that [SETGATE] fills: the handler's offset, the segment, the ring
    that may call it, and whether it is a trap. *)
Theorem setgate_gate istrap sel off d :
  0 <= off < 2 ^ 32 -> 0 <= sel < 2 ^ 16 -> 0 <= d < 4 ->
  let g := gatedesc_of (gatedesc_word (SETGATE istrap sel off d)) in
  gd_off_15_0 g + 2 ^ 16 * gd_off_31_16 g = off /\ gd_cs g = sel /\ gd_dpl g = d /\ gd_p g = 1 /\ gd_s g = 0 /\
  (gd_type g = STS_TG32 <-> istrap = true).
Proof.
  intros Ho Hs Hd g. unfold g. rewrite gatedesc_roundtrip.
  cbn [zip_with gatedesc_fields gatedesc_widths SETGATE gd_off_15_0 gd_cs gd_args gd_rsv1 gd_type gd_s gd_dpl gd_p gd_off_31_16].
  bits_arith. rewrite !(u32_small off) by lia. split; [mach|]. split; [mach|]. split; [mach|]. split; [done|]. split; [done|].
  by destruct istrap.
Qed.

(** The conversions of memlayout.h are inverses on 32-bit physical addresses,
    and on virtual ones from [KERNBASE] to 4 GiB; those of io.h, by which this
    kernel goes, are the identity, so that the two disagree everywhere. *)
Theorem address_spaces a :
  0 <= a < 2 ^ 32 ->
  V2P (P2V a) = a /\ (KERNBASE <= a -> P2V (V2P a) = a) /\ P2V a = P2V_WO a /\ (KERNBASE <= a -> V2P a = V2P_WO a) /\
  phys_to_virt (virt_to_phys a) = a /\ V2P a <> virt_to_phys a /\ P2V a <> phys_to_virt a.
Proof.
  intros Ha. unfold V2P, P2V, V2P_WO, P2V_WO, virt_to_phys, phys_to_virt, KERNBASE. change (2 ^ 32) with 4294967296 in Ha.
  split_and!; mach.
Qed.

(** ** Witnesses *)

Lemma address_spaces_witness : V2P (P2V 0x100000) = 0x100000 /\ P2V 0x100000 = KERNLINK.
Proof. split; [by apply (address_spaces 0x100000)|reflexivity]. Defined.

Lemma seg_describes_witness :
  let d := segdesc_of (segdesc_word (SEG (STA_X + STA_R) 0 4294967295 0)) in
  seg_base d = 0 /\ seg_limit d = 4294967295 /\
  SEG_ASM (STA_X + STA_R) 0 4294967295 = le_bytes 8 (segdesc_word (SEG (STA_X + STA_R) 0 4294967295 0)).
Proof.
  destruct (seg_describes (STA_X + STA_R) 0 4294967295 0) as (H1 & H2 & _ & _ & _ & _ & _ & _ & _ & H3);
    [lia|lia|by vm_compute|lia|]. split; [exact H1|]. split; [exact H2|exact H3].
Defined.

Lemma address_parts_witness :
  PGADDR (PDX 3735928559) (PTX 3735928559) (PTE_FLAGS 3735928559) = 3735928559 /\ PGROUNDUP (2 ^ 64 - 1) = 0.
Proof.
  destruct (address_parts 3735928559 0 (2 ^ 64 - 1)) as (H1 & _ & _ & _ & _ & _ & _ & _ & H2); [lia|lia|lia|].
  split; [exact H1|]. apply H2. reflexivity.
Defined.

Lemma setgate_gate_witness :
  let g := gatedesc_of (gatedesc_word (SETGATE true 8 1052688 3)) in gd_cs g = 8 /\ gd_type g = STS_TG32.
Proof.
  destruct (setgate_gate true 8 1052688 3) as (_ & H1 & _ & _ & _ & H2); [lia|lia|lia|].
  split; [exact H1|]. by apply H2.
Defined.
