(* ===== verification/Cpu.v ===== *)
(** * The processor's modes: include/processor.h

    The control registers, the flags, the model-specific registers and the
    instructions of processor.h that read and write them. [None] is a general
    protection fault. When an instruction faults, and what the writes change
    besides their register, follows the Intel SDM: volume 2 for [mov] to a
    control register and [wrmsr], volume 3, chapters 2 and 10, for the modes.

    The invariant [modes_ok] ties the registers together: paging needs
    protection, long mode is active exactly when it is enabled and paging is
    on, and needs PAE. With it the functions are shown to be a file of
    registers. *)

From stdpp Require Import base gmap list numbers strings.
From Stdlib Require Import ZArith Lia.
From S2P Require Import Prelude Mem Segment.

#[local] Open Scope Z_scope.

(** ** Registers *)

(** [seg_d] and [seg_l] are the bits of the code segment's descriptor that
    the processor keeps with the selector [seg_cs]; [sregs] are the selectors
    of DS, ES, FS, GS and SS. *)
Record x86 := mkX86 {
  rax : Z;
  rbx : Z;
  rcx : Z;
  rdx : Z;
  rsp : Z;
  rsi : Z;
  rdi : Z;
  cr0 : Z;
  cr2 : Z;
  cr3 : Z;
  cr4 : Z;
  cr8 : Z;
  eflags : Z;
  msrs : gmap Z Z;
  seg_cs : Z;
  seg_d : bool;
  seg_l : bool;
  sregs : list Z;
  gdtr : Z * Z;
}.

(** The general registers that the code names. *)
Inductive gpr := RAX | RBX | RCX | RDX | RSP | RSI | RDI.

Definition get_reg (c : x86) (r : gpr) : Z :=
  match r with
  | RAX => rax c | RBX => rbx c | RCX => rcx c | RDX => rdx c | RSP => rsp c | RSI => rsi c | RDI => rdi c
  end.

Definition set_reg (c : x86) (r : gpr) (v : Z) : x86 :=
  let on r' old := match r, r' with
                   | RAX, RAX | RBX, RBX | RCX, RCX | RDX, RDX | RSP, RSP | RSI, RSI | RDI, RDI => v
                   | _, _ => old
                   end in
  mkX86 (on RAX (rax c)) (on RBX (rbx c)) (on RCX (rcx c)) (on RDX (rdx c)) (on RSP (rsp c)) (on RSI (rsi c))
    (on RDI (rdi c)) (cr0 c) (cr2 c) (cr3 c) (cr4 c) (cr8 c) (eflags c) (msrs c) (seg_cs c) (seg_d c) (seg_l c)
    (sregs c) (gdtr c).

Definition set_crs (c : x86) (v0 v2 v3 v4 v8 : Z) : x86 :=
  mkX86 (rax c) (rbx c) (rcx c) (rdx c) (rsp c) (rsi c) (rdi c) v0 v2 v3 v4 v8 (eflags c) (msrs c) (seg_cs c)
    (seg_d c) (seg_l c) (sregs c) (gdtr c).
Definition set_eflags (c : x86) (v : Z) : x86 :=
  mkX86 (rax c) (rbx c) (rcx c) (rdx c) (rsp c) (rsi c) (rdi c) (cr0 c) (cr2 c) (cr3 c) (cr4 c) (cr8 c) v (msrs c)
    (seg_cs c) (seg_d c) (seg_l c) (sregs c) (gdtr c).
Definition set_msrs (c : x86) (v : gmap Z Z) : x86 :=
  mkX86 (rax c) (rbx c) (rcx c) (rdx c) (rsp c) (rsi c) (rdi c) (cr0 c) (cr2 c) (cr3 c) (cr4 c) (cr8 c) (eflags c) v
    (seg_cs c) (seg_d c) (seg_l c) (sregs c) (gdtr c).
Definition set_code (c : x86) (sel : Z) (d l : bool) : x86 :=
  mkX86 (rax c) (rbx c) (rcx c) (rdx c) (rsp c) (rsi c) (rdi c) (cr0 c) (cr2 c) (cr3 c) (cr4 c) (cr8 c) (eflags c)
    (msrs c) sel d l (sregs c) (gdtr c).
Definition set_sregs (c : x86) (v : list Z) : x86 :=
  mkX86 (rax c) (rbx c) (rcx c) (rdx c) (rsp c) (rsi c) (rdi c) (cr0 c) (cr2 c) (cr3 c) (cr4 c) (cr8 c) (eflags c)
    (msrs c) (seg_cs c) (seg_d c) (seg_l c) v (gdtr c).
Definition set_gdtr (c : x86) (v : Z * Z) : x86 :=
  mkX86 (rax c) (rbx c) (rcx c) (rdx c) (rsp c) (rsi c) (rdi c) (cr0 c) (cr2 c) (cr3 c) (cr4 c) (cr8 c) (eflags c)
    (msrs c) (seg_cs c) (seg_d c) (seg_l c) (sregs c) v.

(** Computes the fields of an updated processor. *)
Ltac xfields :=
  cbn [get_reg set_reg set_crs set_eflags set_msrs set_code set_sregs set_gdtr rax rbx rcx rdx rsp rsi rdi cr0 cr2 cr3 cr4
       cr8 eflags msrs seg_cs seg_d seg_l sregs gdtr].

Ltac xfields_in H :=
  cbn [get_reg set_reg set_crs set_eflags set_msrs set_code set_sregs set_gdtr rax rbx rcx rdx rsp rsi rdi cr0 cr2 cr3 cr4
       cr8 eflags msrs seg_cs seg_d seg_l sregs gdtr] in H.

(** ** Bits *)

Definition CR0_PE : Z := 0.
Definition CR0_ET : Z := 4.
Definition CR0_NW : Z := 29.
Definition CR0_CD : Z := 30.
Definition CR0_PG : Z := 31.
Definition CR4_PAE : Z := 5.
Definition MSR_EFER : Z := 0xc0000080.
Definition EFER_SCE : Z := 0.
Definition EFER_LME : Z := 8.
Definition EFER_LMA : Z := 10.
Definition EFER_NX : Z := 11.
Definition IF_BIT : Z := 9.

Definition bit (v n : Z) : bool := Z.testbit v n.
Definition put (v n : Z) (b : bool) : Z := if b then Z.setbit v n else Z.clearbit v n.

Definition efer (c : x86) : Z := default 0 (msrs c !! MSR_EFER).
Definition paging (c : x86) : bool := bit (cr0 c) CR0_PG.
Definition long_active (c : x86) : bool := bit (efer c) EFER_LMA.

(** The size of the instructions that the processor decodes. *)
Definition code_size (c : x86) : seg_size :=
  if long_active c && seg_l c then Size64 else if seg_d c then Size32 else Size16.

(** ** The instructions *)

Section Cpu.

(** The bits of CR4 that the processor has, of those without conditions of
    their own. *)
Context (cr4_bits : Z).

(** ET reads as one. Turning paging on or off sets LMA to LME or to 0. *)
Definition write_cr0 (c : x86) (v : Z) : option x86 :=
  let pg := bit v CR0_PG in
  if negb (Z.shiftr v 32 =? 0) then None
  else if pg && negb (bit v CR0_PE) then None
  else if bit v CR0_NW && negb (bit v CR0_CD) then None
  else if pg && bit (efer c) EFER_LME && negb (bit (cr4 c) CR4_PAE) then None
  else if pg && negb (paging c) && bit (efer c) EFER_LME && seg_l c then None
  else if negb pg && long_active c && seg_l c then None
  else
    let c := set_msrs c (<[MSR_EFER := put (efer c) EFER_LMA (pg && bit (efer c) EFER_LME)]> (msrs c)) in
    Some (set_crs c (Z.setbit v CR0_ET) (cr2 c) (cr3 c) (cr4 c) (cr8 c)).
Definition read_cr0 (c : x86) : Z := cr0 c.

Definition write_cr2 (c : x86) (v : Z) : option x86 := Some (set_crs c (cr0 c) v (cr3 c) (cr4 c) (cr8 c)).
Definition read_cr2 (c : x86) : Z := cr2 c.

(** The bits above the physical address size are reserved. *)
Definition write_cr3 (c : x86) (v : Z) : option x86 :=
  if negb (Z.shiftr v 52 =? 0) then None else Some (set_crs c (cr0 c) (cr2 c) v (cr4 c) (cr8 c)).
Definition read_cr3 (c : x86) : Z := cr3 c.

Definition write_cr4 (c : x86) (v : Z) : option x86 :=
  if negb (Z.land v (Z.lnot cr4_bits) =? 0) then None
  else if long_active c && negb (bit v CR4_PAE) then None
  else Some (set_crs c (cr0 c) (cr2 c) (cr3 c) v (cr8 c)).
Definition read_cr4 (c : x86) : Z := cr4 c.

Definition write_cr8 (c : x86) (v : Z) : option x86 :=
  if negb (Z.shiftr v 4 =? 0) then None else Some (set_crs c (cr0 c) (cr2 c) (cr3 c) (cr4 c) v).
Definition read_cr8 (c : x86) : Z := cr8 c.

(** The instructions [rdmsr] and [wrmsr]: EDX:EAX and the register of index
    ECX. LME does not change while paging is on, LMA is not changed by a
    write, and a bit of EFER that does not exist faults. *)
Definition efer_bits : Z := 2 ^ EFER_SCE + 2 ^ EFER_LME + 2 ^ EFER_LMA + 2 ^ EFER_NX.

Definition rdmsr_ins (c : x86) : x86 :=
  let v := default 0 (msrs c !! u32 (rcx c)) in
  set_reg (set_reg c RAX (u32 v)) RDX (u32 (Z.shiftr v 32)).

Definition wrmsr_ins (c : x86) : option x86 :=
  let v := Z.lor (u32 (rax c)) (Z.shiftl (u32 (rdx c)) 32) in
  if u32 (rcx c) =? MSR_EFER then
    if negb (Z.land v (Z.lnot efer_bits) =? 0) then None
    else if paging c && negb (Bool.eqb (bit v EFER_LME) (bit (efer c) EFER_LME)) then None
    else Some (set_msrs c (<[MSR_EFER := put v EFER_LMA (long_active c)]> (msrs c)))
  else Some (set_msrs c (<[u32 (rcx c) := v]> (msrs c))).

(** The functions around them. *)
Definition rdmsr (c : x86) (index : Z) : x86 * Z :=
  let c := rdmsr_ins (set_reg c RCX (u32 index)) in
  (c, Z.lor (rax c) (u64 (Z.shiftl (rdx c) 32))).

Definition wrmsr (c : x86) (index val : Z) : option x86 :=
  let a := u32 val in
  let d := u32 (Z.shiftr val 32) in
  wrmsr_ins (set_reg (set_reg (set_reg c RAX a) RDX d) RCX (u32 index)).

Definition read_cs (c : x86) : Z := u16 (seg_cs c).

Definition pause (c : x86) : x86 := c.
Definition cli (c : x86) : x86 := set_eflags c (put (eflags c) IF_BIT false).
Definition sti (c : x86) : x86 := set_eflags c (put (eflags c) IF_BIT true).
Definition readeflags (c : x86) : Z := eflags c.

(** [xchg] locks the bus: the old word, and the memory with the new one. *)
Definition xchg (m : mem) (addr newval : Z) : res (mem * Z) :=
  result ← load32 m addr;
  m ← store32 m addr (u32 newval);
  Ok (m, result).

(** ** Sequences of them *)

Inductive cpu_op :=
  | OpWriteCr0 (v : Z) | OpWriteCr2 (v : Z) | OpWriteCr3 (v : Z) | OpWriteCr4 (v : Z) | OpWriteCr8 (v : Z) | OpWrmsr (i v : Z)
  | OpReadCr0 | OpReadCr2 | OpReadCr3 | OpReadCr4 | OpReadCr8 | OpRdmsr (i : Z)
  | OpReadCs | OpReadeflags | OpPause | OpCli | OpSti.

(** The processor after a function, and what it returns. *)
Definition do_op (c : x86) (o : cpu_op) : option (x86 * list Z) :=
  let wrote r := (fun c => (c, [])) <$> r in
  match o with
  | OpWriteCr0 v => wrote (write_cr0 c v)
  | OpWriteCr2 v => wrote (write_cr2 c v)
  | OpWriteCr3 v => wrote (write_cr3 c v)
  | OpWriteCr4 v => wrote (write_cr4 c v)
  | OpWriteCr8 v => wrote (write_cr8 c v)
  | OpWrmsr i v => wrote (wrmsr c i v)
  | OpReadCr0 => Some (c, [read_cr0 c])
  | OpReadCr2 => Some (c, [read_cr2 c])
  | OpReadCr3 => Some (c, [read_cr3 c])
  | OpReadCr4 => Some (c, [read_cr4 c])
  | OpReadCr8 => Some (c, [read_cr8 c])
  | OpRdmsr i => let '(c, v) := rdmsr c i in Some (c, [v])
  | OpReadCs => Some (c, [read_cs c])
  | OpReadeflags => Some (c, [readeflags c])
  | OpPause => Some (pause c, [])
  | OpCli => Some (cli c, [])
  | OpSti => Some (sti c, [])
  end.

Fixpoint do_ops (c : x86) (os : list cpu_op) : option (x86 * list Z) :=
  match os with
  | [] => Some (c, [])
  | o :: os' =>
      '(c, l) ← do_op c o;
      '(c, l') ← do_ops c os';
      Some (c, l ++ l')
  end.

End Cpu.

(** ** What they promise: a file of registers *)

Inductive regname := CR0 | CR2 | CR3 | CR4 | CR8 | MSR (i : Z) | FLAGS | CS.

#[export] Instance regname_eq_dec : EqDecision regname.
Proof. solve_decision. Defined.

(** What was last written to each register. *)
Definition regfile : Type := regname -> Z.

Definition upd (s : regfile) (r : regname) (v : Z) : regfile := fun r' => if decide (r' = r) then v else s r'.

(** A register reads as it was written, but for the bit LMA of EFER, which
    tells whether long mode is enabled and paging is on. *)
Definition view (s : regfile) (r : regname) : Z :=
  match r with
  | MSR i => if i =? MSR_EFER then put (s r) EFER_LMA (bit (s CR0) CR0_PG && bit (s r) EFER_LME) else s r
  | CS => u16 (s CS)
  | _ => s r
  end.

Definition file_op (s : regfile) (o : cpu_op) : regfile * list Z :=
  match o with
  | OpWriteCr0 v => (upd s CR0 (Z.setbit v CR0_ET), [])
  | OpWriteCr2 v => (upd s CR2 v, [])
  | OpWriteCr3 v => (upd s CR3 v, [])
  | OpWriteCr4 v => (upd s CR4 v, [])
  | OpWriteCr8 v => (upd s CR8 v, [])
  | OpWrmsr i v => (upd s (MSR (u32 i)) (u64 v), [])
  | OpReadCr0 => (s, [view s CR0])
  | OpReadCr2 => (s, [view s CR2])
  | OpReadCr3 => (s, [view s CR3])
  | OpReadCr4 => (s, [view s CR4])
  | OpReadCr8 => (s, [view s CR8])
  | OpRdmsr i => (s, [view s (MSR (u32 i))])
  | OpReadCs => (s, [view s CS])
  | OpReadeflags => (s, [view s FLAGS])
  | OpPause => (s, [])
  | OpCli => (upd s FLAGS (put (s FLAGS) IF_BIT false), [])
  | OpSti => (upd s FLAGS (put (s FLAGS) IF_BIT true), [])
  end.

Fixpoint file_ops (s : regfile) (os : list cpu_op) : list Z :=
  match os with
  | [] => []
  | o :: os' => let '(s, l) := file_op s o in l ++ file_ops s os'
  end.

(** What no processor refuses: the reads, and the writes of CR2, of the
    interrupt flag and of a model-specific register other than EFER. *)
Definition harmless (o : cpu_op) : bool :=
  match o with
  | OpWriteCr0 _ | OpWriteCr3 _ | OpWriteCr4 _ | OpWriteCr8 _ => false
  | OpWrmsr i _ => negb (u32 i =? MSR_EFER)
  | _ => true
  end.

(** The registers of a processor. *)
Definition regs_of (c : x86) : regfile := fun r =>
  match r with
  | CR0 => cr0 c | CR2 => cr2 c | CR3 => cr3 c | CR4 => cr4 c | CR8 => cr8 c
  | MSR i => default 0 (msrs c !! i)
  | FLAGS => eflags c
  | CS => seg_cs c
  end.

(** ** The invariant *)

Record modes_ok (c : x86) : Prop := {
  mo_paging : paging c = true -> bit (cr0 c) CR0_PE = true;
  mo_active : long_active c = paging c && bit (efer c) EFER_LME;
  mo_pae : long_active c = true -> bit (cr4 c) CR4_PAE = true;
}.

Lemma bit_put v n b : 0 <= n -> bit (put v n b) n = b.
Proof. intros Hn. unfold bit, put. destruct b; [by apply Z.setbit_eq|by apply Z.clearbit_eq]. Qed.

Lemma bit_put_ne v n k b : 0 <= n -> 0 <= k -> n <> k -> bit (put v n b) k = bit v k.
Proof. intros Hn Hk Hne. unfold bit, put. destruct b; [by apply Z.setbit_neq|by apply Z.clearbit_neq]. Qed.

Lemma efer_set c v : efer (set_msrs c (<[MSR_EFER := v]> (msrs c))) = v.
Proof. unfold efer. xfields. by rewrite lookup_insert_eq. Qed.

(** Discards the faults of an instruction that succeeded. *)
Ltac no_fault H :=
  repeat match type of H with
  | (if ?b then None else _) = Some _ => let E := fresh "E" in destruct b eqn:E; [discriminate H|]
  end.

Lemma write_cr0_modes c v c' : modes_ok c -> write_cr0 c v = Some c' -> modes_ok c'.
Proof.
  intros Hc H. unfold write_cr0 in H. cbv zeta in H. no_fault H. injection H as <-.
  match goal with |- modes_ok (set_crs ?c1 _ _ _ _ _) => assert (He : efer c1 = put (efer c) EFER_LMA
    (bit v CR0_PG && bit (efer c) EFER_LME)) by apply efer_set end.
  assert (Hpg : bit (Z.setbit v CR0_ET) CR0_PG = bit v CR0_PG) by (by apply Z.setbit_neq).
  assert (Hpe : bit (Z.setbit v CR0_ET) CR0_PE = bit v CR0_PE) by (by apply Z.setbit_neq).
  split; unfold paging, long_active, efer in *; xfields; rewrite ?Hpg, ?Hpe; xfields_in He; rewrite ?He.
  - intros Hp. rewrite Hp in E0. by destruct (bit v CR0_PE).
  - rewrite bit_put, bit_put_ne by done. reflexivity.
  - rewrite bit_put by done. intros [Hp Hl]%andb_true_iff. rewrite Hp, Hl in E2. by destruct (bit (cr4 c) CR4_PAE).
Qed.

Lemma write_cr4_modes bits c v c' : modes_ok c -> write_cr4 bits c v = Some c' -> modes_ok c'.
Proof.
  intros [H1 H2 H3] H. unfold write_cr4 in H. no_fault H. injection H as <-. split; [done|done|].
  intros Hl. change (long_active c = true) in Hl. xfields. rewrite Hl in E0. by destruct (bit v CR4_PAE).
Qed.

Lemma set_reg_modes c r v : modes_ok c -> modes_ok (set_reg c r v).
Proof. by intros [H1 H2 H3]. Qed.

Lemma wrmsr_ins_modes c c' : modes_ok c -> wrmsr_ins c = Some c' -> modes_ok c'.
Proof.
  intros [H1 H2 H3] H. unfold wrmsr_ins in H. cbv zeta in H. destruct (Z.eqb_spec (u32 (rcx c)) MSR_EFER) as [Ei|Ei].
  - no_fault H. injection H as <-. set (w := Z.lor _ _) in *. pose proof (efer_set c (put w EFER_LMA (long_active c))) as He.
    split; unfold long_active at 1; rewrite ?He; [done| |].
    + rewrite bit_put, bit_put_ne by done. change (long_active c = paging c && bit w EFER_LME). rewrite H2.
      destruct (paging c); [|done]. cbn [andb] in *. by apply negb_false_iff, eqb_prop in E0.
    + rewrite bit_put by done. exact H3.
  - injection H as <-. split; unfold paging, long_active, efer in *; xfields; rewrite ?lookup_insert_ne by done; done.
Qed.

Lemma wrmsr_modes c i v c' : modes_ok c -> wrmsr c i v = Some c' -> modes_ok c'.
Proof. intros Hc. apply wrmsr_ins_modes. by do 3 apply set_reg_modes. Qed.

(** *** The file of registers *)

Ltac known := match goal with |- context [default 0 (Some ?x)] => change (default 0 (Some x)) with x end.

Lemma put_same v n : 0 <= n -> put v n (bit v n) = v.
Proof.
  intros Hn. unfold put, bit. apply Z.bits_inj'. intros k Hk. destruct (Z.testbit v n) eqn:E; destruct (Z.eq_dec k n) as [->|Hne].
  - by rewrite Z.setbit_eq.
  - by rewrite Z.setbit_neq.
  - by rewrite Z.clearbit_eq.
  - by rewrite Z.clearbit_neq by done.
Qed.

Lemma put_put v n a b : 0 <= n -> put (put v n a) n b = put v n b.
Proof.
  intros Hn. apply Z.bits_inj'. intros k Hk. change (bit (put (put v n a) n b) k = bit (put v n b) k).
  destruct (Z.eq_dec n k) as [<-|Hne]; [by rewrite !bit_put|]. by rewrite !bit_put_ne.
Qed.

Lemma put_range v n b : 0 <= v < 2 ^ 64 -> 0 <= n < 64 -> 0 <= put v n b < 2 ^ 64.
Proof.
  intros Hv Hn. assert (H0 : 0 <= put v n b).
  { unfold put. destruct b; [apply Z.lor_nonneg; split; [lia|]|apply Z.ldiff_nonneg; left; lia].
    apply Z.shiftl_nonneg. lia. }
  split; [done|]. destruct (Z.eq_dec (put v n b) 0) as [->|Hne]; [lia|]. apply Z.log2_lt_pow2; [lia|].
  assert (Hl : forall k, 64 <= k -> Z.testbit (put v n b) k = false).
  { intros k Hk. change (bit (put v n b) k = false). rewrite bit_put_ne by lia. unfold bit.
    rewrite <- (Z.mod_small v (2 ^ 64)) by lia. apply Z.mod_pow2_bits_high. lia. }
  destruct (Z.lt_ge_cases (Z.log2 (put v n b)) 64) as [|Hge]; [done|]. pose proof (Z.bit_log2 (put v n b) ltac:(lia)) as Hb.
  by rewrite Hl in Hb.
Qed.

(** The two halves of a register's value. *)
Lemma halves_lor v : 0 <= v < 2 ^ 64 -> Z.lor (u32 v) (Z.shiftl (u32 (Z.shiftr v 32)) 32) = v.
Proof.
  intros Hv. rewrite Z.shiftl_mul_pow2, Z.shiftr_div_pow2, Z.lor_comm by lia.
  rewrite (lor_disjoint _ (u32 v) 32) by mach. mach.
Qed.

Lemma halves_u64 v : Z.lor (u32 v) (Z.shiftl (u32 (Z.shiftr v 32)) 32) = u64 v.
Proof.
  rewrite <- (halves_lor (u64 v)) by mach. f_equal; [mach|]. f_equal. rewrite !Z.shiftr_div_pow2 by lia. mach.
Qed.

(** What [rdmsr] returns. *)
Lemma rdmsr_value c i v :
  default 0 (msrs c !! u32 i) = v -> 0 <= v < 2 ^ 64 -> (rdmsr c i).2 = v.
Proof.
  intros Hv Hr. unfold rdmsr, rdmsr_ins. cbn [snd]. xfields. rewrite (u32_small (u32 i)) by mach. rewrite Hv.
  rewrite (u64_small (Z.shiftl _ _)); [by apply halves_lor|]. rewrite Z.shiftl_mul_pow2 by lia. mach.
Qed.

(** The processor [c] holds the file [s]. *)
Record file_in (c : x86) (s : regfile) : Prop := {
  fi_modes : modes_ok c;
  fi_range : forall i, 0 <= default 0 (msrs c !! i) < 2 ^ 64;
  fi_crs : cr0 c = s CR0 /\ cr2 c = s CR2 /\ cr3 c = s CR3 /\ cr4 c = s CR4 /\ cr8 c = s CR8;
  fi_msrs : forall i, default 0 (msrs c !! i) = view s (MSR i);
  fi_flags : eflags c = s FLAGS;
  fi_cs : seg_cs c = s CS;
}.

Lemma file_start c : modes_ok c -> (forall i, 0 <= default 0 (msrs c !! i) < 2 ^ 64) -> file_in c (regs_of c).
Proof.
  intros Hm Hr. split; try done. intros i. cbn [view regs_of]. destruct (Z.eqb_spec i MSR_EFER) as [->|]; [|done].
  change (efer c = put (efer c) EFER_LMA (paging c && bit (efer c) EFER_LME)). rewrite <- (mo_active _ Hm).
  symmetry. by apply put_same.
Qed.

(** EFER as it was last written. *)
Lemma file_efer c s : file_in c s ->
  efer c = put (s (MSR MSR_EFER)) EFER_LMA (paging c && bit (s (MSR MSR_EFER)) EFER_LME) /\
  bit (efer c) EFER_LME = bit (s (MSR MSR_EFER)) EFER_LME.
Proof.
  intros H. assert (E : efer c = put (s (MSR MSR_EFER)) EFER_LMA (paging c && bit (s (MSR MSR_EFER)) EFER_LME)).
  { unfold efer, paging. rewrite (fi_msrs _ _ H MSR_EFER). cbn [view]. rewrite Z.eqb_refl.
    by rewrite (proj1 (fi_crs _ _ H)). }
  split; [exact E|]. rewrite E. by apply bit_put_ne.
Qed.

Lemma file_write_cr0 c s v c' : file_in c s -> write_cr0 c v = Some c' -> file_in c' (upd s CR0 (Z.setbit v CR0_ET)).
Proof.
  intros Hi H. pose proof (write_cr0_modes _ _ _ (fi_modes _ _ Hi) H) as Hm. destruct (file_efer _ _ Hi) as [He Hl].
  unfold write_cr0 in H. cbv zeta in H. no_fault H. apply (inj Some) in H. subst c'.
  destruct Hi as [_ Hr (R0 & R2 & R3 & R4 & R8) Hs Hf Hc].
  assert (Hpg : bit (Z.setbit v CR0_ET) CR0_PG = bit v CR0_PG) by (by apply Z.setbit_neq).
  split; [exact Hm| |by unfold upd|intros i|done|done]; xfields.
  - intros i. destruct (Z.eq_dec i MSR_EFER) as [->|Hne]; [|by rewrite lookup_insert_ne].
    rewrite lookup_insert_eq. known. apply put_range; [apply Hr|by vm_compute].
  - cbn [view]. unfold upd. rewrite !decide_False by done. rewrite decide_True by done.
    destruct (Z.eqb_spec i MSR_EFER) as [->|Hne]; [|rewrite lookup_insert_ne by done; rewrite Hs; cbn [view];
      by rewrite (proj2 (Z.eqb_neq _ _) Hne)].
    rewrite lookup_insert_eq, Hpg. known. rewrite Hl, He. by rewrite put_put.
Qed.

Lemma file_wrmsr c s i v c' : file_in c s -> wrmsr c i v = Some c' -> file_in c' (upd s (MSR (u32 i)) (u64 v)).
Proof.
  intros Hi H. pose proof (wrmsr_modes _ _ _ _ (fi_modes _ _ Hi) H) as Hm. pose proof (file_efer _ _ Hi) as [He Hl].
  pose proof (mo_active _ (fi_modes _ _ Hi)) as Ha. destruct Hi as [_ Hr (R0 & R2 & R3 & R4 & R8) Hs Hf Hc].
  unfold wrmsr, wrmsr_ins in H. cbv zeta in H. xfields_in H.
  assert (Hu : forall x, u32 (u32 x) = u32 x) by (intros; mach). rewrite !Hu, halves_u64 in H.
  assert (Hw : 0 <= u64 v < 2 ^ 64) by mach. change (2 ^ 64) with 18446744073709551616 in Hw.
  destruct (Z.eqb_spec (u32 i) MSR_EFER) as [Ei|Ei].
  - no_fault H. apply (inj Some) in H. subst c'. split; [exact Hm| |by unfold upd|intros k|done|done]; xfields.
    + intros k. destruct (Z.eq_dec k MSR_EFER) as [->|Hne]; [|by rewrite lookup_insert_ne].
      rewrite lookup_insert_eq. known. apply put_range; [exact Hw|by vm_compute].
    + cbn [view]. unfold upd. rewrite (decide_False (P := CR0 = _)) by done. rewrite Ei.
      destruct (Z.eqb_spec k MSR_EFER) as [->|Hne].
      * rewrite lookup_insert_eq, decide_True by done. known. f_equal.
        change (long_active c = bit (s CR0) CR0_PG && bit (u64 v) EFER_LME). rewrite <- R0.
        change (bit (cr0 c) CR0_PG) with (paging c). rewrite Ha.
        change (efer _) with (efer c) in E0. change (paging _) with (paging c) in E0. destruct (paging c); [|done]. cbn [andb negb] in *.
        by apply negb_false_iff, eqb_prop in E0.
      * rewrite lookup_insert_ne, decide_False by congruence. rewrite Hs. cbn [view]. by rewrite (proj2 (Z.eqb_neq _ _) Hne).
  - apply (inj Some) in H. subst c'. split; [exact Hm| |by unfold upd|intros k|done|done]; xfields.
    + intros k. destruct (Z.eq_dec k (u32 i)) as [->|Hne]; [|by rewrite lookup_insert_ne by congruence].
      rewrite lookup_insert_eq. exact Hw.
    + cbn [view]. unfold upd. rewrite (decide_False (P := CR0 = _)) by done.
      destruct (Z.eq_dec k (u32 i)) as [->|Hne].
      * by rewrite lookup_insert_eq, decide_True, (proj2 (Z.eqb_neq _ _) Ei).
      * rewrite lookup_insert_ne, decide_False by congruence. exact (Hs k).
Qed.

(** A write of a register that the modes do not depend on. *)
Lemma file_other c s r v c' :
  file_in c s -> modes_ok c' -> msrs c' = msrs c -> r <> CR0 -> (forall i, r <> MSR i) ->
  cr0 c' = cr0 c -> cr2 c' = upd s r v CR2 -> cr3 c' = upd s r v CR3 -> cr4 c' = upd s r v CR4 -> cr8 c' = upd s r v CR8 ->
  eflags c' = upd s r v FLAGS -> seg_cs c' = upd s r v CS -> file_in c' (upd s r v).
Proof.
  intros [_ Hr (R0 & _) Hs _ _] Hm Em H0 HM E0 E2 E3 E4 E8 Ef Ec.
  assert (U0 : upd s r v CR0 = s CR0) by (unfold upd; rewrite decide_False by congruence; done).
  split; rewrite ?Em; try done.
  - rewrite E0, U0. done.
  - intros i. rewrite Hs. cbn [view]. rewrite U0. unfold upd.
    rewrite !(decide_False (P := MSR i = r)) by (intros E; symmetry in E; by apply HM in E). done.
Qed.

Lemma file_step bits c s o c' l :
  file_in c s -> do_op bits c o = Some (c', l) -> file_in c' (file_op s o).1 /\ l = (file_op s o).2.
Proof.
  intros Hi H. pose proof (fi_modes _ _ Hi) as Hm. pose proof (fi_crs _ _ Hi) as (R0 & R2 & R3 & R4 & R8).
  pose proof (fi_flags _ _ Hi) as Hf. pose proof (fi_cs _ _ Hi) as Hc.
  destruct o as [v|v|v|v|v|i v| | | | | |i| | | | |]; cbn [do_op file_op fst snd] in *;
    try (injection H as <- <-; split; [exact Hi|cbn [view]; unfold read_cr0, read_cr2, read_cr3, read_cr4, read_cr8, read_cs, readeflags;
      congruence]);
    try (apply fmap_Some in H as (c1 & H & [= -> ->]); split; [|reflexivity]).
  - by eapply file_write_cr0.
  - injection H as <-. apply (file_other c); try done; by destruct Hm.
  - unfold write_cr3 in H. no_fault H. injection H as <-. apply (file_other c); try done; by destruct Hm.
  - pose proof (write_cr4_modes _ _ _ _ Hm H) as Hm'. unfold write_cr4 in H. no_fault H. injection H as <-. by apply (file_other c).
  - unfold write_cr8 in H. no_fault H. injection H as <-. apply (file_other c); try done; by destruct Hm.
  - by eapply file_wrmsr.
  - pose proof (rdmsr_value c i _ (fi_msrs _ _ Hi (u32 i)) ltac:(rewrite <- (fi_msrs _ _ Hi); apply Hi)) as Hw.
    assert (Hk : file_in (rdmsr c i).1 s) by (destruct Hi as [[M1 M2 M3] F1 F2 F3 F4 F5]; by split).
    destruct (rdmsr c i) as [c1 w]. cbn [fst snd] in *. injection H as <- <-. by rewrite Hw.
  - injection H as <- <-. split; [|done]. apply (file_other c); try done; [by destruct Hm|]. unfold cli. xfields. by rewrite Hf.
  - injection H as <- <-. split; [|done]. apply (file_other c); try done; [by destruct Hm|]. unfold sti. xfields. by rewrite Hf.
Qed.

Lemma file_steps bits os : forall c c' log s,
  file_in c s -> do_ops bits c os = Some (c', log) -> log = file_ops s os.
Proof.
  induction os as [|o os IH]; intros c c' log s Hi H; cbn [do_ops file_ops] in *; [by injection H as _ <-|].
  destruct (do_op bits c o) as [[c1 l]|] eqn:E; [|done]. cbn [mbind option_bind] in H.
  destruct (do_ops bits c1 os) as [[c2 l2]|] eqn:E2; [|done]. injection H as _ <-.
  destruct (file_step bits c s o c1 l Hi E) as [H1 H2]. destruct (file_op s o) as [s1 l1]. cbn [fst snd] in *.
  by rewrite H2, (IH c1 c2 l2 s1 H1 E2).
Qed.

Lemma harmless_runs bits c o : harmless o = true -> is_Some (do_op bits c o).
Proof.
  destruct o as [| | | | |i v| | | | | |i| | | | |]; intros H; try discriminate H; try by eexists.
  cbn [harmless do_op] in *. unfold wrmsr, wrmsr_ins. cbv zeta. xfields.
  replace (u32 (u32 i)) with (u32 i) by mach. apply negb_true_iff in H. rewrite H. by eexists.
Qed.

Lemma harmless_all bits os : forall c, Forall (fun o => harmless o = true) os -> is_Some (do_ops bits c os).
Proof.
  induction os as [|o os IH]; intros c H; [by eexists|]. apply Forall_cons in H as [Ho H]. cbn [do_ops].
  destruct (harmless_runs bits c o Ho) as [[c1 l] ->]. cbn [mbind option_bind].
  destruct (IH c1 H) as [[c2 l2] ->]. by eexists.
Qed.

(** ** Claims *)


(** ** Witnesses *)

Definition demo_x86 : x86 := mkX86 0 0 0 0 0 0 0 17 0 0 0 0 2 ∅ 8 true false [16; 16; 16; 16; 16] (0, 0).

(** Into long mode and back through the reads. *)
Definition demo_ops : list cpu_op :=
  [OpWriteCr4 32; OpWriteCr3 4096; OpWrmsr MSR_EFER 256; OpRdmsr MSR_EFER; OpWriteCr0 2147483649; OpSti; OpRdmsr MSR_EFER;
   OpWrmsr 27 0xfee00000900; OpReadCr0; OpReadCr3; OpReadCr4; OpRdmsr 27; OpReadeflags; OpReadCs].

