(* ===== verification/Tsc.v ===== *)
(** * The time stamp counter: include/rdtsc.h and host/rdtsc.h

    The macros with which the harness and the host program read the counter, as
    the instructions they consist of on the registers of Cpu. A macro leaves
    the counter in two halves, which its users put together again; the
    constraint "=A" of the other forms names RAX alone in 64-bit code, so that
    they return the low half. *)

From stdpp Require Import base gmap list numbers.
From Stdlib Require Import ZArith Lia.
From S2P Require Import Prelude Mem Segment Cpu.

#[local] Open Scope Z_scope.

(** ** Instructions *)

(** The two halves of a counter, and [((uint64_t)high << 32) | low]. *)
Definition tsc_low (t : Z) : Z := u32 t.
Definition tsc_high (t : Z) : Z := u32 (Z.shiftr t 32).
Definition cycles (high low : Z) : Z := Z.lor (u64 (Z.shiftl (u32 high) 32)) (u32 low).

(** The counter is [t], the register TSC_AUX is [aux], and [id] are the values
    that CPUID answers in EAX, EBX, ECX and EDX. *)
Definition rdtsc_ins (c : x86) (t : Z) : x86 := set_reg (set_reg c RAX (tsc_low t)) RDX (tsc_high t).
Definition rdtscp_ins (c : x86) (t aux : Z) : x86 := set_reg (rdtsc_ins c t) RCX (u32 aux).
Definition cpuid_ins (c : x86) (id : Z * Z * Z * Z) : x86 :=
  let '(a, b, cx, d) := id in set_reg (set_reg (set_reg (set_reg c RAX (u32 a)) RBX (u32 b)) RCX (u32 cx)) RDX (u32 d).

(** ** include/rdtsc.h *)

(** The outputs are in registers that the instructions do not write: the
    macros declare the four that they do as clobbered. A macro gives the
    registers after it, [low] and [high]. *)
Definition before (c : x86) (id : Z * Z * Z * Z) (t aux : Z) : x86 * Z * Z :=
  let c := cpuid_ins c id in
  let c := rdtscp_ins c t aux in
  let high := u32 (rdx c) in
  let low := u32 (rax c) in
  (c, low, high).

Definition after (c : x86) (id : Z * Z * Z * Z) (t aux : Z) : x86 * Z * Z :=
  let c := rdtscp_ins c t aux in
  let high := u32 (rdx c) in
  let low := u32 (rax c) in
  let c := cpuid_ins c id in
  (c, low, high).

Definition rdtsc (c : x86) (t : Z) : x86 * Z * Z :=
  let c := rdtsc_ins c t in (c, u32 (rax c), u32 (rdx c)).

Definition rdtscll (c : x86) (t : Z) : x86 * Z := let c := rdtsc_ins c t in (c, rax c).

(** ** host/rdtsc.h *)

Definition host_before (c : x86) (id : Z * Z * Z * Z) (t : Z) : x86 * Z * Z :=
  let c := cpuid_ins c id in
  let c := rdtsc_ins c t in
  let high := u32 (rdx c) in
  let low := u32 (rax c) in
  (c, low, high).

Definition host_rdtsc (c : x86) (t aux : Z) : x86 * Z * Z :=
  let c := rdtscp_ins c t aux in (c, u32 (rax c), u32 (rdx c)).

Definition host_rdtscll (c : x86) (t aux : Z) : x86 * Z := let c := rdtscp_ins c t aux in (c, rax c).

(** ** What they read *)

Lemma cycles_halves t : cycles (tsc_high t) (tsc_low t) = u64 t.
Proof.
  unfold cycles, tsc_high, tsc_low. rewrite Z.shiftl_mul_pow2, Z.shiftr_div_pow2 by lia.
  assert (H : forall h l, 0 <= h < 4294967296 -> 0 <= l < 4294967296 -> Z.lor (u64 (h * 2 ^ 32)) l = h * 4294967296 + l).
  { intros h l Hh Hl. change (2 ^ 32) with 4294967296. rewrite u64_small by (change (2 ^ 64) with 18446744073709551616; lia).
    apply (lor_disjoint _ _ 32); [|lia|done]. apply Z.mod_mul. lia. }
  rewrite H by mach. change (2 ^ 32) with 4294967296. unfold u64, u32. change (2 ^ 32) with 4294967296.
  change (2 ^ 64) with 18446744073709551616. Z.to_euclidean_division_equations. lia.
Qed.

Lemma halves_u32 t : u32 (tsc_low t) = tsc_low t /\ u32 (tsc_high t) = tsc_high t.
Proof. unfold tsc_low, tsc_high. split; mach. Qed.

(** Every macro with two outputs reads the whole counter, and the forms with
    "=A" its low half; CPUID, which orders them, does not touch the result. *)
Theorem macros_read_counter c id t aux :
  let whole (r : x86 * Z * Z) := cycles r.2 r.1.2 = u64 t in
  (whole (before c id t aux) /\ whole (after c id t aux) /\ whole (rdtsc c t) /\ whole (host_before c id t) /\
   whole (host_rdtsc c t aux)) /\ (rdtscll c t).2 = u32 t /\ (host_rdtscll c t aux).2 = u32 t.
Proof.
  destruct id as [[[a b] cx] d]. destruct (halves_u32 t) as [E1 E2]. cbv zeta. rewrite <- (cycles_halves t).
  split_and!; unfold before, after, rdtsc, host_before, host_rdtsc, rdtscll, host_rdtscll, rdtscp_ins, rdtsc_ins, cpuid_ins;
    cbn [fst snd]; xfields; rewrite ?E1, ?E2; reflexivity.
Qed.
