(* ===== verification/Atomic.v ===== *)
(** * include/atomic.h: atomic variables

    The operations on [atomic_t] and [atomic64_t] of both architectures that
    the header has, and its macros for the compiler's read-modify-write
    builtins, each as the instruction it is compiled to. An instruction that
    reads and writes memory does so in two accesses, between which other
    threads run unless it has the prefix [lock], which keeps the others off
    memory. A machine of several threads interleaves single accesses, in any
    order. *)

From stdpp Require Import base gmap list numbers strings.
From Stdlib Require Import ZArith Lia.
From S2P Require Import Prelude Mem.

#[local] Open Scope Z_scope.

(** ** Instructions *)

(** A load of [w] bytes with what the program makes of them, a store, and an
    instruction that replaces the word [x] by [f x] and whose result is
    [g x]. *)
Inductive instr :=
  | Load (w : nat) (ptr : Z) (g : Z -> Z)
  | Store (w : nat) (ptr v : Z)
  | Modify (locked : bool) (w : nat) (ptr : Z) (f : Z -> Z) (g : Z -> option Z).

(** ** The builtins *)

Inductive rmw := Add | Sub | And | Or | Xor.

#[export] Instance rmw_eq_dec : EqDecision rmw.
Proof. solve_decision. Defined.

Definition rmw_op (o : rmw) (x n : Z) : Z :=
  match o with
  | Add => x + n
  | Sub => x - n
  | And => Z.land x n
  | Or => Z.lor x n
  | Xor => Z.lxor x n
  end.

(** An operand of [w] bytes. *)
Definition cut (w : nat) (z : Z) : Z := z mod 256 ^ Z.of_nat w.

(** [__sync_fetch_and_<op>] returns the old value, [__sync_<op>_and_fetch] the
    new one, as unsigned numbers of [w] bytes. Both are documented to be
    atomic. *)
Definition sync_fetch_and (o : rmw) (w : nat) (ptr n : Z) : instr :=
  Modify true w ptr (fun x => cut w (rmw_op o x n)) (fun x => Some x).

Definition sync_and_fetch (o : rmw) (w : nat) (ptr n : Z) : instr :=
  Modify true w ptr (fun x => cut w (rmw_op o x n)) (fun x => Some (cut w (rmw_op o x n))).

(** ** The macros *)

Section Macros.

Context (w : nat) (ptr : Z).

Definition atomic_fetch_inc : instr := sync_fetch_and Add w ptr 1.
Definition atomic_fetch_dec : instr := sync_fetch_and Add w ptr (-1).
Definition atomic_fetch_add (n : Z) : instr := sync_fetch_and Add w ptr n.
Definition atomic_fetch_sub (n : Z) : instr := sync_fetch_and Sub w ptr n.
Definition atomic_fetch_and (n : Z) : instr := sync_fetch_and And w ptr n.
Definition atomic_fetch_or (n : Z) : instr := sync_fetch_and Or w ptr n.
Definition atomic_fetch_xor (n : Z) : instr := sync_fetch_and Xor w ptr n.

Definition atomic_inc_fetch : instr := sync_and_fetch Add w ptr 1.
Definition atomic_dec_fetch : instr := sync_and_fetch Add w ptr (-1).
Definition atomic_add_fetch (n : Z) : instr := sync_and_fetch Add w ptr n.
Definition atomic_sub_fetch (n : Z) : instr := sync_and_fetch Sub w ptr n.
Definition atomic_and_fetch (n : Z) : instr := sync_and_fetch And w ptr n.
Definition atomic_or_fetch (n : Z) : instr := sync_and_fetch Or w ptr n.
Definition atomic_xor_fetch (n : Z) : instr := sync_and_fetch Xor w ptr n.

End Macros.

(** ** [atomic_t] and [atomic64_t] *)

Definition atomic_read (v : Z) : instr := Load 4 v s32.
Definition atomic_set (v i : Z) : instr := Store 4 v (u32 i).

(** [lock incl] and [lock decl]. *)
Definition atomic_inc (v : Z) : instr := Modify true 4 v (fun x => u32 (x + 1)) (fun _ => None).
Definition atomic_dec (v : Z) : instr := Modify true 4 v (fun x => u32 (x - 1)) (fun _ => None).

Definition atomic64_read (v : Z) : instr := Load 8 v s64.

(** The version of the 32-bit build: EDX:EAX is compared with the quadword,
    which becomes ECX:EBX when it is equal; EDX:EAX is then the quadword. The
    registers EBX and ECX hold what they happen to. *)
Definition cmpxchg8b (m : mem) (ptr eax edx ebx ecx : Z) : res (mem * Z * Z) :=
  x ← load64 m ptr;
  if x =? eax + Z.shiftl edx 32 then
    m ← store64 m ptr (ebx + Z.shiftl ecx 32);
    Ok (m, eax, edx)
  else Ok (m, u32 x, u32 (Z.shiftr x 32)).

Definition atomic64_read_i386 (m : mem) (ptr ebx ecx : Z) : res (mem * Z) :=
  let eax := ebx in
  let edx := ecx in
  '(m, eax, edx) ← cmpxchg8b m ptr eax edx ebx ecx;
  Ok (m, eax + Z.shiftl edx 32).

(** ** Threads *)

(** What a thread does to a variable, an [int]: the functions and the macros. *)
Inductive aop :=
  | Read | Set_ (i : Z) | Inc | Dec
  | FetchInc | FetchDec | FetchAdd (n : Z) | FetchSub (n : Z) | FetchAnd (n : Z) | FetchOr (n : Z) | FetchXor (n : Z)
  | IncFetch | DecFetch | AddFetch (n : Z) | SubFetch (n : Z) | AndFetch (n : Z) | OrFetch (n : Z) | XorFetch (n : Z).

(** A thread is between two operations, or its next one has loaded the
    word. *)
Record thread := mkThread { t_loaded : option Z; t_todo : list aop }.

(** [a_bus] is the thread that keeps the others off memory. *)
Record amachine := mkAmachine { a_mem : mem; a_bus : option nat; a_threads : list thread }.

Section Threads.

(** The variable. *)
Context (v : Z).

Definition instr_of (o : aop) : instr :=
  match o with
  | Read => atomic_read v
  | Set_ i => atomic_set v i
  | Inc => atomic_inc v
  | Dec => atomic_dec v
  | FetchInc => atomic_fetch_inc 4 v
  | FetchDec => atomic_fetch_dec 4 v
  | FetchAdd n => atomic_fetch_add 4 v n
  | FetchSub n => atomic_fetch_sub 4 v n
  | FetchAnd n => atomic_fetch_and 4 v n
  | FetchOr n => atomic_fetch_or 4 v n
  | FetchXor n => atomic_fetch_xor 4 v n
  | IncFetch => atomic_inc_fetch 4 v
  | DecFetch => atomic_dec_fetch 4 v
  | AddFetch n => atomic_add_fetch 4 v n
  | SubFetch n => atomic_sub_fetch 4 v n
  | AndFetch n => atomic_and_fetch 4 v n
  | OrFetch n => atomic_or_fetch 4 v n
  | XorFetch n => atomic_xor_fetch 4 v n
  end.

(** One access of thread [i], with the operation that it ends and its result;
    a thread that is kept off memory, or has nothing to do, stays. *)
Definition astep (st : amachine) (i : nat) : res (amachine * list (aop * option Z)) :=
  match a_threads st !! i with
  | Some (mkThread loaded (o :: rest)) =>
      if decide (a_bus st = None \/ a_bus st = Some i) then
        let next := <[i := mkThread None rest]> (a_threads st) in
        match instr_of o, loaded with
        | Load w p g, _ =>
            x ← load_le w (a_mem st) p;
            Ok (mkAmachine (a_mem st) (a_bus st) next, [(o, Some (g x))])
        | Store w p x, _ =>
            m ← store_le w (a_mem st) p x;
            Ok (mkAmachine m (a_bus st) next, [(o, None)])
        | Modify locked w p _ _, None =>
            x ← load_le w (a_mem st) p;
            Ok (mkAmachine (a_mem st) (if locked then Some i else a_bus st)
                  (<[i := mkThread (Some x) (o :: rest)]> (a_threads st)), [])
        | Modify locked w p f g, Some x =>
            m ← store_le w (a_mem st) p (f x);
            Ok (mkAmachine m (if locked then None else a_bus st) next, [(o, s32 <$> g x)])
        end
      else Ok (st, [])
  | _ => Ok (st, [])
  end.

(** A schedule chooses threads; the log has the operations in the order in
    which they end. *)
Fixpoint arun (st : amachine) (xs : list nat) : res (amachine * list (aop * option Z)) :=
  match xs with
  | [] => Ok (st, [])
  | i :: xs' =>
      '(st, l) ← astep st i;
      '(st, log) ← arun st xs';
      Ok (st, l ++ log)
  end.

End Threads.

Definition astart (m : mem) (ths : list (list aop)) : amachine := mkAmachine m None (mkThread None <$> ths).

(** What is left to do. *)
Definition todo (st : amachine) : list aop := concat (t_todo <$> a_threads st).

(** What an operation that counts adds. *)
Definition delta (o : aop) : option Z :=
  match o with
  | Read => Some 0
  | Inc | FetchInc | IncFetch => Some 1
  | Dec | FetchDec | DecFetch => Some (-1)
  | FetchAdd n | AddFetch n => Some n
  | FetchSub n | SubFetch n => Some (- n)
  | _ => None
  end.

Definition deltas (os : list aop) : Z := foldr (fun o s => default 0 (delta o) + s) 0 os.
Definition counts (os : list aop) : Prop := Forall (fun o => is_Some (delta o)) os.

(** What it returns when the variable holds [x], in any representation. *)
Definition answer (o : aop) (x : Z) : option Z :=
  match o with
  | Read | FetchInc | FetchDec | FetchAdd _ | FetchSub _ => Some (s32 x)
  | IncFetch | DecFetch | AddFetch _ | SubFetch _ => Some (s32 (x + default 0 (delta o)))
  | _ => None
  end.

(** ** Proofs *)

Lemma s32_u32 x : s32 (u32 x) = s32 x.
Proof. mach. Qed.

Lemma s32_inj x a b : 0 <= a < 2 ^ 32 -> 0 <= b < 2 ^ 32 -> s32 (x + a) = s32 (x + b) -> a = b.
Proof. change (2 ^ 32) with 4294967296. mach. Qed.

Section Proofs.

Context (v : Z).

Lemma store_counter m x :
  mapped m v 4 -> exists m', store_le 4 m v (u32 x) = Ok m' /\ load_le 4 m' v = Ok (u32 x) /\
    (forall y, y < v \/ v + 4 <= y -> m' !! y = m !! y).
Proof.
  intros Hm. destruct (store_le_spec 4 m v (u32 x) Hm) as (m' & H1 & H2 & _ & H4). exists m'. split; [done|].
  split; [|done]. rewrite H2. f_equal. change (256 ^ Z.of_nat 4) with 4294967296. mach.
Qed.

(** An operation that counts only reads, or is a locked instruction that adds
    to the variable and returns what it should. *)
Lemma counting o d :
  delta o = Some d ->
  o = Read \/ exists f g, instr_of v o = Modify true 4 v f g /\
    forall x, f (u32 x) = u32 (x + d) /\ s32 <$> g (u32 x) = answer o x.
Proof.
  intros Hd. destruct o; try discriminate Hd; injection Hd as <-; [by left|right; eexists _, _; split; [reflexivity|]..];
    intros x; cbn [rmw_op answer delta fmap option_fmap option_map default from_option id];
    unfold cut; change (256 ^ Z.of_nat 4) with 4294967296; split; try reflexivity; try (f_equal; mach); mach.
Qed.

(** Between accesses: the variable holds [x]; the thread that has the bus, and
    no other, has loaded it, for an instruction that counts. *)
Record ainv (st : amachine) (x : Z) : Prop := {
  ai_value : load_le 4 (a_mem st) v = Ok (u32 x);
  ai_bus : forall i, a_bus st = Some i ->
    exists o rest, a_threads st !! i = Some (mkThread (Some (u32 x)) (o :: rest)) /\ o <> Read;
  ai_others : forall i t, a_threads st !! i = Some t -> a_bus st <> Some i -> t_loaded t = None;
}.

#[local] Instance deltas_perm : Proper (Permutation ==> eq) deltas.
Proof. intros l1 l2 H. unfold deltas. induction H; cbn [foldr]; lia. Qed.

(** What a thread does next, out of what all have left. *)
Lemma next_op (ths : list thread) i ld o rest :
  ths !! i = Some (mkThread ld (o :: rest)) ->
  Permutation (concat (t_todo <$> ths)) (o :: concat (t_todo <$> <[i := mkThread None rest]> ths)).
Proof.
  revert i. induction ths as [|t ths IH]; intros [|i] H; cbn in H; try done.
  - injection H as ->. done.
  - cbn [insert list_insert fmap list_fmap concat]. rewrite (IH i H). by rewrite Permutation_middle.
Qed.

Lemma same_todo (ths : list thread) i ld ld' os :
  ths !! i = Some (mkThread ld os) -> t_todo <$> <[i := mkThread ld' os]> ths = t_todo <$> ths.
Proof. intros H. rewrite list_fmap_insert. apply list_insert_id. by rewrite list_lookup_fmap, H. Qed.

(** One access: it ends no operation, or one that counts. *)
Lemma astep_counts st x i :
  ainv st x -> counts (todo st) ->
  exists st' l, astep v st i = Ok (st', l) /\ ainv st' (x + deltas l.*1) /\ Permutation (todo st) (l.*1 ++ todo st') /\
    (l = [] \/ exists o, l = [(o, answer o x)]) /\ (forall y, y < v \/ v + 4 <= y -> a_mem st' !! y = a_mem st !! y).
Proof.
  intros Hi Hc. unfold astep.
  assert (Hstay : exists st' l, Ok (st, @nil (aop * option Z)) = Ok (st', l) /\ ainv st' (x + deltas l.*1) /\
    Permutation (todo st) (l.*1 ++ todo st') /\ (l = [] \/ exists o, l = [(o, answer o x)]) /\
    (forall y, y < v \/ v + 4 <= y -> a_mem st' !! y = a_mem st !! y)).
  { exists st, []. cbn. rewrite Z.add_0_r. by split_and!; auto. }
  destruct (a_threads st !! i) as [[ld [|o rest]]|] eqn:Et; [exact Hstay| |exact Hstay].
  case_decide as Hb; [|exact Hstay]. clear Hstay. pose proof (next_op _ _ _ _ _ Et) as Hp. fold (todo st) in Hp.
  assert (Hd : is_Some (delta o)) by (unfold counts in Hc; rewrite Hp in Hc; by apply Forall_cons in Hc as [Hd _]).
  destruct Hd as [d Hd]. destruct Hi as [Hv Hbus Hoth].
  assert (Hfree : forall b j t, b = None \/ b = Some i -> <[i := mkThread None rest]> (a_threads st) !! j = Some t ->
    b <> Some j -> t_loaded t = None).
  { intros b j t Hbi Hj Hne. destruct (decide (j = i)) as [->|Hji].
    - rewrite list_lookup_insert_eq in Hj by (by eapply lookup_lt_Some). by injection Hj as <-.
    - rewrite list_lookup_insert_ne in Hj by done. apply (Hoth j t Hj). destruct Hb; congruence. }
  cbv zeta. destruct (counting o d Hd) as [->|(f & g & Ei & Hfg)].
  - assert (Hn : a_bus st = None).
    { destruct Hb as [Hb|Hb]; [done|]. destruct (Hbus i Hb) as (o & r & E & Ho). rewrite Et in E. by injection E as _ <- _. }
    cbn [instr_of]. unfold atomic_read. rewrite Hv. mret. eexists _, _. split; [reflexivity|]. cbn [fmap list_fmap fst app].
    split; [|split; [exact Hp|split; [right; exists Read; by rewrite s32_u32|done]]].
    replace (x + deltas [Read]) with x by (unfold deltas; cbn; lia).
    split; cbn [a_mem a_bus a_threads]; [done| |].
    + intros j Hj. by rewrite Hn in Hj.
    + intros j t Hj Hne. apply (Hfree (a_bus st) j t); [by left|done|done].
  - rewrite Ei. destruct ld as [y|].
    + assert (Hbi : a_bus st = Some i) by (destruct Hb as [Hb|Hb]; [|done]; exfalso;
        specialize (Hoth i _ Et ltac:(by rewrite Hb)); done).
      destruct (Hbus i Hbi) as (o' & r & E & _). rewrite Et in E. injection E as -> _ _.
      destruct (Hfg x) as [Hf Hg]. rewrite Hf, Hg.
      destruct (store_counter (a_mem st) (x + d) (load_le_mapped 4 _ _ _ Hv)) as (m' & H1 & H2 & H3). rewrite H1. mret.
      eexists _, _. split; [reflexivity|]. cbn [fmap list_fmap fst app].
      split; [|split; [exact Hp|split; [right; by exists o|exact H3]]].
      replace (x + deltas [o]) with (x + d) by (unfold deltas; cbn [foldr]; rewrite Hd; cbn; lia).
      split; cbn [a_mem a_bus a_threads]; [done|done|]. intros j t Hj _. apply (Hfree None j t); [by left|done|done].
    + rewrite Hv. mret. eexists _, []. split; [reflexivity|]. cbn [fmap list_fmap fst app].
      split; [|split; [|split; [by left|done]]].
      * replace (x + deltas []) with x by (cbn; lia). split; cbn [a_mem a_bus a_threads]; [done| |].
        -- intros j [= <-]. exists o, rest. rewrite list_lookup_insert_eq by (by eapply lookup_lt_Some).
           split; [done|]. intros ->. discriminate Ei.
        -- intros j t Hj Hne. rewrite list_lookup_insert_ne in Hj by congruence. apply (Hoth j t Hj). destruct Hb; congruence.
      * unfold todo. cbn [a_threads]. by rewrite (same_todo _ _ _ _ _ Et).
Qed.

(** The results of a log that starts at [x]. *)
Definition log_from (x : Z) (log : list (aop * option Z)) : Prop :=
  forall k o r, log !! k = Some (o, r) -> r = answer o (x + deltas (take k log.*1)).

Lemma log_from_cons x o log :
  log_from (x + default 0 (delta o)) log -> log_from x ((o, answer o x) :: log).
Proof.
  intros H [|k] o' r Hk; cbn in Hk.
  - injection Hk as <- <-. cbn. by rewrite Z.add_0_r.
  - rewrite fmap_cons. cbn [firstn take deltas foldr fst]. rewrite (H k o' r Hk). f_equal. unfold deltas. lia.
Qed.

Lemma deltas_app l1 l2 : deltas (l1 ++ l2) = deltas l1 + deltas l2.
Proof. induction l1 as [|o l1 IH]; [done|]. unfold deltas in *. cbn [app foldr]. lia. Qed.

Lemma arun_counts st xs x :
  ainv st x -> counts (todo st) ->
  exists st' log, arun v st xs = Ok (st', log) /\ Permutation (todo st) (log.*1 ++ todo st') /\
    ainv st' (x + deltas log.*1) /\ log_from x log /\ (forall y, y < v \/ v + 4 <= y -> a_mem st' !! y = a_mem st !! y).
Proof.
  revert st x. induction xs as [|i xs IH]; intros st x Hi Hc; cbn [arun].
  - exists st, []. cbn. rewrite Z.add_0_r. by split_and!.
  - destruct (astep_counts st x i Hi Hc) as (st1 & l & -> & I1 & P1 & L1 & F1). mret.
    assert (Hc1 : counts (todo st1)) by (unfold counts in *; rewrite P1 in Hc; by apply Forall_app in Hc as [_ Hc]).
    destruct (IH st1 _ I1 Hc1) as (st2 & log & -> & P2 & I2 & L2 & F2). mret. eexists _, _. split; [reflexivity|].
    rewrite fmap_app, deltas_app, Z.add_assoc. split; [by rewrite P1, P2, app_assoc|]. split; [exact I2|].
    split; [|intros y Hy; by rewrite F2, F1]. destruct L1 as [->|(o & ->)]; cbn [app].
    + by replace (x + deltas (fmap fst [])) with x in L2 by (cbn; lia).
    + apply log_from_cons. replace (x + default 0 (delta o)) with (x + deltas [o]) by (unfold deltas; cbn [foldr]; lia). exact L2.
Qed.

(** The start. *)
Lemma astart_inv m ths x : load32 m v = Ok (u32 x) -> ainv (astart m ths) x.
Proof.
  intros Hl. split; cbn [astart a_mem a_bus a_threads]; [exact Hl|done|]. intros i t Hi _.
  rewrite list_lookup_fmap in Hi. destruct (ths !! i); [|done]. by injection Hi as <-.
Qed.

Lemma astart_todo m ths : todo (astart m ths) = concat ths.
Proof. unfold todo, astart. cbn [a_threads]. rewrite <- list_fmap_compose. by rewrite list_fmap_id. Qed.

End Proofs.

(** ** The quadword of the 32-bit build *)

Lemma quad_parts x : 0 <= x < 2 ^ 64 -> u32 x + Z.shiftl (u32 (Z.shiftr x 32)) 32 = x.
Proof.
  intros Hx. rewrite Z.shiftl_mul_pow2, Z.shiftr_div_pow2 by lia. change (2 ^ 32) with 4294967296.
  change (2 ^ 64) with 18446744073709551616 in Hx. mach.
Qed.

Lemma load_le_bytes n m a x : mem_wf m -> load_le n m a = Ok x -> bytes_at m a (le_bytes n x).
Proof.
  intros Hwf. revert a x. induction n as [|n IH]; intros a x H; [apply bytes_at_nil|]. cbn [load_le] in H.
  apply res_bind_ok in H as (b & Hb & H). apply res_bind_ok in H as (r & Hr & H). injection H as <-.
  apply load8_inv in Hb. pose proof (Hwf _ _ Hb) as Hw. cbv beta in Hw. cbn [le_bytes]. apply bytes_at_cons.
  replace (u8 (b + 256 * r)) with b by mach. replace ((b + 256 * r) / 256) with r by mach. split; [done|by apply IH].
Qed.

(** Writing the bytes that are there. *)
Lemma rewrite_bytes m a l : bytes_at m a l -> write_bytes m a l = m.
Proof.
  revert a. induction l as [|b l IH]; intros a H; [done|]. apply bytes_at_cons in H as [H1 H2]. cbn [write_bytes].
  rewrite IH by done. by apply insert_id.
Qed.

(** [atomic64_read] by [cmpxchg8b]: whatever the registers held, it returns the
    quadword and leaves memory as it is. *)
Theorem atomic64_read_same m ptr ebx ecx x :
  mem_wf m -> load64 m ptr = Ok x -> atomic64_read_i386 m ptr ebx ecx = Ok (m, x).
Proof.
  intros Hwf Hl. pose proof (load_le_range 8 _ _ _ Hwf Hl) as Hx. change (256 ^ Z.of_nat 8) with (2 ^ 64) in Hx.
  unfold atomic64_read_i386, cmpxchg8b. rewrite Hl. mret. destruct (Z.eqb_spec x (ebx + Z.shiftl ecx 32)) as [E|E].
  - rewrite <- E. assert (Hs : store64 m ptr x = Ok m); [|by rewrite Hs; mret; rewrite <- E].
    unfold store64. rewrite store_le_ok by (by eapply load_le_mapped). by rewrite rewrite_bytes by (by apply load_le_bytes).
  - mret. by rewrite quad_parts.
Qed.

(** ** Claims *)

(** C20: atomic counting: however the single memory accesses of the threads
    interleave, every operation of the header that adds to the variable runs
    without a fault and returns what the operations that ended before it leave,
    nothing but the variable changes, and when all have ended its value is the
    first one plus what all of them add, in 32 bits. *)
Theorem atomic_counter v m ths xs x :
  load32 m v = Ok (u32 x) -> counts (concat ths) ->
  exists st log, arun v (astart m ths) xs = Ok (st, log) /\ log_from x log /\
    Permutation (concat ths) (log.*1 ++ todo st) /\
    (forall y, y < v \/ v + 4 <= y -> a_mem st !! y = m !! y) /\
    (todo st = [] -> load32 (a_mem st) v = Ok (u32 (x + deltas (concat ths)))).
Proof.
  intros Hl Hc. rewrite <- (astart_todo m ths) in Hc.
  destruct (arun_counts v _ xs x (astart_inv v m ths x Hl) Hc) as (st & log & H1 & H2 & H3 & H4 & H5).
  rewrite astart_todo in H2. exists st, log. repeat (split; [done|]). intros He. rewrite He, app_nil_r in H2.
  rewrite (deltas_perm _ _ H2). exact (ai_value _ _ _ H3).
Qed.

(** Tickets: threads that only use [atomic_fetch_inc], on up to 2^32
    tickets, draw different numbers in every interleaving, and none is lost. *)
Theorem tickets_distinct v m ths xs x :
  load32 m v = Ok (u32 x) -> Forall (eq FetchInc) (concat ths) -> Z.of_nat (length (concat ths)) <= 2 ^ 32 ->
  exists st log, arun v (astart m ths) xs = Ok (st, log) /\ NoDup log.*2 /\
    length (concat ths) = (length log + length (todo st))%nat /\
    forall k e, log !! k = Some e -> e.2 = Some (s32 (x + Z.of_nat k)).
Proof.
  intros Hl Hf Hn.
  assert (Hc : counts (todo (astart m ths))).
  { rewrite astart_todo. eapply Forall_impl; [exact Hf|]. intros o <-. by eexists. }
  destruct (arun_counts v _ xs x (astart_inv v m ths x Hl) Hc) as (st & log & H1 & H2 & _ & H4 & _).
  rewrite astart_todo in H2.
  pose proof (Permutation_length H2) as HL. rewrite length_app, length_fmap in HL.
  assert (Hlog : Forall (eq FetchInc) log.*1) by (rewrite H2 in Hf; by apply Forall_app in Hf as [Hf _]).
  assert (Hd : forall l, Forall (eq FetchInc) l -> deltas l = Z.of_nat (length l)).
  { intros l. induction 1 as [|o l <- _ IH]; [done|]. unfold deltas in *. cbn [foldr length]. rewrite IH.
    change (default 0 (delta FetchInc)) with 1. lia. }
  assert (Hk : forall k e, log !! k = Some e -> e.2 = Some (s32 (x + Z.of_nat k))).
  { intros k [o r] Hk. pose proof (H4 k o r Hk) as Hr.
    assert (Ho : FetchInc = o) by (eapply (proj1 (Forall_lookup _ _) Hlog k); by rewrite list_lookup_fmap, Hk).
    pose proof (lookup_lt_Some _ _ _ Hk). rewrite (Hd (take k log.*1)) in Hr by (by apply Forall_take).
    rewrite length_take, length_fmap, Nat.min_l in Hr by lia. subst o. exact Hr. }
  exists st, log. split; [done|]. split; [|done].
  apply NoDup_alt. intros i j r Hi Hj. rewrite list_lookup_fmap in Hi, Hj.
  destruct (log !! i) as [e1|] eqn:E1; [|done]. destruct (log !! j) as [e2|] eqn:E2; [|done]. cbn in Hi, Hj.
  pose proof (lookup_lt_Some _ _ _ E1). pose proof (lookup_lt_Some _ _ _ E2).
  pose proof (Hk _ _ E1) as K1. pose proof (Hk _ _ E2) as K2. assert (K : Some (s32 (x + Z.of_nat i)) = Some (s32 (x + Z.of_nat j))) by congruence.
  apply (inj Some) in K. apply s32_inj in K; lia.
Qed.

(** ** Witnesses *)

Definition demo_cell (x : Z) : mem := write_bytes ∅ 64 (le_bytes 8 x).

(** Two threads on a counter that wraps: the second is kept off memory between
    the two accesses of the first's increment. *)
Lemma atomic_counter_witness :
  exists st log, arun 64 (astart (demo_cell 0x7fffffff) [[Inc; FetchAdd 5]; [Dec; IncFetch; Read]])
      [0; 1; 0; 1; 1; 0; 0; 1; 1; 0; 0; 1; 1; 1]%nat = Ok (st, log) /\
    load32 (a_mem st) 64 = Ok 0x80000005.
Proof.
  destruct (atomic_counter 64 (demo_cell 0x7fffffff) [[Inc; FetchAdd 5]; [Dec; IncFetch; Read]]
    [0; 1; 0; 1; 1; 0; 0; 1; 1; 0; 0; 1; 1; 1]%nat 0x7fffffff)
    as (st & log & H1 & _ & _ & _ & H4); [vm_compute; reflexivity|unfold counts; repeat constructor; eexists; reflexivity|].
  exists st, log. split; [exact H1|]. rewrite H4; [vm_compute; reflexivity|].
  vm_compute in H1. injection H1 as <- _. reflexivity.
Defined.

Lemma tickets_distinct_witness :
  exists st log,
    arun 64 (astart (demo_cell 0xffffffff) [[FetchInc; FetchInc]; [FetchInc]]) [1; 0; 1; 0; 0; 0; 0]%nat = Ok (st, log) /\
    NoDup log.*2.
Proof.
  destruct (tickets_distinct 64 (demo_cell 0xffffffff) [[FetchInc; FetchInc]; [FetchInc]] [1; 0; 1; 0; 0; 0; 0]%nat 0xffffffff)
    as (st & log & H1 & H2 & _); [vm_compute; reflexivity|repeat constructor|vm_compute; discriminate|].
  exists st, log. split; [exact H1|exact H2].
Defined.

Lemma atomic64_read_same_witness :
  atomic64_read_i386 (demo_cell 0x100000002) 64 2 1 = Ok (demo_cell 0x100000002, 0x100000002).
Proof.
  apply (atomic64_read_same (demo_cell 0x100000002) 64 2 1 0x100000002); [|vm_compute; reflexivity].
  apply mem_wf_b_spec. vm_compute. reflexivity.
Defined.
