(* ===== verification/CString.v ===== *)
(** * lib/string.c

    The libc string functions the kernel carries. Each loop is a [Fixpoint]:
    the counted ones recurse on their count, the ones that stop at a byte in
    memory take fuel, and the functions start them with more fuel than there
    are mapped addresses; the theorems show it never runs out. A function that
    returns a pointer returns its address, 0 for NULL. *)

From stdpp Require Import base gmap list numbers strings.
From Stdlib Require Import ZArith Lia.
From S2P Require Import Prelude Mem.

#[local] Open Scope Z_scope.

(** ** The functions *)

(** A [char] read from memory is signed. *)
Definition loadc (m : mem) (a : Z) : res Z := b ← load8 m a; Ok (s8 b).

(** Enough fuel for a loop that visits a new mapped address each time. *)
Definition walk_fuel (m : mem) : nat := S (size m).

Fixpoint strlen_loop (fuel : nat) (m : mem) (buf len : Z) : res Z :=
  match fuel with
  | O => Err Fuel
  | S f =>
      c ← loadc m buf;
      if c =? 0 then Ok len else strlen_loop f m (buf + 1) (u64 (len + 1))
  end.

Definition strlen (m : mem) (buf : Z) : res Z := strlen_loop (walk_fuel m) m buf 0.

(** [while ( *p) ++p;] *)
Fixpoint strcat_end (fuel : nat) (m : mem) (p : Z) : res Z :=
  match fuel with
  | O => Err Fuel
  | S f => c ← loadc m p; if c =? 0 then Ok p else strcat_end f m (p + 1)
  end.

(** [while (( *p++ = *src++) != 0);] *)
Fixpoint strcat_copy (fuel : nat) (m : mem) (p src : Z) : res mem :=
  match fuel with
  | O => Err Fuel
  | S f =>
      c ← loadc m src;
      m' ← store8 m p c;
      if c =? 0 then Ok m' else strcat_copy f m' (p + 1) (src + 1)
  end.

Definition strcat (m : mem) (dest src : Z) : res mem :=
  p ← strcat_end (walk_fuel m) m dest;
  strcat_copy (walk_fuel m) m p src.

Definition strcpy (m : mem) (dest src : Z) : res mem :=
  m' ← store8 m dest 0; strcat m' dest src.

Fixpoint strncmp_loop (fuel : nat) (m : mem) (a b n : Z) : res Z :=
  match fuel with
  | O => Err Fuel
  | S f =>
      if n =? 0 then Ok 0
      else
        x ← loadc m a;
        y ← loadc m b;
        if negb (x =? y) || (x =? 0) then Ok (x - y)
        else strncmp_loop f m (a + 1) (b + 1) (n - 1)
  end.

Definition strncmp (m : mem) (a b n : Z) : res Z := strncmp_loop (walk_fuel m) m a b n.

Definition SIZE_MAX : Z := 18446744073709551615.

Definition strcmp (m : mem) (a b : Z) : res Z := strncmp m a b SIZE_MAX.

Fixpoint strchr_loop (fuel : nat) (m : mem) (s c : Z) : res Z :=
  match fuel with
  | O => Err Fuel
  | S f =>
      x ← loadc m s;
      if negb (x =? s8 c) then
        if x =? 0 then Ok 0 else strchr_loop f m (s + 1) c
      else Ok s
  end.

Definition strchr (m : mem) (s c : Z) : res Z := strchr_loop (walk_fuel m) m s c.

Fixpoint memcmp_loop (n : nat) (m : mem) (a b : Z) : res Z :=
  match n with
  | O => Ok 0
  | S n' =>
      x ← load8 m a;
      y ← load8 m b;
      if x - y =? 0 then memcmp_loop n' m (a + 1) (b + 1) else Ok (x - y)
  end.

Definition memcmp (m : mem) (s1 s2 n : Z) : res Z := memcmp_loop (Z.to_nat n) m s1 s2.

Fixpoint strstr_loop (fuel : nat) (m : mem) (s1 s2 l1 l2 : Z) : res Z :=
  match fuel with
  | O => Err Fuel
  | S f =>
      if l2 <=? l1 then
        d ← memcmp m s1 s2 l2;
        if d =? 0 then Ok s1 else strstr_loop f m (s1 + 1) s2 (l1 - 1) l2
      else Ok 0
  end.

Definition strstr (m : mem) (s1 s2 : Z) : res Z :=
  l2 ← strlen m s2;
  if l2 =? 0 then Ok s1
  else l1 ← strlen m s1; strstr_loop (S (Z.to_nat l1)) m s1 s2 l1 l2.

Fixpoint memset_loop (n : nat) (m : mem) (a c : Z) : res mem :=
  match n with
  | O => Ok m
  | S n' => m' ← store8 m a c; memset_loop n' m' (a + 1) c
  end.

Definition memset (m : mem) (s c n : Z) : res mem := memset_loop (Z.to_nat n) m s c.

Fixpoint memcpy_loop (n : nat) (m : mem) (a b : Z) : res mem :=
  match n with
  | O => Ok m
  | S n' => x ← load8 m b; m' ← store8 m a x; memcpy_loop n' m' (a + 1) (b + 1)
  end.

Definition memcpy (m : mem) (dest src n : Z) : res mem :=
  memcpy_loop (Z.to_nat n) m dest src.

(** [while (n--) *--d = *--s;] with [d] and [s] past the last byte. *)
Fixpoint memmove_down (n : nat) (m : mem) (d s : Z) : res mem :=
  match n with
  | O => Ok m
  | S n' => x ← load8 m (s - 1); m' ← store8 m (d - 1) x; memmove_down n' m' (d - 1) (s - 1)
  end.

Definition memmove (m : mem) (dest src n : Z) : res mem :=
  if dest <=? src then memcpy_loop (Z.to_nat n) m dest src
  else memmove_down (Z.to_nat n) m (dest + n) (src + n).

Fixpoint memchr_loop (n : nat) (m : mem) (str chr : Z) : res Z :=
  match n with
  | O => Ok 0
  | S n' => x ← load8 m str; if x =? chr then Ok str else memchr_loop n' m (str + 1) chr
  end.

Definition memchr (m : mem) (s c n : Z) : res Z := memchr_loop (Z.to_nat n) m s (u8 c).

(** [while ( *s == ' ' || *s == '\t') s++;] *)
Fixpoint atol_skip (fuel : nat) (m : mem) (s : Z) : res Z :=
  match fuel with
  | O => Err Fuel
  | S f => c ← loadc m s; if (c =? 32) || (c =? 9) then atol_skip f m (s + 1) else Ok s
  end.

(** The digit loop; [acc] is a [long]. *)
Fixpoint atol_digits (fuel : nat) (m : mem) (s acc : Z) : res Z :=
  match fuel with
  | O => Err Fuel
  | S f =>
      c ← loadc m s;
      if (c =? 0) || (c <? 48) || (57 <? c) then Ok acc
      else
        t ← long_chk (acc * 10);
        acc' ← long_chk (t + (c - 48));
        atol_digits f m (s + 1) acc'
  end.

Definition atol (m : mem) (ptr : Z) : res Z :=
  s ← atol_skip (walk_fuel m) m ptr;
  c ← loadc m s;
  if c =? 45 then
    acc ← atol_digits (walk_fuel m) m (s + 1) 0; long_chk (- acc)
  else if c =? 43 then atol_digits (walk_fuel m) m (s + 1) 0
  else atol_digits (walk_fuel m) m s 0.

(** [copy] is where the compiler puts the local array [char copy[n + 1]]. *)
Definition simple_glob (m : mem) (text pattern copy : Z) : res bool :=
  n ← strlen m pattern;
  c0 ← loadc m pattern;
  let star_start := c0 =? 42 in
  let pattern := if star_start then pattern + 1 else pattern in
  let n := if star_start then u64 (n - 1) else n in
  m ← strcpy m copy pattern;
  star_end ← (if 0 <? n then c ← loadc m (pattern + n - 1); Ok (c =? 42) else Ok false);
  let n := if star_end : bool then n - 1 else n in
  m ← (if star_end then store8 m (copy + n) 0 else Ok m);
  if star_start && star_end then
    r ← strstr m text copy; Ok (negb (r =? 0))
  else if star_end then
    r ← strstr m text copy; Ok (r =? text)
  else if star_start then
    text_len ← strlen m text;
    if text_len <? n then Ok false
    else r ← strcmp m (text + text_len - n) copy; Ok (r =? 0)
  else r ← strcmp m text copy; Ok (r =? 0).

(** ** C strings in memory *)

(** The object at [p] is the string [s]: its characters, none zero, then the
    terminator, all inside the address space. *)
Record cstr (m : mem) (p : Z) (s : list Z) : Prop := {
  cstr_bytes : bytes_at m p (s ++ [0]);
  cstr_chars : Forall (fun c => 0 < c < 256) s;
  cstr_fits : Z.of_nat (length s) < 18446744073709551616;
}.

(** The order [strcmp] decides: lexicographic, on signed characters. *)
Fixpoint lexcmp (s t : list Z) : Z :=
  match s, t with
  | [], [] => 0
  | [], y :: _ => - s8 y
  | x :: _, [] => s8 x
  | x :: s', y :: t' => if x =? y then lexcmp s' t' else s8 x - s8 y
  end.

Inductive slex_lt : list Z -> list Z -> Prop :=
  | slex_diff x y s t : s8 x < s8 y -> slex_lt (x :: s) (y :: t)
  | slex_same x s t : slex_lt s t -> slex_lt (x :: s) (x :: t)
  | slex_end y t : 0 < s8 y -> slex_lt [] (y :: t)
  | slex_high x s : s8 x < 0 -> slex_lt (x :: s) [].

(** The byte comparison of [memcmp]. *)
Fixpoint ulexcmp (s t : list Z) : Z :=
  match s, t with
  | x :: s', y :: t' => if x =? y then ulexcmp s' t' else x - y
  | _, _ => 0
  end.

(** The position of the first occurrence of [t] in [s]. *)
Fixpoint find_sub (s t : list Z) : option nat :=
  if decide (t = take (length t) s) then Some O
  else match s with
       | [] => None
       | _ :: s' => S <$> find_sub s' t
       end.

(** The number a run of digits denotes. *)
Definition digits_val (acc : Z) (ds : list Z) : Z :=
  foldl (fun a d => a * 10 + (d - 48)) acc ds.

Definition is_digit (c : Z) : Prop := 48 <= c <= 57.

(** What a glob pattern matches, in terms of the pattern's text: a leading
    and a trailing star allow any text before and after. *)
Definition glob_open (p : list Z) : bool := match p with c :: _ => c =? 42 | [] => false end.
Definition glob_body (p : list Z) : list Z := if glob_open p then tail p else p.
Definition glob_close (p : list Z) : bool :=
  match last (glob_body p) with Some c => c =? 42 | None => false end.
Definition glob_core (p : list Z) : list Z :=
  if glob_close p then take (length (glob_body p) - 1) (glob_body p) else glob_body p.

Definition glob_matches (t p : list Z) : Prop :=
  exists l r, t = l ++ glob_core p ++ r /\
    (glob_open p = false -> l = []) /\ (glob_close p = false -> r = []).

(** ** Strings: basic lemmas *)

Lemma s8_nonzero c : 0 < c < 256 -> (s8 c =? 0) = false.
Proof. intros H. apply Z.eqb_neq. pose proof (s8_zero c). lia. Qed.

Lemma loadc_ok m a b : m !! a = Some b -> loadc m a = Ok (s8 b).
Proof. intros H. unfold loadc. by rewrite (load8_ok _ _ _ H). Qed.

Lemma loadc_inv m a c : loadc m a = Ok c -> is_Some (m !! a).
Proof. unfold loadc, load8. destruct (m !! a); simpl; [eauto|discriminate]. Qed.

Lemma cstr_cons m p c s :
  cstr m p (c :: s) -> m !! p = Some c /\ 0 < c < 256 /\ cstr m (p + 1) s.
Proof.
  intros [Hb Hc Hf]. simpl in Hb, Hf. apply bytes_at_cons in Hb as [H1 H2].
  apply Forall_cons in Hc as [H3 H4]. repeat split; try done || lia.
Qed.

Lemma cstr_nil m p : cstr m p [] -> m !! p = Some 0.
Proof. intros [Hb _ _]. by apply bytes_at_cons in Hb as [H _]. Qed.

Lemma cstr_nil_intro m p : m !! p = Some 0 -> cstr m p [].
Proof.
  intros H. split; [|constructor|simpl; lia].
  apply bytes_at_cons. split; [done|apply bytes_at_nil].
Qed.

Lemma cstr_suffix m p s t : cstr m p (s ++ t) -> cstr m (p + Z.of_nat (length s)) t.
Proof.
  intros [Hb Hc Hf]. rewrite <- app_assoc in Hb. apply bytes_at_app in Hb as [_ Hb].
  apply Forall_app in Hc as [_ Hc]. rewrite length_app in Hf. split; [done|done|lia].
Qed.

Lemma cstr_fuel m p s : cstr m p s -> (length s < walk_fuel m)%nat.
Proof.
  intros [Hb _ _]. apply bytes_at_mapped, mapped_size in Hb.
  rewrite length_app in Hb. simpl in Hb. unfold walk_fuel. lia.
Qed.

Lemma cstr_frame m m' p s :
  cstr m p s ->
  (forall x, p <= x <= p + Z.of_nat (length s) -> m' !! x = m !! x) ->
  cstr m' p s.
Proof.
  intros [Hb Hc Hf] H. split; [|done|done].
  eapply bytes_at_frame; [|exact Hb]. intros x Hx. apply H.
  rewrite length_app in Hx. simpl in Hx. lia.
Qed.

Lemma cstr_write m p s :
  Forall (fun c => 0 < c < 256) s -> Z.of_nat (length s) < 18446744073709551616 ->
  cstr (write_bytes m p (s ++ [0])) p s.
Proof. intros. split; [apply write_bytes_at|done|done]. Qed.

Lemma cstr_mapped m p s : cstr m p s -> mapped m p (Z.of_nat (length s) + 1).
Proof.
  intros [Hb _ _]. apply bytes_at_mapped in Hb. rewrite length_app in Hb.
  eapply mapped_sub; [exact Hb| |]; simpl; lia.
Qed.

#[export] Hint Resolve cstr_fuel cstr_mapped : hb.

Lemma cstr_iff m p s :
  cstr m p s <->
  bytes_at m p (s ++ [0]) /\ Forall (fun c => 0 < c < 256) s /\
  Z.of_nat (length s) < 18446744073709551616.
Proof. split; [intros []|intros (? & ? & ?)]; by repeat split. Qed.

#[export] Instance cstr_dec m p s : Decision (cstr m p s) :=
  decision_of (bool_decide (bytes_at m p (s ++ [0]) /\ Forall (fun c => 0 < c < 256) s /\
    Z.of_nat (length s) < 18446744073709551616))
    (iff_trans (bool_decide_eq_true _) (iff_sym (cstr_iff m p s))).

(** Steps a loop over the next character of a string. *)
Ltac next_char H :=
  let H1 := fresh "Hc" in let H2 := fresh "Hr" in let H3 := fresh "Hs" in
  first [ apply cstr_cons in H as (H1 & H2 & H3) | apply cstr_nil in H as H1 ];
  rewrite ?(loadc_ok _ _ _ H1); mret; rewrite ?(eq_refl : (s8 0 =? 0) = true); rewrite ?s8_nonzero by lia.

(** ** strlen *)

Lemma strlen_loop_spec fuel m p s len :
  cstr m p s -> 0 <= len -> len + Z.of_nat (length s) < 18446744073709551616 ->
  (length s < fuel)%nat -> strlen_loop fuel m p len = Ok (len + Z.of_nat (length s)).
Proof.
  revert fuel p len. induction s as [|c s IH]; intros [|f] p len H Hl Hb Hf;
    try (simpl in Hf; lia); simpl in *; next_char H.
  - f_equal. lia.
  - rewrite IH; try done || lia; rewrite u64_small by lia; try lia. f_equal. lia.
Qed.

Lemma strlen_spec m p s : cstr m p s -> strlen m p = Ok (Z.of_nat (length s)).
Proof.
  intros H. unfold strlen. rewrite (strlen_loop_spec _ _ _ s); eauto with hb.
  - lia.
  - destruct H. lia.
Qed.

(** ** strcat and strcpy *)

Lemma strcat_end_spec fuel m p s :
  cstr m p s -> (length s < fuel)%nat ->
  strcat_end fuel m p = Ok (p + Z.of_nat (length s)).
Proof.
  revert fuel p. induction s as [|c s IH]; intros [|f] p H Hf;
    try (simpl in Hf; lia); simpl in *; next_char H.
  - f_equal. lia.
  - rewrite IH by (done || lia). f_equal. lia.
Qed.

Lemma store_char m p c :
  is_Some (m !! p) -> 0 <= c < 256 -> store8 m p (s8 c) = Ok (<[p := c]> m).
Proof.
  intros H Hc. rewrite store8_ok by done. do 2 f_equal. mach.
Qed.

(** Two address ranges [a, a+n) and [b, b+k) do not meet. *)
Definition disjoint_ranges (a n b k : Z) : Prop := a + n <= b \/ b + k <= a.

Lemma strcat_copy_spec fuel m p src s :
  cstr m src s -> (length s < fuel)%nat -> mapped m p (Z.of_nat (length s) + 1) ->
  p < src \/ src + Z.of_nat (length s) < p ->
  strcat_copy fuel m p src = Ok (write_bytes m p (s ++ [0])).
Proof.
  revert fuel m p src. induction s as [|c s IH]; intros [|f] m p src H Hf Hm Hd;
    try (simpl in Hf; lia); simpl in *; pose proof H as H'; next_char H.
  - rewrite store8_ok by (apply Hm; lia). done.
  - rewrite store_char by (lia || (apply Hm; lia)). simpl.
    rewrite (IH f (<[p := c]> m)); try lia.
    + f_equal. apply write_bytes_insert_comm. lia.
    + eapply cstr_frame; [exact Hs|]. intros x Hx. apply lookup_insert_ne. lia.
    + apply mapped_insert. eapply mapped_sub; [exact Hm| |]; lia.
Qed.

Lemma strcat_spec m dest src d s :
  cstr m dest d -> cstr m src s ->
  mapped m dest (Z.of_nat (length d + length s) + 1) ->
  disjoint_ranges dest (Z.of_nat (length d + length s) + 1) src (Z.of_nat (length s) + 1) ->
  strcat m dest src = Ok (write_bytes m (dest + Z.of_nat (length d)) (s ++ [0])).
Proof.
  intros Hd Hs Hm Hdis. unfold strcat. unfold disjoint_ranges in Hdis.
  rewrite (strcat_end_spec _ _ _ d) by eauto with hb. mret.
  apply strcat_copy_spec; eauto with hb; [|lia].
  eapply mapped_sub; [exact Hm| |]; lia.
Qed.

(** The string a concatenation leaves at its destination. *)
Lemma strcat_result m dest src d s :
  cstr m dest d -> cstr m src s ->
  mapped m dest (Z.of_nat (length d + length s) + 1) ->
  disjoint_ranges dest (Z.of_nat (length d + length s) + 1) src (Z.of_nat (length s) + 1) ->
  Z.of_nat (length d + length s) < 18446744073709551616 ->
  exists m', strcat m dest src = Ok m' /\ cstr m' dest (d ++ s) /\
    forall x, x < dest + Z.of_nat (length d) \/ dest + Z.of_nat (length d + length s) < x ->
      m' !! x = m !! x.
Proof.
  intros Hd Hs Hm Hdis Hfit. eexists. split; [by apply strcat_spec|]. split.
  - destruct Hd as [Hb Hc Hf], Hs as [Hb' Hc' Hf']. split.
    + rewrite <- app_assoc. apply bytes_at_app. split; [|apply write_bytes_at].
      apply bytes_at_app in Hb as [Hb _].
      apply bytes_at_write_disjoint; [done|]. rewrite length_app. lia.
    + by apply Forall_app.
    + rewrite length_app. lia.
  - intros x Hx. apply write_bytes_out. rewrite length_app. simpl. lia.
Qed.

Lemma strcpy_spec m dest src s :
  cstr m src s -> mapped m dest (Z.of_nat (length s) + 1) ->
  disjoint_ranges dest (Z.of_nat (length s) + 1) src (Z.of_nat (length s) + 1) ->
  strcpy m dest src = Ok (write_bytes m dest (s ++ [0])).
Proof.
  intros Hs Hm Hdis. unfold strcpy, disjoint_ranges in *.
  rewrite store8_ok by (apply Hm; lia). simpl.
  set (m0 := <[dest := u8 0]> m).
  assert (Hd0 : cstr m0 dest []) by (apply cstr_nil_intro; apply lookup_insert_eq).
  assert (Hs0 : cstr m0 src s).
  { eapply cstr_frame; [exact Hs|]. intros x Hx. apply lookup_insert_ne. lia. }
  rewrite (strcat_spec m0 dest src [] s); simpl; try done.
  - rewrite Z.add_0_r. f_equal. unfold m0. destruct s as [|c s]; simpl.
    + apply insert_insert_eq.
    + rewrite write_bytes_insert_comm by lia. apply insert_insert_eq.
  - apply mapped_insert. eapply mapped_sub; [exact Hm| |]; lia.
Qed.

(** ** strncmp and strcmp *)

Lemma s8_eqb a b : 0 <= a < 256 -> 0 <= b < 256 -> (s8 a =? s8 b) = (a =? b).
Proof.
  intros Ha Hb. destruct (Z.eqb_spec a b) as [->|Hne]; [apply Z.eqb_refl|].
  apply Z.eqb_neq. intros E. by apply Hne, s8_inj.
Qed.

Lemma strncmp_loop_spec fuel m a b n s t :
  cstr m a s -> cstr m b t -> 0 <= n -> (length s < fuel)%nat ->
  strncmp_loop fuel m a b n =
  Ok (lexcmp (take (Z.to_nat n) s) (take (Z.to_nat n) t)).
Proof.
  revert fuel a b n t. induction s as [|x s IH]; intros [|f] a b n t Ha Hb Hn Hf;
    try (simpl in Hf; lia); simpl in Hf |- *;
    (destruct (Z.eqb_spec n 0) as [->|Hn0]; [done|]);
    replace (Z.to_nat n) with (S (Z.to_nat (n - 1))) by lia; next_char Ha.
  - destruct t as [|y t]; next_char Hb; [done|].
    rewrite orb_true_r. f_equal.
  - destruct t as [|y t]; next_char Hb; [|]; simpl.
    + f_equal. change (s8 0) with 0. lia.
    + rewrite s8_eqb by lia. destruct (Z.eqb_spec x y) as [->|Hne]; simpl; [|done].
      apply IH; try done || lia.
Qed.

Lemma strncmp_spec m a b n s t :
  cstr m a s -> cstr m b t -> 0 <= n ->
  strncmp m a b n = Ok (lexcmp (take (Z.to_nat n) s) (take (Z.to_nat n) t)).
Proof. intros Ha Hb Hn. apply strncmp_loop_spec; eauto with hb. Qed.

Lemma strcmp_spec m a b s t :
  cstr m a s -> cstr m b t -> strcmp m a b = Ok (lexcmp s t).
Proof.
  intros Ha Hb. unfold strcmp. rewrite (strncmp_spec _ _ _ _ s t) by (done || lia).
  pose proof (cstr_fits _ _ _ Ha). pose proof (cstr_fits _ _ _ Hb).
  rewrite !take_ge by (unfold SIZE_MAX; lia). done.
Qed.

Lemma lexcmp_zero s t :
  Forall (fun c => 0 < c < 256) s -> Forall (fun c => 0 < c < 256) t ->
  lexcmp s t = 0 <-> s = t.
Proof.
  intros Hs. revert t. induction Hs as [|x s Hx Hs IH]; intros t Ht;
    destruct Ht as [|y t Hy Ht]; simpl; try done.
  - pose proof (s8_zero y). split; intros; [lia|discriminate].
  - pose proof (s8_zero x). split; intros; [lia|discriminate].
  - destruct (Z.eqb_spec x y) as [->|Hne].
    + rewrite (IH t Ht). split; congruence.
    + split; [|congruence]. intros E. exfalso. apply Hne, s8_inj; lia.
Qed.

Lemma lexcmp_neg s t :
  Forall (fun c => 0 < c < 256) s -> Forall (fun c => 0 < c < 256) t ->
  lexcmp s t < 0 <-> slex_lt s t.
Proof.
  intros Hs. revert t. induction Hs as [|x s Hx Hs IH]; intros t Ht;
    destruct Ht as [|y t Hy Ht]; simpl.
  - split; [lia|inversion 1].
  - split; [constructor; lia|inversion 1; lia].
  - split; [constructor; lia|inversion 1; lia].
  - destruct (Z.eqb_spec x y) as [->|Hne].
    + rewrite (IH t Ht). split; [by constructor|]. inversion 1; subst; [lia|done].
    + split; [constructor; lia|]. inversion 1; subst; [lia|done].
Qed.

(** ** memcmp, strstr and strchr *)

Lemma memcmp_loop_spec m a b l k :
  bytes_at m a l -> bytes_at m b k -> length l = length k ->
  memcmp_loop (length l) m a b = Ok (ulexcmp l k).
Proof.
  revert a b k. induction l as [|x l IH]; intros a b [|y k] Ha Hb Hl; try done.
  apply bytes_at_cons in Ha as [Hx Ha]. apply bytes_at_cons in Hb as [Hy Hb].
  simpl. rewrite (load8_ok _ _ _ Hx), (load8_ok _ _ _ Hy). simpl.
  destruct (Z.eqb_spec x y) as [->|Hne].
  - rewrite Z.sub_diag. simpl. apply IH; auto.
  - rewrite (proj2 (Z.eqb_neq (x - y) 0)) by lia. done.
Qed.

Lemma ulexcmp_zero l k : length l = length k -> ulexcmp l k = 0 <-> l = k.
Proof.
  revert k. induction l as [|x l IH]; intros [|y k] H; simpl; try done.
  destruct (Z.eqb_spec x y) as [->|Hne].
  - rewrite IH by auto. split; congruence.
  - split; [lia|congruence].
Qed.

Lemma memcmp_spec m a b l k n :
  bytes_at m a l -> bytes_at m b k -> length l = length k -> n = Z.of_nat (length l) ->
  exists r, memcmp m a b n = Ok r /\ (r = 0 <-> l = k).
Proof.
  intros Ha Hb Hl ->. exists (ulexcmp l k). split; [|by apply ulexcmp_zero].
  unfold memcmp. rewrite Nat2Z.id. by apply memcmp_loop_spec.
Qed.

Lemma find_sub_short s t : (length s < length t)%nat -> find_sub s t = None.
Proof.
  induction s as [|x s IH]; simpl; intros H.
  - rewrite decide_False; [done|]. intros E. rewrite E in H.
    rewrite length_take in H. simpl in H. lia.
  - rewrite decide_False.
    + rewrite IH by lia. done.
    + intros E. assert (length t = length (take (length t) (x :: s))) by congruence.
      rewrite length_take in *. simpl in *. lia.
Qed.

Definition sub_ptr (p : Z) (o : option nat) : Z :=
  match o with Some k => p + Z.of_nat k | None => 0 end.

Lemma strstr_loop_spec fuel m p q s t :
  cstr m p s -> cstr m q t -> t <> [] -> (length s < fuel)%nat ->
  strstr_loop fuel m p q (Z.of_nat (length s)) (Z.of_nat (length t)) =
  Ok (sub_ptr p (find_sub s t)).
Proof.
  intros Hp Hq Ht. revert fuel p Hp.
  induction s as [|x s IH]; intros [|f] p Hp Hf; try (simpl in Hf; lia); cbn [strstr_loop].
  - rewrite find_sub_short by (destruct t; [done|simpl; lia]).
    rewrite (proj2 (Z.leb_gt _ _)) by (destruct t; [done|simpl; lia]). done.
  - destruct (Z.leb_spec (Z.of_nat (length t)) (Z.of_nat (length (x :: s)))) as [Hle|Hgt];
      [|by rewrite find_sub_short by lia].
    destruct (memcmp_spec m p q (take (length t) (x :: s)) t (Z.of_nat (length t)))
      as (r & -> & Hr).
    + apply cstr_bytes in Hp. rewrite <- (take_drop (length t) (x :: s)), <- app_assoc in Hp.
      by apply bytes_at_app in Hp as [Hp _].
    + by apply cstr_bytes, bytes_at_app in Hq as [Hq _].
    + rewrite length_take. lia.
    + rewrite length_take. lia.
    + mret. cbn [find_sub].
      destruct (Z.eqb_spec r 0) as [->|Hne].
      * rewrite decide_True by (symmetry; tauto). simpl. f_equal. lia.
      * rewrite decide_False by (intros E; symmetry in E; tauto).
        apply cstr_cons in Hp as (_ & _ & Hp).
        replace (Z.of_nat (length (x :: s)) - 1) with (Z.of_nat (length s)) by (simpl; lia).
        rewrite IH by (done || (simpl in Hf; lia)).
        destruct (find_sub s t); simpl; f_equal. lia.
Qed.

Lemma strstr_spec m p q s t :
  cstr m p s -> cstr m q t -> strstr m p q = Ok (sub_ptr p (find_sub s t)).
Proof.
  intros Hp Hq. unfold strstr. rewrite (strlen_spec _ _ _ Hq). mret.
  destruct t as [|y t]; simpl length.
  - change (Z.of_nat 0 =? 0) with true. simpl. destruct s; simpl; f_equal; lia.
  - rewrite (proj2 (Z.eqb_neq _ _)) by lia. rewrite (strlen_spec _ _ _ Hp). mret.
    rewrite Nat2Z.id. change (S (length t)) with (length (y :: t)).
    apply strstr_loop_spec; done || lia.
Qed.

Lemma find_sub_some s t k :
  find_sub s t = Some k <->
  (exists l r, s = l ++ t ++ r /\ length l = k) /\
  forall l r, s = l ++ t ++ r -> (k <= length l)%nat.
Proof.
  revert k. induction s as [|x s IH]; intros k; cbn [find_sub]; case_decide as E.
  - split.
    + intros [= <-]. split; [|lia]. exists [], []. rewrite take_nil in E. by subst.
    + intros [(l & r & Hs & Hk) _]. destruct l; [by subst|done].
  - split; [done|]. intros [(l & r & Hs & _) _].
    destruct l, t, r; try discriminate. done.
  - split.
    + intros [= <-]. split; [|lia]. exists [], (drop (length t) (x :: s)).
      split; [|done]. simpl. rewrite E at 1. symmetry. apply take_drop.
    + intros [_ Hmin]. specialize (Hmin [] (drop (length t) (x :: s))).
      simpl in Hmin. rewrite E in Hmin at 1. rewrite take_drop in Hmin.
      specialize (Hmin eq_refl). f_equal. lia.
  - rewrite fmap_Some. split.
    + intros (k' & Hk & ->). apply IH in Hk as [(l & r & -> & Hl) Hmin]. split.
      * exists (x :: l), r. simpl. auto.
      * intros [|y l'] r' Hs; simpl in *.
        -- exfalso. apply E. rewrite Hs. by rewrite take_app_length.
        -- injection Hs as <- Hs. apply le_n_S. eapply Hmin, Hs.
    + intros [(l & r & Hs & Hk) Hmin]. destruct l as [|y l].
      { exfalso. apply E. simpl in Hs. rewrite Hs. by rewrite take_app_length. }
      injection Hs as <- Hs. exists (length l). split; [|by subst].
      apply IH. split; [by exists l, r|].
      intros l' r' Hs'. specialize (Hmin (x :: l') r'). simpl in Hmin.
      rewrite Hs' in Hmin. specialize (Hmin eq_refl). simpl in Hk. lia.
Qed.

Lemma find_sub_none s t : find_sub s t = None <-> ~ exists l r, s = l ++ t ++ r.
Proof.
  induction s as [|x s IH]; cbn [find_sub]; case_decide as E.
  - split; [done|]. intros H. exfalso. apply H. exists [], []. rewrite take_nil in E. by subst.
  - split; [|done]. intros _ (l & r & Hs). destruct l, t, r; try discriminate. done.
  - split; [done|]. intros H. exfalso. apply H. exists [], (drop (length t) (x :: s)).
    simpl. rewrite E at 1. symmetry. apply take_drop.
  - rewrite fmap_None, IH. split.
    + intros H ([|y l] & r & Hs); simpl in Hs.
      * apply E. rewrite Hs. by rewrite take_app_length.
      * injection Hs as <- Hs. apply H. eauto.
    + intros H (l & r & ->). apply H. exists (x :: l), r. done.
Qed.

Lemma strchr_loop_spec fuel m p s c :
  cstr m p s -> (length s < fuel)%nat ->
  strchr_loop fuel m p c =
  Ok (sub_ptr p (fst <$> list_find (fun x => x = u8 c) (s ++ [0]))).
Proof.
  assert (Hc : forall x, 0 <= x < 256 -> (s8 x =? s8 c) = bool_decide (x = u8 c)).
  { intros x Hx. case_bool_decide as E; [apply Z.eqb_eq|apply Z.eqb_neq]; mach. }
  revert fuel p. induction s as [|x s IH]; intros [|f] p H Hf;
    try (simpl in Hf; lia); simpl in *; next_char H;
    rewrite Hc by lia; case_bool_decide as E; simpl.
  - rewrite decide_True by done. simpl. f_equal. lia.
  - rewrite decide_False by done. done.
  - rewrite decide_True by done. simpl. f_equal. lia.
  - rewrite decide_False by done. rewrite IH by (done || lia). f_equal.
    destruct (list_find _ (s ++ [0])) as [[i y]|]; simpl; [|done]. lia.
Qed.

Lemma strchr_spec m p s c :
  cstr m p s ->
  strchr m p c = Ok (sub_ptr p (fst <$> list_find (fun x => x = u8 c) (s ++ [0]))).
Proof. intros H. apply strchr_loop_spec; eauto with hb. Qed.

(** ** memset, memcpy and memmove *)

Lemma memset_loop_spec n m a c :
  mapped m a (Z.of_nat n) -> memset_loop n m a c = Ok (write_bytes m a (replicate n (u8 c))).
Proof.
  revert m a. induction n as [|n IH]; intros m a H; [done|]. cbn [memset_loop].
  rewrite store8_ok by (apply H; lia). mret.
  rewrite IH by (apply mapped_insert; eapply mapped_sub; [exact H| |]; lia).
  f_equal. simpl. apply write_bytes_insert_comm. lia.
Qed.

Lemma memset_spec m s c n :
  0 <= n -> mapped m s n ->
  memset m s c n = Ok (write_bytes m s (replicate (Z.to_nat n) (u8 c))).
Proof.
  intros Hn H. apply memset_loop_spec. by rewrite Z2Nat.id.
Qed.

Lemma memcpy_loop_spec m a b l :
  bytes_at m b l -> Forall (fun c => 0 <= c < 256) l -> mapped m a (Z.of_nat (length l)) ->
  a <= b \/ b + Z.of_nat (length l) <= a ->
  memcpy_loop (length l) m a b = Ok (write_bytes m a l).
Proof.
  intros Hb Hl. revert m a b Hb. induction Hl as [|x l Hx Hl IH]; intros m a b Hb Hm Hd; [done|].
  apply bytes_at_cons in Hb as [H1 H2]. simpl in Hm, Hd. cbn [length memcpy_loop].
  rewrite (load8_ok _ _ _ H1). mret. rewrite store8_ok by (apply Hm; lia). mret.
  rewrite u8_small by lia. rewrite IH.
  - f_equal. simpl. apply write_bytes_insert_comm. lia.
  - eapply bytes_at_frame; [|exact H2]. intros y Hy. apply lookup_insert_ne. lia.
  - apply mapped_insert. eapply mapped_sub; [exact Hm| |]; lia.
  - lia.
Qed.

Lemma memmove_down_spec m a b l :
  bytes_at m b l -> Forall (fun c => 0 <= c < 256) l -> mapped m a (Z.of_nat (length l)) ->
  b < a ->
  memmove_down (length l) m (a + Z.of_nat (length l)) (b + Z.of_nat (length l)) =
  Ok (write_bytes m a l).
Proof.
  revert m. induction l as [|x l IH] using rev_ind; intros m Hb Hl Hm Hd; [done|].
  apply bytes_at_app in Hb as [H1 H2]. apply bytes_at_cons in H2 as [H2 _].
  apply Forall_app in Hl as [Hl [Hx _]%Forall_cons].
  rewrite length_app in *. simpl in *. rewrite Nat.add_1_r. cbn [memmove_down].
  replace (b + Z.of_nat (S (length l)) - 1) with (b + Z.of_nat (length l)) by lia.
  replace (a + Z.of_nat (S (length l)) - 1) with (a + Z.of_nat (length l)) by lia.
  rewrite (load8_ok _ _ _ H2). mret. rewrite store8_ok by (apply Hm; lia). mret.
  rewrite u8_small by lia. rewrite IH; [|..|done].
  - f_equal. rewrite write_bytes_insert_comm by lia. symmetry. apply write_bytes_snoc.
  - eapply bytes_at_frame; [|exact H1]. intros y Hy. apply lookup_insert_ne. lia.
  - done.
  - apply mapped_insert. eapply mapped_sub; [exact Hm| |]; lia.
Qed.

Lemma memcpy_spec m dest src l n :
  bytes_at m src l -> Forall (fun c => 0 <= c < 256) l -> n = Z.of_nat (length l) ->
  mapped m dest n -> dest <= src \/ src + n <= dest ->
  memcpy m dest src n = Ok (write_bytes m dest l).
Proof.
  intros Hb Hl -> Hm Hd. unfold memcpy. rewrite Nat2Z.id. by apply memcpy_loop_spec.
Qed.

Lemma memmove_spec m dest src l n :
  bytes_at m src l -> Forall (fun c => 0 <= c < 256) l -> n = Z.of_nat (length l) ->
  mapped m dest n -> memmove m dest src n = Ok (write_bytes m dest l).
Proof.
  intros Hb Hl -> Hm. unfold memmove. rewrite Nat2Z.id.
  destruct (Z.leb_spec dest src).
  - apply memcpy_loop_spec; auto.
  - apply memmove_down_spec; auto.
Qed.

Lemma memchr_spec m s c l n :
  bytes_at m s l -> n = Z.of_nat (length l) ->
  memchr m s c n = Ok (sub_ptr s (fst <$> list_find (fun x => x = u8 c) l)).
Proof.
  intros H ->. unfold memchr. rewrite Nat2Z.id. revert s H.
  induction l as [|x l IH]; intros s H; [done|].
  apply bytes_at_cons in H as [H1 H2]. cbn [length memchr_loop].
  rewrite (load8_ok _ _ _ H1). mret. simpl.
  destruct (Z.eqb_spec x (u8 c)) as [E|E].
  - rewrite decide_True by done. simpl. f_equal. lia.
  - rewrite decide_False by done. rewrite (IH _ H2). f_equal.
    destruct (list_find _ l) as [[i y]|]; simpl; [|done]. lia.
Qed.

(** ** atol *)

Lemma digits_val_ge acc ds : 0 <= acc -> Forall is_digit ds -> acc <= digits_val acc ds.
Proof.
  intros Ha Hd. revert acc Ha. induction Hd as [|d ds Hd Hds IH]; intros acc Ha;
    unfold digits_val; simpl; [lia|].
  unfold is_digit in Hd. etransitivity; [|apply IH]; lia.
Qed.

Lemma long_chk_over z : 9223372036854775807 < z -> long_chk z = Err Undef.
Proof.
  intros H. unfold long_chk, long_ok.
  rewrite (proj2 (Z.leb_gt z _)), andb_false_r by lia. done.
Qed.

Definition LONG_MAX : Z := 9223372036854775807.

(** What may follow the digits: the terminator or another character. *)
Definition no_digit_head (l : list Z) : Prop :=
  match l with [] => True | c :: _ => 0 < c < 256 /\ ~ is_digit c end.

Lemma atol_digits_end fuel m p rest acc :
  cstr m p rest -> no_digit_head rest -> (0 < fuel)%nat -> atol_digits fuel m p acc = Ok acc.
Proof.
  intros H Hn Hf. destruct fuel as [|f]; [lia|]. destruct rest as [|c rest];
    cbn [atol_digits]; next_char H; [done|].
  destruct Hn as [Hc' Hn]. unfold is_digit in Hn.
  destruct (Z.ltb_spec (s8 c) 48); [done|]. destruct (Z.ltb_spec 57 (s8 c)); [done|].
  exfalso. apply Hn. mach.
Qed.

Lemma atol_digits_spec fuel m p ds rest acc :
  cstr m p (ds ++ rest) -> Forall is_digit ds -> no_digit_head rest ->
  (length (ds ++ rest) < fuel)%nat -> 0 <= acc <= LONG_MAX ->
  atol_digits fuel m p acc =
  if digits_val acc ds <=? LONG_MAX then Ok (digits_val acc ds) else Err Undef.
Proof.
  intros H Hd Hn. revert fuel p acc H. unfold LONG_MAX.
  induction Hd as [|d ds Hd Hds IH]; intros [|f] p acc H Hf Ha; try (simpl in Hf; lia).
  - rewrite (atol_digits_end _ _ _ rest) by (done || lia). simpl.
    rewrite (proj2 (Z.leb_le _ _)) by lia. done.
  - cbn [app] in H. cbn [atol_digits]. simpl in Hf. next_char H.
    unfold is_digit in Hd. rewrite s8_ascii by lia.
    rewrite (proj2 (Z.ltb_ge d 48)), (proj2 (Z.ltb_ge 57 d)) by lia. simpl.
    change (digits_val acc (d :: ds)) with (digits_val (acc * 10 + (d - 48)) ds).
    destruct (Z.leb_spec (acc * 10 + (d - 48)) 9223372036854775807).
    + rewrite !long_chk_ok by lia. mret. rewrite long_chk_ok by lia. mret.
      apply IH; try done || lia.
    + pose proof (digits_val_ge (acc * 10 + (d - 48)) ds ltac:(lia) Hds).
      rewrite (proj2 (Z.leb_gt (digits_val _ _) _)) by lia.
      destruct (Z.leb_spec (acc * 10) 9223372036854775807).
      * rewrite long_chk_ok by lia. mret. by rewrite long_chk_over by lia.
      * by rewrite long_chk_over by lia.
Qed.

Lemma atol_skip_spec fuel m p ws s :
  cstr m p (ws ++ s) -> Forall (fun c => c = 32 \/ c = 9) ws ->
  match s with c :: _ => c <> 32 /\ c <> 9 | [] => True end ->
  (length (ws ++ s) < fuel)%nat ->
  atol_skip fuel m p = Ok (p + Z.of_nat (length ws)).
Proof.
  intros H Hw Hs. revert fuel p H. induction Hw as [|w ws Hw Hws IH];
    intros [|f] p H Hf; try (simpl in Hf; lia); simpl in H, Hf; cbn [atol_skip].
  - destruct s as [|c s]; next_char H; [simpl; f_equal; lia|].
    rewrite (proj2 (Z.eqb_neq (s8 c) 32)), (proj2 (Z.eqb_neq (s8 c) 9)) by mach.
    simpl. f_equal. lia.
  - next_char H. rewrite s8_ascii by lia.
    replace ((w =? 32) || (w =? 9)) with true by (destruct Hw as [-> | ->]; done).
    rewrite IH by (done || lia). f_equal. simpl. lia.
Qed.

Lemma atol_digits_top m p ds rest :
  cstr m p (ds ++ rest) -> Forall is_digit ds -> no_digit_head rest ->
  atol_digits (walk_fuel m) m p 0 =
  if digits_val 0 ds <=? LONG_MAX then Ok (digits_val 0 ds) else Err Undef.
Proof.
  intros H Hd Hn. apply (atol_digits_spec _ _ _ ds rest); eauto with hb.
  unfold LONG_MAX. lia.
Qed.

(** The sign [atol] accepts before the digits, and its factor. *)
Definition sign_of (sg : list Z) : Z := if decide (sg = [45]) then -1 else 1.

Lemma atol_spec m p ws sg ds rest :
  cstr m p (ws ++ sg ++ ds ++ rest) ->
  Forall (fun c => c = 32 \/ c = 9) ws ->
  sg = [] \/ sg = [45] \/ sg = [43] ->
  ds <> [] -> Forall is_digit ds -> no_digit_head rest ->
  atol m p =
  if digits_val 0 ds <=? LONG_MAX then Ok (sign_of sg * digits_val 0 ds) else Err Undef.
Proof.
  intros H Hw Hsg Hne Hd Hn. unfold atol.
  assert (Hd0 : exists d ds', ds = d :: ds' /\ is_digit d).
  { destruct Hd as [|d ds' Hd Hds]; [done|eauto]. }
  destruct Hd0 as (d & ds' & Eds & Hdd). unfold is_digit in Hdd.
  rewrite (atol_skip_spec _ _ _ ws (sg ++ ds ++ rest)); eauto with hb;
    [|destruct Hsg as [-> | [-> | ->]]; rewrite Eds; simpl; lia].
  mret. apply cstr_suffix in H. set (q := p + Z.of_nat (length ws)) in *.
  destruct Hsg as [-> | [-> | ->]]; simpl in H.
  - rewrite Eds in H. pose proof H as H'. simpl in H'. next_char H'.
    rewrite s8_ascii by lia.
    rewrite (proj2 (Z.eqb_neq d 45)), (proj2 (Z.eqb_neq d 43)) by lia.
    rewrite <- Eds in H. rewrite (atol_digits_top _ _ ds rest) by done.
    unfold sign_of. rewrite decide_False by done. by rewrite Z.mul_1_l.
  - pose proof H as H'. next_char H'. change (s8 45 =? 45) with true. mret.
    rewrite (atol_digits_top _ _ ds rest) by done.
    unfold sign_of. rewrite decide_True by done.
    pose proof (digits_val_ge 0 ds ltac:(lia) Hd).
    destruct (Z.leb_spec (digits_val 0 ds) LONG_MAX) as [Hle|]; [|done].
    unfold LONG_MAX in Hle. mret. rewrite long_chk_ok by lia. f_equal; lia.
  - pose proof H as H'. next_char H'.
    change (s8 43 =? 45) with false. change (s8 43 =? 43) with true. cbv iota.
    rewrite (atol_digits_top _ _ ds rest) by done.
    unfold sign_of. rewrite decide_False by done. by rewrite Z.mul_1_l.
Qed.

(** ** simple_glob *)

Lemma cstr_tail m p c s : cstr m p (c :: s) -> cstr m (p + 1) s.
Proof. intros H. by apply cstr_cons in H as (_ & _ & H). Qed.

(** The first character, the terminator included. *)
Lemma cstr_first m p s :
  cstr m p s -> exists c, loadc m p = Ok c /\ (c =? 42) = glob_open s.
Proof.
  destruct s as [|x s]; intros H; next_char H.
  - eexists. split; [done|]. done.
  - eexists. split; [done|]. simpl.
    change 42 with (s8 42) at 1. apply s8_eqb; lia.
Qed.

Lemma cstr_last m p s c :
  cstr m p s -> last s = Some c -> m !! (p + Z.of_nat (length s) - 1) = Some c.
Proof.
  intros [Hb _ _] Hl. apply last_Some in Hl as [s' ->].
  rewrite <- app_assoc in Hb. apply bytes_at_app in Hb as [_ Hb].
  simpl in Hb. apply bytes_at_cons in Hb as [Hb _].
  rewrite length_app. simpl. rewrite <- Hb. f_equal. lia.
Qed.

(** The pattern after a leading star, and its copy, as [simple_glob] has them
    when it looks at the last character. *)
Lemma glob_body_cstr m p pat :
  cstr m p pat -> cstr m (if glob_open pat then p + 1 else p) (glob_body pat).
Proof.
  unfold glob_body, glob_open. destruct pat as [|c pat]; [done|].
  destruct (c =? 42); [apply cstr_tail|done].
Qed.

Lemma glob_body_length pat :
  Z.of_nat (length (glob_body pat)) =
  if glob_open pat then Z.of_nat (length pat) - 1 else Z.of_nat (length pat).
Proof.
  unfold glob_body, glob_open. destruct pat as [|c pat]; [done|].
  destruct (c =? 42); simpl; lia.
Qed.

(** Cutting the string at its last character. *)
Lemma cstr_cut m p s :
  cstr m p s -> s <> [] ->
  cstr (<[p + (Z.of_nat (length s) - 1) := 0]> m) p (take (length s - 1) s).
Proof.
  intros [Hb Hc Hf] Hs. assert (0 < length s)%nat by (destruct s; [done|simpl; lia]).
  split.
  - apply bytes_at_app. rewrite length_take, Nat.min_l by lia. split.
    + eapply bytes_at_frame with m.
      { intros x. rewrite length_take, Nat.min_l by lia. intros. apply lookup_insert_ne. lia. }
      rewrite <- (take_drop (length s - 1) s) in Hb. rewrite <- app_assoc in Hb.
      by apply bytes_at_app in Hb as [Hb _].
    + apply bytes_at_cons. split; [|apply bytes_at_nil].
      replace (p + Z.of_nat (length s - 1)) with (p + (Z.of_nat (length s) - 1)) by lia.
      apply lookup_insert_eq.
  - by apply Forall_take.
  - rewrite length_take. lia.
Qed.

Lemma glob_matches_cases t p :
  glob_matches t p <->
  match glob_open p, glob_close p with
  | true, true => exists l r, t = l ++ glob_core p ++ r
  | false, true => exists r, t = glob_core p ++ r
  | true, false => exists l, t = l ++ glob_core p
  | false, false => t = glob_core p
  end.
Proof.
  unfold glob_matches. destruct (glob_open p), (glob_close p).
  - split; [intros (l & r & -> & _); eauto|]. intros (l & r & ->). by exists l, r.
  - split; [intros (l & r & -> & _ & Hr); rewrite (Hr eq_refl), app_nil_r; eauto|].
    intros [l ->]. exists l, []. by rewrite app_nil_r.
  - split; [intros (l & r & -> & Hl & _); rewrite (Hl eq_refl); eauto|].
    intros [r ->]. by exists [], r.
  - split; [intros (l & r & -> & Hl & Hr); rewrite (Hl eq_refl), (Hr eq_refl); by rewrite app_nil_r|].
    intros ->. exists [], []. by rewrite app_nil_r.
Qed.

(** The last part of [simple_glob], once the core of the pattern is in [copy]. *)
Lemma glob_decide_spec m text copy t core (o c : bool) :
  cstr m text t -> cstr m copy core -> 0 < text ->
  exists b,
    (if o && c then r ← strstr m text copy; Ok (negb (r =? 0))
     else if c then r ← strstr m text copy; Ok (r =? text)
     else if o then
       text_len ← strlen m text;
       if text_len <? Z.of_nat (length core) then Ok false
       else r ← strcmp m (text + text_len - Z.of_nat (length core)) copy; Ok (r =? 0)
     else r ← strcmp m text copy; Ok (r =? 0)) = Ok b /\
    (b = true <->
     match o, c with
     | true, true => exists l r, t = l ++ core ++ r
     | false, true => exists r, t = core ++ r
     | true, false => exists l, t = l ++ core
     | false, false => t = core
     end).
Proof.
  intros Ht Hc Hpos. pose proof (cstr_chars _ _ _ Ht). pose proof (cstr_chars _ _ _ Hc).
  destruct o, c; simpl.
  - rewrite (strstr_spec _ _ _ t core) by done. mret. eexists. split; [done|].
    destruct (find_sub t core) as [k|] eqn:E; simpl.
    + apply find_sub_some in E as [(l & r & E & _) _].
      rewrite (proj2 (Z.eqb_neq _ 0)) by lia. split; eauto.
    + apply find_sub_none in E. split; [done|tauto].
  - rewrite (strlen_spec _ _ _ Ht). mret.
    destruct (Z.ltb_spec (Z.of_nat (length t)) (Z.of_nat (length core))) as [Hlt|Hge].
    + eexists. split; [done|]. split; [done|]. intros [l ->]. rewrite length_app in Hlt. lia.
    + assert (Hlt : (length t - length core <= length t)%nat) by lia.
      pose proof (take_drop (length t - length core) t) as Hsplit.
      set (l := take (length t - length core) t) in *.
      set (r := drop (length t - length core) t) in *.
      assert (Hl : length l = (length t - length core)%nat) by (unfold l; rewrite length_take; lia).
      rewrite <- Hsplit in Ht. apply cstr_suffix in Ht.
      replace (text + Z.of_nat (length t) - Z.of_nat (length core))
        with (text + Z.of_nat (length l)) by lia.
      rewrite (strcmp_spec _ _ _ r core) by done. mret. eexists. split; [done|].
      rewrite Z.eqb_eq, lexcmp_zero by (done || by destruct Ht). split.
      * intros Er. exists l. congruence.
      * intros [l' E]. assert (length l' = length l).
        { apply (f_equal length) in E. rewrite length_app in E. lia. }
        rewrite <- Hsplit in E. by apply app_inj_1 in E as [_ E].
  - rewrite (strstr_spec _ _ _ t core) by done. mret. eexists. split; [done|].
    destruct (find_sub t core) as [k|] eqn:E; simpl.
    + apply find_sub_some in E as [(l & r & E & Hk) Hmin]. rewrite Z.eqb_eq. split.
      * intros Hz. destruct l; [eauto|]. simpl in Hk. lia.
      * intros [r' E']. specialize (Hmin [] r' E'). simpl in Hmin. lia.
    + apply find_sub_none in E. rewrite Z.eqb_eq. split; [lia|].
      intros [r E']. exfalso. apply E. by exists [], r.
  - rewrite (strcmp_spec _ _ _ t core) by done. mret. eexists. split; [done|].
    rewrite Z.eqb_eq. by apply lexcmp_zero.
Qed.

(** The string left in [copy] and whether a trailing star was cut off it. *)
Lemma glob_cut_spec m p copy pat :
  cstr m p (glob_body pat) -> cstr m copy (glob_body pat) ->
  let n := Z.of_nat (length (glob_body pat)) in
  (if 0 <? n then c ← loadc m (p + n - 1); Ok (c =? 42) else Ok false) = Ok (glob_close pat) /\
  exists m',
    (if glob_close pat then store8 m (copy + (n - 1)) 0 else Ok m) = Ok m' /\
    cstr m' copy (glob_core pat) /\
    (if glob_close pat then n - 1 else n) = Z.of_nat (length (glob_core pat)) /\
    forall x, x < copy \/ copy + n <= x -> m' !! x = m !! x.
Proof.
  intros Hp Hc n. unfold glob_core, glob_close.
  destruct (last (glob_body pat)) as [c|] eqn:El.
  - pose proof (cstr_last _ _ _ _ Hp El) as Hl. fold n in Hl.
    assert (Hne : glob_body pat <> []) by (intros E; by rewrite E in El).
    assert (0 < n) by (unfold n; destruct (glob_body pat); [done|simpl; lia]).
    assert (Hcr : 0 < c < 256).
    { apply last_Some in El as [l' E]. destruct Hp as [_ Hch _]. rewrite E in Hch.
      apply Forall_app in Hch as [_ [Hch _]%Forall_cons]. done. }
    rewrite (proj2 (Z.ltb_lt 0 n)) by lia. rewrite (loadc_ok _ _ _ Hl). mret. split.
    { f_equal. change 42 with (s8 42) at 1. apply s8_eqb; lia. }
    destruct (Z.eqb_spec c 42) as [->|Hn].
    + rewrite store8_ok by (apply (cstr_mapped _ _ _ Hc); fold n; lia).
      eexists. split; [done|]. split; [by apply cstr_cut|].
      rewrite length_take. split; [lia|]. intros x Hx. apply lookup_insert_ne. lia.
    + exists m. auto.
  - apply last_None in El. unfold n. rewrite El. simpl. split; [done|].
    exists m. rewrite El in Hc. auto.
Qed.

Lemma simple_glob_spec m text pattern copy t p :
  cstr m text t -> cstr m pattern p -> 0 < text ->
  mapped m copy (Z.of_nat (length p) + 1) ->
  disjoint_ranges copy (Z.of_nat (length p) + 1) text (Z.of_nat (length t) + 1) ->
  disjoint_ranges copy (Z.of_nat (length p) + 1) pattern (Z.of_nat (length p) + 1) ->
  exists b, simple_glob m text pattern copy = Ok b /\ (b = true <-> glob_matches t p).
Proof.
  intros Ht Hp Hpos Hm Hd1 Hd2. unfold simple_glob, disjoint_ranges in *.
  rewrite (strlen_spec _ _ _ Hp). mret.
  destruct (cstr_first _ _ _ Hp) as (c0 & -> & Eo). mret. rewrite Eo.
  pose proof (glob_body_length p) as Hlen. pose proof (cstr_fits _ _ _ Hp) as Hfit.
  assert (Hn : (if glob_open p then u64 (Z.of_nat (length p) - 1) else Z.of_nat (length p))
    = Z.of_nat (length (glob_body p))).
  { rewrite Hlen. destruct (glob_open p) eqn:E; [|done]. apply u64_small. lia. }
  rewrite Hn. apply glob_body_cstr in Hp.
  assert (Hle : Z.of_nat (length (glob_body p)) <= Z.of_nat (length p))
    by (rewrite Hlen; destruct (glob_open p); lia).
  set (q := if glob_open p then pattern + 1 else pattern) in *.
  assert (Hq : pattern <= q /\ q + Z.of_nat (length (glob_body p)) <= pattern + Z.of_nat (length p))
    by (unfold q; destruct (glob_open p); lia).
  rewrite (strcpy_spec _ _ _ (glob_body p));
    [|done|eapply mapped_sub; [exact Hm|lia..]|unfold disjoint_ranges; lia].
  mret. set (m1 := write_bytes m copy (glob_body p ++ [0])).
  assert (Hout : forall x, x < copy \/ copy + Z.of_nat (length p) < x -> m1 !! x = m !! x).
  { intros x Hx. apply write_bytes_out. rewrite length_app. simpl. lia. }
  assert (Ht1 : cstr m1 text t) by (eapply cstr_frame; [exact Ht|intros; apply Hout; lia]).
  assert (Hq1 : cstr m1 q (glob_body p)) by (eapply cstr_frame; [exact Hp|intros; apply Hout; lia]).
  assert (Hc1 : cstr m1 copy (glob_body p)) by (destruct Hp; by apply cstr_write).
  destruct (glob_cut_spec m1 q copy p Hq1 Hc1) as (-> & m2 & Hm2 & Hc2 & Hn2 & Hout2).
  mret. rewrite Hn2.
  replace (if glob_close p then store8 m1 (copy + Z.of_nat (length (glob_core p))) 0 else Ok m1)
    with (Ok m2) by (rewrite <- Hn2, <- Hm2; by destruct (glob_close p)).
  mret. assert (Ht2 : cstr m2 text t).
  { eapply cstr_frame; [exact Ht1|]. intros x Hx. apply Hout2. lia. }
  destruct (glob_decide_spec m2 text copy t (glob_core p) (glob_open p) (glob_close p)
    Ht2 Hc2 Hpos) as (b & Eb & Hb).
  exists b. split; [exact Eb|]. rewrite Hb. symmetry. apply glob_matches_cases.
Qed.

(** ** No loop runs out of fuel *)

Lemma mapped_cons m a n : is_Some (m !! a) -> mapped m (a + 1) n -> mapped m a (n + 1).
Proof. intros H1 H2 x Hx. destruct (decide (x = a)) as [->|]; [done|]. apply H2. lia. Qed.

Lemma mapped_fuel_false m a : ~ mapped m a (Z.of_nat (walk_fuel m)).
Proof. intros H%mapped_size. unfold walk_fuel in H. lia. Qed.

Lemma loadc_err m a e : loadc m a = Err e -> e = Fault.
Proof. unfold loadc, load8. destruct (m !! a); simpl; congruence. Qed.

(** One round of a walking loop that ends without fuel: the address it read is
    mapped, and the rest of the walk is the induction hypothesis. *)
Ltac walk_step a :=
  match goal with
  | H : context [loadc ?m a] |- _ =>
      let E := fresh "E" in let e := fresh "e" in
      destruct (loadc m a) as [?|e] eqn:E; mret_in H;
      [apply loadc_inv in E | apply loadc_err in E; congruence]
  end.

Lemma strlen_loop_fuel f m p len :
  strlen_loop f m p len = Err Fuel -> mapped m p (Z.of_nat f).
Proof.
  revert p len. induction f as [|f IH]; intros p len H; [intros x; lia|].
  cbn [strlen_loop] in H. walk_step p. rewrite Nat2Z.inj_succ.
  apply mapped_cons; [done|]. destruct (_ =? _); [discriminate|eauto].
Qed.

Lemma strcat_end_fuel f m p : strcat_end f m p = Err Fuel -> mapped m p (Z.of_nat f).
Proof.
  revert p. induction f as [|f IH]; intros p H; [intros x; lia|].
  cbn [strcat_end] in H. walk_step p. rewrite Nat2Z.inj_succ.
  apply mapped_cons; [done|]. destruct (_ =? _); [discriminate|eauto].
Qed.

Lemma strcat_copy_fuel f m p src :
  strcat_copy f m p src = Err Fuel -> mapped m src (Z.of_nat f).
Proof.
  revert m p src. induction f as [|f IH]; intros m p src H; [intros x; lia|].
  cbn [strcat_copy] in H. walk_step src. rewrite Nat2Z.inj_succ.
  apply mapped_cons; [done|].
  unfold store8 in H. destruct (m !! p) eqn:Ep; mret_in H; [|discriminate].
  destruct (_ =? _); [discriminate|]. apply IH in H.
  eapply same_dom_mapped; [|exact H]. symmetry. apply same_dom_insert. eauto.
Qed.

Lemma strncmp_loop_fuel f m a b n :
  strncmp_loop f m a b n = Err Fuel -> mapped m a (Z.of_nat f).
Proof.
  revert a b n. induction f as [|f IH]; intros a b n H; [intros x; lia|].
  cbn [strncmp_loop] in H. destruct (n =? 0); [discriminate|].
  walk_step a. rewrite Nat2Z.inj_succ. apply mapped_cons; [done|].
  walk_step b. destruct (_ || _); [discriminate|eauto].
Qed.

Lemma strchr_loop_fuel f m p c : strchr_loop f m p c = Err Fuel -> mapped m p (Z.of_nat f).
Proof.
  revert p. induction f as [|f IH]; intros p H; [intros x; lia|].
  cbn [strchr_loop] in H. walk_step p. rewrite Nat2Z.inj_succ.
  apply mapped_cons; [done|].
  destruct (negb _); [|discriminate]. destruct (_ =? 0); [discriminate|eauto].
Qed.

Lemma atol_skip_fuel f m p : atol_skip f m p = Err Fuel -> mapped m p (Z.of_nat f).
Proof.
  revert p. induction f as [|f IH]; intros p H; [intros x; lia|].
  cbn [atol_skip] in H. walk_step p. rewrite Nat2Z.inj_succ.
  apply mapped_cons; [done|]. destruct (_ || _); [eauto|discriminate].
Qed.

Lemma long_chk_err z e : long_chk z = Err e -> e = Undef.
Proof. unfold long_chk. destruct (long_ok z); congruence. Qed.

Lemma atol_digits_fuel f m p acc :
  atol_digits f m p acc = Err Fuel -> mapped m p (Z.of_nat f).
Proof.
  revert p acc. induction f as [|f IH]; intros p acc H; [intros x; lia|].
  cbn [atol_digits] in H. walk_step p. rewrite Nat2Z.inj_succ.
  apply mapped_cons; [done|]. destruct (_ || _); [discriminate|].
  destruct (long_chk (acc * 10)) eqn:E1; mret_in H; [|apply long_chk_err in E1; congruence].
  destruct (long_chk _) eqn:E2 in H; mret_in H; [eauto|apply long_chk_err in E2; congruence].
Qed.

Lemma atol_digits_never m p acc : atol_digits (walk_fuel m) m p acc <> Err Fuel.
Proof. intros H%atol_digits_fuel. by apply mapped_fuel_false in H. Qed.

Lemma strlen_never m p : strlen m p <> Err Fuel.
Proof. intros H%strlen_loop_fuel. by apply mapped_fuel_false in H. Qed.

Lemma atol_never m p : atol m p <> Err Fuel.
Proof.
  unfold atol. destruct (atol_skip _ m p) as [s|e] eqn:E; mret.
  - destruct (loadc m s) as [c|e] eqn:Ec; mret; [|apply loadc_err in Ec; congruence].
    destruct (c =? 45); [|destruct (c =? 43); apply atol_digits_never].
    pose proof (atol_digits_never m (s + 1) 0) as Hn.
    destruct (atol_digits _ m (s + 1) 0); mret; [|congruence].
    intros H%long_chk_err. discriminate.
  - intros [= ->]. by apply atol_skip_fuel, mapped_fuel_false in E.
Qed.

(** ** The properties *)

(** [strcat] leaves the concatenation of the two strings at [dest],
    terminated, and changes no other byte, when the destination has room for
    it and does not overlap the source. *)
Theorem strcat_appends m dest src d s :
  cstr m dest d -> cstr m src s ->
  mapped m dest (Z.of_nat (length d + length s) + 1) ->
  disjoint_ranges dest (Z.of_nat (length d + length s) + 1) src (Z.of_nat (length s) + 1) ->
  Z.of_nat (length d + length s) < 18446744073709551616 ->
  exists m', strcat m dest src = Ok m' /\ cstr m' dest (d ++ s) /\
    strlen m' dest = Ok (Z.of_nat (length d + length s)) /\
    forall x, x < dest + Z.of_nat (length d) \/ dest + Z.of_nat (length d + length s) < x ->
      m' !! x = m !! x.
Proof.
  intros Hd Hs Hm Hdis Hfit.
  destruct (strcat_result m dest src d s Hd Hs Hm Hdis Hfit) as (m' & E & Hc & Hf).
  exists m'. rewrite (strlen_spec _ _ _ Hc), length_app. auto.
Qed.

(** [strcmp] decides a strict order on the strings: it returns zero
    exactly on equal strings and a negative number exactly when the first
    string is smaller, comparing the characters as signed ones. *)
Theorem strcmp_order m a b s t :
  cstr m a s -> cstr m b t ->
  exists r, strcmp m a b = Ok r /\ (r = 0 <-> s = t) /\ (r < 0 <-> slex_lt s t).
Proof.
  intros Ha Hb. exists (lexcmp s t). split; [by apply strcmp_spec|].
  destruct Ha as [_ Ha _], Hb as [_ Hb _]. split; [by apply lexcmp_zero|by apply lexcmp_neg].
Qed.

(** [strstr] returns the address of the first occurrence of the second
    string in the first, and NULL exactly when there is none. *)
Theorem strstr_first m p q s t :
  cstr m p s -> cstr m q t -> 0 < p ->
  exists r, strstr m p q = Ok r /\
    (r = 0 <-> ~ exists l k, s = l ++ t ++ k) /\
    (r <> 0 -> exists l k, s = l ++ t ++ k /\ r = p + Z.of_nat (length l) /\
       forall l' k', s = l' ++ t ++ k' -> (length l <= length l')%nat).
Proof.
  intros Hp Hq Hpos. eexists. split; [by apply strstr_spec|].
  destruct (find_sub s t) as [i|] eqn:E; simpl.
  - apply find_sub_some in E as [(l & k & E & Hl) Hmin]. split.
    + split; [lia|]. intros H. exfalso. eauto.
    + intros _. exists l, k. split; [done|]. split; [lia|].
      intros l' k' E'. specialize (Hmin _ _ E'). lia.
  - apply find_sub_none in E. split; [tauto|lia].
Qed.

(** [memmove] copies the bytes the source held before the call, whether
    the ranges overlap or not and in whichever direction, and changes no
    other byte. *)
Theorem memmove_overlap m dest src l n :
  bytes_at m src l -> mem_wf m -> n = Z.of_nat (length l) -> mapped m dest n ->
  exists m', memmove m dest src n = Ok m' /\ bytes_at m' dest l /\
    forall x, x < dest \/ dest + n <= x -> m' !! x = m !! x.
Proof.
  intros Hb Hwf Hn Hm. exists (write_bytes m dest l). split.
  - apply memmove_spec; auto. by eapply bytes_at_range.
  - split; [apply write_bytes_at|]. intros x Hx. apply write_bytes_out. lia.
Qed.

(** [atol] reads optional blanks, an optional sign and the digits that
    follow, and returns the number they denote; when that number does not fit
    a [long] the accumulation overflows, which C leaves undefined. *)
Theorem atol_value m p ws sg ds rest :
  cstr m p (ws ++ sg ++ ds ++ rest) ->
  Forall (fun c => c = 32 \/ c = 9) ws ->
  sg = [] \/ sg = [45] \/ sg = [43] ->
  ds <> [] -> Forall is_digit ds -> no_digit_head rest ->
  atol m p =
  if digits_val 0 ds <=? LONG_MAX then Ok (sign_of sg * digits_val 0 ds) else Err Undef.
Proof. apply atol_spec. Qed.

(** [simple_glob] accepts exactly the texts its pattern describes: the
    core of the pattern with any text before it if the pattern starts with a
    star and any text after it if it ends with one. *)
Theorem simple_glob_decides m text pattern copy t p :
  cstr m text t -> cstr m pattern p -> 0 < text ->
  mapped m copy (Z.of_nat (length p) + 1) ->
  disjoint_ranges copy (Z.of_nat (length p) + 1) text (Z.of_nat (length t) + 1) ->
  disjoint_ranges copy (Z.of_nat (length p) + 1) pattern (Z.of_nat (length p) + 1) ->
  exists b, simple_glob m text pattern copy = Ok b /\ (b = true <-> glob_matches t p).
Proof. apply simple_glob_spec. Qed.

(** Every string loop ends, on any memory and any pointer: it returns or
    faults at an address outside the mapped ones, it never walks for ever. *)
Theorem string_loops_end m a b n c :
  strlen m a <> Err Fuel /\ strcat m a b <> Err Fuel /\ strncmp m a b n <> Err Fuel /\
  strchr m a c <> Err Fuel /\ atol m a <> Err Fuel.
Proof.
  repeat split.
  - apply strlen_never.
  - unfold strcat. destruct (strcat_end _ m a) as [p|e] eqn:E; mret.
    + intros H%strcat_copy_fuel. by apply mapped_fuel_false in H.
    + intros [= ->]. by apply strcat_end_fuel, mapped_fuel_false in E.
  - intros H%strncmp_loop_fuel. by apply mapped_fuel_false in H.
  - intros H%strchr_loop_fuel. by apply mapped_fuel_false in H.
  - apply atol_never.
Qed.

(** ** Witnesses *)

(** Two strings with room after the first, and a second memory with a
    pattern and space for its copy. *)
Definition demo_mem : mem :=
  write_bytes (write_bytes ∅ 100 (bytes_of_string "hyper" ++ replicate 15 0)) 200
    (bytes_of_string "bench" ++ [0]).

Definition demo_glob : mem :=
  write_bytes (write_bytes (write_bytes ∅ 100 (bytes_of_string "hyperbench" ++ [0])) 200
    (bytes_of_string "*rbe*" ++ [0])) 300 (replicate 6 7).

Definition demo_num : mem :=
  write_bytes ∅ 100 (bytes_of_string " -042x" ++ [0]).

Lemma strcat_appends_witness :
  exists m', strcat demo_mem 100 200 = Ok m' /\
    cstr m' 100 (bytes_of_string "hyper" ++ bytes_of_string "bench") /\
    strlen m' 100 = Ok 10.
Proof.
  destruct (strcat_appends demo_mem 100 200 (bytes_of_string "hyper") (bytes_of_string "bench"))
    as (m' & H1 & H2 & H3 & _); [by_eval|by_eval|by_eval|left; vm_compute; congruence|done|].
  eauto.
Defined.

Lemma strcmp_order_witness :
  exists r, strcmp demo_mem 100 200 = Ok r /\
    (r = 0 <-> bytes_of_string "hyper" = bytes_of_string "bench").
Proof.
  destruct (strcmp_order demo_mem 100 200 (bytes_of_string "hyper") (bytes_of_string "bench"))
    as (r & H1 & H2 & _); [by_eval|by_eval|]. eauto.
Defined.

Lemma strstr_first_witness :
  exists r, strstr demo_glob 104 200 = Ok r /\
    (r = 0 <-> ~ exists l k, bytes_of_string "rbench" = l ++ bytes_of_string "*rbe*" ++ k).
Proof.
  destruct (strstr_first demo_glob 104 200 (bytes_of_string "rbench") (bytes_of_string "*rbe*"))
    as (r & H1 & H2 & _); [by_eval|by_eval|lia|]. eauto.
Defined.

(** The overlapping case: five bytes moved up by two. *)
Lemma memmove_overlap_witness :
  exists m', memmove demo_mem 102 100 5 = Ok m' /\ bytes_at m' 102 (bytes_of_string "hyper").
Proof.
  destruct (memmove_overlap demo_mem 102 100 (bytes_of_string "hyper") 5)
    as (m' & H1 & H2 & _); [by_eval|by_eval|done|by_eval|]. eauto.
Defined.

Lemma atol_value_witness : atol demo_num 100 = Ok (-42).
Proof.
  rewrite (atol_value demo_num 100 [32] [45] (bytes_of_string "042") (bytes_of_string "x")).
  - reflexivity.
  - by_eval.
  - by_eval.
  - auto.
  - done.
  - unfold is_digit. by_eval.
  - split; [vm_compute; split; reflexivity|vm_compute; intros [? ?]; congruence].
Defined.

Lemma simple_glob_decides_witness :
  exists b, simple_glob demo_glob 100 200 300 = Ok b /\
    (b = true <-> glob_matches (bytes_of_string "hyperbench") (bytes_of_string "*rbe*")).
Proof.
  apply (simple_glob_decides demo_glob 100 200 300); [by_eval|by_eval|lia|by_eval|right|right];
    vm_compute; congruence.
Defined.
