(* ===== verification/Printf.v ===== *)
(** * lib/printf.c

    [vsnprintf] and the functions under it, as the source has them: a stream
    with a bounded buffer, padding, number printing in a local array, and the
    format loop with its [goto morefmt]. A local array is a memory block of
    its own, so an access outside it faults; its bytes start as 0xAA, which
    stands for whatever the stack held. The variable arguments are the 64-bit
    slots of the x86-64 calling convention.

    The second half gives the text a format denotes ([format]) and shows that
    [vsnprintf] stores it, cut to the buffer. *)

From stdpp Require Import base gmap list numbers strings.
From Stdlib Require Import ZArith Lia.
From S2P Require Import Prelude Mem CString.

#[local] Open Scope Z_scope.

(** ** Data *)

Record pstream := mkPstream {
  ps_buffer : Z;
  ps_remain : Z;
  ps_added : Z;
}.

Record strprops := mkProps {
  pad : Z;
  npad : Z;
  alternate : bool;
}.

(** A string pointer: into the kernel's memory, or into a local array. *)
Inductive cptr :=
  | Glob (a : Z)
  | Loc (block : mem) (a : Z).

Definition cptr_add (s : cptr) (i : Z) : cptr :=
  match s with
  | Glob a => Glob (a + i)
  | Loc b a => Loc b (a + i)
  end.

Definition cptr_loadc (m : mem) (s : cptr) : res Z :=
  match s with
  | Glob a => loadc m a
  | Loc b a => loadc b a
  end.

Definition cptr_strlen (m : mem) (s : cptr) : res Z :=
  match s with
  | Glob a => strlen m a
  | Loc b a => strlen b a
  end.

Definition cptr_fuel (m : mem) (s : cptr) : nat :=
  match s with
  | Glob _ => walk_fuel m
  | Loc b _ => walk_fuel b
  end.

Definition local_array (n : nat) : mem := write_bytes ∅ 0 (replicate n 170).

Definition BUFSZ : Z := 2000.

(** ** The stream *)

Definition addchar (m : mem) (p : pstream) (c : Z) : res (mem * pstream) :=
  '(m', b, r) ←
    (if ps_remain p =? 0 then Ok (m, ps_buffer p, ps_remain p)
     else
       m' ← store8 m (ps_buffer p) c;
       r ← int_chk (ps_remain p - 1);
       Ok (m', ps_buffer p + 1, r));
  a ← int_chk (ps_added p + 1);
  Ok (m', mkPstream b r a).

(** [while (npad > 0) { addchar(p, pad); --npad; }], [n] rounds. *)
Fixpoint addpad (n : nat) (m : mem) (p : pstream) (c : Z) : res (mem * pstream) :=
  match n with
  | O => Ok (m, p)
  | S n' => '(m', p') ← addchar m p c; addpad n' m' p' c
  end.

(** [while ( *s) addchar(p, *s++);] *)
Fixpoint addstr (fuel : nat) (m : mem) (p : pstream) (s : cptr) : res (mem * pstream) :=
  match fuel with
  | O => Err Fuel
  | S f =>
      c ← cptr_loadc m s;
      if c =? 0 then Ok (m, p)
      else '(m', p') ← addchar m p c; addstr f m' p' (cptr_add s 1)
  end.

Definition print_str (m : mem) (p : pstream) (s : cptr) (props : strprops)
    : res (mem * pstream) :=
  '(m, p, n) ←
    (if 0 <? npad props then
       len ← cptr_strlen m s;
       let n := s32 (u64 (npad props) - len) in
       '(m, p) ← addpad (Z.to_nat n) m p (pad props);
       Ok (m, p, Z.min n 0)
     else Ok (m, p, npad props));
  '(m, p) ← addstr (cptr_fuel m s) m p s;
  if n <? 0 then
    len ← cptr_strlen m s;
    let n := s32 (u64 n + len) in
    addpad (Z.to_nat (- n)) m p 32
  else Ok (m, p).

(** ** Numbers *)

Definition digits : list Z := bytes_of_string "0123456789abcdef".

(** [while (n) { *p++ = digits[n % base]; n /= base; }] in the block [b]. *)
Fixpoint put_digits (fuel : nat) (b : mem) (p n base : Z) : res (mem * Z) :=
  match fuel with
  | O => Err Fuel
  | S f =>
      if n =? 0 then Ok (b, p)
      else
        d ← of_option Undef (if 0 <=? Z.rem n base then digits !! Z.to_nat (Z.rem n base) else None);
        b' ← store8 b p d;
        put_digits f b' (p + 1) (Z.quot n base) base
  end.

(** A 64-bit number has at most 64 digits in any base. *)
Definition digit_fuel : nat := 65.

(** The loop that swaps [buf[i]] and [p[-1-i]]; [k] rounds are left. *)
Fixpoint swap_loop (k : nat) (b : mem) (i p : Z) : res mem :=
  match k with
  | O => Ok b
  | S k' =>
      tmp ← load8 b i;
      x ← load8 b (p - 1 - i);
      b ← store8 b i x;
      b ← store8 b (p - 1 - i) tmp;
      swap_loop k' b (i + 1) p
  end.

Definition print_int (m : mem) (ps : pstream) (n base : Z) (props : strprops)
    : res (mem * pstream) :=
  let buf := local_array 26 in
  n' ← (if n <? 0 then long_chk (- n) else Ok n);
  '(buf, p) ← put_digits digit_fuel buf 0 n' base;
  '(buf, p) ← (if n <? 0 then b ← store8 buf p 45; Ok (b, p + 1) else Ok (buf, p));
  '(buf, p) ← (if p =? 0 then b ← store8 buf p 48; Ok (b, p + 1) else Ok (buf, p));
  buf ← swap_loop (Z.to_nat (p / 2)) buf 0 p;
  buf ← store8 buf p 0;
  print_str m ps (Loc buf 0) props.

Definition print_unsigned (m : mem) (ps : pstream) (n base : Z) (props : strprops)
    : res (mem * pstream) :=
  let buf := local_array 27 in
  '(buf, p) ← put_digits digit_fuel buf 0 n base;
  '(m, ps, buf, p, props) ←
    (if p =? 0 then b ← store8 buf p 48; Ok (m, ps, b, p + 1, props)
     else if alternate props && (base =? 16) then
       if pad props =? 48 then
         '(m, ps) ← addchar m ps 48;
         '(m, ps) ← addchar m ps 120;
         let props :=
           if 0 <? npad props
           then mkProps (pad props) (Z.max (npad props - 2) 0) (alternate props)
           else props in
         Ok (m, ps, buf, p, props)
       else
         b ← store8 buf p 120;
         b ← store8 b (p + 1) 48;
         Ok (m, ps, b, p + 2, props)
     else Ok (m, ps, buf, p, props));
  buf ← swap_loop (Z.to_nat (p / 2)) buf 0 p;
  buf ← store8 buf p 0;
  print_str m ps (Loc buf 0) props.

(** ** The format *)

(** [while ( *f >= '0' && *f <= '9') ++f, ++len;] *)
Fixpoint fmt_digits (fuel : nat) (m : mem) (f len : Z) : res Z :=
  match fuel with
  | O => Err Fuel
  | S k =>
      c ← loadc m f;
      if (48 <=? c) && (c <=? 57) then fmt_digits k m (f + 1) (len + 1) else Ok len
  end.

(** The number at the format pointer, and the pointer after it. *)
Definition fmtnum (m : mem) (fmt : Z) : res (Z * Z) :=
  c ← loadc m fmt;
  len ← (if c =? 45 then fmt_digits (walk_fuel m) m (fmt + 1) 1
         else fmt_digits (walk_fuel m) m fmt 0);
  num ← atol m fmt;
  Ok (s32 num, fmt + len).

(** [va_arg]: the next slot, converted to the type asked for. *)
Definition va_arg (va : list Z) : res (Z * list Z) :=
  match va with
  | x :: va' => Ok (x, va')
  | [] => Err Undef
  end.

Definition va_signed (nlong x : Z) : Z := if nlong =? 0 then s32 x else s64 x.
Definition va_unsigned (nlong x : Z) : Z := if nlong =? 0 then u32 x else u64 x.

(** From the label [morefmt] to the end of the [switch]. *)
Fixpoint vsn_more (fuel : nat) (m : mem) (s : pstream) (fmt : Z) (va : list Z)
    (nlong : Z) (props : strprops) : res (mem * pstream * Z * list Z) :=
  match fuel with
  | O => Err Fuel
  | S k =>
      f ← loadc m fmt;
      let fmt := fmt + 1 in
      if f =? chr "%" then '(m, s) ← addchar m s 37; Ok (m, s, fmt, va)
      else if f =? chr "c" then
        '(x, va) ← va_arg va;
        '(m, s) ← addchar m s (s8 (s32 x)); Ok (m, s, fmt, va)
      else if f =? 0 then Ok (m, s, fmt - 1, va)
      else if f =? chr "#" then
        vsn_more k m s fmt va nlong (mkProps (pad props) (npad props) true)
      else if f =? chr "0" then
        '(num, fmt) ← fmtnum m fmt;
        vsn_more k m s fmt va nlong (mkProps 48 num (alternate props))
      else if ((chr "1" <=? f) && (f <=? chr "9")) || (f =? chr "-") then
        '(num, fmt) ← fmtnum m (fmt - 1);
        vsn_more k m s fmt va nlong (mkProps (pad props) num (alternate props))
      else if f =? chr "l" then vsn_more k m s fmt va (nlong + 1) props
      else if (f =? chr "t") || (f =? chr "z") then vsn_more k m s fmt va 1 props
      else if f =? chr "d" then
        '(x, va) ← va_arg va;
        '(m, s) ← print_int m s (va_signed nlong x) 10 props; Ok (m, s, fmt, va)
      else if f =? chr "u" then
        '(x, va) ← va_arg va;
        '(m, s) ← print_unsigned m s (va_unsigned nlong x) 10 props; Ok (m, s, fmt, va)
      else if f =? chr "x" then
        '(x, va) ← va_arg va;
        '(m, s) ← print_unsigned m s (va_unsigned nlong x) 16 props; Ok (m, s, fmt, va)
      else if f =? chr "p" then
        '(x, va) ← va_arg va;
        '(m, s) ← print_unsigned m s (u64 x) 16 (mkProps (pad props) (npad props) true);
        Ok (m, s, fmt, va)
      else if f =? chr "s" then
        '(x, va) ← va_arg va;
        '(m, s) ← print_str m s (Glob (u64 x)) props; Ok (m, s, fmt, va)
      else '(m, s) ← addchar m s f; Ok (m, s, fmt, va)
  end.

Definition props0 : strprops := mkProps 32 0 false.

(** The loop over the format string. *)
Fixpoint vsn_loop (fuel : nat) (m : mem) (s : pstream) (fmt : Z) (va : list Z)
    : res (mem * pstream) :=
  match fuel with
  | O => Err Fuel
  | S k =>
      f ← loadc m fmt;
      if f =? 0 then Ok (m, s)
      else if negb (f =? chr "%") then
        '(m, s) ← addchar m s f; vsn_loop k m s (fmt + 1) va
      else
        '(m, s, fmt, va) ← vsn_more (walk_fuel m) m s (fmt + 1) va 0 props0;
        vsn_loop k m s fmt va
  end.

Definition vsnprintf (m : mem) (buf size fmt : Z) (va : list Z) : res (mem * Z) :=
  r ← int_chk (size - 1);
  '(m, s) ← vsn_loop (walk_fuel m) m (mkPstream buf r 0) fmt va;
  m ← store8 m (ps_buffer s) 0;
  Ok (m, ps_added s).

Definition snprintf (m : mem) (buf size fmt : Z) (va : list Z) : res (mem * Z) :=
  vsnprintf m buf size fmt va.

(** ** binstr *)

Definition BINSTR_SZ : Z := 80.

(** The [for (;;)] of [binstr]; [k] bits are left after this one. *)
Fixpoint binstr_loop (k : nat) (m : mem) (x c i : Z) : res (mem * Z) :=
  m ← store8 m c (if Z.land x (Z.shiftl 1 (64 - i - 1)) =? 0 then 48 else 49);
  let c := c + 1 in
  let i := i + 1 in
  match k with
  | O => m ← store8 m c 0; Ok (m, c)
  | S k' =>
      if Z.rem i 4 =? 0 then m ← store8 m c 39; binstr_loop k' m x (c + 1) i
      else binstr_loop k' m x c i
  end.

(** With the test of the closing [assert]. *)
Definition binstr (m : mem) (x out : Z) : res (mem * bool) :=
  '(m, c) ← binstr_loop 63 m x out 0;
  Ok (m, c + 1 - out =? BINSTR_SZ).

(** ** What a format denotes *)

(** The text of [body] in a field: padded on the left for a positive width,
    on the right, with blanks, for a negative one. *)
Definition pad_text (props : strprops) (body : list Z) : list Z :=
  let len := Z.of_nat (length body) in
  replicate (Z.to_nat (npad props - len)) (pad props) ++ body ++
  replicate (Z.to_nat (- npad props - len)) 32.

Definition digit_char (d : Z) : Z := nth (Z.to_nat d) digits 0.

(** The digits of a number, least significant first. *)
Fixpoint rev_digits (fuel : nat) (n base : Z) : list Z :=
  match fuel with
  | O => []
  | S f => if n =? 0 then [] else digit_char (n mod base) :: rev_digits f (n / base) base
  end.

Definition num_text (n base : Z) : list Z :=
  if n =? 0 then [48] else rev (rev_digits digit_fuel n base).

Definition int_text (n base : Z) (props : strprops) : res (list Z) :=
  if n =? -9223372036854775808 then Err Undef
  else Ok (pad_text props ((if n <? 0 then [45] else []) ++ num_text (Z.abs n) base)).

Definition uns_text (n base : Z) (props : strprops) : list Z :=
  if alternate props && (base =? 16) && negb (n =? 0) then
    if pad props =? 48 then
      [48; 120] ++
      pad_text
        (if 0 <? npad props
         then mkProps (pad props) (Z.max (npad props - 2) 0) (alternate props) else props)
        (num_text n base)
    else pad_text props ([48; 120] ++ num_text n base)
  else pad_text props (num_text n base).

(** [atol] and [fmtnum] on the text itself. *)
Fixpoint skip_blanks (s : list Z) : list Z :=
  match s with
  | c :: s' => if (c =? 32) || (c =? 9) then skip_blanks s' else s
  | [] => []
  end.

Fixpoint read_digits (acc : Z) (s : list Z) : res Z :=
  match s with
  | c :: s' =>
      if (c <? 48) || (57 <? c) then Ok acc
      else t ← long_chk (acc * 10); acc' ← long_chk (t + (c - 48)); read_digits acc' s'
  | [] => Ok acc
  end.

Definition atol_text (s : list Z) : res Z :=
  match skip_blanks s with
  | c :: s' =>
      if c =? 45 then acc ← read_digits 0 s'; long_chk (- acc)
      else if c =? 43 then read_digits 0 s'
      else read_digits 0 (c :: s')
  | [] => Ok 0
  end.

Fixpoint count_digits (s : list Z) : nat :=
  match s with
  | c :: s' => if (48 <=? c) && (c <=? 57) then S (count_digits s') else O
  | [] => O
  end.

Definition fmtnum_len (s : list Z) : nat :=
  match s with
  | c :: s' => if c =? 45 then S (count_digits s') else count_digits s
  | [] => O
  end.

(** What follows the percent sign so far: the flags and the width, or nothing
    when the loop is between directives. *)
Definition fmt_mode : Type := option (Z * strprops).

Section Format.

(** The strings the pointer arguments point to. *)
Context (strs : Z -> option (list Z)).

(** The text of a conversion and the arguments after it. *)
Definition conv_text (f nlong : Z) (props : strprops) (va : list Z) : res (list Z * list Z) :=
  if f =? chr "c" then '(x, va) ← va_arg va; Ok ([u8 x], va)
  else if f =? chr "d" then
    '(x, va) ← va_arg va; t ← int_text (va_signed nlong x) 10 props; Ok (t, va)
  else if f =? chr "u" then
    '(x, va) ← va_arg va; Ok (uns_text (va_unsigned nlong x) 10 props, va)
  else if f =? chr "x" then
    '(x, va) ← va_arg va; Ok (uns_text (va_unsigned nlong x) 16 props, va)
  else if f =? chr "p" then
    '(x, va) ← va_arg va; Ok (uns_text (u64 x) 16 (mkProps (pad props) (npad props) true), va)
  else if f =? chr "s" then
    '(x, va) ← va_arg va;
    body ← of_option Fault (strs (u64 x));
    Ok (pad_text props body, va)
  else Ok ([f], va).

(** The text of a format. [skip] characters are already consumed. *)
Fixpoint format_go (l : list Z) (skip : nat) (mode : fmt_mode) (va : list Z) : res (list Z) :=
  match l with
  | [] => Ok []
  | f :: l' =>
      match skip, mode with
      | S k, _ => format_go l' k mode va
      | O, None =>
          if f =? chr "%" then format_go l' O (Some (0, props0)) va
          else out ← format_go l' O None va; Ok (f :: out)
      | O, Some (nlong, props) =>
          if f =? chr "#" then
            format_go l' O (Some (nlong, mkProps (pad props) (npad props) true)) va
          else if f =? chr "0" then
            num ← atol_text l';
            format_go l' (fmtnum_len l') (Some (nlong, mkProps 48 (s32 num) (alternate props))) va
          else if ((chr "1" <=? f) && (f <=? chr "9")) || (f =? chr "-") then
            num ← atol_text l;
            format_go l' (fmtnum_len l - 1)
              (Some (nlong, mkProps (pad props) (s32 num) (alternate props))) va
          else if f =? chr "l" then format_go l' O (Some (nlong + 1, props)) va
          else if (f =? chr "t") || (f =? chr "z") then format_go l' O (Some (1, props)) va
          else
            '(t, va) ← conv_text f nlong props va;
            out ← format_go l' O None va; Ok (t ++ out)
      end
  end.

Definition format (l : list Z) (va : list Z) : res (list Z) := format_go l O None va.

End Format.

(** ** Numbers: the digit loop and the reversal *)

Lemma length_rev_digits fuel n base k :
  0 <= n < base ^ Z.of_nat k -> 2 <= base -> (length (rev_digits fuel n base) <= k)%nat.
Proof.
  revert n k. induction fuel as [|f IH]; intros n k Hn Hb; simpl; [lia|].
  destruct (Z.eqb_spec n 0); simpl; [lia|].
  destruct k as [|k]; [simpl in Hn; lia|].
  apply le_n_S, IH; [|done]. rewrite Nat2Z.inj_succ, Z.pow_succ_r in Hn by lia.
  split; [apply Z.div_pos; lia|]. apply Z.div_lt_upper_bound; lia.
Qed.

Lemma digit_lookup d :
  0 <= d < 16 -> digits !! Z.to_nat d = Some (digit_char d) /\ 48 <= digit_char d < 128.
Proof.
  intros Hd. unfold digit_char.
  assert (H : Z.to_nat d ∈ seq 0 16) by (apply elem_of_seq; lia).
  revert H. generalize (Z.to_nat d). intros n H.
  assert (Hall : Forall (fun n => digits !! n = Some (nth n digits 0) /\ 48 <= nth n digits 0 < 128)
    (seq 0 16)) by by_eval.
  rewrite Forall_forall in Hall. by apply Hall.
Qed.

Lemma rev_digits_chars fuel n base :
  0 <= n -> 2 <= base <= 16 -> Forall (fun c => 48 <= c < 128) (rev_digits fuel n base).
Proof.
  intros Hn Hb. revert n Hn. induction fuel as [|f IH]; intros n Hn; simpl; [constructor|].
  destruct (Z.eqb_spec n 0); constructor.
  - apply digit_lookup. pose proof (Z.mod_pos_bound n base). lia.
  - apply IH, Z.div_pos; lia.
Qed.

Lemma put_digits_spec fuel b p n base k :
  0 <= n < base ^ Z.of_nat k -> (k < fuel)%nat -> 2 <= base <= 16 ->
  mapped b p (Z.of_nat k) ->
  put_digits fuel b p n base =
  Ok (write_bytes b p (rev_digits fuel n base), p + Z.of_nat (length (rev_digits fuel n base))).
Proof.
  revert b p n k. induction fuel as [|f IH]; intros b p n k Hn Hk Hb Hm; [lia|].
  cbn [put_digits rev_digits]. destruct (Z.eqb_spec n 0) as [->|Hz].
  { simpl. f_equal. f_equal. lia. }
  destruct k as [|k]; [simpl in Hn; lia|].
  rewrite Nat2Z.inj_succ, Z.pow_succ_r in Hn by lia.
  rewrite Z.rem_mod_nonneg, Z.quot_div_nonneg by lia.
  pose proof (Z.mod_pos_bound n base).
  rewrite (proj2 (Z.leb_le 0 _)) by lia.
  destruct (digit_lookup (n mod base)) as [-> Hc]; [lia|].
  cbn [of_option]. mret. rewrite store8_ok by (apply Hm; lia). mret.
  rewrite u8_small by lia. rewrite (IH _ _ _ k).
  - simpl. f_equal. f_equal; [|lia]. apply write_bytes_insert_comm. lia.
  - split; [apply Z.div_pos; lia|]. apply Z.div_lt_upper_bound; lia.
  - lia.
  - lia.
  - apply mapped_insert. eapply mapped_sub; [exact Hm| |]; lia.
Qed.

(** The swap loop on the middle part [l] of the array, the part it has not
    reached yet. *)
Lemma swap_loop_spec k b i p l :
  bytes_at b i l -> Forall (fun c => 0 <= c < 256) l ->
  i + Z.of_nat (length l) = p - i -> k = (length l / 2)%nat ->
  swap_loop k b i p = Ok (write_bytes b i (rev l)).
Proof.
  revert b i l. induction k as [|k IH]; intros b i l Hb Hl Hp Hk.
  - destruct l as [|x [|y l]]; simpl; [done| |].
    + apply bytes_at_cons in Hb as [Hb _]. by rewrite insert_id.
    + cbn [length] in Hk. pose proof (Nat.div_str_pos (S (S (length l))) 2). lia.
  - destruct l as [|x l]; [done|]. destruct l as [|y l _] using rev_ind; [done|].
    rewrite app_comm_cons in *. apply bytes_at_app in Hb as [Hb Hy].
    apply bytes_at_cons in Hb as [Hx Hb]. apply bytes_at_cons in Hy as [Hy _].
    apply Forall_app in Hl as [[Hxr Hl]%Forall_cons [Hyr _]%Forall_cons].
    rewrite length_app in Hp, Hk. cbn [length] in Hp, Hy, Hk.
    assert (Hk' : k = (length l / 2)%nat).
    { replace (S (length l) + 1)%nat with (length l + 1 * 2)%nat in Hk by lia.
      rewrite Nat.div_add in Hk by lia. lia. }
    replace (i + Z.of_nat (S (length l))) with (p - 1 - i) in Hy by lia.
    assert (Hpi : p - 1 - i = i + 1 + Z.of_nat (length l)) by lia.
    cbn [swap_loop]. rewrite (load8_ok _ _ _ Hx). mret. rewrite (load8_ok _ _ _ Hy). mret.
    rewrite store8_ok by eauto. mret.
    rewrite store8_ok by (rewrite lookup_insert_ne by lia; eauto). mret.
    rewrite !u8_small by lia. rewrite (IH _ _ l); [|..|lia|done].
    + cbn [app rev]. rewrite rev_app_distr. cbn [rev app write_bytes].
      rewrite write_bytes_snoc. rewrite length_rev, Hpi.
      rewrite !write_bytes_insert_comm by (rewrite ?length_rev; lia).
      rewrite insert_insert_ne by lia. done.
    + eapply bytes_at_frame; [|exact Hb]. intros z Hz. by rewrite !lookup_insert_ne by lia.
    + done.
Qed.

Lemma local_array_mapped n : mapped (local_array n) 0 (Z.of_nat n).
Proof.
  pose proof (bytes_at_mapped _ _ _ (write_bytes_at ∅ 0 (replicate n 170))) as H.
  by rewrite length_replicate in H.
Qed.

(** The end of [print_int] and [print_unsigned]: the characters of the array
    are reversed and terminated. *)
Lemma finish_number n l :
  Forall (fun c => 0 < c < 256) l -> (length l < n <= 27)%nat ->
  exists b b', swap_loop (Z.to_nat (Z.of_nat (length l) / 2))
                 (write_bytes (local_array n) 0 l) 0 (Z.of_nat (length l)) = Ok b' /\
    store8 b' (Z.of_nat (length l)) 0 = Ok b /\ cstr b 0 (rev l).
Proof.
  intros Hl Hn. rewrite (swap_loop_spec _ _ 0 _ l).
  - eexists _, _. split; [done|]. rewrite store8_ok.
    + split; [done|]. split.
      * apply bytes_at_app. rewrite length_rev. split.
        -- eapply bytes_at_frame; [|apply write_bytes_at].
           intros x Hx. rewrite length_rev in Hx. apply lookup_insert_ne. lia.
        -- apply bytes_at_cons. split; [|apply bytes_at_nil]. apply lookup_insert_eq.
      * by apply Forall_rev.
      * rewrite length_rev. lia.
    + rewrite write_bytes_out by (rewrite length_rev; lia).
      rewrite write_bytes_out by lia. apply local_array_mapped. lia.
  - apply write_bytes_at.
  - eapply Forall_impl; [exact Hl|]. simpl. lia.
  - lia.
  -
    change 2 with (Z.of_nat 2). rewrite <- Nat2Z.inj_div. apply Nat2Z.id.
Qed.

(** ** The stream holds a prefix of the text *)

Definition INT_MAX : Z := 2147483647.

Section Emit.

Context (m0 : mem) (buf size : Z).
Hypothesis Hsize : 1 <= size <= INT_MAX.
Hypothesis Hbuf : mapped m0 buf size.

(** Memory and stream after the text [out] was emitted into a buffer of
    [size] bytes that was empty in [m0]. *)
Definition emit_mem (out : list Z) : mem :=
  write_bytes m0 buf (take (Z.to_nat (size - 1)) out).

Definition emit_ps (out : list Z) : pstream :=
  mkPstream (buf + Z.min (size - 1) (Z.of_nat (length out)))
    (Z.max 0 (size - 1 - Z.of_nat (length out))) (Z.of_nat (length out)).

Lemma emit_mem_dom out : same_dom m0 (emit_mem out).
Proof.
  apply write_bytes_dom. eapply mapped_sub; [exact Hbuf|lia|].
  rewrite length_take. lia.
Qed.

Lemma emit_mem_out out x : x < buf \/ buf + size <= x -> emit_mem out !! x = m0 !! x.
Proof. intros Hx. apply write_bytes_out. rewrite length_take. lia. Qed.

Lemma emit_cstr out a s :
  cstr m0 a s -> disjoint_ranges buf size a (Z.of_nat (length s) + 1) -> cstr (emit_mem out) a s.
Proof.
  intros H Hd. eapply cstr_frame; [exact H|]. intros x Hx. apply emit_mem_out.
  unfold disjoint_ranges in Hd. lia.
Qed.

Lemma addchar_emit out c :
  Z.of_nat (length out) < INT_MAX ->
  addchar (emit_mem out) (emit_ps out) c =
  Ok (emit_mem (out ++ [u8 c]), emit_ps (out ++ [u8 c])).
Proof.
  intros Hl. unfold addchar, INT_MAX in *. cbn [emit_ps ps_remain ps_buffer ps_added].
  assert (Hadd : Z.of_nat (length (out ++ [u8 c])) = Z.of_nat (length out) + 1)
    by (rewrite length_app; simpl; lia).
  unfold emit_mem, emit_ps. rewrite Hadd.
  destruct (Z.eqb_spec (Z.max 0 (size - 1 - Z.of_nat (length out))) 0) as [E|E]; mret.
  - rewrite int_chk_ok by lia. mret. rewrite (take_app_le out) by lia.
    do 3 f_equal; lia.
  - rewrite !Z.min_r by lia.
    rewrite (take_ge out) by lia. rewrite take_ge by lia.
    rewrite store8_ok.
    + mret. rewrite !int_chk_ok by lia. mret.
      rewrite write_bytes_snoc. do 3 f_equal; lia.
    + rewrite write_bytes_out by lia. apply Hbuf. lia.
Qed.

Lemma addpad_emit n out c :
  Z.of_nat (length out + n) <= INT_MAX ->
  addpad n (emit_mem out) (emit_ps out) c =
  Ok (emit_mem (out ++ replicate n (u8 c)), emit_ps (out ++ replicate n (u8 c))).
Proof.
  revert out. induction n as [|n IH]; intros out Hl; cbn [addpad replicate].
  - by rewrite app_nil_r.
  - rewrite addchar_emit by lia. mret.
    rewrite IH by (rewrite length_app; simpl; lia). by rewrite <- app_assoc.
Qed.

(** A string argument the emission does not overwrite. *)
Definition src_ok (s : cptr) (txt : list Z) : Prop :=
  match s with
  | Glob a => cstr m0 a txt /\ disjoint_ranges buf size a (Z.of_nat (length txt) + 1)
  | Loc b a => cstr b a txt
  end.

Lemma src_tail s c txt : src_ok s (c :: txt) -> src_ok (cptr_add s 1) txt.
Proof.
  destruct s as [a|b a]; simpl.
  - intros [H Hd]. apply cstr_cons in H as (_ & _ & H). split; [done|].
    unfold disjoint_ranges in *. lia.
  - intros H. by apply cstr_cons in H as (_ & _ & H).
Qed.

Lemma src_strlen s txt out :
  src_ok s txt -> cptr_strlen (emit_mem out) s = Ok (Z.of_nat (length txt)).
Proof.
  destruct s as [a|b a]; simpl.
  - intros [H Hd]. apply strlen_spec. by apply emit_cstr.
  - apply strlen_spec.
Qed.

Lemma src_loadc s c txt out :
  src_ok s (c :: txt) -> cptr_loadc (emit_mem out) s = Ok (s8 c) /\ 0 < c < 256.
Proof.
  destruct s as [a|b a]; simpl.
  - intros [H Hd]. apply (emit_cstr out) in H; [|done].
    apply cstr_cons in H as (H & Hc & _). split; [by apply loadc_ok|done].
  - intros H. apply cstr_cons in H as (H & Hc & _). split; [by apply loadc_ok|done].
Qed.

Lemma src_loadc_nil s out : src_ok s [] -> cptr_loadc (emit_mem out) s = Ok 0.
Proof.
  destruct s as [a|b a]; simpl.
  - intros [H Hd]. apply (emit_cstr out) in H; [|done]. by apply cstr_nil, loadc_ok in H.
  - intros H. by apply cstr_nil, loadc_ok in H.
Qed.

Lemma src_fuel s txt out : src_ok s txt -> (length txt < cptr_fuel (emit_mem out) s)%nat.
Proof.
  destruct s as [a|b a]; simpl.
  - intros [H Hd]. apply (emit_cstr out) in H; [|done]. by apply cstr_fuel in H.
  - apply cstr_fuel.
Qed.

Lemma addstr_emit fuel s txt out :
  src_ok s txt -> (length txt < fuel)%nat -> Z.of_nat (length out + length txt) <= INT_MAX ->
  addstr fuel (emit_mem out) (emit_ps out) s = Ok (emit_mem (out ++ txt), emit_ps (out ++ txt)).
Proof.
  revert s txt out. induction fuel as [|f IH]; intros s txt out Hs Hf Hl; [lia|].
  cbn [addstr]. destruct txt as [|c txt].
  - rewrite src_loadc_nil by done. mret. by rewrite app_nil_r.
  - destruct (src_loadc _ _ _ out Hs) as [-> Hc]. mret. rewrite s8_nonzero by lia.
    simpl in Hl, Hf. rewrite addchar_emit by lia. mret.
    replace (u8 (s8 c)) with c by mach.
    rewrite (IH _ txt); [|by eapply src_tail|lia|rewrite length_app; simpl; lia].
    by rewrite <- app_assoc.
Qed.

(** The widths and pad characters the format loop produces. *)
Definition props_ok (props : strprops) : Prop :=
  -2147483648 <= npad props <= 2147483647 /\ 0 <= pad props < 256.

Lemma print_str_emit s txt props out :
  src_ok s txt -> props_ok props ->
  Z.of_nat (length (out ++ pad_text props txt)) <= INT_MAX ->
  print_str (emit_mem out) (emit_ps out) s props =
  Ok (emit_mem (out ++ pad_text props txt), emit_ps (out ++ pad_text props txt)).
Proof.
  intros Hs [Hn Hp] Hl. unfold print_str, pad_text in *.
  rewrite !length_app, !length_replicate in Hl. unfold INT_MAX in Hl.
  set (len := Z.of_nat (length txt)) in *.
  destruct (Z.ltb_spec 0 (npad props)) as [Hpos|Hneg].
  - rewrite (src_strlen _ txt) by done. mret. fold len.
    assert (En : s32 (u64 (npad props) - len) = npad props - len).
    { rewrite u64_small by lia. apply s32_small. lia. }
    rewrite En, addpad_emit, u8_small by (unfold INT_MAX; lia). mret.
    rewrite (addstr_emit _ _ txt);
      [|done|by apply src_fuel|rewrite length_app, length_replicate; unfold INT_MAX; lia].
    mret. replace (Z.to_nat (- npad props - len)) with 0%nat by lia.
    rewrite app_nil_r, app_assoc.
    destruct (Z.ltb_spec (Z.min (npad props - len) 0) 0) as [Hlt|]; [|done].
    rewrite (src_strlen _ txt) by done. mret. fold len.
    replace (s32 (u64 (Z.min (npad props - len) 0) + len)) with (npad props) by mach.
    rewrite addpad_emit by (rewrite !length_app, length_replicate; unfold INT_MAX; lia).
    replace (Z.to_nat (- npad props)) with 0%nat by lia. by rewrite app_nil_r.
  - mret. rewrite (addstr_emit _ _ txt);
      [|done|by apply src_fuel|unfold INT_MAX; lia].
    mret. replace (Z.to_nat (npad props - len)) with 0%nat by lia. cbn [replicate app].
    destruct (Z.ltb_spec (npad props) 0) as [Hlt|Hge].
    + rewrite (src_strlen _ txt) by done. mret. fold len.
      replace (s32 (u64 (npad props) + len)) with (npad props + len) by mach.
      replace (Z.to_nat (- (npad props + len))) with (Z.to_nat (- npad props - len)) by lia.
      rewrite addpad_emit by (rewrite length_app; unfold INT_MAX; lia).
      change (u8 32) with 32. by rewrite <- app_assoc.
    + replace (Z.to_nat (- npad props - len)) with 0%nat by lia. by rewrite app_nil_r.
Qed.

Lemma rev_digits_nil n base :
  0 <= n -> 2 <= base -> rev_digits digit_fuel n base = [] <-> n = 0.
Proof.
  intros Hn Hb. unfold digit_fuel. cbn [rev_digits].
  destruct (Z.eqb_spec n 0); [done|]. split; [discriminate|lia].
Qed.

(** The digits of a 64-bit number fit the local arrays. *)
Lemma number_digits n base :
  0 <= n < 18446744073709551616 -> base = 10 \/ base = 16 ->
  (length (rev_digits digit_fuel n base) <= 20)%nat /\
  Forall (fun c => 48 <= c < 128) (rev_digits digit_fuel n base) /\
  forall k, (20 <= k)%nat -> put_digits digit_fuel (local_array k) 0 n base =
    Ok (write_bytes (local_array k) 0 (rev_digits digit_fuel n base),
        Z.of_nat (length (rev_digits digit_fuel n base))).
Proof.
  intros Hn Hb.
  assert (Hlt : 0 <= n < base ^ Z.of_nat 20).
  { split; [lia|]. eapply Z.lt_le_trans; [apply Hn|]. destruct Hb as [-> | ->]; by vm_compute. }
  assert (2 <= base <= 16) by lia.
  split; [apply length_rev_digits; [done|lia]|]. split; [apply rev_digits_chars; lia|].
  intros k Hk. rewrite (put_digits_spec _ _ _ _ _ 20); [|done|unfold digit_fuel; lia|done|].
  - by rewrite Z.add_0_l.
  - eapply mapped_sub; [apply (local_array_mapped k)|lia|lia].
Qed.

(** One more character in the local array. *)
Lemma local_put k l c :
  (length l < k)%nat -> 0 <= c < 256 ->
  store8 (write_bytes (local_array k) 0 l) (Z.of_nat (length l)) c =
  Ok (write_bytes (local_array k) 0 (l ++ [c])).
Proof.
  intros Hl Hc. rewrite store8_ok, u8_small by
    (lia || (rewrite write_bytes_out by lia; apply local_array_mapped; lia)).
  by rewrite write_bytes_snoc.
Qed.

Lemma finish_print k l props out :
  Forall (fun c => 0 < c < 256) l -> (length l < k <= 27)%nat -> props_ok props ->
  Z.of_nat (length (out ++ pad_text props (rev l))) <= INT_MAX ->
  (buf' ← swap_loop (Z.to_nat (Z.of_nat (length l) / 2))
            (write_bytes (local_array k) 0 l) 0 (Z.of_nat (length l));
   buf'' ← store8 buf' (Z.of_nat (length l)) 0;
   print_str (emit_mem out) (emit_ps out) (Loc buf'' 0) props) =
  Ok (emit_mem (out ++ pad_text props (rev l)), emit_ps (out ++ pad_text props (rev l))).
Proof.
  intros Hl Hk Hp Hlen. destruct (finish_number k l Hl Hk) as (b & b' & -> & Hs & Hc).
  mret. rewrite Hs. mret. by apply print_str_emit.
Qed.

Lemma print_int_emit n base props out txt :
  -9223372036854775808 <= n <= 9223372036854775807 -> base = 10 \/ base = 16 ->
  props_ok props -> int_text n base props = Ok txt ->
  Z.of_nat (length (out ++ txt)) <= INT_MAX ->
  print_int (emit_mem out) (emit_ps out) n base props =
  Ok (emit_mem (out ++ txt), emit_ps (out ++ txt)).
Proof.
  intros Hn Hb Hp Ht Hlen. unfold int_text in Ht.
  destruct (Z.eqb_spec n (-9223372036854775808)) as [|Hmin]; [discriminate|].
  injection Ht as <-. unfold print_int, num_text in *.
  destruct (number_digits (Z.abs n) base ltac:(lia) Hb) as (Hd1 & Hd2 & Hd3).
  pose proof (rev_digits_nil (Z.abs n) base ltac:(lia) ltac:(lia)) as Hnil.
  set (D := rev_digits digit_fuel (Z.abs n) base) in *.
  assert (HD : Forall (fun c => 0 < c < 256) D).
  { eapply Forall_impl; [exact Hd2|]. simpl. lia. }
  destruct (Z.ltb_spec n 0) as [Hneg|Hpos].
  - rewrite long_chk_ok by lia. mret.
    replace (- n) with (Z.abs n) by lia. rewrite Hd3 by lia. mret.
    rewrite local_put by lia. mret.
    rewrite (proj2 (Z.eqb_neq _ 0)) by lia. mret.
    rewrite (proj2 (Z.eqb_neq (Z.abs n) 0)) in * by lia.
    replace (Z.of_nat (length D) + 1) with (Z.of_nat (length (D ++ [45])))
      by (rewrite length_app; simpl; lia).
    replace ([45] ++ rev D) with (rev (D ++ [45])) in * by (by rewrite rev_app_distr).
    apply finish_print; try done; [|rewrite length_app; simpl; lia].
    apply Forall_app. split; [done|]. repeat constructor; lia.
  - mret. replace n with (Z.abs n) at 1 by lia. rewrite Hd3 by lia. mret.
    destruct (Z.eqb_spec (Z.abs n) 0) as [Ez|Ez].
    + rewrite (proj2 Hnil Ez). cbn [length Z.of_nat]. change (0 =? 0) with true. mret.
      change 0 with (Z.of_nat (length (@nil Z))) at 1. rewrite local_put by (simpl; lia).
      mret. apply (finish_print 26 [48]); try done; [|simpl; lia]. repeat constructor; lia.
    + assert (D <> []) by tauto.
      rewrite (proj2 (Z.eqb_neq (Z.of_nat (length D)) 0)) by (destruct D; [done|simpl; lia]).
      mret. apply finish_print; try done. lia.
Qed.

Lemma print_unsigned_emit n base props out :
  0 <= n < 18446744073709551616 -> base = 10 \/ base = 16 -> props_ok props ->
  Z.of_nat (length (out ++ uns_text n base props)) <= INT_MAX ->
  print_unsigned (emit_mem out) (emit_ps out) n base props =
  Ok (emit_mem (out ++ uns_text n base props), emit_ps (out ++ uns_text n base props)).
Proof.
  intros Hn Hb Hp Hlen. unfold print_unsigned, uns_text, num_text in *.
  destruct (number_digits n base ltac:(lia) Hb) as (Hd1 & Hd2 & Hd3).
  pose proof (rev_digits_nil n base ltac:(lia) ltac:(lia)) as Hnil.
  set (D := rev_digits digit_fuel n base) in *.
  assert (HD : Forall (fun c => 0 < c < 256) D).
  { eapply Forall_impl; [exact Hd2|]. simpl. lia. }
  rewrite Hd3 by lia. mret.
  destruct (Z.eqb_spec n 0) as [Ez|Ez].
  - rewrite (proj2 Hnil Ez) in *. rewrite andb_false_r in *.
    cbn [length Z.of_nat]. change (0 =? 0) with true. mret.
    change 0 with (Z.of_nat (length (@nil Z))) at 1. rewrite local_put by (simpl; lia).
    mret. apply (finish_print 27 [48]); try done; [|simpl; lia]. repeat constructor; lia.
  - assert (D <> []) by tauto.
    rewrite (proj2 (Z.eqb_neq (Z.of_nat (length D)) 0)) by (destruct D; [done|simpl; lia]).
    rewrite andb_true_r in *.
    destruct (alternate props && (base =? 16)).
    + destruct (Z.eqb_spec (pad props) 48) as [Epad|Epad].
      * rewrite app_assoc in *. rewrite length_app in Hlen. unfold INT_MAX in Hlen.
        rewrite length_app in Hlen. cbn [length] in Hlen.
        rewrite addchar_emit by (unfold INT_MAX; lia). mret.
        rewrite addchar_emit by (rewrite length_app; unfold INT_MAX; simpl; lia). mret.
        rewrite <- app_assoc. change ([u8 48] ++ [u8 120]) with [48; 120].
        apply finish_print; try done; [lia| |].
        -- destruct Hp as [Hp1 Hp2].
           destruct (Z.ltb_spec 0 (npad props)); split; simpl; lia.
        -- rewrite !length_app. unfold INT_MAX. cbn [length]. lia.
      * rewrite local_put by lia. mret.
        replace (Z.of_nat (length D) + 1) with (Z.of_nat (length (D ++ [120])))
          by (rewrite length_app; simpl; lia).
        rewrite local_put by (rewrite ?length_app; simpl; lia). mret.
        replace (Z.of_nat (length D) + 2) with (Z.of_nat (length ((D ++ [120]) ++ [48])))
          by (rewrite !length_app; simpl; lia).
        replace ([48; 120] ++ rev D) with (rev ((D ++ [120]) ++ [48])) in *
          by (by rewrite !rev_app_distr).
        apply finish_print; try done; [|rewrite !length_app; simpl; lia].
        rewrite !Forall_app. repeat split; try done; repeat constructor; lia.
    + apply finish_print; try done. lia.
Qed.

End Emit.

(** ** atol and fmtnum on the text *)

Lemma blank_char c : 0 < c < 256 -> (s8 c =? 32) || (s8 c =? 9) = (c =? 32) || (c =? 9).
Proof.
  intros Hc. change 32 with (s8 32) at 1. change 9 with (s8 9) at 1.
  by rewrite !s8_eqb by lia.
Qed.

Lemma digit_range c :
  0 < c < 256 -> (48 <=? s8 c) && (s8 c <=? 57) = (48 <=? c) && (c <=? 57).
Proof.
  intros Hc. destruct (Z.ltb_spec c 128).
  - by rewrite s8_ascii by lia.
  - assert (s8 c < 0) by mach.
    rewrite (proj2 (Z.leb_gt 48 (s8 c))), (proj2 (Z.leb_gt c 57)), andb_false_r by lia. done.
Qed.

Lemma digit_range_neg c :
  0 < c < 256 -> (s8 c <? 48) || (57 <? s8 c) = (c <? 48) || (57 <? c).
Proof.
  intros Hc. pose proof (digit_range c Hc) as H. rewrite !Z.leb_antisym in H.
  destruct (s8 c <? 48), (57 <? s8 c), (c <? 48), (57 <? c); simpl in *; congruence.
Qed.

Lemma atol_skip_text fuel m p s :
  cstr m p s -> (length s < fuel)%nat ->
  exists q, atol_skip fuel m p = Ok q /\ cstr m q (skip_blanks s).
Proof.
  revert fuel p. induction s as [|c s IH]; intros [|f] p H Hf; try (simpl in Hf; lia);
    pose proof H as H'; cbn [atol_skip skip_blanks]; next_char H'.
  - exists p. done.
  - rewrite blank_char by done. destruct (_ || _); [|eauto].
    simpl in Hf. apply IH; [done|lia].
Qed.

Lemma atol_digits_text fuel m p s acc :
  cstr m p s -> (length s < fuel)%nat -> atol_digits fuel m p acc = read_digits acc s.
Proof.
  revert fuel p acc. induction s as [|c s IH]; intros [|f] p acc H Hf; try (simpl in Hf; lia);
    cbn [atol_digits read_digits]; next_char H; [done|].
  simpl orb. rewrite digit_range_neg by done.
  destruct (_ || _) eqn:E; [done|]. btests. rewrite s8_ascii by lia.
  destruct (long_chk (acc * 10)) as [t|]; mret; [|done].
  destruct (long_chk (t + _)) as [t'|]; mret; [|done].
  simpl in Hf. apply IH; [done|lia].
Qed.

Lemma atol_text_spec m p s : cstr m p s -> atol m p = atol_text s.
Proof.
  intros H. unfold atol, atol_text.
  destruct (atol_skip_text _ _ _ _ H (cstr_fuel _ _ _ H)) as (q & -> & Hq). mret.
  destruct (skip_blanks s) as [|c s']; pose proof Hq as Hq'; next_char Hq'.
  - change (s8 0 =? 45) with false. change (s8 0 =? 43) with false. cbv iota.
    by rewrite (atol_digits_text _ _ _ []) by eauto with hb.
  - change 45 with (s8 45) at 1. change 43 with (s8 43) at 1. rewrite !s8_eqb by lia.
    destruct (c =? 45); [|destruct (c =? 43)].
    + by rewrite (atol_digits_text _ _ _ s') by eauto with hb.
    + apply atol_digits_text; eauto with hb.
    + apply atol_digits_text; eauto with hb.
Qed.

Lemma fmt_digits_text fuel m p s len :
  cstr m p s -> (length s < fuel)%nat ->
  fmt_digits fuel m p len = Ok (len + Z.of_nat (count_digits s)).
Proof.
  revert fuel p len. induction s as [|c s IH]; intros [|f] p len H Hf; try (simpl in Hf; lia);
    cbn [fmt_digits count_digits]; next_char H.
  - change ((48 <=? s8 0) && (s8 0 <=? 57)) with false. simpl. f_equal. lia.
  - rewrite digit_range by done. destruct (_ && _).
    + simpl in Hf. rewrite IH by (done || lia). f_equal. lia.
    + simpl. f_equal. lia.
Qed.

Lemma fmtnum_text m p s :
  cstr m p s ->
  fmtnum m p = num ← atol_text s; Ok (s32 num, p + Z.of_nat (fmtnum_len s)).
Proof.
  intros H. unfold fmtnum. rewrite (atol_text_spec _ _ _ H).
  destruct s as [|c s]; pose proof H as H'; next_char H'; cbn [fmtnum_len].
  - change (s8 0 =? 45) with false. cbv iota.
    by rewrite (fmt_digits_text _ _ _ []) by eauto with hb.
  - change 45 with (s8 45) at 1. rewrite s8_eqb by lia. destruct (c =? 45).
    + rewrite (fmt_digits_text _ _ _ s) by eauto with hb. mret.
      by rewrite Nat2Z.inj_succ, <- Z.add_1_l.
    + rewrite (fmt_digits_text _ _ _ (c :: s)) by eauto with hb. mret. by rewrite Z.add_0_l.
Qed.

Lemma count_digits_le s : (count_digits s <= length s)%nat.
Proof. induction s as [|c s IH]; simpl; [lia|]. destruct (_ && _); lia. Qed.

Lemma fmtnum_len_le s : (fmtnum_len s <= length s)%nat.
Proof.
  destruct s as [|c s]; simpl; [lia|]. pose proof (count_digits_le s).
  destruct (c =? 45); [lia|]. destruct (_ && _); lia.
Qed.

Lemma cstr_drop m p s k : (k <= length s)%nat -> cstr m p s -> cstr m (p + Z.of_nat k) (drop k s).
Proof.
  intros Hk H. rewrite <- (take_drop k s) in H. apply cstr_suffix in H.
  rewrite length_take, Nat.min_l in H by lia. done.
Qed.

Lemma format_go_skip strs l k mode va :
  format_go strs l k mode va = format_go strs (drop k l) O mode va.
Proof.
  revert k. induction l as [|f l IH]; intros [|k]; try done. simpl. apply IH.
Qed.

(** ** vsnprintf stores the text of its format *)

Lemma char_test c k : 0 < c < 256 -> 0 <= k < 128 -> (s8 c =? k) = (c =? k).
Proof. intros Hc Hk. rewrite <- (s8_ascii k) at 1 by lia. apply s8_eqb; lia. Qed.

Lemma char_digit c :
  0 < c < 256 ->
  (chr "1" <=? s8 c) && (s8 c <=? chr "9") = (chr "1" <=? c) && (c <=? chr "9").
Proof.
  intros Hc. change (chr "1") with 49. change (chr "9") with 57.
  destruct (Z.ltb_spec c 128).
  - by rewrite s8_ascii by lia.
  - assert (s8 c < 0) by mach.
    rewrite (proj2 (Z.leb_gt 49 (s8 c))), (proj2 (Z.leb_gt c 57)), andb_false_r by lia. done.
Qed.

(** The characters that continue a directive. *)
Definition fmt_flag (f : Z) : bool :=
  (f =? chr "#") || (f =? chr "0") || (((chr "1" <=? f) && (f <=? chr "9")) || (f =? chr "-"))
  || (f =? chr "l") || ((f =? chr "t") || (f =? chr "z")).

(** Evaluates the comparisons of concrete characters. *)
Ltac ctests :=
  repeat match goal with
  | |- context [?a =? ?b] =>
      let v := eval vm_compute in (a =? b) in
      first [constr_eq v true | constr_eq v false]; change (a =? b) with v
  | |- context [?a <=? ?b] =>
      let v := eval vm_compute in (a <=? b) in
      first [constr_eq v true | constr_eq v false]; change (a <=? b) with v
  end; cbn [andb orb negb].

Section Vsnprintf.

Context (m0 : mem) (buf size : Z) (strs : Z -> option (list Z)).
Hypothesis Hsize : 1 <= size <= INT_MAX.
Hypothesis Hbuf : mapped m0 buf size.
Hypothesis Hstrs : forall a s, strs a = Some s ->
  cstr m0 a s /\ disjoint_ranges buf size a (Z.of_nat (length s) + 1).

#[local] Abbreviation em := (emit_mem m0 buf size).
#[local] Abbreviation es := (emit_ps buf size).

Lemma va_signed_range nlong x :
  -9223372036854775808 <= va_signed nlong x <= 9223372036854775807.
Proof. unfold va_signed. destruct (nlong =? 0); mach. Qed.

Lemma va_unsigned_range nlong x : 0 <= va_unsigned nlong x < 18446744073709551616.
Proof. unfold va_unsigned. destruct (nlong =? 0); mach. Qed.

Lemma vsn_more_conv k fp c va nlong props out t va' :
  em out !! fp = Some c -> 0 < c < 256 -> fmt_flag c = false -> props_ok props ->
  conv_text strs c nlong props va = Ok (t, va') ->
  Z.of_nat (length (out ++ t)) <= INT_MAX ->
  vsn_more (S k) (em out) (es out) fp va nlong props = Ok (em (out ++ t), es (out ++ t), fp + 1, va').
Proof.
  intros Hc Hr Hf Hp Ht Hlen. unfold fmt_flag in Hf.
  apply orb_false_iff in Hf as
    [[[[H1 H2]%orb_false_iff [H3 H4]%orb_false_iff]%orb_false_iff H5]%orb_false_iff
     [H6 H7]%orb_false_iff].
  cbn [vsn_more]. rewrite (loadc_ok _ _ _ Hc). mret.
  rewrite char_digit by done. rewrite !char_test by (done || by vm_compute).
  rewrite (proj2 (Z.eqb_neq c 0)) by lia.
  rewrite H1, H2, H3, H4, H5, H6, H7. cbn [orb]. clear H1 H2 H3 H4 H5 H6 H7.
  assert (Hpos : forall l (x : Z), Z.of_nat (length (l ++ [x])) <= INT_MAX -> Z.of_nat (length l) < INT_MAX).
  { intros l x. rewrite length_app. simpl. lia. }
  unfold conv_text in Ht.
  destruct (Z.eqb_spec c (chr "%")) as [->|_].
  { revert Ht. ctests. intros [= <- <-]. change (chr "%") with 37 in *.
    rewrite addchar_emit by eauto. done. }
  destruct (c =? chr "c").
  { destruct va as [|x v]; [discriminate|]. injection Ht as <- <-. cbn [va_arg]. mret.
    replace (u8 x) with (u8 (s8 (s32 x))) in * by mach.
    rewrite addchar_emit by eauto. done. }
  destruct (c =? chr "d").
  { destruct va as [|x v]; [discriminate|]. cbn [va_arg] in *. mret_in Ht. mret.
    apply res_bind_ok in Ht as (t' & Ht & [= <- <-]).
    rewrite (print_int_emit _ _ _ Hsize Hbuf _ _ _ _ t') by (auto using va_signed_range). done. }
  destruct (c =? chr "u").
  { destruct va as [|x v]; [discriminate|]. injection Ht as <- <-. cbn [va_arg]. mret.
    rewrite print_unsigned_emit by auto using va_unsigned_range. done. }
  destruct (c =? chr "x").
  { destruct va as [|x v]; [discriminate|]. injection Ht as <- <-. cbn [va_arg]. mret.
    rewrite print_unsigned_emit by auto using va_unsigned_range. done. }
  destruct (c =? chr "p").
  { destruct va as [|x v]; [discriminate|]. injection Ht as <- <-. cbn [va_arg]. mret.
    rewrite print_unsigned_emit by auto using u64_range. done. }
  destruct (c =? chr "s").
  { destruct va as [|x v]; [discriminate|]. cbn [va_arg] in *. mret_in Ht. mret.
    apply res_bind_ok in Ht as (body & Hb & [= <- <-]).
    destruct (strs (u64 x)) as [b|] eqn:Es; [|discriminate]. injection Hb as ->.
    rewrite (print_str_emit _ _ _ Hsize Hbuf _ body) by (done || by apply Hstrs). done. }
  injection Ht as <- <-. replace [c] with [u8 (s8 c)] in * by (f_equal; mach).
  rewrite addchar_emit by eauto. done.
Qed.

(** The continuation of the loop after a directive. *)
Definition after_more (k2 : nat) (r : mem * pstream * Z * list Z) : res (mem * pstream) :=
  let '(m, s, fmt, va) := r in vsn_loop k2 m s fmt va.

Definition mode_ok (mode : fmt_mode) : Prop :=
  match mode with Some (_, props) => props_ok props | None => True end.

Lemma s32_int z : -2147483648 <= s32 z <= 2147483647.
Proof. mach. Qed.

Lemma format_conv f l' nlong props va :
  fmt_flag f = false ->
  format_go strs (f :: l') 0 (Some (nlong, props)) va =
  '(t, va) ← conv_text strs f nlong props va; out ← format_go strs l' 0 None va; Ok (t ++ out).
Proof.
  unfold fmt_flag. intros Hf.
  apply orb_false_iff in Hf as
    [[[[H1 H2]%orb_false_iff H3]%orb_false_iff H4]%orb_false_iff H5].
  cbn [format_go]. by rewrite H1, H2, H3, H4, H5.
Qed.

(** One round of [morefmt] on a flag, a width or a length modifier. *)
Definition flag_step (k : nat) (m : mem) (s : pstream) (fp c : Z) (va : list Z) (nlong : Z)
    (props : strprops) : res (mem * pstream * Z * list Z) :=
  if c =? chr "#" then vsn_more k m s (fp + 1) va nlong (mkProps (pad props) (npad props) true)
  else if c =? chr "0" then
    '(num, fmt) ← fmtnum m (fp + 1);
    vsn_more k m s fmt va nlong (mkProps 48 num (alternate props))
  else if ((chr "1" <=? c) && (c <=? chr "9")) || (c =? chr "-") then
    '(num, fmt) ← fmtnum m (fp + 1 - 1);
    vsn_more k m s fmt va nlong (mkProps (pad props) num (alternate props))
  else if c =? chr "l" then vsn_more k m s (fp + 1) va (nlong + 1) props
  else vsn_more k m s (fp + 1) va 1 props.

Lemma vsn_more_flag k m s fp c va nlong props :
  m !! fp = Some c -> 0 < c < 256 -> fmt_flag c = true ->
  flag_step k m s fp c va nlong props = vsn_more (S k) m s fp va nlong props.
Proof.
  intros Hc Hr Hf. cbn [vsn_more]. rewrite (loadc_ok _ _ _ Hc). mret.
  rewrite char_digit by done. rewrite !char_test by (done || by vm_compute).
  rewrite (proj2 (Z.eqb_neq c 0)) by lia. unfold flag_step, fmt_flag in *.
  replace (c =? chr "%") with false by (symmetry; apply Z.eqb_neq; intros ->; discriminate).
  replace (c =? chr "c") with false by (symmetry; apply Z.eqb_neq; intros ->; discriminate).
  destruct (c =? chr "#"); [done|]. destruct (c =? chr "0"); [done|].
  destruct ((_ && _) || _); [done|]. destruct (c =? chr "l"); [done|].
  simpl in Hf. by rewrite Hf.
Qed.

(** The format pointer [fp] holds the rest [l] of the format, out of the way
    of the buffer. *)
Definition fmt_at (fp : Z) (l : list Z) : Prop :=
  cstr m0 fp l /\ disjoint_ranges buf size fp (Z.of_nat (length l) + 1).

Lemma fmt_at_drop fp l k : (k <= length l)%nat -> fmt_at fp l -> fmt_at (fp + Z.of_nat k) (drop k l).
Proof.
  intros Hk [H Hd]. split; [by apply cstr_drop|].
  rewrite length_drop. unfold disjoint_ranges in *. lia.
Qed.

Lemma fmt_at_cons fp c l out :
  fmt_at fp (c :: l) ->
  em out !! fp = Some c /\ 0 < c < 256 /\ fmt_at (fp + 1) l /\ cstr (em out) fp (c :: l) /\
  cstr (em out) (fp + 1) l.
Proof.
  intros [H Hd]. assert (H2 : cstr (em out) fp (c :: l)) by (apply emit_cstr; auto).
  apply cstr_cons in H as (_ & Hr & H). pose proof H2 as (H3 & _ & H4)%cstr_cons.
  split; [done|]. split; [done|]. split; [|done]. split; [done|].
  unfold disjoint_ranges in *. simpl in Hd. lia.
Qed.

Lemma vsn_refines n : forall l mode va out txt fp k k2,
  (length l <= n)%nat -> fmt_at fp l -> mode_ok mode ->
  format_go strs l 0 mode va = Ok txt -> Z.of_nat (length (out ++ txt)) <= INT_MAX ->
  (length l < k)%nat -> (length l < k2)%nat ->
  match mode with
  | None => vsn_loop k2 (em out) (es out) fp va
  | Some (nlong, props) => vsn_more k (em out) (es out) fp va nlong props ≫= after_more k2
  end = Ok (em (out ++ txt), es (out ++ txt)).
Proof.
  induction n as [|n IH]; intros l mode va out txt fp k k2 Hn Hfp Hm Hfmt Hlen Hk Hk2;
    (destruct k as [|k]; [lia|]); (destruct k2 as [|k2]; [lia|]);
    (destruct l as [|c l]; [|simpl in Hn]); try lia.
  1,2: injection Hfmt as <-; rewrite app_nil_r; destruct Hfp as [Hfp Hd];
    assert (H0 : cstr (em out) fp []) by (apply emit_cstr; auto);
    apply cstr_nil, loadc_ok in H0; change (s8 0) with 0 in H0;
    destruct mode as [[nlong props]|]; cbn [vsn_more vsn_loop]; rewrite H0; mret; ctests;
    [|done]; mret; cbn [after_more]; rewrite Z.add_simpl_r; cbn [vsn_loop]; rewrite H0; done.
  destruct (fmt_at_cons _ _ _ out Hfp) as (Hc & Hr & Hfp' & Hcs & Hcs').
  simpl in Hk, Hk2. destruct mode as [[nlong props]|]; simpl in Hm.
  - destruct (fmt_flag c) eqn:Hflag.
    2:{ rewrite format_conv in Hfmt by done.
        apply res_bind_ok in Hfmt as ([t va'] & Ht & Hfmt).
        apply res_bind_ok in Hfmt as (txt' & Hfmt & [= <-]).
        rewrite app_assoc in Hlen |- *. rewrite length_app in Hlen.
        rewrite (vsn_more_conv _ _ c _ _ _ _ t va') by (done || lia). mret. cbn [after_more].
        apply (IH l None _ _ _ _ (S (length l))); done || rewrite ?length_app in *; lia || done. }
    rewrite <- (vsn_more_flag k _ _ fp c va nlong props Hc Hr Hflag).
    cbn [format_go] in Hfmt. unfold flag_step.
    destruct (c =? chr "#") eqn:Eh; [|destruct (c =? chr "0") eqn:E0].
    + apply (IH l (Some (nlong, _))); done || lia.
    + rewrite (fmtnum_text _ _ _ Hcs'). pose proof (fmtnum_len_le l).
      apply res_bind_ok in Hfmt as (num & -> & Hfmt). mret. rewrite format_go_skip in Hfmt.
      apply (IH (drop (fmtnum_len l) l) (Some (nlong, _)));
        rewrite ?length_drop; try done || lia; [by apply fmt_at_drop|].
      destruct Hm. pose proof (s32_int num). split; simpl; lia.
    + destruct (_ || _) eqn:Edig; [|destruct (c =? chr "l") eqn:El].
      * assert (Hlen1 : (1 <= fmtnum_len (c :: l))%nat).
        { cbn [fmtnum_len count_digits]. change (chr "1") with 49 in *. change (chr "9") with 57 in *.
          change (chr "-") with 45 in *. apply orb_true_iff in Edig as [Edig|Edig]; btests.
          - rewrite (proj2 (Z.eqb_neq c 45)), (proj2 (Z.leb_le 48 c)), (proj2 (Z.leb_le c 57)) by lia.
            simpl. lia.
          - subst c. change (45 =? 45) with true. simpl. lia. }
        rewrite Z.add_simpl_r, (fmtnum_text _ _ _ Hcs). pose proof (fmtnum_len_le (c :: l)) as Hle.
        apply res_bind_ok in Hfmt as (num & -> & Hfmt). mret. rewrite format_go_skip in Hfmt.
        simpl length in Hle.
        replace (fp + Z.of_nat (fmtnum_len (c :: l)))
          with (fp + 1 + Z.of_nat (fmtnum_len (c :: l) - 1)) by lia.
        apply (IH (drop (fmtnum_len (c :: l) - 1) l) (Some (nlong, _)));
          rewrite ?length_drop; try done || lia; [apply fmt_at_drop; [lia|done]|].
        destruct Hm. pose proof (s32_int num). split; simpl; lia.
      * apply (IH l (Some (nlong + 1, _))); done || lia.
      * destruct ((c =? chr "t") || (c =? chr "z")) eqn:Etz; [apply (IH l (Some (1, _))); done || lia|].
        unfold fmt_flag in Hflag. by rewrite Eh, E0, Edig, El, Etz in Hflag.
  - cbn [vsn_loop format_go] in *. rewrite (loadc_ok _ _ _ Hc). mret.
    rewrite (char_test c 0), (proj2 (Z.eqb_neq c 0)) by lia.
    rewrite (char_test c (chr "%")) by (done || by vm_compute).
    destruct (c =? chr "%"); cbn [negb].
    + apply (IH l (Some (0, props0)) _ _ _ _ (walk_fuel (em out)) k2);
        [lia|done|split; simpl; lia|done|done|by apply cstr_fuel in Hcs'|lia].
    + apply res_bind_ok in Hfmt as (txt' & Hfmt & [= <-]).
      rewrite addchar_emit by (auto; rewrite length_app in Hlen; simpl in Hlen; lia). mret.
      replace (u8 (s8 c)) with c by mach.
      change (c :: txt') with ([c] ++ txt') in *. rewrite app_assoc in *.
      apply (IH l None _ _ _ _ (S (length l))); done || lia.
Qed.

Lemma vsnprintf_emit fmt l va txt :
  fmt_at fmt l -> format strs l va = Ok txt -> Z.of_nat (length txt) <= INT_MAX ->
  vsnprintf m0 buf size fmt va =
  Ok (write_bytes m0 buf (take (Z.to_nat (size - 1)) txt ++ [0]), Z.of_nat (length txt)).
Proof.
  intros Hf Ht Hl. unfold vsnprintf. unfold INT_MAX in *. rewrite int_chk_ok by lia. mret.
  replace (mkPstream buf (size - 1) 0) with (es [])
    by (unfold emit_ps; simpl; f_equal; lia).
  pose proof Hf as [Hc _]. apply cstr_fuel in Hc.
  pose proof (vsn_refines (length l) l None va [] txt fmt (S (length l)) (walk_fuel m0)) as Hr.
  cbn beta iota in Hr.
  unfold emit_mem at 1 in Hr. rewrite take_nil in Hr. cbn [write_bytes] in Hr.
  rewrite Hr; try done; try lia. mret. cbn [app emit_ps ps_buffer ps_added].
  rewrite store8_ok.
  - mret. do 2 f_equal. unfold emit_mem. change (u8 0) with 0.
    rewrite write_bytes_snoc, length_take. do 2 f_equal. lia.
  - unfold emit_mem. rewrite write_bytes_out by (rewrite length_take; lia). apply Hbuf. lia.
Qed.

End Vsnprintf.

(** ** Writes stay inside the buffer *)

(** The bytes the stream may still write lie inside [lo, hi), and the last
    one is kept for the terminator. *)
Definition ps_inv (lo hi : Z) (s : pstream) : Prop :=
  lo <= ps_buffer s /\ 0 <= ps_remain s /\ ps_buffer s + ps_remain s < hi.

Definition agree_outside (lo hi : Z) (m m' : mem) : Prop :=
  forall x, x < lo \/ hi <= x -> m' !! x = m !! x.

(** What every printing function promises of a run that succeeds; [st] finds
    the memory and the stream in what it returns. *)
Definition confined {A} (st : A -> mem * pstream) (lo hi : Z) (m : mem) (s : pstream)
    (r : res A) : Prop :=
  ps_inv lo hi s -> forall a, r = Ok a ->
  ps_inv lo hi (st a).2 /\ agree_outside lo hi m (st a).1.

Definition st_pair (x : mem * pstream) : mem * pstream := x.
Definition st_conv (x : mem * pstream * Z * list Z) : mem * pstream := x.1.1.
Definition st_num (x : mem * pstream * mem * Z * strprops) : mem * pstream := x.1.1.1.

Lemma agree_refl lo hi m : agree_outside lo hi m m.
Proof. by intros x _. Qed.

Lemma agree_trans lo hi m1 m2 m3 :
  agree_outside lo hi m1 m2 -> agree_outside lo hi m2 m3 -> agree_outside lo hi m1 m3.
Proof. intros H1 H2 x Hx. rewrite H2, H1 by done. done. Qed.

#[export] Hint Resolve agree_refl agree_trans : hb.

Lemma confined_ok {A} (st : A -> mem * pstream) lo hi m s a :
  st a = (m, s) -> confined st lo hi m s (Ok a).
Proof. intros E Hi ? [= <-]. rewrite E. eauto with hb. Qed.

Lemma confined_err {A} (st : A -> mem * pstream) lo hi m s e : confined st lo hi m s (Err e).
Proof. intros Hi a. discriminate. Qed.

Lemma confined_bind {A B} (st1 : A -> mem * pstream) (st2 : B -> mem * pstream) lo hi m s r k :
  confined st1 lo hi m s r ->
  (forall a, confined st2 lo hi (st1 a).1 (st1 a).2 (k a)) ->
  confined st2 lo hi m s (r ≫= k).
Proof.
  intros Hr Hk Hi b H. apply res_bind_ok in H as (a & H1 & H2).
  destruct (Hr Hi _ H1) as [Hi1 Ha1]. destruct (Hk _ Hi1 _ H2) as [Hi2 Ha2].
  eauto with hb.
Qed.

(** A step that touches neither memory nor stream. *)
Lemma confined_pure {A B} (st : B -> mem * pstream) lo hi m s (r : res A) k :
  (forall a, confined st lo hi m s (k a)) -> confined st lo hi m s (r ≫= k).
Proof. intros Hk. destruct r as [a|e]; mret; [apply Hk|apply confined_err]. Qed.

#[export] Hint Resolve confined_ok confined_err : hb.

Lemma addchar_confined lo hi m s c : confined st_pair lo hi m s (addchar m s c).
Proof.
  intros (H1 & H2 & H3) [m' s'] H. unfold addchar in H.
  apply res_bind_ok in H as ([[m1 b] r] & E & H).
  apply res_bind_ok in H as (a & _ & [= <- <-]).
  destruct (Z.eqb_spec (ps_remain s) 0) as [Hz|Hz].
  - injection E as <- <- <-. unfold ps_inv. simpl. eauto with hb.
  - apply res_bind_ok in E as (m2 & Hs & E). apply res_bind_ok in E as (r' & Hr & [= <- <- <-]).
    apply store8_inv in Hs as ->. unfold int_chk in Hr. destruct (int_ok _); [|discriminate].
    injection Hr as <-. split; [unfold ps_inv; simpl; lia|].
    intros x Hx. apply lookup_insert_ne. lia.
Qed.

(** Follows the code: a step that prints, one that only computes, a test. *)
Ltac pure_step :=
  lazymatch goal with |- confined _ _ _ _ _ (_ ≫= _) => apply confined_pure end;
  let x := fresh "x" in intros x;
  repeat match type of x with (_ * _)%type => let y := fresh "y" in destruct x as [x y] end.
Ltac print_step lem :=
  eapply (confined_bind st_pair); [apply lem|];
  let m := fresh "m" in let s := fresh "s" in intros [m s]; cbn [st_pair fst snd].

Lemma addpad_confined lo hi n m s c : confined st_pair lo hi m s (addpad n m s c).
Proof.
  revert m s. induction n as [|n IH]; intros m s; cbn [addpad]; [auto with hb|].
  print_step addchar_confined. auto.
Qed.

Lemma addstr_confined lo hi f m s p : confined st_pair lo hi m s (addstr f m s p).
Proof.
  revert m s p. induction f as [|f IH]; intros m s p; cbn [addstr]; [auto with hb|].
  pure_step. destruct (_ =? 0); [auto with hb|]. print_step addchar_confined. auto.
Qed.

#[export] Hint Resolve addchar_confined addpad_confined addstr_confined : hb.

Lemma print_str_confined lo hi m s p props : confined st_pair lo hi m s (print_str m s p props).
Proof.
  assert (Htail : forall m s n, confined st_pair lo hi m s
    ('(m, s) ← addstr (cptr_fuel m p) m s p;
     if n <? 0 then len ← cptr_strlen m p; addpad (Z.to_nat (- s32 (u64 n + len))) m s 32
     else Ok (m, s))).
  { intros m1 s1 n. print_step addstr_confined.
    destruct (_ <? 0); [|auto with hb]. pure_step. auto with hb. }
  unfold print_str. destruct (0 <? npad props); [|apply Htail].
  rewrite res_bind_assoc. pure_step. rewrite res_bind_assoc.
  print_step addpad_confined. apply Htail.
Qed.

#[export] Hint Resolve print_str_confined : hb.

Lemma print_int_confined lo hi m s n base props :
  confined st_pair lo hi m s (print_int m s n base props).
Proof. unfold print_int. repeat pure_step. auto with hb. Qed.

Lemma print_unsigned_confined lo hi m s n base props :
  confined st_pair lo hi m s (print_unsigned m s n base props).
Proof.
  unfold print_unsigned. pure_step.
  apply (confined_bind st_num).
  - destruct (_ =? 0); [pure_step; auto with hb|].
    destruct (_ && _); [|auto with hb]. destruct (_ =? 48).
    + print_step addchar_confined. print_step addchar_confined. auto with hb.
    + repeat pure_step. auto with hb.
  - intros [[[[m1 s1] b] p] pr]. cbn [st_num fst snd]. repeat pure_step. auto with hb.
Qed.

#[export] Hint Resolve print_int_confined print_unsigned_confined : hb.

Ltac conv_step IH :=
  first
    [ solve [apply IH | auto with hb]
    | first [ print_step addchar_confined | print_step print_int_confined
            | print_step print_unsigned_confined | print_step print_str_confined ];
      conv_step IH
    | pure_step; conv_step IH ].

Lemma vsn_more_confined lo hi k m s fmt va nlong props :
  confined st_conv lo hi m s (vsn_more k m s fmt va nlong props).
Proof.
  revert m s fmt va nlong props. induction k as [|k IH]; intros m s fmt va nlong props;
    cbn [vsn_more]; [auto with hb|]. pure_step.
  repeat (case_match; [conv_step IH|]). conv_step IH.
Qed.

Lemma vsn_loop_confined lo hi k m s fmt va : confined st_pair lo hi m s (vsn_loop k m s fmt va).
Proof.
  revert m s fmt va. induction k as [|k IH]; intros m s fmt va; cbn [vsn_loop]; [auto with hb|].
  pure_step. destruct (_ =? 0); [auto with hb|]. destruct (negb _).
  - print_step addchar_confined. auto.
  - eapply (confined_bind st_conv); [apply vsn_more_confined|].
    intros [[[m1 s1] fmt'] va']. cbn [st_conv fst snd]. auto.
Qed.

(** ** Numbers read back *)

Lemma digit_value d : 0 <= d < 10 -> digit_char d - 48 = d /\ is_digit (digit_char d).
Proof.
  intros Hd. assert (d = 0 \/ d = 1 \/ d = 2 \/ d = 3 \/ d = 4 \/ d = 5 \/ d = 6 \/ d = 7 \/ d = 8 \/ d = 9)
    as Hc by lia.
  unfold is_digit. repeat destruct Hc as [-> | Hc]; subst; vm_compute; repeat split; congruence.
Qed.

Lemma digits_val_rev fuel n :
  0 <= n < 10 ^ Z.of_nat fuel -> digits_val 0 (rev (rev_digits fuel n 10)) = n.
Proof.
  revert n. induction fuel as [|f IH]; intros n Hn; cbn [rev_digits].
  - simpl in Hn. change (0 = n). lia.
  - destruct (Z.eqb_spec n 0) as [->|Hz]; [done|]. cbn [rev]. unfold digits_val.
    rewrite foldl_app. fold (digits_val 0 (rev (rev_digits f (n / 10) 10))).
    rewrite Nat2Z.inj_succ, Z.pow_succ_r in Hn by lia.
    rewrite IH by (split; [apply Z.div_pos|apply Z.div_lt_upper_bound]; lia). cbn [foldl].
    rewrite (proj1 (digit_value (n mod 10) ltac:(apply Z.mod_pos_bound; lia))).
    rewrite (Z.mul_comm _ 10). symmetry. apply Z.div_mod. lia.
Qed.

(** Every character of a number is a digit or a letter. *)
Lemma num_text_plain n base : 0 <= n -> 1 < base <= 16 -> Forall (fun c => 48 <= c < 128) (num_text n base).
Proof.
  intros Hn Hb. unfold num_text. destruct (n =? 0); [by repeat constructor|]. apply Forall_rev.
  revert n Hn. induction digit_fuel as [|f IH]; intros n Hn; cbn [rev_digits]; [constructor|].
  destruct (n =? 0); constructor.
  - apply digit_lookup. pose proof (Z.mod_pos_bound n base ltac:(lia)). lia.
  - apply IH, Z.div_pos; lia.
Qed.

Lemma rev_digits_digit fuel n : 0 <= n -> Forall is_digit (rev_digits fuel n 10).
Proof.
  revert n. induction fuel as [|f IH]; intros n Hn; cbn [rev_digits]; [constructor|].
  destruct (n =? 0); constructor.
  - apply digit_value, Z.mod_pos_bound. lia.
  - apply IH, Z.div_pos; lia.
Qed.

Lemma num_text_decimal n :
  0 <= n < 18446744073709551616 ->
  digits_val 0 (num_text n 10) = n /\ Forall is_digit (num_text n 10) /\
  num_text n 10 <> [] /\ (length (num_text n 10) <= 20)%nat.
Proof.
  intros Hn. unfold num_text. destruct (Z.eqb_spec n 0) as [->|Hz].
  - repeat split; try done; [|simpl; lia]. unfold is_digit. by_eval.
  - split; [apply digits_val_rev; split; [lia|]; eapply Z.lt_le_trans; [apply Hn|by vm_compute]|].
    split; [apply Forall_rev, rev_digits_digit; lia|]. split.
    + intros E%(f_equal (@length Z)). rewrite length_rev in E.
      destruct (rev_digits digit_fuel n 10) eqn:En; [|discriminate].
      apply rev_digits_nil in En; lia.
    + rewrite length_rev. apply number_digits; auto.
Qed.

Definition fmt_ld : list Z := bytes_of_string "%ld".

Lemma format_ld strs n :
  -9223372036854775808 < n <= 9223372036854775807 ->
  format strs fmt_ld [n] =
  Ok ((if n <? 0 then [45] else []) ++ num_text (Z.abs n) 10).
Proof.
  intros Hn. unfold format, fmt_ld.
  change (bytes_of_string "%ld") with [chr "%"; chr "l"; chr "d"].
  cbn [format_go]. ctests. unfold conv_text. ctests. cbn [va_arg]. mret.
  replace (va_signed (0 + 1) n) with n by (unfold va_signed; change (0 + 1 =? 0) with false; mach).
  unfold int_text. rewrite (proj2 (Z.eqb_neq n _)) by lia. mret. f_equal.
  unfold pad_text. cbn [props0 npad]. 
  rewrite !Z2Nat.nonpos by lia. cbn [replicate app]. by rewrite !app_nil_r.
Qed.

(** ** binstr *)

Definition bit_char (x j : Z) : Z := if Z.testbit x j then 49 else 48.

Fixpoint bin_text (k : nat) (x i : Z) : list Z :=
  bit_char x (63 - i) ::
  match k with
  | O => []
  | S k' => (if Z.rem (i + 1) 4 =? 0 then [39] else []) ++ bin_text k' x (i + 1)
  end.

Lemma land_bit x j : 0 <= j -> (Z.land x (Z.shiftl 1 j) =? 0) = negb (Z.testbit x j).
Proof.
  intros Hj. rewrite Z.shiftl_1_l.
  destruct (Z.testbit x j) eqn:E; simpl; [apply Z.eqb_neq|apply Z.eqb_eq].
  - intros H. apply (f_equal (fun z => Z.testbit z j)) in H.
    rewrite Z.land_spec, Z.pow2_bits_true, E, Z.bits_0 in H by done. discriminate.
  - apply Z.bits_inj'. intros i Hi. rewrite Z.land_spec, Z.bits_0.
    destruct (decide (i = j)) as [->|Hne]; [by rewrite E|].
    rewrite Z.pow2_bits_false by done. apply andb_false_r.
Qed.

Lemma binstr_loop_spec k m x c i :
  i + Z.of_nat k = 63 -> 0 <= i -> mapped m c (Z.of_nat (length (bin_text k x i)) + 1) ->
  binstr_loop k m x c i =
  Ok (write_bytes m c (bin_text k x i ++ [0]), c + Z.of_nat (length (bin_text k x i))).
Proof.
  revert m c i. induction k as [|k IH]; intros m c i Hi Hi0 Hm;
    cbn [binstr_loop bin_text] in *.
  - rewrite land_bit by lia. rewrite store8_ok by (apply Hm; simpl; lia). mret.
    rewrite store8_ok by (rewrite lookup_insert_ne by lia; apply Hm; simpl; lia). mret. cbn [length app write_bytes]. f_equal. change (Z.of_nat 1) with 1. f_equal.
    rewrite insert_insert_ne by lia. unfold bit_char.
    replace (63 - i) with (64 - i - 1) by lia. by destruct (Z.testbit x _).
  - replace (u8 (if Z.land x (Z.shiftl 1 (64 - i - 1)) =? 0 then 48 else 49))
      with (bit_char x (63 - i)) in * by
      (rewrite land_bit by lia; unfold bit_char; replace (64 - i - 1) with (63 - i) by lia;
       by destruct (Z.testbit x _)).
    rewrite store8_ok by (apply Hm; simpl; lia). mret.
    replace (u8 (if Z.land x (Z.shiftl 1 (64 - i - 1)) =? 0 then 48 else 49))
      with (bit_char x (63 - i)) by
      (rewrite land_bit by lia; unfold bit_char; replace (64 - i - 1) with (63 - i) by lia;
       by destruct (Z.testbit x _)).
    destruct (Z.rem (i + 1) 4 =? 0).
    + cbn [app length] in *.
      rewrite store8_ok by (rewrite lookup_insert_ne by lia; apply Hm; lia). mret.
      rewrite IH by (lia || (repeat apply mapped_insert; eapply mapped_sub; [exact Hm| |]; lia)).
      f_equal. f_equal; [|lia]. change (u8 39) with 39. cbn [write_bytes].
      rewrite !write_bytes_insert_comm by lia. rewrite insert_insert_ne by lia. done.
    + cbn [app length] in *.
      rewrite IH by (lia || (apply mapped_insert; eapply mapped_sub; [exact Hm| |]; lia)).
      f_equal. f_equal; [|lia]. cbn [write_bytes]. by rewrite write_bytes_insert_comm by lia.
Qed.

Lemma bin_text_shape k x y i :
  (fun c => c =? 39) <$> bin_text k x i = (fun c => c =? 39) <$> bin_text k y i.
Proof.
  assert (H : forall z j, (bit_char z j =? 39) = false)
    by (intros z j; unfold bit_char; by destruct (Z.testbit z j)).
  revert i. induction k as [|k IH]; intros i; simpl; rewrite !H; [done|].
  rewrite !fmap_app, IH. done.
Qed.

Definition bin_val (acc : Z) (t : list Z) : Z :=
  foldl (fun a d => 2 * a + (d - 48)) acc (filter (fun c => c <> 39) t).

Lemma shiftr_bit x j : 0 <= j -> Z.shiftr x j = 2 * Z.shiftr x (j + 1) + Z.b2z (Z.testbit x j).
Proof.
  intros Hj. rewrite <- Z.shiftr_shiftr by lia. rewrite (Z.shiftr_div_pow2 _ 1) by lia.
  change (2 ^ 1) with 2. rewrite (Z.div_mod (Z.shiftr x j) 2) at 1 by lia. f_equal.
  rewrite <- Z.bit0_mod, Z.shiftr_spec by lia. by rewrite Z.add_0_l.
Qed.

Lemma bin_text_value k x i acc :
  i + Z.of_nat k = 63 -> 0 <= i -> acc = Z.shiftr x (64 - i) -> bin_val acc (bin_text k x i) = x.
Proof.
  revert i acc. induction k as [|k IH]; intros i acc Hi Hi0 Hacc; cbn [bin_text]; unfold bin_val.
  all: rewrite filter_cons_True by (unfold bit_char; destruct (Z.testbit x _); done); cbn [foldl].
  all: assert (Hstep : 2 * acc + (bit_char x (63 - i) - 48) = Z.shiftr x (63 - i)) by
    (rewrite (shiftr_bit x (63 - i)), Hacc by lia; replace (63 - i + 1) with (64 - i) by lia;
     unfold bit_char; destruct (Z.testbit x _); simpl; lia).
  - rewrite Hstep. replace (63 - i) with 0 by lia. apply Z.shiftr_0_r.
  - rewrite Hstep.
    assert (Hrest : foldl (fun a d => 2 * a + (d - 48)) (Z.shiftr x (63 - i))
      (filter (fun c => c <> 39) (bin_text k x (i + 1))) = x).
    { apply IH; [lia|lia|]. f_equal. lia. }
    destruct (_ =? 0); cbn [app]; [rewrite filter_cons_False by (intros H; by apply H)|]; apply Hrest.
Qed.

(** ** A buffer of size zero *)

(** With [size = 0] the count of free bytes starts at -1, which is not zero
    and never becomes so: plain text is stored in full. *)
Lemma vsn_loop_unbounded fuel m buf fmt l k :
  cstr m fmt l -> Forall (fun c => c <> chr "%") l -> (length l < fuel)%nat ->
  mapped m buf (Z.of_nat (length l)) ->
  disjoint_ranges buf (Z.of_nat (length l)) fmt (Z.of_nat (length l) + 1) ->
  0 <= k -> k + Z.of_nat (length l) < INT_MAX ->
  vsn_loop fuel m (mkPstream buf (-1 - k) k) fmt [] =
  Ok (write_bytes m buf l,
      mkPstream (buf + Z.of_nat (length l)) (-1 - (k + Z.of_nat (length l)))
        (k + Z.of_nat (length l))).
Proof.
  revert fuel m buf fmt k. unfold disjoint_ranges, INT_MAX.
  induction l as [|c l IH]; intros [|f] m buf fmt k Hc Hp Hf Hm Hd Hk Hl;
    try (simpl in Hf; lia); cbn [vsn_loop].
  - next_char Hc. simpl. rewrite !Z.add_0_r. done.
  - next_char Hc. apply Forall_cons in Hp as [Hp Hps].
    cbn [length] in *. rewrite Nat2Z.inj_succ in *.
    rewrite (char_test c (chr "%")), (proj2 (Z.eqb_neq c _)) by (done || by vm_compute).
    cbn [negb]. unfold addchar. cbn [ps_remain ps_buffer ps_added].
    rewrite (proj2 (Z.eqb_neq (-1 - k) 0)) by lia.
    rewrite store8_ok by (apply Hm; lia). mret.
    rewrite !int_chk_ok by lia. mret.
    replace (u8 (s8 c)) with c by mach.
    replace (-1 - k - 1) with (-1 - (k + 1)) by lia.
    rewrite IH; try done; try lia.
    + rewrite write_bytes_insert_comm by lia. cbn [write_bytes].
      do 2 f_equal; f_equal; lia.
    + destruct Hs as [H1 H2 H3]. split; [|done|lia].
      eapply bytes_at_frame; [|exact H1]. intros x Hx. rewrite length_app in Hx. simpl in Hx.
      apply lookup_insert_ne. lia.
    + apply mapped_insert. eapply mapped_sub; [exact Hm| |]; lia.
Qed.

(** ** The properties *)

(** C7: [vsnprintf] into a buffer of [size] bytes stores the text its format
    denotes, cut to [size - 1] characters, then the terminator, changes no
    other byte, and returns the length of the whole text. *)
Theorem vsnprintf_text m buf size strs fmt l va txt :
  1 <= size <= INT_MAX -> mapped m buf size ->
  (forall a s, strs a = Some s ->
     cstr m a s /\ disjoint_ranges buf size a (Z.of_nat (length s) + 1)) ->
  cstr m fmt l -> disjoint_ranges buf size fmt (Z.of_nat (length l) + 1) ->
  format strs l va = Ok txt -> Z.of_nat (length txt) <= INT_MAX ->
  vsnprintf m buf size fmt va =
  Ok (write_bytes m buf (take (Z.to_nat (size - 1)) txt ++ [0]), Z.of_nat (length txt)).
Proof. intros ? ? ? ? ? ? ?. eapply vsnprintf_emit; eauto. split; done. Qed.

(** C23: for a buffer of at least one byte, and whatever the format, its
    arguments and the pointers among them, a run of [vsnprintf] that returns
    has written only inside the [size] bytes of the buffer. Size 0 is left out:
    there the terminator is stored all the same ([snprintf_size_zero]). *)
Theorem vsnprintf_confined m buf size fmt va m' r :
  1 <= size -> vsnprintf m buf size fmt va = Ok (m', r) ->
  agree_outside buf (buf + size) m m'.
Proof.
  intros Hs H. unfold vsnprintf in H.
  apply res_bind_ok in H as (rem & Hr & H). apply res_bind_ok in H as ([m1 s1] & Hl & H).
  apply res_bind_ok in H as (m2 & Hst & [= <- <-]).
  assert (rem = size - 1) as -> by (unfold int_chk in Hr; destruct (int_ok _); congruence).
  assert (Hi : ps_inv buf (buf + size) (mkPstream buf (size - 1) 0))
    by (unfold ps_inv; simpl; lia).
  destruct (vsn_loop_confined _ _ _ _ _ _ _ Hi _ Hl) as [(I1 & I2 & I3) Ha]. simpl in *.
  apply store8_inv in Hst as ->. intros x Hx.
  rewrite lookup_insert_ne by lia. by apply Ha.
Qed.

(** A [long] printed with [%ld] reads back with [atol] as the same
    number, for every value but the least one. *)
Theorem print_read_long m buf fmt n :
  mapped m buf 22 -> cstr m fmt fmt_ld -> disjoint_ranges buf 22 fmt 4 ->
  -9223372036854775808 < n <= 9223372036854775807 ->
  exists m' r, snprintf m buf 22 fmt [n] = Ok (m', r) /\ atol m' buf = Ok n.
Proof.
  intros Hm Hf Hd Hn.
  set (sg := if n <? 0 then [45] else []). set (ds := num_text (Z.abs n) 10).
  destruct (num_text_decimal (Z.abs n)) as (Hv & Hdig & Hne & Hlen); [lia|]. fold ds in Hv, Hdig, Hne, Hlen.
  assert (Hsg : (length sg <= 1)%nat) by (subst sg; destruct (_ <? _); simpl; lia).
  eexists _, _. split.
  - apply (vsnprintf_emit m buf 22 (fun _ => None) ltac:(unfold INT_MAX; lia) Hm ltac:(done)
      fmt fmt_ld [n] (sg ++ ds)); [split; done|by apply format_ld|].
    rewrite length_app. unfold INT_MAX. lia.
  - rewrite take_ge by (rewrite length_app; lia).
    rewrite (atol_spec _ _ [] sg ds []).
    + rewrite Hv. unfold LONG_MAX. rewrite (proj2 (Z.leb_le _ _)) by lia. f_equal.
      subst sg. destruct (Z.ltb_spec n 0); unfold sign_of; simpl; lia.
    + rewrite app_nil_r. split; simpl.
      * apply write_bytes_at.
      * apply Forall_app. split; [subst sg; destruct (_ <? _); by repeat constructor|].
        eapply Forall_impl; [exact Hdig|]. unfold is_digit. simpl. lia.
      * rewrite length_app. lia.
    + constructor.
    + subst sg. destruct (_ <? _); auto.
    + done.
    + done.
    + done.
Qed.

(** Printing the least [long long] negates it, which overflows: its
    behaviour is undefined, whatever the base, the padding and the stream. *)
Lemma print_int_least m ps base props :
  print_int m ps (-9223372036854775808) base props = Err Undef.
Proof. reflexivity. Qed.

(** With a size of zero [snprintf] does not return early and does not
    stop at the end of the buffer: it stores the whole of a plain text and
    its terminator. *)
Theorem snprintf_size_zero m buf fmt l :
  cstr m fmt l -> Forall (fun c => c <> chr "%") l -> Z.of_nat (length l) < INT_MAX ->
  mapped m buf (Z.of_nat (length l) + 1) ->
  disjoint_ranges buf (Z.of_nat (length l)) fmt (Z.of_nat (length l) + 1) ->
  snprintf m buf 0 fmt [] = Ok (write_bytes m buf (l ++ [0]), Z.of_nat (length l)).
Proof.
  intros Hc Hp Hl Hm Hd. unfold snprintf, vsnprintf. rewrite int_chk_ok by lia. mret.
  change (0 - 1) with (-1 - 0).
  rewrite (vsn_loop_unbounded _ _ _ _ l); try done; try lia.
  - mret. cbn [ps_buffer ps_added]. rewrite store8_ok; [|rewrite write_bytes_out by lia; apply Hm; lia].
    mret. rewrite write_bytes_snoc. done.
  - by apply cstr_fuel in Hc.
  - eapply mapped_sub; [exact Hm| |]; lia.
Qed.

(** [binstr] fills exactly its 80 bytes, so its closing assertion holds;
    the 79 characters have a quote at every fifth place, and the other ones
    are the binary digits of [x], most significant first. *)
Theorem binstr_text m x out :
  0 <= x < 18446744073709551616 -> mapped m out BINSTR_SZ ->
  exists t, binstr m x out = Ok (write_bytes m out (t ++ [0]), true) /\
    length t = 79%nat /\ bin_val 0 t = x /\
    (forall i c, t !! i = Some c -> c = 39 <-> (i mod 5 = 4)%nat).
Proof.
  intros Hx Hm. exists (bin_text 63 x 0).
  assert (Hshape : (fun c => c =? 39) <$> bin_text 63 x 0 =
    (fun i => Nat.eqb (i mod 5) 4) <$> seq 0 79) by (rewrite (bin_text_shape _ x 0); reflexivity).
  assert (Hlen : length (bin_text 63 x 0) = 79%nat).
  { rewrite <- (length_fmap (fun c => c =? 39)), Hshape. reflexivity. }
  split; [|split; [done|split]].
  - unfold binstr. rewrite binstr_loop_spec; [|done|lia|].
    + mret. rewrite Hlen. do 2 f_equal. apply Z.eqb_eq. unfold BINSTR_SZ. lia.
    + rewrite Hlen. exact Hm.
  - apply bin_text_value; [done|lia|].
    rewrite Z.shiftr_div_pow2 by lia. rewrite Z.div_small; [done|]. change (2 ^ (64 - 0)) with 18446744073709551616. lia.
  - intros i c Hi. rewrite <- Z.eqb_eq, <- Nat.eqb_eq.
    assert (E : ((fun c => c =? 39) <$> bin_text 63 x 0) !! i = Some (c =? 39))
      by (rewrite list_lookup_fmap, Hi; done).
    rewrite Hshape, list_lookup_fmap, lookup_seq_lt in E
      by (rewrite <- Hlen; by eapply lookup_lt_Some).
    apply (inj Some) in E. cbv beta in E. rewrite Nat.add_0_l in E. by rewrite E.
Qed.

(** ** Witnesses *)

(** A format, a string argument and a buffer of 32 bytes. *)
Definition demo_fmt : list Z := bytes_of_string "[%5d|%-4s|%#x]".
Definition demo_print : mem :=
  write_bytes (write_bytes (write_bytes ∅ 100 (demo_fmt ++ [0]))
    200 (bytes_of_string "cpu" ++ [0])) 300 (replicate 32 0).
Definition demo_strs (a : Z) : option (list Z) :=
  if a =? 200 then Some (bytes_of_string "cpu") else None.

(** "[   42|cpu |0xff]", cut to a buffer of 16 bytes. *)
Lemma vsnprintf_text_witness :
  vsnprintf demo_print 300 16 100 [42; 200; 255] =
  Ok (write_bytes demo_print 300 (bytes_of_string "[   42|cpu |0xf" ++ [0]), 17).
Proof.
  rewrite (vsnprintf_text demo_print 300 16 demo_strs 100 demo_fmt [42; 200; 255]
    (bytes_of_string "[   42|cpu |0xff]")).
  - reflexivity.
  - vm_compute. split; congruence.
  - by_eval.
  - unfold demo_strs. intros a s. destruct (Z.eqb_spec a 200) as [->|]; [|discriminate].
    intros [= <-]. split; [by_eval|right; vm_compute; congruence].
  - by_eval.
  - right. vm_compute. congruence.
  - reflexivity.
  - vm_compute. congruence.
Defined.

Lemma vsnprintf_confined_witness :
  exists m', vsnprintf demo_print 300 16 100 [42; 200; 255] = Ok (m', 17) /\
    agree_outside 300 316 demo_print m'.
Proof.
  destruct (vsnprintf demo_print 300 16 100 [42; 200; 255]) as [[m' r]|e] eqn:E;
    [|vm_compute in E; discriminate E].
  exists m'. split.
  - f_equal. f_equal. vm_compute in E. congruence.
  - apply (vsnprintf_confined demo_print 300 16 100 [42; 200; 255] m' r); [lia|exact E].
Defined.

Definition demo_ld : mem := write_bytes (write_bytes ∅ 100 (fmt_ld ++ [0])) 300 (replicate 32 0).

Lemma print_read_long_witness :
  exists m' r, snprintf demo_ld 300 22 100 [-9223372036854775807] = Ok (m', r) /\
    atol m' 300 = Ok (-9223372036854775807).
Proof.
  apply (print_read_long demo_ld 300 100); [by_eval|by_eval|right; vm_compute; congruence|lia].
Defined.

Definition demo_zero : mem :=
  write_bytes (write_bytes ∅ 100 (bytes_of_string "abc" ++ [0])) 300 (replicate 4 7).

Lemma snprintf_size_zero_witness :
  snprintf demo_zero 300 0 100 [] =
  Ok (write_bytes demo_zero 300 (bytes_of_string "abc" ++ [0]), 3).
Proof.
  apply (snprintf_size_zero demo_zero 300 100 (bytes_of_string "abc"));
    [by_eval|by_eval|vm_compute; congruence|by_eval|right; vm_compute; congruence].
Defined.

Lemma binstr_text_witness :
  exists t, binstr (write_bytes ∅ 500 (replicate 80 0)) 3735928559 500 =
    Ok (write_bytes (write_bytes ∅ 500 (replicate 80 0)) 500 (t ++ [0]), true) /\
    bin_val 0 t = 3735928559.
Proof.
  destruct (binstr_text (write_bytes ∅ 500 (replicate 80 0)) 3735928559 500)
    as (t & H1 & _ & H2 & _); [lia|by_eval|]. eauto.
Defined.
