(* ===== verification/Serial.v ===== *)
(** * x86_64/serial.c, include/io.h, lib/abort.c

    Port I/O as a log of accesses: an input takes the next of the values the
    devices will return, an output is recorded. On top of it the serial line
    ([serial_init], [print_serial], [puts], [serial_putc]), [exit] and [abort].
    Both configurations of the source are modelled: the flag [use_serial] is
    the macro USE_SERIAL, [bare_metal] is __BARE_METAL; the Makefile defines
    neither. *)

From stdpp Require Import base gmap list numbers strings.
From Stdlib Require Import ZArith Lia.
From S2P Require Import Prelude Mem CString.

#[local] Open Scope Z_scope.

(** ** Ports *)

(** Accesses to ports, to device registers in memory and to model-specific
    registers, in the order they happen. *)
Inductive io_event :=
  | EvIn (width port value : Z)
  | EvOut (width port value : Z)
  | EvMmioRd (addr value : Z)
  | EvMmioWr (addr value : Z)
  | EvRdmsr (index value : Z)
  | EvWrmsr (index value : Z).

#[export] Instance io_event_eq_dec : EqDecision io_event.
Proof. solve_decision. Defined.

(** What the devices will answer, and what was done so far. A run that asks
    for more answers than there are ends in [Err Fuel]. *)
Record io := mkIo {
  io_in : list Z;
  io_log : list io_event;
}.

#[export] Instance io_eq_dec : EqDecision io.
Proof. solve_decision. Defined.

Definition port_in (width : Z) (conv : Z -> Z) (s : io) (port : Z) : res (Z * io) :=
  match io_in s with
  | v :: rest => Ok (conv v, mkIo rest (io_log s ++ [EvIn width (u16 port) (conv v)]))
  | [] => Err Fuel
  end.

Definition port_out (width : Z) (conv : Z -> Z) (s : io) (value port : Z) : io :=
  mkIo (io_in s) (io_log s ++ [EvOut width (u16 port) (conv value)]).

Definition inb := port_in 1 u8.
Definition inw := port_in 2 u16.
Definition inl := port_in 4 u32.
Definition outb := port_out 1 u8.
Definition outw := port_out 2 u16.
Definition outl := port_out 4 u32.

(** [rep outsb]: [n] bytes from [buf] to the port. *)
Fixpoint outbs (n : nat) (m : mem) (s : io) (buf port : Z) : res io :=
  match n with
  | O => Ok s
  | S n' => b ← load8 m buf; outbs n' m (outb s b port) (buf + 1) port
  end.

(** ** The spin lock, seen by one processor *)

(** A lock that is taken is never released while its only user waits. *)
Definition spin_lock (v : Z) : res Z := if v =? 0 then Ok 1 else Err Hang.
Definition spin_unlock (v : Z) : Z := 0.

(** ** The serial line *)

Definition serial_iobase : Z := 1016.

Record serial := mkSerial {
  ser_lock : Z;
  ser_inited : Z;
  ser_io : io;
}.

#[export] Instance serial_eq_dec : EqDecision serial.
Proof. solve_decision. Defined.

Definition with_io (s : serial) (i : io) : serial := mkSerial (ser_lock s) (ser_inited s) i.

(** [do { lsr = inb(...); } while (!(lsr & 0x20));], [fuel] polls at most. *)
Fixpoint poll_lsr (fuel : nat) (i : io) : res io :=
  match fuel with
  | O => Err Fuel
  | S f =>
      '(lsr, i) ← inb i (serial_iobase + 5);
      if Z.land lsr 32 =? 0 then poll_lsr f i else Ok i
  end.

(** Every poll takes an answer, so as many polls as answers are enough. *)
Definition poll_fuel (i : io) : nat := S (length (io_in i)).

Definition serial_outb (i : io) (ch : Z) : res io :=
  i ← poll_lsr (poll_fuel i) i;
  Ok (outb i ch (serial_iobase + 0)).

Definition serial_init (i : io) : res io :=
  '(lcr, i) ← inb i (serial_iobase + 3);
  let i := outb i (Z.lor lcr 128) (serial_iobase + 3) in
  let i := outb i 1 (serial_iobase + 0) in
  let i := outb i 0 (serial_iobase + 1) in
  '(lcr, i) ← inb i (serial_iobase + 3);
  Ok (outb i (Z.land lcr (Z.lnot 128)) (serial_iobase + 3)).

(** [for (i = 0; i < len; i++) serial_outb(buf[i]);] *)
Fixpoint serial_bytes (n : nat) (m : mem) (i : io) (buf : Z) : res io :=
  match n with
  | O => Ok i
  | S n' => c ← loadc m buf; i ← serial_outb i c; serial_bytes n' m i (buf + 1)
  end.

Section Config.

Context (use_serial bare_metal : bool).

Definition print_serial (m : mem) (s : serial) (buf : Z) : res serial :=
  len ← strlen m buf;
  if use_serial then
    s ← (if ser_inited s =? 0 then
           i ← serial_init (ser_io s); Ok (mkSerial (ser_lock s) 1 i)
         else Ok s);
    i ← serial_bytes (Z.to_nat len) m (ser_io s) buf;
    Ok (with_io s i)
  else
    i ← outbs (Z.to_nat len) m (ser_io s) buf serial_iobase;
    Ok (with_io s i).

Definition puts (m : mem) (s : serial) (str : Z) : res serial :=
  v ← spin_lock (ser_lock s);
  s ← print_serial m (mkSerial v (ser_inited s) (ser_io s)) str;
  Ok (mkSerial (spin_unlock (ser_lock s)) (ser_inited s) (ser_io s)).

Definition shutdown_str : list Z := bytes_of_string "Shutdown".

Definition exit (i : io) (code : Z) : io :=
  if use_serial then
    foldl (fun i c => outb i c 35072) (outl i code 244) shutdown_str
  else outl i code 244.

Definition ABORT_EXIT_STATUS : Z := 63.

Definition abort (i : io) : io := exit i ABORT_EXIT_STATUS.

Definition wait : res unit := if bare_metal then Err Hang else Ok tt.

(** [is_transmit_empty] and the loop of [serial_putc] around it. *)
Definition is_transmit_empty (i : io) : res (bool * io) :=
  '(v, i) ← inb i (serial_iobase + 5);
  Ok (negb (Z.land v 32 =? 0), i).

Fixpoint wait_empty (fuel : nat) (i : io) : res io :=
  match fuel with
  | O => Err Fuel
  | S f => '(e, i) ← is_transmit_empty i; if (e : bool) then Ok i else wait_empty f i
  end.

Definition serial_putc (i : io) (ch : Z) : res io :=
  i ← wait_empty (poll_fuel i) i;
  Ok (outb i ch serial_iobase).

End Config.

(** ** What reaches the line *)

(** The bytes written to the data port, in order. *)
Definition sent_of (e : io_event) : option Z :=
  match e with
  | EvOut w p v => if (w =? 1) && (p =? 1016) then Some v else None
  | _ => None
  end.

Definition sent (l : list io_event) : list Z := omap sent_of l.

(** An answer of the line status register with the transmitter ready. *)
Definition ready (v : Z) : Prop := Z.land (u8 v) 32 <> 0.

Lemma sent_app l1 l2 : sent (l1 ++ l2) = sent l1 ++ sent l2.
Proof. apply omap_app. Qed.

Lemma sent_outs l : sent (EvOut 1 serial_iobase <$> l) = l.
Proof. induction l as [|c l IH]; [done|]. unfold sent in *. cbn. by rewrite IH. Qed.

Lemma sent_outb i c : sent (io_log (outb i c serial_iobase)) = sent (io_log i) ++ [u8 c].
Proof. unfold outb, port_out. cbn [io_log]. by rewrite sent_app. Qed.

Lemma sent_inb i port v i' : inb i port = Ok (v, i') -> sent (io_log i') = sent (io_log i).
Proof.
  unfold inb, port_in. destruct (io_in i); [discriminate|]. intros [= _ <-]. cbn [io_log].
  rewrite sent_app. apply app_nil_r.
Qed.

(** [rep outsb] leaves the answers alone and sends the bytes. *)
Lemma outbs_sends m i buf l :
  bytes_at m buf l -> Forall (fun c => 0 <= c < 256) l ->
  outbs (length l) m i buf serial_iobase =
  Ok (mkIo (io_in i) (io_log i ++ (EvOut 1 serial_iobase <$> l))).
Proof.
  intros H Hl. revert i buf H. induction Hl as [|c l Hc Hl IH]; intros i buf H; cbn [length outbs].
  - rewrite app_nil_r. by destruct i.
  - apply bytes_at_cons in H as [H1 H2]. rewrite (load8_ok _ _ _ H1). mret.
    rewrite (IH _ _ H2). unfold outb, port_out. cbn [io_in io_log].
    rewrite <- app_assoc, u8_small by lia. done.
Qed.

(** One poll suffices when the line answers that it is ready. *)
Lemma serial_outb_ready i c v rest :
  io_in i = v :: rest -> ready v ->
  exists i', serial_outb i c = Ok i' /\ io_in i' = rest /\
    sent (io_log i') = sent (io_log i) ++ [u8 c].
Proof.
  intros Hi Hv. unfold serial_outb, poll_fuel. rewrite Hi. cbn [length poll_lsr].
  destruct (inb i (serial_iobase + 5)) as [[lsr i1]|e] eqn:E;
    [|by unfold inb, port_in in E; rewrite Hi in E].
  mret. pose proof (sent_inb _ _ _ _ E) as Hs. unfold inb, port_in in E. rewrite Hi in E.
  injection E as <- <-. unfold ready in Hv. rewrite (proj2 (Z.eqb_neq _ _) Hv). mret.
  eexists. split; [done|]. split; [done|]. rewrite Z.add_0_r, sent_outb, Hs. done.
Qed.

Lemma serial_bytes_ready m i buf l :
  bytes_at m buf l -> Forall (fun c => 0 <= c < 256) l ->
  Forall ready (io_in i) -> (length l <= length (io_in i))%nat ->
  exists i', serial_bytes (length l) m i buf = Ok i' /\
    io_in i' = drop (length l) (io_in i) /\ sent (io_log i') = sent (io_log i) ++ l.
Proof.
  intros H Hl. revert i buf H. induction Hl as [|c l Hc Hl IH]; intros i buf H Hr Hlen;
    cbn [length serial_bytes].
  - exists i. rewrite app_nil_r. done.
  - apply bytes_at_cons in H as [H1 H2]. unfold loadc. rewrite (load8_ok _ _ _ H1). mret.
    destruct (io_in i) as [|v rest] eqn:Ei; [simpl in Hlen; lia|].
    apply Forall_cons in Hr as [Hv Hr].
    destruct (serial_outb_ready i (s8 c) v rest Ei Hv) as (i1 & -> & Hi1 & Hs1). mret.
    destruct (IH i1 (buf + 1) H2) as (i2 & E2 & Hi2 & Hs2);
      [by rewrite Hi1|rewrite Hi1; simpl in Hlen; lia|].
    exists i2. split; [done|]. split; [by rewrite Hi2, Hi1|].
    rewrite Hs2, Hs1, <- app_assoc. by rewrite u8_s8 by lia.
Qed.

(** ** The properties *)

(** [puts] sends a string to the line byte by byte and in order, and
    leaves the lock free: at once in the default build, and in the build with
    USE_SERIAL, once initialised, as soon as every poll finds the
    transmitter ready. *)
Theorem puts_sends use_serial m s str l :
  cstr m str l -> ser_lock s = 0 -> ser_inited s <> 0 ->
  Forall ready (io_in (ser_io s)) -> (length l <= length (io_in (ser_io s)))%nat ->
  exists s', puts use_serial m s str = Ok s' /\ ser_lock s' = 0 /\
    sent (io_log (ser_io s')) = sent (io_log (ser_io s)) ++ l.
Proof.
  intros Hc Hl Hi Hr Hlen. unfold puts, spin_lock. rewrite Hl. change (0 =? 0) with true. mret.
  unfold print_serial. rewrite (strlen_spec _ _ l) by done. mret.
  pose proof Hc as [Hb Hch _]. apply bytes_at_app in Hb as [Hb _].
  assert (Hch' : Forall (fun c => 0 <= c < 256) l)
    by (eapply Forall_impl; [exact Hch|simpl; lia]).
  rewrite Nat2Z.id. destruct use_serial; cbn [ser_inited ser_io].
  - rewrite (proj2 (Z.eqb_neq _ _) Hi). mret. cbn [ser_io].
    destruct (serial_bytes_ready m (ser_io s) str l) as (i' & -> & _ & Hs); try done.
    mret. eexists. split; [done|]. done.
  - rewrite outbs_sends by done. mret. eexists. split; [done|]. split; [done|].
    cbn [with_io ser_io io_log]. by rewrite sent_app, sent_outs.
Qed.

(** [exit] in the default build is one 32-bit write of the code to port
    0xf4, which is how [abort] makes qemu leave with status 127 as its
    comment says: qemu exits with [(code << 1) | 1]. *)
Lemma abort_status i :
  abort false i = mkIo (io_in i) (io_log i ++ [EvOut 4 244 ABORT_EXIT_STATUS]) /\
  Z.lor (Z.shiftl ABORT_EXIT_STATUS 1) 1 = 127.
Proof. done. Qed.

(** ** Witnesses *)

Definition demo_line : mem := write_bytes ∅ 100 (bytes_of_string "ok" ++ [0]).
Definition demo_serial : serial := mkSerial 0 1 (mkIo [96; 32; 96] []).

Lemma puts_sends_witness :
  exists s', puts true demo_line demo_serial 100 = Ok s' /\ ser_lock s' = 0 /\
    sent (io_log (ser_io s')) = bytes_of_string "ok".
Proof.
  apply (puts_sends true demo_line demo_serial 100 (bytes_of_string "ok"));
    [by_eval|done|done|repeat constructor; vm_compute; congruence|vm_compute; lia].
Defined.
