(* ===== verification/Console.v ===== *)
(** * x86_64/console.c

    The text console: 25 rows of 80 cells in video memory at 0xb8000, a
    cursor, a lock. The cells are 16-bit words of the kernel's memory and
    [slot_from_xy] returns a null pointer off the screen, as in the source.

    The second part is what a terminal promises, on a plain list of cells
    ([term_putc]), and the proof that [console_putc] and [console_puts]
    implement it and write nothing outside the video memory. *)

From stdpp Require Import base gmap list numbers strings.
From Stdlib Require Import ZArith Lia.
From S2P Require Import Prelude Mem CString Printf Serial.

#[local] Open Scope Z_scope.

Definition ROWS : Z := 25.
Definition COLUMNS : Z := 80.
Definition vga : Z := 753664.

Record console := mkConsole {
  con_lock : Z;
  console_cleared : Z;
  cur_x : Z;
  cur_y : Z;
}.

Definition with_cur (c : console) (x y : Z) : console :=
  mkConsole (con_lock c) (console_cleared c) x y.

Definition slot_from_xy (x y : Z) : Z :=
  if COLUMNS <=? x then 0
  else if ROWS <=? y then 0
  else vga + 2 * u32 (x + u32 (y * COLUMNS)).

(** [vga[i] = 0] for [n] cells from [i] on. *)
Fixpoint clear_cells (n : nat) (m : mem) (i : Z) : res mem :=
  match n with
  | O => Ok m
  | S n' => m ← store16 m (vga + 2 * i) 0; clear_cells n' m (i + 1)
  end.

Definition console_clear (m : mem) (c : console) : res (mem * console) :=
  m ← clear_cells (Z.to_nat (ROWS * COLUMNS)) m 0;
  Ok (m, with_cur c 0 0).

Definition write_reg (i : io) (reg val : Z) : io :=
  outb (outb i reg 980) val 981.

Definition console_init (m : mem) (c : console) (i : io) : res (mem * console * io) :=
  let i := write_reg i 10 32 in
  '(m, c) ← console_clear m c;
  Ok (m, c, i).

(** The inner loop of the scroll: row [y + 1] into row [y], from column [x]. *)
Fixpoint scroll_row (n : nat) (m : mem) (x y : Z) : res mem :=
  match n with
  | O => Ok m
  | S n' =>
      v ← load16 m (slot_from_xy x (y + 1));
      m ← store16 m (slot_from_xy x y) v;
      scroll_row n' m (x + 1) y
  end.

Fixpoint scroll_rows (n : nat) (m : mem) (y : Z) : res mem :=
  match n with
  | O => Ok m
  | S n' => m ← scroll_row (Z.to_nat COLUMNS) m 0 y; scroll_rows n' m (y + 1)
  end.

(** The last loop of [new_line]: blanks the bottom row. *)
Fixpoint blank_row (n : nat) (m : mem) (x : Z) : res mem :=
  match n with
  | O => Ok m
  | S n' => m ← store16 m (slot_from_xy x (ROWS - 1)) 0; blank_row n' m (x + 1)
  end.

Definition new_line (m : mem) (c : console) : res (mem * console) :=
  let y := u32 (cur_y c + 1) in
  if ROWS <=? y then
    m ← scroll_rows (Z.to_nat (ROWS - 1)) m 0;
    m ← blank_row (Z.to_nat COLUMNS) m 0;
    Ok (m, with_cur c 0 (ROWS - 1))
  else Ok (m, with_cur c 0 y).

(** [ch] is a signed [char]; [0x0700 | ch] is computed on [int] and stored in
    a [uint16_t]. *)
Definition console_putc (m : mem) (c : console) (ch : Z) : res (mem * console) :=
  if ch =? LF then new_line m c
  else if ch =? CR then Ok (m, with_cur c 0 (cur_y c))
  else
    m ← store16 m (slot_from_xy (cur_x c) (cur_y c)) (u16 (Z.lor 1792 ch));
    let x := u32 (cur_x c + 1) in
    let c := with_cur c x (cur_y c) in
    if COLUMNS <=? x then new_line m c else Ok (m, c).

Fixpoint putc_loop (n : nat) (m : mem) (c : console) (buf : Z) : res (mem * console) :=
  match n with
  | O => Ok (m, c)
  | S n' => ch ← loadc m buf; '(m, c) ← console_putc m c ch; putc_loop n' m c (buf + 1)
  end.

Definition console_puts (m : mem) (c : console) (i : io) (buf : Z) : res (mem * console * io) :=
  v ← spin_lock (con_lock c);
  let c := mkConsole v (console_cleared c) (cur_x c) (cur_y c) in
  len ← strlen m buf;
  '(m, c, i) ←
    (if console_cleared c =? 0 then
       '(m, c, i) ← console_init m c i;
       Ok (m, mkConsole (con_lock c) 1 (cur_x c) (cur_y c), i)
     else Ok (m, c, i));
  '(m, c) ← putc_loop (Z.to_nat len) m c buf;
  Ok (m, mkConsole (spin_unlock (con_lock c)) (console_cleared c) (cur_x c) (cur_y c), i).

(** ** What a terminal does *)

(** A terminal: its cells row by row, and the cursor. *)
Record term := mkTerm {
  cells : list Z;
  tx : nat;
  ty : nat;
}.

Definition scrolled (l : list Z) : list Z := drop 80 l ++ replicate 80 0.

Definition term_newline (t : term) : term :=
  if Nat.ltb (S (ty t)) 25 then mkTerm (cells t) 0 (S (ty t))
  else mkTerm (scrolled (cells t)) 0 24.

(** The cell of a character: light grey on black, unless the sign of the
    character spills into the attribute. *)
Definition cell_of (ch : Z) : Z := u16 (Z.lor 1792 ch).

Definition term_putc (t : term) (ch : Z) : term :=
  if ch =? LF then term_newline t
  else if ch =? CR then mkTerm (cells t) 0 (ty t)
  else
    let t := mkTerm (<[(80 * ty t + tx t)%nat := cell_of ch]> (cells t)) (S (tx t)) (ty t) in
    if Nat.ltb (tx t) 80 then t else term_newline t.

Definition term_ok (t : term) : Prop :=
  length (cells t) = 2000%nat /\ (tx t < 80)%nat /\ (ty t < 25)%nat.

(** Video memory holds the cells [l]. *)
Definition screen_at (m : mem) (l : list Z) : Prop :=
  mapped m vga 4000 /\ length l = 2000%nat /\ Forall (fun v => 0 <= v < 65536) l /\
  forall i v, l !! i = Some v -> load16 m (vga + 2 * Z.of_nat i) = Ok v.

Definition shows (m : mem) (c : console) (t : term) : Prop :=
  screen_at m (cells t) /\ term_ok t /\
  cur_x c = Z.of_nat (tx t) /\ cur_y c = Z.of_nat (ty t).

(** Two memories differ at most inside the video memory. *)
Definition only_vga (m m' : mem) : Prop := agree_outside vga (vga + 4000) m m'.

Lemma only_vga_refl m : only_vga m m.
Proof. apply agree_refl. Qed.

Lemma only_vga_trans m1 m2 m3 : only_vga m1 m2 -> only_vga m2 m3 -> only_vga m1 m3.
Proof. apply agree_trans. Qed.

#[export] Hint Resolve only_vga_refl : hb.

(** ** Cells *)

Lemma term_putc_ok t ch : term_ok t -> term_ok (term_putc t ch).
Proof.
  destruct t as [l x y]. intros (Hl & Hx & Hy). simpl in *.
  assert (Hn : forall l x y, length l = 2000%nat -> (x < 81)%nat -> (y < 25)%nat ->
    term_ok (term_newline (mkTerm l x y))).
  { intros l' x' y' Hl' Hx' Hy'. unfold term_newline. cbn [ty].
    destruct (Nat.ltb_spec (S y') 25); repeat split; simpl; try lia.
    unfold scrolled. rewrite length_app, length_drop, length_replicate. lia. }
  unfold term_putc. simpl. destruct (ch =? LF); [apply Hn; lia|].
  destruct (ch =? CR); [repeat split; simpl; lia|].
  destruct (Nat.ltb_spec (S x) 80); [repeat split; simpl; rewrite ?length_insert; lia|].
  apply Hn; rewrite ?length_insert; lia.
Qed.

Lemma slot_index x y : 0 <= x < 80 -> 0 <= y < 25 -> slot_from_xy x y = vga + 2 * (x + 80 * y).
Proof.
  intros Hx Hy. unfold slot_from_xy, COLUMNS, ROWS.
  rewrite (proj2 (Z.leb_gt 80 x)), (proj2 (Z.leb_gt 25 y)) by lia.
  rewrite (u32_small (y * 80)), u32_small by lia. lia.
Qed.

Lemma load_cell m l i v :
  screen_at m l -> 0 <= i -> l !! Z.to_nat i = Some v -> load16 m (vga + 2 * i) = Ok v.
Proof.
  intros (_ & _ & _ & H) Hi Hv. specialize (H _ _ Hv).
  by replace (vga + 2 * Z.of_nat (Z.to_nat i)) with (vga + 2 * i) in H by lia.
Qed.

Lemma store_cell m l i v :
  screen_at m l -> 0 <= i < 2000 ->
  exists m', store16 m (vga + 2 * i) v = Ok m' /\
    screen_at m' (<[Z.to_nat i := u16 v]> l) /\ only_vga m m'.
Proof.
  intros (Hm & Hl & Hr & H) Hi. unfold store16.
  rewrite store_le_ok by (eapply mapped_sub; [exact Hm| |]; lia).
  eexists. split; [done|]. split.
  - split; [|split; [|split]].
    + eapply same_dom_mapped; [|exact Hm]. apply write_bytes_dom.
      rewrite length_le_bytes. eapply mapped_sub; [exact Hm| |]; lia.
    + by rewrite length_insert.
    + apply Forall_insert; [done|mach].
    + intros j w Hj. destruct (decide (j = Z.to_nat i)) as [->|Hne].
      * rewrite list_lookup_insert_eq in Hj by lia. injection Hj as <-.
        replace (vga + 2 * Z.of_nat (Z.to_nat i)) with (vga + 2 * i) by lia.
        unfold load16. rewrite load_store_le_same. done.
      * rewrite list_lookup_insert_ne in Hj by done. unfold load16.
        rewrite load_store_le_other by lia. by apply H.
  - intros x Hx. apply write_bytes_out. rewrite length_le_bytes. lia.
Qed.

(** ** The loops *)

(** The cells after [k] of them were overwritten by the ones a row below. *)
Definition scroll_upto (k : nat) (l : list Z) : list Z := take k (drop 80 l) ++ drop k l.

(** The cells after [k] of them, from [a] on, were cleared. *)
Definition zero_upto (a k : nat) (l : list Z) : list Z :=
  take a l ++ replicate k 0 ++ drop (a + k) l.

Lemma scroll_upto_lookup k l :
  (k + 80 < length l)%nat -> scroll_upto k l !! (k + 80)%nat = l !! (k + 80)%nat.
Proof.
  intros H. unfold scroll_upto.
  rewrite lookup_app_r by (rewrite length_take, length_drop; lia).
  rewrite length_take, length_drop, lookup_drop. f_equal. lia.
Qed.

Lemma scroll_upto_step k l v :
  l !! (k + 80)%nat = Some v -> <[k := v]> (scroll_upto k l) = scroll_upto (S k) l.
Proof.
  intros H. pose proof (lookup_lt_Some _ _ _ H) as Hlen.
  destruct (lookup_lt_is_Some_2 l k ltac:(lia)) as [w Hw]. unfold scroll_upto.
  rewrite insert_app_r_alt by (rewrite length_take, length_drop; lia).
  rewrite length_take, length_drop, Nat.min_l, Nat.sub_diag by lia.
  rewrite (drop_S _ _ _ Hw). cbn [insert list_insert].
  rewrite (take_S_r _ _ v) by (by rewrite lookup_drop, Nat.add_comm).
  by rewrite <- app_assoc.
Qed.

Lemma zero_upto_step a k l :
  (a + k < length l)%nat -> <[(a + k)%nat := 0]> (zero_upto a k l) = zero_upto a (S k) l.
Proof.
  intros H. destruct (lookup_lt_is_Some_2 l (a + k) H) as [w Hw]. unfold zero_upto.
  rewrite insert_app_r_alt by (rewrite length_take; lia).
  rewrite insert_app_r_alt by (rewrite length_replicate, length_take; lia).
  rewrite length_replicate, length_take.
  replace (a + k - a `min` length l - k)%nat with 0%nat by lia.
  rewrite (drop_S _ _ _ Hw). cbn [insert list_insert].
  replace (S k) with (k + 1)%nat by lia. rewrite replicate_add, <- app_assoc. cbn [replicate app].
  do 4 f_equal. lia.
Qed.

Lemma length_scroll_upto k l :
  (k + 80 <= length l)%nat -> length (scroll_upto k l) = length l.
Proof. intros. unfold scroll_upto. rewrite length_app, length_take, !length_drop. lia. Qed.

Lemma clear_cells_spec n m l a k :
  screen_at m (zero_upto a k l) -> length l = 2000%nat -> (a + k + n <= 2000)%nat ->
  exists m', clear_cells n m (Z.of_nat (a + k)) = Ok m' /\
    screen_at m' (zero_upto a (k + n) l) /\ only_vga m m'.
Proof.
  revert m k. induction n as [|n IH]; intros m k Hs Hl Hn; cbn [clear_cells].
  - rewrite Nat.add_0_r. eauto with hb.
  - destruct (store_cell m _ (Z.of_nat (a + k)) 0 Hs ltac:(lia)) as (m1 & -> & Hs1 & Ho1). mret.
    rewrite Nat2Z.id, zero_upto_step in Hs1 by lia.
    destruct (IH m1 (S k)) as (m2 & H2 & Hs2 & Ho2); [done|done|lia|].
    exists m2. replace (Z.of_nat (a + k) + 1) with (Z.of_nat (a + S k)) by lia.
    replace (k + S n)%nat with (S k + n)%nat by lia. eauto using only_vga_trans.
Qed.

(** The bottom row is cleared by the same writes. *)
Lemma blank_row_clear n m x :
  0 <= x -> x + Z.of_nat n <= 80 -> blank_row n m x = clear_cells n m (1920 + x).
Proof.
  revert m x. induction n as [|n IH]; intros m x Hx Hn; [done|]. cbn [blank_row clear_cells].
  change (ROWS - 1) with 24. rewrite slot_index by lia.
  replace (x + 80 * 24) with (1920 + x) by lia.
  destruct (store16 m (vga + 2 * (1920 + x)) 0) as [m'|e]; mret; [|done].
  rewrite IH by lia. f_equal. lia.
Qed.

Lemma scroll_row_spec n m l x y :
  screen_at m (scroll_upto (80 * y + x) l) -> length l = 2000%nat ->
  (x + n <= 80)%nat -> (y < 24)%nat ->
  exists m', scroll_row n m (Z.of_nat x) (Z.of_nat y) = Ok m' /\
    screen_at m' (scroll_upto (80 * y + (x + n)) l) /\ only_vga m m'.
Proof.
  revert m x. induction n as [|n IH]; intros m x Hs Hl Hx Hy; cbn [scroll_row].
  - rewrite Nat.add_0_r. eauto with hb.
  - destruct (lookup_lt_is_Some_2 l (80 * y + x + 80)) as [v Hv]; [lia|].
    rewrite !slot_index by lia. erewrite load_cell; [|exact Hs|lia|].
    2: { replace (Z.to_nat _) with (80 * y + x + 80)%nat by lia.
         rewrite scroll_upto_lookup by lia. exact Hv. }
    mret. destruct (store_cell m _ (Z.of_nat x + 80 * Z.of_nat y) v Hs ltac:(lia))
      as (m1 & -> & Hs1 & Ho1). mret.
    replace (Z.to_nat (Z.of_nat x + 80 * Z.of_nat y)) with (80 * y + x)%nat in Hs1 by lia.
    rewrite u16_small, (scroll_upto_step _ _ v) in Hs1.
    + destruct (IH m1 (S x)) as (m2 & H2 & Hs2 & Ho2);
        [by replace (80 * y + S x)%nat with (S (80 * y + x)) by lia|done|lia|lia|].
      exists m2. replace (Z.of_nat x + 1) with (Z.of_nat (S x)) by lia.
      replace (x + S n)%nat with (S x + n)%nat by lia. eauto using only_vga_trans.
    + done.
    + destruct Hs as (_ & _ & Hr & _). eapply (Forall_lookup_1 _ _ _ _ Hr).
      rewrite scroll_upto_lookup by lia. exact Hv.
Qed.

Lemma scroll_rows_spec n m l y :
  screen_at m (scroll_upto (80 * y) l) -> length l = 2000%nat -> (y + n <= 24)%nat ->
  exists m', scroll_rows n m (Z.of_nat y) = Ok m' /\
    screen_at m' (scroll_upto (80 * (y + n)) l) /\ only_vga m m'.
Proof.
  revert m y. induction n as [|n IH]; intros m y Hs Hl Hy; cbn [scroll_rows].
  - rewrite Nat.add_0_r. eauto with hb.
  - destruct (scroll_row_spec 80 m l 0 y) as (m1 & H1 & Hs1 & Ho1);
      [by rewrite Nat.add_0_r|done|lia|lia|].
    change (Z.of_nat 0) with 0 in H1. change (Z.to_nat COLUMNS) with 80%nat. rewrite H1. mret.
    destruct (IH m1 (S y)) as (m2 & H2 & Hs2 & Ho2);
      [by replace (80 * S y)%nat with (80 * y + (0 + 80))%nat by lia|done|lia|].
    exists m2. replace (Z.of_nat y + 1) with (Z.of_nat (S y)) by lia.
    replace (y + S n)%nat with (S y + n)%nat by lia. eauto using only_vga_trans.
Qed.

Lemma scroll_then_clear l :
  length l = 2000%nat -> zero_upto 1920 80 (scroll_upto 1920 l) = scrolled l.
Proof.
  intros Hl. unfold zero_upto, scroll_upto, scrolled.
  rewrite take_app_le, take_take by (rewrite length_take, length_drop; lia).
  rewrite take_ge by (rewrite length_drop; lia).
  rewrite (drop_ge (_ ++ _)) by (rewrite length_app, length_take, !length_drop; lia).
  by rewrite app_nil_r.
Qed.

(** ** Refinement *)

Lemma new_line_refines m c t x :
  screen_at m (cells t) -> length (cells t) = 2000%nat -> (ty t < 25)%nat ->
  cur_y c = Z.of_nat (ty t) ->
  exists m' c', new_line m (with_cur c x (cur_y c)) = Ok (m', c') /\
    shows m' c' (term_newline t) /\ only_vga m m' /\
    con_lock c' = con_lock c /\ console_cleared c' = console_cleared c.
Proof.
  intros Hs Hl Hy Hc. unfold new_line, term_newline, ROWS. cbn [with_cur cur_y].
  rewrite Hc, u32_small by lia.
  destruct (Nat.ltb_spec (S (ty t)) 25); btest; try lia.
  - eexists _, _. split; [done|]. unfold shows, term_ok. cbn [cells tx ty with_cur cur_x cur_y].
    repeat split; try apply Hs; eauto with hb; lia.
  - destruct (scroll_rows_spec 24 m (cells t) 0) as (m1 & H1 & Hs1 & Ho1); [done|done|lia|].
    change (Z.to_nat (25 - 1)) with 24%nat. change (Z.of_nat 0) with 0 in H1. rewrite H1. mret.
    rewrite blank_row_clear by (vm_compute; congruence).
    destruct (clear_cells_spec 80 m1 (scroll_upto 1920 (cells t)) 1920 0) as (m2 & H2 & Hs2 & Ho2).
    + unfold zero_upto. rewrite Nat.add_0_r. cbn [replicate app]. by rewrite take_drop.
    + by rewrite length_scroll_upto by lia.
    + lia.
    + change (Z.of_nat (1920 + 0)) with (1920 + 0) in H2.
      change (Z.to_nat COLUMNS) with 80%nat. rewrite H2. mret.
      change (0 + 80)%nat with 80%nat in Hs2. rewrite scroll_then_clear in Hs2 by done.
      eexists _, _. split; [done|]. pose proof Hs2 as (_ & Hl2 & _).
      split; [|split; [by eapply only_vga_trans|done]].
      split; [done|]. split; [|done]. split; [done|]. simpl. lia.
Qed.

Lemma console_putc_refines m c t ch :
  shows m c t ->
  exists m' c', console_putc m c ch = Ok (m', c') /\
    shows m' c' (term_putc t ch) /\ only_vga m m' /\
    con_lock c' = con_lock c /\ console_cleared c' = console_cleared c.
Proof.
  intros (Hs & (Hl & Hx & Hy) & Hcx & Hcy). unfold console_putc, term_putc.
  destruct (ch =? LF).
  { destruct c as [k d x y]. apply (new_line_refines m (mkConsole k d x y) t x); done. }
  destruct (ch =? CR).
  { eexists _, _. split; [done|]. split; [|eauto with hb].
    split; [done|]. split; [|done]. repeat split; simpl; lia. }
  rewrite Hcx, Hcy, slot_index by lia.
  destruct (store_cell m _ (Z.of_nat (tx t) + 80 * Z.of_nat (ty t)) (u16 (Z.lor 1792 ch)) Hs ltac:(lia))
    as (m1 & -> & Hs1 & Ho1). mret.
  replace (Z.to_nat _) with (80 * ty t + tx t)%nat in Hs1 by lia.
  rewrite (u16_small (u16 _)) in Hs1 by mach. fold (cell_of ch) in Hs1.
  unfold COLUMNS. rewrite u32_small by lia. cbn [tx].
  destruct (Nat.ltb_spec (S (tx t)) 80); btest; try lia.
  - eexists _, _. split; [done|]. split; [|eauto with hb].
    split; [done|]. split; [|simpl; lia]. repeat split; simpl; rewrite ?length_insert; lia.
  - destruct (new_line_refines m1 c
      (mkTerm (<[(80 * ty t + tx t)%nat := cell_of ch]> (cells t)) (S (tx t)) (ty t))
      (Z.of_nat (tx t) + 1)) as (m2 & c2 & H2 & Hs2 & Ho2 & Hk2);
      [done|by cbn [cells]; rewrite length_insert|done|done|].
    rewrite Hcy in H2. rewrite H2. eexists _, _. eauto using only_vga_trans.
Qed.

Lemma putc_loop_refines m c t buf l :
  shows m c t -> bytes_at m buf l ->
  disjoint_ranges vga 4000 buf (Z.of_nat (length l)) ->
  exists m' c', putc_loop (length l) m c buf = Ok (m', c') /\
    shows m' c' (foldl term_putc t (s8 <$> l)) /\ only_vga m m' /\
    con_lock c' = con_lock c /\ console_cleared c' = console_cleared c.
Proof.
  revert m c t buf. induction l as [|b l IH]; intros m c t buf Hs Hb Hd; cbn [length putc_loop].
  - eexists _, _. eauto with hb.
  - apply bytes_at_cons in Hb as [H1 H2]. unfold loadc. rewrite (load8_ok _ _ _ H1). mret.
    destruct (console_putc_refines m c t (s8 b) Hs) as (m1 & c1 & -> & Hs1 & Ho1 & Hk1 & Hc1).
    mret. unfold disjoint_ranges in *. cbn [length] in Hd.
    destruct (IH m1 c1 (term_putc t (s8 b)) (buf + 1)) as (m2 & c2 & -> & Hs2 & Ho2 & Hk2 & Hc2);
      [done|eapply bytes_at_frame; [|exact H2]; intros; apply Ho1; lia|lia|].
    eexists _, _. split; [done|]. split; [done|]. split; [by eapply only_vga_trans|].
    split; congruence.
Qed.

Definition blank_term : term := mkTerm (replicate 2000 0) 0 0.

Lemma console_clear_spec m c l :
  screen_at m l ->
  exists m' c', console_clear m c = Ok (m', c') /\ shows m' c' blank_term /\ only_vga m m' /\
    con_lock c' = con_lock c.
Proof.
  intros Hs. pose proof Hs as (_ & Hl & _).
  destruct (clear_cells_spec 2000 m l 0 0) as (m1 & H1 & Hs1 & Ho1); [done|done|lia|].
  unfold console_clear. change (Z.to_nat (ROWS * COLUMNS)) with 2000%nat.
  change (Z.of_nat (0 + 0)) with 0 in H1. rewrite H1. mret.
  eexists _, _. split; [done|]. split; [|done]. unfold zero_upto in Hs1.
  rewrite take_0, drop_ge, app_nil_r in Hs1 by lia.
  split; [done|]. split; [|done]. repeat split; simpl; lia.
Qed.

Lemma cell_attribute ch :
  -128 <= ch < 128 -> cell_of ch = (if ch <? 0 then 65280 else 1792) + u8 ch.
Proof.
  intros H. assert (Hall : forallb (fun k => cell_of k =? (if k <? 0 then 65280 else 1792) + u8 k)
    (seqZ (-128) 256) = true) by (vm_compute; reflexivity).
  rewrite forallb_forall in Hall. apply Z.eqb_eq, Hall, list_elem_of_In, elem_of_seqZ. lia.
Qed.

(** ** The properties *)

(** C26: [console_puts] shows a string the way a terminal does: the first
    call clears the screen; characters fill the rows from the left, a newline
    or a full row starts the next one, the screen scrolls at the bottom, a
    carriage return goes back to the first column. Nothing outside the video
    memory changes, no null slot is written, and the lock is free again. *)
Theorem console_puts_refines m c i t buf l :
  screen_at m (cells t) -> (console_cleared c <> 0 -> shows m c t) -> con_lock c = 0 ->
  cstr m buf l -> disjoint_ranges vga 4000 buf (Z.of_nat (length l) + 1) ->
  exists m' c' i', console_puts m c i buf = Ok (m', c', i') /\
    shows m' c' (foldl term_putc (if console_cleared c =? 0 then blank_term else t) (s8 <$> l)) /\
    only_vga m m' /\ con_lock c' = 0 /\ console_cleared c' <> 0.
Proof.
  intros Hs Ht Hk Hc Hd. unfold console_puts, spin_lock. rewrite Hk. change (0 =? 0) with true.
  mret. rewrite (strlen_spec _ _ l) by done. mret. cbn [console_cleared cur_x cur_y con_lock].
  pose proof Hc as [Hb _ _]. apply bytes_at_app in Hb as [Hb _]. rewrite Nat2Z.id.
  unfold disjoint_ranges in Hd.
  destruct (Z.eqb_spec (console_cleared c) 0) as [Hz|Hz].
  - unfold console_init.
    destruct (console_clear_spec m (mkConsole 1 (console_cleared c) (cur_x c) (cur_y c)) _ Hs)
      as (m1 & c1 & -> & Hs1 & Ho1 & Hk1). mret.
    destruct (putc_loop_refines m1 (mkConsole (con_lock c1) 1 (cur_x c1) (cur_y c1)) blank_term buf l)
      as (m2 & c2 & -> & Hs2 & Ho2 & Hk2 & Hc2);
      [done|eapply bytes_at_frame; [|exact Hb]; intros; apply Ho1; lia|unfold disjoint_ranges; lia|].
    mret. eexists _, _, _. split; [done|]. split; [done|].
    split; [by eapply only_vga_trans|]. cbn [con_lock console_cleared]. by rewrite Hc2.
  - mret. destruct (putc_loop_refines m (mkConsole 1 (console_cleared c) (cur_x c) (cur_y c)) t buf l)
      as (m2 & c2 & -> & Hs2 & Ho2 & Hk2 & Hc2);
      [by apply Ht|done|unfold disjoint_ranges; lia|].
    mret. eexists _, _, _. split; [done|]. split; [done|]. split; [done|].
    cbn [con_lock console_cleared]. by rewrite Hc2.
Qed.

(** The attribute of a character on the screen is 0x07 for the ASCII
    ones; a character from 128 on is a negative [char] whose sign fills the
    attribute byte, so that it shows with attribute 0xff. *)
Theorem console_attribute m c t ch :
  shows m c t -> -128 <= ch < 128 -> ch <> LF -> ch <> CR -> (tx t < 79)%nat ->
  exists m' c' v, console_putc m c ch = Ok (m', c') /\
    load16 m' (slot_from_xy (cur_x c) (cur_y c)) = Ok v /\
    v mod 256 = u8 ch /\ v / 256 = if ch <? 0 then 255 else 7.
Proof.
  intros Hs Hch Hlf Hcr Hx. destruct (console_putc_refines m c t ch Hs) as (m1 & c1 & H1 & Hs1 & _).
  exists m1, c1, (cell_of ch). split; [done|].
  destruct Hs as (_ & (Hl & _ & Hy) & Hcx & Hcy). destruct Hs1 as [Hs1 _].
  unfold term_putc in Hs1. rewrite (proj2 (Z.eqb_neq _ _) Hlf), (proj2 (Z.eqb_neq _ _) Hcr) in Hs1.
  cbn [tx] in Hs1. rewrite (proj2 (Nat.ltb_lt (S (tx t)) 80)) in Hs1 by lia. cbn [cells] in Hs1.
  split.
  - rewrite Hcx, Hcy, slot_index by lia. eapply load_cell; [exact Hs1|lia|].
    replace (Z.to_nat _) with (80 * ty t + tx t)%nat by lia. apply list_lookup_insert_eq. lia.
  - rewrite cell_attribute by lia. destruct (ch <? 0); mach.
Qed.

(** ** Witnesses *)

(** Video memory and a line of text at 0x100. *)
Definition demo_vga : mem :=
  write_bytes (write_bytes ∅ vga (replicate 4000 0)) 256
    (bytes_of_string "one" ++ [10] ++ bytes_of_string "two" ++ [0]).

Definition demo_console : console := mkConsole 0 0 0 0.

Lemma demo_screen : screen_at demo_vga (cells blank_term).
Proof.
  split; [by_eval|]. split; [done|]. split; [apply Forall_replicate; lia|].
  intros i v Hv. cbn [blank_term cells] in Hv. apply lookup_replicate in Hv as [-> Hi].
  assert (Hall : forallb (fun k => match load16 demo_vga (vga + 2 * Z.of_nat k) with
    Ok w => w =? 0 | Err _ => false end) (seq 0 2000) = true) by (vm_compute; reflexivity).
  rewrite forallb_forall in Hall. specialize (Hall i). rewrite <- list_elem_of_In, elem_of_seq in Hall.
  specialize (Hall ltac:(lia)). destruct (load16 _ _); [|discriminate].
  apply Z.eqb_eq in Hall. by subst.
Qed.

Lemma console_puts_refines_witness :
  exists m' c' i', console_puts demo_vga demo_console (mkIo [] []) 256 = Ok (m', c', i') /\
    cur_x c' = 3 /\ cur_y c' = 1.
Proof.
  destruct (console_puts_refines demo_vga demo_console (mkIo [] []) blank_term 256
    (bytes_of_string "one" ++ [10] ++ bytes_of_string "two"))
    as (m' & c' & i' & H1 & (_ & _ & Hx & Hy) & _).
  - exact demo_screen.
  - intros H. by destruct H.
  - done.
  - by_eval.
  - right. vm_compute. congruence.
  - exists m', c', i'. split; [exact H1|]. rewrite Hx, Hy. split; vm_compute; reflexivity.
Defined.

Lemma console_attribute_witness :
  exists m' c' v, console_putc demo_vga (mkConsole 0 1 0 0) (-61) = Ok (m', c') /\
    load16 m' (slot_from_xy 0 0) = Ok v /\ v mod 256 = 195 /\ v / 256 = 255.
Proof.
  apply (console_attribute demo_vga (mkConsole 0 1 0 0) blank_term (-61)).
  - split; [exact demo_screen|]. split; [|done]. split; [done|]. simpl. lia.
  - lia.
  - done.
  - done.
  - simpl. lia.
Defined.
