(* ===== verification/Stdio.v ===== *)
(** * printf to the line: the rest of lib/printf.c, and lib/stack.c

    [vprintf] and [printf] format into a buffer of BUFSZ bytes on the stack
    and hand it to [puts], or to [console_puts] in the build with
    __BARE_METAL. [say] is their effect in the default build, on the text of
    the message: [printf_says] proves that [printf] has exactly that effect,
    and the other components print with [say]. Then the stack dump of
    lib/stack.c, the [assert] macro of include/defs.h and [print_binstr]. *)

From stdpp Require Import base gmap list numbers strings.
From Stdlib Require Import ZArith Lia.
From S2P Require Import Prelude Mem CString Printf Serial Console.

#[local] Open Scope Z_scope.

(** ** printf *)

Record stdio := mkStdio {
  so_serial : serial;
  so_console : console;
}.

Section Printf.

Context (use_serial bare_metal : bool).

(** [buf] is the address of the local array. *)
Definition vprintf (m : mem) (s : stdio) (buf fmt : Z) (va : list Z) : res (mem * stdio * Z) :=
  '(m, r) ← vsnprintf m buf BUFSZ fmt va;
  ser ← puts use_serial m (so_serial s) buf;
  Ok (m, mkStdio ser (so_console s), r).

Definition printf (m : mem) (s : stdio) (buf fmt : Z) (va : list Z) : res (mem * stdio * Z) :=
  '(m, r) ← vsnprintf m buf BUFSZ fmt va;
  if bare_metal then
    '(m, con, i) ← console_puts m (so_console s) (ser_io (so_serial s)) buf;
    Ok (m, mkStdio (with_io (so_serial s) i) con, r)
  else
    ser ← puts use_serial m (so_serial s) buf;
    Ok (m, mkStdio ser (so_console s), r).

End Printf.

(** ** The effect of printf on a text *)

(** The bytes of a text on the line. *)
Definition send (s : serial) (t : list Z) : serial :=
  with_io s (mkIo (io_in (ser_io s)) (io_log (ser_io s) ++ (EvOut 1 serial_iobase <$> t))).

(** Formats [fmt] and sends what fits the buffer; [strs] gives the strings its
    arguments point to. *)
Definition say (strs : Z -> option (list Z)) (s : serial) (fmt va : list Z) : res serial :=
  t ← format strs fmt va;
  Ok (send s (take 1999 t)).

Definition no_strs (a : Z) : option (list Z) := None.

(** A text padded with blanks on the right, what the minus sign of a width
    means. *)
Definition pad_right (width : nat) (t : list Z) : list Z := t ++ replicate (width - length t) 32.

(** A string literal with its final newline. *)
Definition line (s : string) : list Z := bytes_of_string s ++ [LF].

(** ** lib/stack.c *)

Definition MAX_DEPTH : Z := 20.

(** The loop of [print_stack] over the addresses from [i] to [depth]. *)
Fixpoint print_addrs (n : nat) (s : serial) (addrs : list Z) (i : nat) : res serial :=
  match n with
  | O => Ok s
  | S n' =>
      a ← of_option Undef (addrs !! i);
      s ← say no_strs s (bytes_of_string " %lx") [a];
      print_addrs n' s addrs (S i)
  end.

Definition print_stack (s : serial) (return_addrs : list Z) (depth : Z)
    (top_is_return_address : bool) : res serial :=
  s ← say no_strs s (9 :: bytes_of_string "STACK:") [];
  '(s, i) ←
    (if (0 <? depth) && negb top_is_return_address then
       a ← of_option Undef (return_addrs !! 0%nat);
       s ← say no_strs s (bytes_of_string " @%lx") [a];
       Ok (s, 1%nat)
     else Ok (s, 0%nat));
  s ← print_addrs (Z.to_nat depth - i) s return_addrs i;
  say no_strs s [LF] [].

Section Backtrace.

(** What [__builtin_return_address] finds, frame by frame; the gcc builtin is
    not code of the repository. *)
Context (return_address : Z -> Z).

(** The expansions of GET_RETURN_ADDRESS from [i] on; [n] are left. *)
Fixpoint get_addresses (n : nat) (i : Z) (addrs : list Z) (depth max_depth : Z)
    : res (list Z * Z) :=
  match n with
  | O => Ok (addrs, depth)
  | S n' =>
      if max_depth =? i then Ok (addrs, depth)
      else
        let addr := return_address i in
        if addr =? 0 then Ok (addrs, depth)
        else if (0 <=? i) && (i <? Z.of_nat (length addrs)) then
          get_addresses n' (i + 1) (<[Z.to_nat i := addr]> addrs) (i + 1) max_depth
        else Err Undef
  end.

(** [walking] is the function's static flag. *)
Definition backtrace (s : serial) (walking : Z) (return_addrs : list Z) (max_depth : Z)
    : res (serial * Z * list Z * Z) :=
  if negb (walking =? 0) then
    s ← say no_strs s (line "RECURSIVE STACK WALK!!!") [];
    Ok (s, walking, return_addrs, 0)
  else
    '(addrs, depth) ← get_addresses 21 0 return_addrs 0 max_depth;
    Ok (s, 0, addrs, depth).

(** [junk] is what the uninitialised array holds. *)
Definition dump_stack (s : serial) (walking : Z) (junk : list Z) : res (serial * Z) :=
  '(s, walking, addrs, depth) ← backtrace s walking (take 20 junk) MAX_DEPTH;
  s ← print_stack s (drop 1 addrs) (if depth =? 0 then 0 else depth - 1) true;
  Ok (s, walking).

(** [backtrace_frame] of include/stack.h is the stub that finds nothing. *)
Definition backtrace_frame (frame max_depth : Z) : Z := 0.

Definition dump_frame_stack (s : serial) (instruction frame : Z) : res serial :=
  let depth := backtrace_frame frame (MAX_DEPTH - 1) in
  print_stack s [instruction] (depth + 1) false.

(** ** assert, print_binstr *)

(** The macro's failing branch prints where it failed, dumps the stack and
    calls [abort], after which the program goes on if nothing stopped it. *)
Definition kassert (cond : bool) (s : serial) (walking : Z) (junk : list Z)
    (file : list Z) (ln : Z) (expr : list Z) : res (serial * Z) :=
  if cond then Ok (s, walking)
  else
    s ← say (fun a => if a =? 1 then Some file else if a =? 2 then Some expr else None) s
          (line "%s:%d: assert failed: %s") [1; ln; 2];
    '(s, walking) ← dump_stack s walking junk;
    Ok (with_io s (abort false (ser_io s)), walking).

(** [out] and [buf] are the local arrays, [fmt] the literal. *)
Definition print_binstr (m : mem) (s : stdio) (walking : Z) (junk : list Z)
    (out buf fmt x : Z) : res (mem * stdio * Z) :=
  '(m, cond) ← binstr m x out;
  '(ser, walking) ← kassert cond (so_serial s) walking junk (bytes_of_string "lib/printf.c") 321
      (bytes_of_string "c + 1 - &out[0] == BINSTR_SZ");
  '(m, s, _) ← printf false false m (mkStdio ser (so_console s)) buf fmt [out];
  Ok (m, s, walking).

End Backtrace.

(** ** Lemmas *)

Lemma send_app s t1 t2 : send (send s t1) t2 = send s (t1 ++ t2).
Proof.
  unfold send, with_io. cbn [ser_lock ser_inited ser_io io_in io_log].
  by rewrite fmap_app, app_assoc.
Qed.

Lemma send_nil s : send s [] = s.
Proof. destruct s as [a b [i l]]. unfold send, with_io. simpl. by rewrite app_nil_r. Qed.

Lemma sent_send s t : sent (io_log (ser_io (send s t))) = sent (io_log (ser_io s)) ++ t.
Proof. unfold send. cbn [with_io ser_io io_log]. by rewrite sent_app, sent_outs. Qed.

(** The default [puts] is [send], once the lock is free. *)
Lemma puts_send m s str l :
  cstr m str l -> ser_lock s = 0 -> puts false m s str = Ok (send s l).
Proof.
  intros Hc Hl. unfold puts, spin_lock. rewrite Hl. change (0 =? 0) with true. mret.
  unfold print_serial. rewrite (strlen_spec _ _ l) by done. mret.
  pose proof Hc as [Hb Hch _]. apply bytes_at_app in Hb as [Hb _]. rewrite Nat2Z.id.
  cbn [ser_io]. rewrite outbs_sends by (done || (eapply Forall_impl; [exact Hch|simpl; lia])).
  mret. unfold send, spin_unlock, with_io. cbn [ser_inited ser_io]. by rewrite Hl.
Qed.

Lemma printf_say m s buf strs fmt l va txt :
  mapped m buf BUFSZ ->
  (forall a t, strs a = Some t ->
     cstr m a t /\ disjoint_ranges buf BUFSZ a (Z.of_nat (length t) + 1)) ->
  cstr m fmt l -> disjoint_ranges buf BUFSZ fmt (Z.of_nat (length l) + 1) ->
  format strs l va = Ok txt -> Forall (fun c => 0 < c < 256) txt ->
  Z.of_nat (length txt) <= INT_MAX -> ser_lock (so_serial s) = 0 ->
  exists m', printf false false m s buf fmt va =
    Ok (m', mkStdio (send (so_serial s) (take 1999 txt)) (so_console s), Z.of_nat (length txt)) /\
    agree_outside buf (buf + BUFSZ) m m'.
Proof.
  intros Hm Hs Hf Hd Ht Hc Hl Hk. unfold printf.
  rewrite (vsnprintf_emit m buf BUFSZ strs ltac:(by vm_compute) Hm Hs fmt l va txt) by done. mret.
  change (Z.to_nat (BUFSZ - 1)) with 1999%nat.
  eexists. split.
  - rewrite (puts_send _ _ _ (take 1999 txt)); [done| |done]. split.
    + apply write_bytes_at.
    + by apply Forall_take.
    + rewrite length_take. lia.
  - intros x Hx. apply write_bytes_out. unfold BUFSZ in Hx.
    rewrite length_app, length_take. cbn [length]. lia.
Qed.

(** ** The stack dump *)

(** The return addresses a walk of at most [n] frames from [i] on finds. *)
Fixpoint frames_from (f : Z -> Z) (n : nat) (i : Z) : list Z :=
  match n with
  | O => []
  | S n' => if f i =? 0 then [] else f i :: frames_from f n' (i + 1)
  end.

Definition hex_word (a : Z) : list Z := 32 :: num_text (u64 a) 16.

Lemma say_plain s t :
  format no_strs t [] = Ok t -> (length t <= 1999)%nat -> say no_strs s t [] = Ok (send s t).
Proof. intros H Hl. unfold say. rewrite H. mret. by rewrite take_ge. Qed.

(** The text of a format, piece by piece. *)
Lemma format_plain strs t l va :
  Forall (fun c => c <> chr "%") t ->
  format strs (t ++ l) va = (out ← format strs l va; Ok (t ++ out)).
Proof.
  unfold format. intros Ht. induction Ht as [|c t Hc Ht IH]; cbn [app format_go].
  - by destruct (format_go strs l 0 None va).
  - rewrite (proj2 (Z.eqb_neq _ _) Hc), IH. by destruct (format_go strs l 0 None va).
Qed.

Lemma format_hex strs a l va :
  format strs ([37; 108; 120] ++ l) (a :: va) =
  (out ← format strs l va; Ok (num_text (u64 a) 16 ++ out)).
Proof.
  unfold format. cbn [app format_go]. ctests. unfold conv_text. ctests. cbn [va_arg]. mret.
  change (va_unsigned (0 + 1) a) with (u64 a). unfold uns_text. cbn [alternate props0 andb].
  unfold pad_text. cbn [props0 npad]. rewrite !Z2Nat.nonpos by lia. cbn [replicate app].
  by rewrite app_nil_r.
Qed.

(** The decimal text of an [int]. *)
Definition dec_text (n : Z) : list Z := (if n <? 0 then [45] else []) ++ num_text (Z.abs n) 10.

Lemma length_dec_text n :
  -9223372036854775808 < n <= 9223372036854775807 -> (length (dec_text n) <= 21)%nat.
Proof.
  intros Hn. unfold dec_text. destruct (num_text_decimal (Z.abs n)) as (_ & _ & _ & Hl); [lia|].
  rewrite length_app. destruct (_ <? 0); simpl; lia.
Qed.

Lemma format_dec strs a l va :
  format strs ([37; 100] ++ l) (a :: va) =
  (out ← format strs l va; Ok (dec_text (s32 a) ++ out)).
Proof.
  unfold format. cbn [app format_go]. ctests. unfold conv_text. ctests. cbn [va_arg]. mret.
  change (va_signed 0 a) with (s32 a). unfold int_text.
  rewrite (proj2 (Z.eqb_neq (s32 a) _)) by mach. mret. unfold pad_text. cbn [props0 npad].
  rewrite !Z2Nat.nonpos by lia. cbn [replicate app]. unfold dec_text. by rewrite app_nil_r.
Qed.

Lemma pad_text_right w t : pad_text (mkProps 32 (- Z.of_nat w) false) t = pad_right w t.
Proof.
  unfold pad_text, pad_right. cbn [npad pad]. rewrite Z2Nat.nonpos by lia. cbn [replicate app].
  do 2 f_equal. lia.
Qed.

Lemma length_hex a : (length (num_text (u64 a) 16) <= 20)%nat.
Proof.
  destruct (number_digits (u64 a) 16 (u64_range a)) as [Hd _]; [by right|].
  unfold num_text. destruct (u64 a =? 0); cbn [length]; [lia|]. by rewrite length_rev.
Qed.

(** A message with one [%lx]. *)
Lemma say_hex_between s t1 t2 a :
  Forall (fun c => c <> chr "%") t1 -> Forall (fun c => c <> chr "%") t2 ->
  (length t1 + length t2 <= 1900)%nat ->
  say no_strs s (t1 ++ [37; 108; 120] ++ t2) [a] =
  Ok (send s (t1 ++ num_text (u64 a) 16 ++ t2)).
Proof.
  intros H1 H2 Hl. unfold say. rewrite format_plain, format_hex by done.
  rewrite <- (app_nil_r t2) at 1. rewrite format_plain by done.
  change (format no_strs [] []) with (Ok (A := list Z) []). mret. rewrite app_nil_r.
  rewrite take_ge; [done|]. pose proof (length_hex a). rewrite !length_app. lia.
Qed.

Lemma say_hex s a : say no_strs s (bytes_of_string " %lx") [a] = Ok (send s (hex_word a)).
Proof.
  pose proof (say_hex_between s [32] [] a) as H. cbn [app] in H. rewrite app_nil_r in H.
  apply H; [by repeat constructor|constructor|simpl; lia].
Qed.

Lemma print_addrs_spec s pre l rest :
  print_addrs (length l) s (pre ++ l ++ rest) (length pre) =
  Ok (send s (concat (hex_word <$> l))).
Proof.
  revert s pre. induction l as [|a l IH]; intros s pre; cbn [length print_addrs].
  - by rewrite send_nil.
  - rewrite lookup_app_r, Nat.sub_diag by lia. cbn [app lookup list_lookup of_option]. mret.
    rewrite say_hex. mret.
    replace (pre ++ a :: l ++ rest) with ((pre ++ [a]) ++ l ++ rest)
      by (rewrite <- app_assoc; done).
    replace (S (length pre)) with (length (pre ++ [a])) by (rewrite length_app; simpl; lia).
    rewrite IH, send_app. done.
Qed.

Lemma get_addresses_spec f n i pre junk :
  Z.of_nat (length pre) = i -> (n <= length junk)%nat ->
  get_addresses f (S n) i (pre ++ junk) i (i + Z.of_nat n) =
  Ok (pre ++ frames_from f n i ++ drop (length (frames_from f n i)) junk,
      i + Z.of_nat (length (frames_from f n i))).
Proof.
  revert i pre junk. induction n as [|n IH]; intros i pre junk Hi Hj.
  - cbn [get_addresses frames_from length app drop]. rewrite Z.add_0_r, Z.eqb_refl. done.
  - remember (S n) as k eqn:Hk. cbn [get_addresses]. subst k. cbn [frames_from].
    rewrite (proj2 (Z.eqb_neq _ _)) by lia.
    destruct (f i =? 0); [cbn [app drop length]; rewrite Z.add_0_r; done|].
    destruct junk as [|x junk]; [simpl in Hj; lia|].
    rewrite length_app. cbn [length].
    rewrite (proj2 (Z.leb_le 0 i)), (proj2 (Z.ltb_lt i _)) by lia. cbn [andb].
    rewrite <- Hi at 2. rewrite Nat2Z.id, insert_app_r_alt, Nat.sub_diag by lia.
    cbn [insert list_insert].
    replace (pre ++ f i :: junk) with ((pre ++ [f i]) ++ junk) by (rewrite <- app_assoc; done).
    replace (i + Z.of_nat (S n)) with (i + 1 + Z.of_nat n) by lia.
    rewrite IH by (rewrite ?length_app; simpl in *; lia).
    rewrite <- app_assoc. cbn [app drop]. do 2 f_equal. lia.
Qed.

Lemma length_frames f n i : (length (frames_from f n i) <= n)%nat.
Proof.
  revert i. induction n as [|n IH]; intros i; simpl; [lia|].
  destruct (f i =? 0); simpl; [lia|]. specialize (IH (i + 1)). lia.
Qed.

(** ** The properties *)

(** C28: [printf] in the default build sends the text its format denotes, cut
    to the 1999 characters that fit its buffer, and nothing else; it returns
    the length of the whole text and changes memory only inside its frame.
    This is what [say] does, with which the other components print. *)
Theorem printf_says m s buf strs fmt l va txt :
  mapped m buf BUFSZ ->
  (forall a t, strs a = Some t ->
     cstr m a t /\ disjoint_ranges buf BUFSZ a (Z.of_nat (length t) + 1)) ->
  cstr m fmt l -> disjoint_ranges buf BUFSZ fmt (Z.of_nat (length l) + 1) ->
  format strs l va = Ok txt -> Forall (fun c => 0 < c < 256) txt ->
  Z.of_nat (length txt) <= INT_MAX -> ser_lock (so_serial s) = 0 ->
  exists m' ser', printf false false m s buf fmt va =
    Ok (m', mkStdio ser' (so_console s), Z.of_nat (length txt)) /\
    say strs (so_serial s) l va = Ok ser' /\
    sent (io_log (ser_io ser')) = sent (io_log (ser_io (so_serial s))) ++ take 1999 txt /\
    agree_outside buf (buf + BUFSZ) m m'.
Proof.
  intros Hm Hs Hf Hd Ht Hc Hl Hk.
  destruct (printf_say m s buf strs fmt l va txt) as (m' & H & Ho); try done.
  exists m', (send (so_serial s) (take 1999 txt)). split; [exact H|].
  unfold say. rewrite Ht. mret. split; [done|]. split; [apply sent_send|done].
Qed.

(** [dump_stack] prints the return addresses above its caller, in
    hexadecimal and in order, up to the first null one and at most 20 frames
    deep, and leaves the recursion flag clear; the array it collects them in
    is never overrun. *)
Theorem dump_stack_text f s junk :
  (20 <= length junk)%nat ->
  dump_stack f s 0 junk =
  Ok (send s (9 :: bytes_of_string "STACK:" ++
              concat (hex_word <$> drop 1 (frames_from f 20 0)) ++ [LF]), 0).
Proof.
  intros Hj. unfold dump_stack, backtrace. change (negb (0 =? 0)) with false. cbn iota.
  pose proof (get_addresses_spec f 20 0 [] (take 20 junk) eq_refl
    ltac:(rewrite length_take; lia)) as Hg.
  cbn [app] in Hg. change MAX_DEPTH with (0 + Z.of_nat 20). rewrite Hg. mret.
  pose proof (length_frames f 20 0) as Hlen. set (fr := frames_from f 20 0) in *.
  unfold print_stack. rewrite say_plain by (done || (vm_compute; lia)). mret.
  rewrite andb_false_r. mret. rewrite Nat.sub_0_r.
  assert (Hp : forall s rest, print_addrs (Z.to_nat (if 0 + Z.of_nat (length fr) =? 0 then 0 else
      0 + Z.of_nat (length fr) - 1)) s (drop 1 (fr ++ rest)) 0
      = Ok (send s (concat (hex_word <$> drop 1 fr)))).
  { intros s' rest. destruct fr as [|a l]; [by rewrite send_nil|].
    rewrite (proj2 (Z.eqb_neq _ _)) by (simpl; lia). cbn [app drop length].
    replace (Z.to_nat _) with (length l) by lia. apply (print_addrs_spec s' [] l rest). }
  rewrite Hp. mret. rewrite say_plain by (done || (vm_compute; lia)). mret.
  rewrite !send_app. done.
Qed.

(** ** Witnesses *)

Definition demo_printf : mem :=
  write_bytes (write_bytes ∅ 100 (demo_fmt ++ [0])) 4096 (replicate 2000 0) ∪
  write_bytes ∅ 200 (bytes_of_string "cpu" ++ [0]).

Definition demo_stdio : stdio := mkStdio (mkSerial 0 0 (mkIo [] [])) demo_console.

Lemma printf_says_witness :
  exists m' ser', printf false false demo_printf demo_stdio 4096 100 [42; 200; 255] =
    Ok (m', mkStdio ser' demo_console, 17) /\
    sent (io_log (ser_io ser')) = bytes_of_string "[   42|cpu |0xff]".
Proof.
  destruct (printf_says demo_printf demo_stdio 4096 demo_strs 100 demo_fmt [42; 200; 255]
    (bytes_of_string "[   42|cpu |0xff]")) as (m' & ser' & H & _ & Hs & _).
  - by_eval.
  - unfold demo_strs. intros a t. destruct (Z.eqb_spec a 200) as [->|]; [|discriminate].
    intros [= <-]. split; [by_eval|right; vm_compute; congruence].
  - by_eval.
  - right. vm_compute. congruence.
  - reflexivity.
  - by_eval.
  - vm_compute. congruence.
  - reflexivity.
  - exists m', ser'. split; [exact H|exact Hs].
Defined.

Lemma dump_stack_text_witness :
  exists s, dump_stack (fun i => if i <? 3 then 4096 * (i + 1) else 0)
    (mkSerial 0 0 (mkIo [] [])) 0 (replicate 20 7) = Ok (s, 0) /\
    sent (io_log (ser_io s)) = 9 :: bytes_of_string "STACK: 2000 3000" ++ [10].
Proof.
  eexists. split; [apply (dump_stack_text _ _ (replicate 20 7)); vm_compute; lia|].
  vm_compute. reflexivity.
Defined.
