(* ===== verification/Heap.v ===== *)
(** * x86_64/heap.c: the page allocator

    Free pages form a list threaded through their own first words; the list
    is built over the memory above the kernel by [early_mem_init] and pages
    leave it one by one, zeroed. The page tables the same file builds are in
    PageTable; the state of both is the record [heap], the file's globals
    with the memory, the line its messages go to and the CR3 register.

    The abstraction is the list of free pages ([free_pages]): building the
    list, taking a page and running out of pages are stated on it. *)

From stdpp Require Import base gmap list numbers strings.
From Stdlib Require Import ZArith Lia.
From S2P Require Import Prelude Mem CString Printf Serial Stdio.

#[local] Open Scope Z_scope.

Definition PAGE_SIZE : Z := 4096.

Record heap := mkHeap {
  hmem : mem;
  hser : serial;
  freelist : Z;
  heap_base : Z;
  heap_end : Z;
  first_mem_init : bool;
  vfree_top : Z;
  hlock : Z;
  start_cr3 : Z;
  cr3_reg : Z;
}.

Definition set_mem (h : heap) (m : mem) : heap :=
  mkHeap m (hser h) (freelist h) (heap_base h) (heap_end h) (first_mem_init h)
    (vfree_top h) (hlock h) (start_cr3 h) (cr3_reg h).
Definition set_free (h : heap) (f : Z) : heap :=
  mkHeap (hmem h) (hser h) f (heap_base h) (heap_end h) (first_mem_init h)
    (vfree_top h) (hlock h) (start_cr3 h) (cr3_reg h).
Definition set_ser (h : heap) (s : serial) : heap :=
  mkHeap (hmem h) s (freelist h) (heap_base h) (heap_end h) (first_mem_init h)
    (vfree_top h) (hlock h) (start_cr3 h) (cr3_reg h).
Definition set_bounds (h : heap) (b e : Z) (f : bool) : heap :=
  mkHeap (hmem h) (hser h) (freelist h) b e f
    (vfree_top h) (hlock h) (start_cr3 h) (cr3_reg h).
Definition set_cr3s (h : heap) (start cur : Z) : heap :=
  mkHeap (hmem h) (hser h) (freelist h) (heap_base h) (heap_end h) (first_mem_init h)
    (vfree_top h) (hlock h) start cur.
Definition set_vfree (h : heap) (v l : Z) : heap :=
  mkHeap (hmem h) (hser h) (freelist h) (heap_base h) (heap_end h) (first_mem_init h)
    v l (start_cr3 h) (cr3_reg h).

(** Computes the fields of an updated state. *)
Ltac hfields :=
  cbn [set_mem set_free set_ser set_bounds set_cr3s set_vfree hmem hser freelist heap_base
       heap_end first_mem_init vfree_top hlock start_cr3 cr3_reg].

(** ** The memory map *)

(** Offsets in [struct mbi_bootinfo] and in the packed [mmap_entry_t]. *)
Definition mbi_mem_upper : Z := 8.
Definition mbi_mmap_length : Z := 44.
Definition mbi_mmap_addr : Z := 48.
Definition mmap_entry_size : Z := 24.
Definition mmap_entry_length : Z := 12.

Fixpoint map_loop (fuel : nat) (m : mem) (mmap bound total : Z) : res Z :=
  match fuel with
  | O => Err Fuel
  | S f =>
      if mmap <? bound then
        len ← load64 m (mmap + mmap_entry_length);
        map_loop f m (mmap + mmap_entry_size) bound (u64 (total + len))
      else Ok total
  end.

(** [mmap_addr + mmap_length] is a sum of two 32-bit values. *)
Definition get_memory_map (h : heap) (mbi : Z) : res heap :=
  mmap_addr ← load32 (hmem h) (mbi + mbi_mmap_addr);
  mmap_length ← load32 (hmem h) (mbi + mbi_mmap_length);
  total ← map_loop (S (Z.to_nat mmap_length)) (hmem h) mmap_addr (u32 (mmap_addr + mmap_length)) 0;
  Ok (set_bounds h (heap_base h) total (first_mem_init h)).

(** ** The free list *)

(** [while (mem + PAGE_SIZE != end) { ... }]: every round stores to a new
    page, so a loop longer than the memory has left it. *)
Fixpoint link_loop (fuel : nat) (m : mem) (p last : Z) : res (mem * Z) :=
  match fuel with
  | O => Err Fuel
  | S f =>
      let next := u64 (p + PAGE_SIZE) in
      if next =? last then Ok (m, p)
      else m ← store64 m p next; link_loop f m next last
  end.

(** The result is the pointer the function returns. *)
Definition get_free_pages (h : heap) (p size : Z) : res (heap * Z) :=
  if size =? 0 then Ok (h, 0)
  else
    let old_freelist := freelist h in
    let last := u64 (p + size) in
    '(m, q) ← link_loop (walk_fuel (hmem h)) (hmem h) p last;
    m ← store64 m q old_freelist;
    Ok (set_free (set_mem h m) p, p).

Definition page_mask : Z := u64 (- PAGE_SIZE).

Definition early_mem_init (h : heap) (base_addr mbi : Z) : res heap :=
  mem_upper ← load32 (hmem h) (mbi + mbi_mem_upper);
  let end_of_memory := u64 (mem_upper * 1024) in
  s ← say no_strs (hser h) (line "mbi->mem_upper = %lx") [end_of_memory];
  let h := set_ser h s in
  h ← (if first_mem_init h then Ok h
       else
         h ← get_memory_map (set_bounds h (heap_base h) (heap_end h) true) mbi;
         Ok (set_bounds h (Z.land (u64 (base_addr + PAGE_SIZE - 1)) page_mask)
               (Z.land (heap_end h) page_mask) (first_mem_init h)));
  let h := set_free h 0 in
  '(h, _) ← get_free_pages h (heap_base h) (u64 (end_of_memory - heap_base h));
  Ok h.

(** util.S: [rep stosq] of 0x200 zero words. *)
Fixpoint stosq (n : nat) (m : mem) (p : Z) : res mem :=
  match n with
  | O => Ok m
  | S n' => m ← store64 m p 0; stosq n' m (p + 8)
  end.

Definition fast_zero_page (m : mem) (page : Z) : res mem := stosq (Z.to_nat 512) m page.

Definition heap_alloc_page (h : heap) : res (heap * Z) :=
  if freelist h =? 0 then
    s ← say no_strs (hser h) (line "freelist uninitialized!") [];
    Ok (set_ser h s, 0)
  else
    let page := freelist h in
    next ← load64 (hmem h) page;
    m ← fast_zero_page (hmem h) page;
    Ok (set_free (set_mem h m) next, page).

(** ** Virtual pages *)

(** Pointer arithmetic wraps: the first call starts from 0. *)
Definition alloc_vpages (h : heap) (nr : Z) : res (heap * Z) :=
  l ← spin_lock (hlock h);
  let h := set_vfree h (u64 (vfree_top h - u64 (PAGE_SIZE * nr))) l in
  let h := set_vfree h (vfree_top h) (spin_unlock (hlock h)) in
  Ok (h, vfree_top h).

(** ** The free list as a list of pages *)

(** A page frame: aligned, nonzero, addressable and mapped. *)
Definition page_ok (m : mem) (p : Z) : Prop :=
  p mod 4096 = 0 /\ 0 < p < 2 ^ 52 /\ mapped m p 4096.

#[export] Instance page_ok_dec m p : Decision (page_ok m p).
Proof. unfold page_ok. apply _. Defined.

(** From the pointer [f], the pages [l] are linked in order. *)
Fixpoint linked (m : mem) (f : Z) (l : list Z) : Prop :=
  match l with
  | [] => f = 0
  | p :: l' => f = p /\ exists next, load64 m p = Ok next /\ linked m next l'
  end.

Definition free_pages (m : mem) (f : Z) (l : list Z) : Prop :=
  linked m f l /\ NoDup l /\ Forall (page_ok m) l.

(** The [n] pages from [p] on. *)
Definition pages_from (p : Z) (n : nat) : list Z :=
  (fun i => p + 4096 * Z.of_nat i) <$> seq 0 n.

(** A page holds only zeros. *)
Definition zero_page (m : mem) (p : Z) : Prop := forall x, p <= x < p + 4096 -> m !! x = Some 0.

Fixpoint linked_b (m : mem) (f : Z) (l : list Z) : bool :=
  match l with
  | [] => f =? 0
  | p :: l' =>
      (f =? p) && match load64 m p with Ok next => linked_b m next l' | Err _ => false end
  end.

Lemma linked_b_spec m f l : linked_b m f l = true <-> linked m f l.
Proof.
  revert f. induction l as [|p l IH]; intros f; simpl; [apply Z.eqb_eq|].
  rewrite andb_true_iff, Z.eqb_eq. destruct (load64 m p) as [next|e].
  - rewrite IH. split; [intros [-> H]; eauto|]. intros [-> (n & [= ->] & H)]. done.
  - split; [intros [_ H]; discriminate H|]. intros (_ & n & H & _). discriminate.
Qed.

#[export] Instance linked_dec m f l : Decision (linked m f l) := decision_of _ (linked_b_spec m f l).
#[export] Instance free_pages_dec m f l : Decision (free_pages m f l).
Proof. unfold free_pages. apply _. Defined.

(** ** Building the list *)

Lemma linked_frame m m' f l :
  (forall p, p ∈ l -> load64 m' p = load64 m p) -> linked m f l -> linked m' f l.
Proof.
  revert f. induction l as [|p l IH]; intros f Hf; [done|]. simpl. intros (-> & n & Hn & Hl).
  split; [done|]. exists n. rewrite Hf by (left; done). split; [done|].
  apply IH; [|done]. intros q Hq. apply Hf. by right.
Qed.

Lemma pages_from_S p n : pages_from p (S n) = p :: pages_from (p + 4096) n.
Proof.
  unfold pages_from. cbn [seq fmap list_fmap]. f_equal; [lia|].
  rewrite <- fmap_S_seq, <- list_fmap_compose. apply list_fmap_ext. intros i x Hi. simpl. lia.
Qed.

Lemma elem_of_pages_from p n q :
  q ∈ pages_from p n <-> exists i : nat, (i < n)%nat /\ q = p + 4096 * Z.of_nat i.
Proof.
  unfold pages_from. rewrite list_elem_of_fmap. split.
  - intros (i & -> & Hi%elem_of_seq). exists i. split; [lia|done].
  - intros (i & Hi & ->). exists i. split; [done|]. apply elem_of_seq. lia.
Qed.

Lemma NoDup_pages_from p n : NoDup (pages_from p n).
Proof. apply NoDup_fmap_2; [|apply NoDup_seq]. intros i j. lia. Qed.

(** The loop and the closing store link the pages in front of the old list. *)
Lemma link_pages n : forall fuel m p old l,
  (n < fuel)%nat -> 0 < p -> p + 4096 * Z.of_nat (S n) < 2 ^ 64 ->
  mapped m p (4096 * Z.of_nat (S n)) -> 0 <= old < 2 ^ 64 -> linked m old l ->
  (forall q, q ∈ l -> q + 8 <= p \/ p + 4096 * Z.of_nat (S n) <= q) ->
  exists m', ('(m, q) ← link_loop fuel m p (p + 4096 * Z.of_nat (S n)); store64 m q old) = Ok m' /\
    linked m' p (pages_from p (S n) ++ l) /\ same_dom m m' /\
    agree_outside p (p + 4096 * Z.of_nat (S n)) m m'.
Proof.
  induction n as [|n IH]; intros [|fuel] m p old l Hf Hp Hb Hm Ho Hl Hd; try lia; cbn [link_loop];
    unfold PAGE_SIZE; rewrite u64_small by lia.
  - rewrite (proj2 (Z.eqb_eq _ _)) by lia. mret.
    destruct (store64_ok m p old) as (m' & -> & ->); [eapply mapped_sub; [exact Hm| |]; lia|].
    eexists. split; [done|]. split; [|split].
    + simpl. rewrite Z.add_0_r. split; [done|]. exists old.
      split; [apply load64_same; lia|].
      eapply linked_frame; [|exact Hl]. intros q Hq. apply load64_frame. intros x Hx.
      apply write64_out. specialize (Hd q Hq). lia.
    + apply write64_dom. eapply mapped_sub; [exact Hm| |]; lia.
    + intros x Hx. apply write64_out. lia.
  - rewrite (proj2 (Z.eqb_neq _ _)) by lia.
    destruct (store64_ok m p (p + 4096)) as (m1 & -> & Hm1);
      [eapply mapped_sub; [exact Hm| |]; lia|]. mret.
    assert (Hd1 : same_dom m m1)
      by (subst; apply write64_dom; eapply mapped_sub; [exact Hm| |]; lia).
    replace (p + 4096 * Z.of_nat (S (S n))) with (p + 4096 + 4096 * Z.of_nat (S n)) in * by lia.
    destruct (IH fuel m1 (p + 4096) old l) as (m2 & H2 & Hl2 & Hd2 & Ha2); try done; try lia.
    + rewrite <- Hd1. eapply mapped_sub; [exact Hm| |]; lia.
    + subst m1. eapply linked_frame; [|exact Hl]. intros q Hq. apply load64_frame. intros x Hx.
      apply write64_out. specialize (Hd q Hq). lia.
    + intros q Hq. specialize (Hd q Hq). lia.
    + exists m2. split; [exact H2|]. split; [|split].
      * rewrite pages_from_S. simpl. split; [done|]. exists (p + 4096). split; [|exact Hl2].
        rewrite (load64_frame m1) by (intros x Hx; apply Ha2; lia).
        subst m1. apply load64_same. lia.
      * by rewrite Hd1.
      * intros x Hx. rewrite Ha2 by lia. subst m1. apply write64_out. lia.
Qed.

(** With a size that is no multiple of the page the loop misses its end. *)
Lemma link_loop_misses fuel m p last r :
  (last - p) mod 4096 <> 0 -> link_loop fuel m p last <> Ok r.
Proof.
  revert m p. induction fuel as [|f IH]; intros m p Hp; cbn [link_loop]; [done|].
  unfold PAGE_SIZE. destruct (Z.eqb_spec (u64 (p + 4096)) last) as [E|E].
  - exfalso. apply Hp. subst last. mach.
  - destruct (store64 _ _ _) as [m'|e]; mret; [|done]. apply IH. intros H. apply Hp. mach.
Qed.

Lemma get_free_pages_links h p n l :
  free_pages (hmem h) (freelist h) l -> 0 <= freelist h < 2 ^ 64 ->
  0 < p -> p mod 4096 = 0 -> (0 < n)%nat -> p + 4096 * Z.of_nat n < 2 ^ 52 ->
  mapped (hmem h) p (4096 * Z.of_nat n) ->
  Forall (fun q => q + 4096 <= p \/ p + 4096 * Z.of_nat n <= q) l ->
  exists m', get_free_pages h p (4096 * Z.of_nat n) = Ok (set_free (set_mem h m') p, p) /\
    free_pages m' p (pages_from p n ++ l) /\ same_dom (hmem h) m' /\
    agree_outside p (p + 4096 * Z.of_nat n) (hmem h) m'.
Proof.
  intros (Hl & Hnd & Hok) Hfr Hp Ha Hn Hb Hm Hd. rewrite Forall_forall in Hd, Hok.
  destruct n as [|n]; [lia|]. unfold get_free_pages.
  rewrite (proj2 (Z.eqb_neq _ _)) by lia. rewrite u64_small by lia.
  destruct (link_pages n (walk_fuel (hmem h)) (hmem h) p (freelist h) l)
    as (m' & H & Hl' & Hdom & Hag); try done; try lia.
  - pose proof (mapped_size (hmem h) p (4096 * S n)) as Hs. unfold walk_fuel.
    rewrite Nat2Z.inj_mul in Hs. specialize (Hs Hm). lia.
  - intros q Hq. specialize (Hd q Hq). lia.
  - destruct (link_loop _ _ _ _) as [[m1 q1]|e]; [|discriminate H]. mret_in H. mret.
    rewrite H. mret. exists m'. split; [done|]. split; [|done]. split; [done|]. split.
    + apply NoDup_app. split; [apply NoDup_pages_from|]. split; [|done].
      intros q Hq1 Hq2. apply elem_of_pages_from in Hq1 as (i & Hi & ->).
      specialize (Hd _ Hq2). lia.
    + apply Forall_forall. intros q Hq. unfold page_ok. rewrite <- Hdom.
      apply elem_of_app in Hq as [Hq|Hq]; [|by apply Hok].
      apply elem_of_pages_from in Hq as (i & Hi & ->). split; [|split; [lia|]].
      * rewrite Z.mul_comm, Z.mod_add by lia. done.
      * eapply mapped_sub; [exact Hm| |]; lia.
Qed.

(** ** Taking a page *)

Lemma stosq_zero n m p :
  mapped m p (8 * Z.of_nat n) -> stosq n m p = Ok (write_bytes m p (replicate (8 * n) 0)).
Proof.
  revert m p. induction n as [|n IH]; intros m p Hm; cbn [stosq]; [done|].
  destruct (store64_ok m p 0) as (m' & -> & ->); [eapply mapped_sub; [exact Hm| |]; lia|]. mret.
  change (le_bytes 8 0) with (replicate 8 0). rewrite IH.
  - f_equal. replace (8 * S n)%nat with (8 + 8 * n)%nat by lia.
    rewrite replicate_add, write_bytes_app, write_bytes_comm; [done|].
    rewrite !length_replicate. lia.
  - eapply same_dom_mapped; [|eapply mapped_sub; [exact Hm| |]; lia].
    apply write_bytes_dom. eapply mapped_sub; [exact Hm| |]; simpl; lia.
Qed.

(** The contents of a zeroed page. *)
Definition page_zeros : list Z := replicate (Z.to_nat 4096) 0.

Lemma length_page_zeros : Z.of_nat (length page_zeros) = 4096.
Proof. unfold page_zeros. rewrite length_replicate. lia. Qed.

Lemma zero_page_write m p : zero_page (write_bytes m p page_zeros) p.
Proof.
  intros x Hx. apply write_bytes_in; [|lia]. apply lookup_replicate. split; [done|lia].
Qed.

Lemma zero_write_out m p x :
  x < p \/ p + 4096 <= x -> write_bytes m p page_zeros !! x = m !! x.
Proof. intros H. apply write_bytes_out. rewrite length_page_zeros. lia. Qed.

Lemma zero_write_dom m p : mapped m p 4096 -> same_dom m (write_bytes m p page_zeros).
Proof. intros H. apply write_bytes_dom. by rewrite length_page_zeros. Qed.

Lemma fast_zero_page_ok m p :
  mapped m p 4096 -> fast_zero_page m p = Ok (write_bytes m p page_zeros).
Proof.
  intros H. unfold fast_zero_page. rewrite stosq_zero by (eapply mapped_sub; [exact H| |]; lia).
  unfold page_zeros. by replace (8 * Z.to_nat 512)%nat with (Z.to_nat 4096) by lia.
Qed.

#[global] Opaque page_zeros.

Lemma pages_apart p q : p mod 4096 = 0 -> q mod 4096 = 0 -> p <> q -> p + 4096 <= q \/ q + 4096 <= p.
Proof. intros. Z.to_euclidean_division_equations. lia. Qed.

(** Writing inside a page that is not free keeps the free list. *)
Lemma free_pages_frame m m' f l p :
  free_pages m f l -> p mod 4096 = 0 -> p ∉ l -> same_dom m m' ->
  agree_outside p (p + 4096) m m' -> free_pages m' f l.
Proof.
  intros (Hl & Hnd & Hok) Hp Hn Hd Ha. rewrite Forall_forall in Hok. split; [|split; [done|]].
  - eapply linked_frame; [|exact Hl]. intros q Hq. apply load64_frame. intros x Hx. apply Ha.
    destruct (Hok q Hq) as (Hq1 & _ & _).
    destruct (pages_apart p q Hp Hq1) as [?|?]; [by intros ->|lia|lia].
  - apply Forall_forall. intros q Hq. unfold page_ok. rewrite <- Hd. by apply Hok.
Qed.

Lemma heap_alloc_head h p l :
  free_pages (hmem h) (freelist h) (p :: l) ->
  exists m' next, heap_alloc_page h = Ok (set_free (set_mem h m') next, p) /\
    free_pages m' next l /\ zero_page m' p /\ same_dom (hmem h) m' /\
    agree_outside p (p + 4096) (hmem h) m'.
Proof.
  intros (Hl & Hnd & Hok). simpl in Hl. destruct Hl as (Hf & next & Hn & Hl).
  apply NoDup_cons in Hnd as [Hp Hnd]. apply Forall_cons in Hok as [(Ha & Hr & Hm) Hok].
  unfold heap_alloc_page. rewrite Hf, (proj2 (Z.eqb_neq p 0)) by lia. rewrite Hn. mret.
  rewrite fast_zero_page_ok by exact Hm. mret.
  pose proof (zero_write_dom _ _ Hm) as Hd.
  assert (Hag : agree_outside p (p + 4096) (hmem h) (write_bytes (hmem h) p page_zeros))
    by (intros x Hx; by apply zero_write_out).
  eexists _, next. split; [done|]. split; [|split; [apply zero_page_write|done]].
  by eapply (free_pages_frame (hmem h)).
Qed.

(** [n] calls in a row. *)
Fixpoint alloc_many (n : nat) (h : heap) : res (heap * list Z) :=
  match n with
  | O => Ok (h, [])
  | S n' =>
      '(h, p) ← heap_alloc_page h;
      '(h, ps) ← alloc_many n' h;
      Ok (h, p :: ps)
  end.

Lemma alloc_many_take l n h :
  free_pages (hmem h) (freelist h) l -> (n <= length l)%nat ->
  exists h', alloc_many n h = Ok (h', take n l) /\
    free_pages (hmem h') (freelist h') (drop n l) /\
    Forall (zero_page (hmem h')) (take n l) /\
    (forall x, (forall p, p ∈ take n l -> x < p \/ p + 4096 <= x) -> hmem h' !! x = hmem h !! x).
Proof.
  revert n h. induction l as [|p l IH]; intros [|n] h Hf Hn; try (simpl in Hn; lia).
  1,2: exists h; repeat (split; [done|]); done.
  cbn [alloc_many]. destruct (heap_alloc_head h p l Hf) as (m1 & next & -> & Hf1 & Hz1 & Hd1 & Ha1).
  mret. set (h1 := set_free (set_mem h m1) next).
  destruct (IH n h1) as (h2 & -> & Hf2 & Hz2 & Ha2); [done|simpl in Hn; lia|]. mret.
  exists h2. split; [done|]. split; [done|].
  destruct Hf as (_ & [Hp Hnd]%NoDup_cons & [(Hp0 & _) Hok]%Forall_cons).
  rewrite Forall_forall in Hok. cbn [take]. split.
  - constructor; [|done]. intros x Hx. rewrite Ha2; [by apply Hz1|]. intros q Hq.
    apply elem_of_take in Hq as (i & Hq%list_elem_of_lookup_2 & _).
    destruct (pages_apart p q) as [?|?]; [done|by apply Hok|by intros ->|lia|lia].
  - intros x Hx. rewrite Ha2; [|intros q Hq; apply Hx; by right].
    apply Ha1. specialize (Hx p ltac:(left)). lia.
Qed.

(** ** The memory map and the first free list *)

(** The memory map at [addr]: the lengths of its entries. *)
Definition mmap_at (m : mem) (addr : Z) (lens : list Z) : Prop :=
  forall i len, lens !! i = Some len -> load64 m (addr + 24 * Z.of_nat i + 12) = Ok len.

Definition sum_lengths (lens : list Z) : Z := foldr Z.add 0 lens.

Lemma map_loop_sum m lens : forall fuel addr total,
  mmap_at m addr lens -> (length lens < fuel)%nat ->
  map_loop fuel m addr (addr + 24 * Z.of_nat (length lens)) (u64 total) =
  Ok (u64 (total + sum_lengths lens)).
Proof.
  induction lens as [|len lens IH]; intros [|fuel] addr total Hm Hf; try (simpl in Hf; lia);
    cbn [map_loop length sum_lengths foldr].
  - rewrite (proj2 (Z.ltb_ge _ _)) by lia. do 2 f_equal. lia.
  - rewrite (proj2 (Z.ltb_lt _ _)) by lia. specialize (Hm 0%nat len eq_refl) as H0.
    replace (addr + 24 * Z.of_nat 0 + 12) with (addr + mmap_entry_length) in H0
      by (unfold mmap_entry_length; lia).
    rewrite H0. mret. unfold mmap_entry_size.
    replace (addr + 24 * Z.of_nat (S (length lens)))
      with (addr + 24 + 24 * Z.of_nat (length lens)) by lia.
    replace (u64 (u64 total + len)) with (u64 (total + len))
      by (unfold u64; rewrite Zplus_mod_idemp_l; done).
    rewrite IH; [do 2 f_equal; fold (sum_lengths lens); lia| |simpl in Hf; lia].
    intros i v Hv. specialize (Hm (S i) v Hv). rewrite <- Hm. f_equal. lia.
Qed.

Lemma map_loop_total m lens fuel addr :
  mmap_at m addr lens -> (length lens < fuel)%nat ->
  map_loop fuel m addr (addr + 24 * Z.of_nat (length lens)) 0 = Ok (u64 (sum_lengths lens)).
Proof. apply (map_loop_sum m lens fuel addr 0). Qed.

(** The boot information the loader passes at [mbi]. *)
Record bootinfo_at (m : mem) (mbi upper addr : Z) (lens : list Z) : Prop := {
  bi_upper : load32 m (mbi + mbi_mem_upper) = Ok upper;
  bi_length : load32 m (mbi + mbi_mmap_length) = Ok (24 * Z.of_nat (length lens));
  bi_addr : load32 m (mbi + mbi_mmap_addr) = Ok addr;
  bi_map : mmap_at m addr lens;
  bi_fits : 0 <= addr /\ addr + 24 * Z.of_nat (length lens) < 2 ^ 32;
}.

(** The first page boundary at or above an address. *)
Definition page_up (a : Z) : Z := 4096 * ((a + 4095) / 4096).

Lemma page_up_mask a : 0 <= a < 2 ^ 52 -> Z.land (u64 (a + PAGE_SIZE - 1)) page_mask = page_up a.
Proof.
  intros Ha. unfold PAGE_SIZE. rewrite u64_small by lia.
  change page_mask with (2 ^ 64 - 2 ^ 12). rewrite land_mask by lia.
  rewrite (Z.mod_small _ (2 ^ 64)) by lia. change (2 ^ 12) with 4096. unfold page_up.
  pose proof (Z.div_mod (a + 4096 - 1) 4096 ltac:(lia)) as H.
  replace (a + 4095) with (a + 4096 - 1) by lia. lia.
Qed.

Definition mem_upper_text (upper : Z) : list Z :=
  bytes_of_string "mbi->mem_upper = " ++ num_text (u64 (u64 (upper * 1024))) 16 ++ [LF].

Lemma say_mem_upper s upper :
  say no_strs s (line "mbi->mem_upper = %lx") [u64 (upper * 1024)] = Ok (send s (mem_upper_text upper)).
Proof.
  apply (say_hex_between s (bytes_of_string "mbi->mem_upper = ") [LF]);
    [by_eval|by_eval|vm_compute; lia].
Qed.

Lemma bootinfo_mono m m' mbi upper addr lens : m ⊆ m' -> bootinfo_at m mbi upper addr lens -> bootinfo_at m' mbi upper addr lens.
Proof.
  intros Hs [H1 H2 H3 H4 H5]. split; [by eapply load_mono..| |done].
  intros i len Hi. eapply (load_mono 8); [exact Hs|]. by apply H4.
Qed.

Lemma early_mem_init_links h base mbi upper addr lens n :
  first_mem_init h = false -> bootinfo_at (hmem h) mbi upper addr lens ->
  0 < base -> upper * 1024 = page_up base + 4096 * Z.of_nat n -> (0 < n)%nat ->
  0 <= upper < 2 ^ 32 -> mapped (hmem h) (page_up base) (4096 * Z.of_nat n) ->
  exists h', early_mem_init h base mbi = Ok h' /\
    free_pages (hmem h') (freelist h') (pages_from (page_up base) n) /\
    heap_base h' = page_up base /\
    heap_end h' = Z.land (u64 (sum_lengths lens)) page_mask /\
    first_mem_init h' = true /\ hser h' = send (hser h) (mem_upper_text upper) /\
    agree_outside (page_up base) (upper * 1024) (hmem h) (hmem h') /\
    same_dom (hmem h) (hmem h') /\ vfree_top h' = vfree_top h /\ hlock h' = hlock h.
Proof.
  intros Hfi [Hup Hlen Haddr Hmap Hfit] Hb Hend Hn Hur Hm.
  assert (Hpu : 0 < page_up base) by (unfold page_up; Z.to_euclidean_division_equations; lia).
  assert (Hbr : 0 <= base < 2 ^ 52)
    by (unfold page_up in *; Z.to_euclidean_division_equations; lia).
  unfold early_mem_init. rewrite Hup. mret. rewrite say_mem_upper. mret.
  hfields. rewrite Hfi. unfold get_memory_map. hfields. rewrite Haddr. mret. rewrite Hlen. mret.
  rewrite u32_small by lia.
  rewrite map_loop_total by (done || lia). mret. rewrite page_up_mask by done. hfields.
  rewrite (u64_small (upper * 1024)) by lia.
  rewrite Hend, (u64_small (_ - page_up base)) by lia.
  replace (page_up base + 4096 * Z.of_nat n - page_up base) with (4096 * Z.of_nat n) by lia.
  match goal with |- context [get_free_pages ?h0 _ _] =>
    destruct (get_free_pages_links h0 (page_up base) n []) as (m' & -> & Hfp & Hd & Ha) end;
    try done; try lia.
  - hfields. repeat split; constructor.
  - unfold page_up. rewrite Z.mul_comm. by rewrite Z.mod_mul.
  - mret. eexists. split; [done|]. rewrite app_nil_r in Hfp. by repeat (split; [done|]).
Qed.

(** ** The properties *)

(** [get_free_pages] on [n] whole pages puts exactly these pages, in
    order, in front of the free list, and returns the first one; it writes
    only inside them. *)
Theorem get_free_pages_list h p n l :
  free_pages (hmem h) (freelist h) l -> 0 <= freelist h < 2 ^ 64 ->
  0 < p -> p mod 4096 = 0 -> (0 < n)%nat -> p + 4096 * Z.of_nat n < 2 ^ 52 ->
  mapped (hmem h) p (4096 * Z.of_nat n) ->
  Forall (fun q => q + 4096 <= p \/ p + 4096 * Z.of_nat n <= q) l ->
  exists h', get_free_pages h p (4096 * Z.of_nat n) = Ok (h', p) /\
    free_pages (hmem h') (freelist h') (pages_from p n ++ l) /\
    agree_outside p (p + 4096 * Z.of_nat n) (hmem h) (hmem h').
Proof.
  intros. edestruct get_free_pages_links as (m' & H' & Hf & _ & Ha); [eassumption..|].
  eexists. eauto.
Qed.

(** When the size is not a multiple of the page size the loop of
    [get_free_pages] steps over its end: the function never returns. *)
Theorem get_free_pages_overrun h p size r :
  size mod 4096 <> 0 -> get_free_pages h p size <> Ok r.
Proof.
  intros Hs. unfold get_free_pages. destruct (Z.eqb_spec size 0) as [->|_]; [done|].
  destruct (link_loop _ _ _ _) as [[m q]|e] eqn:E; [|done].
  exfalso. eapply link_loop_misses; [|exact E]. intros H. apply Hs. mach.
Qed.

(** C17: [early_mem_init] makes the free list of all the pages between the
    kernel's end, rounded up to a page, and [mem_upper] kilobytes; the heap's
    end is the sum of the memory map's lengths rounded down, and the rest of
    memory is untouched. *)
Theorem early_mem_init_pages h base mbi upper addr lens n :
  first_mem_init h = false -> bootinfo_at (hmem h) mbi upper addr lens ->
  0 < base -> upper * 1024 = page_up base + 4096 * Z.of_nat n -> (0 < n)%nat ->
  0 <= upper < 2 ^ 32 -> mapped (hmem h) (page_up base) (4096 * Z.of_nat n) ->
  exists h', early_mem_init h base mbi = Ok h' /\
    free_pages (hmem h') (freelist h') (pages_from (page_up base) n) /\
    heap_base h' = page_up base /\
    heap_end h' = Z.land (u64 (sum_lengths lens)) page_mask /\
    agree_outside (page_up base) (upper * 1024) (hmem h) (hmem h').
Proof.
  intros. edestruct early_mem_init_links as (h' & H' & Hf & Hb & He & _ & _ & Ha & _); [eassumption..|].
  eexists. eauto.
Qed.

(** C16: [n] calls of [heap_alloc_page] hand out the first [n] free pages:
    they are distinct, they are zeroed and stay so until the caller writes
    them, the others stay free, and no other byte of memory changes. *)
Theorem heap_alloc_pages h l n :
  free_pages (hmem h) (freelist h) l -> (n <= length l)%nat ->
  exists h', alloc_many n h = Ok (h', take n l) /\ NoDup (take n l) /\
    free_pages (hmem h') (freelist h') (drop n l) /\
    Forall (zero_page (hmem h')) (take n l) /\
    (forall x, (forall p, p ∈ take n l -> x < p \/ p + 4096 <= x) -> hmem h' !! x = hmem h !! x).
Proof.
  intros Hf Hn. destruct (alloc_many_take l n h Hf Hn) as (h' & H & H1 & H2 & H3).
  exists h'. split; [done|]. split; [|done]. destruct Hf as (_ & Hnd & _).
  rewrite <- (take_drop n l) in Hnd. apply NoDup_app in Hnd. tauto.
Qed.

(** With no free page [heap_alloc_page] says so and returns a null
    pointer; memory and the list are as before. *)
Theorem heap_alloc_empty h :
  free_pages (hmem h) (freelist h) [] ->
  heap_alloc_page h = Ok (set_ser h (send (hser h) (line "freelist uninitialized!")), 0).
Proof.
  intros (Hf & _). simpl in Hf. unfold heap_alloc_page. rewrite Hf. change (0 =? 0) with true.
  cbn iota. rewrite say_plain by (vm_compute; (reflexivity || lia)). done.
Qed.

(** ** Witnesses *)

(** Four pages from 0x4000 on, the boot information at 0x100 and a map of two
    entries at 0x200. *)
Definition demo_boot : mem :=
  write_bytes (write_bytes (write_bytes ∅ 16384 (replicate 16384 9))
    256 (replicate 8 0 ++ le_bytes 4 32 ++ replicate 32 0 ++ le_bytes 4 48 ++ le_bytes 4 512))
    512 (replicate 12 0 ++ le_bytes 8 32768 ++ replicate 16 0 ++ le_bytes 8 4097 ++ replicate 4 0).

Definition demo_heap (m : mem) : heap :=
  mkHeap m (mkSerial 0 0 (mkIo [] [])) 0 0 0 false 0 0 0 0.

Lemma get_free_pages_list_witness :
  exists h', get_free_pages (demo_heap demo_boot) 16384 16384 = Ok (h', 16384) /\
    free_pages (hmem h') (freelist h') [16384; 20480; 24576; 28672].
Proof.
  destruct (get_free_pages_list (demo_heap demo_boot) 16384 4 [])
    as (h' & H & Hf & _); [|vm_compute; split; congruence|lia|done|lia|vm_compute; congruence| | |].
  - split; [done|]. split; constructor.
  - by_eval.
  - constructor.
  - exists h'. split; [exact H|exact Hf].
Defined.

Lemma get_free_pages_overrun_witness :
  get_free_pages (demo_heap demo_boot) 16384 5000 <> Ok (demo_heap demo_boot, 16384).
Proof. apply (get_free_pages_overrun (demo_heap demo_boot) 16384 5000). done. Defined.

Lemma early_mem_init_pages_witness :
  exists h', early_mem_init (demo_heap demo_boot) 16000 256 = Ok h' /\
    free_pages (hmem h') (freelist h') [16384; 20480; 24576; 28672] /\
    heap_end h' = 36864.
Proof.
  destruct (early_mem_init_pages (demo_heap demo_boot) 16000 256 32 512 [32768; 4097] 4)
    as (h' & H & Hf & _ & He & _).
  - done.
  - split; [by vm_compute..| |vm_compute; split; congruence].
    intros [|[|i]] len; [intros [= <-]; by vm_compute..|discriminate].
  - lia.
  - done.
  - lia.
  - lia.
  - by_eval.
  - exists h'. split; [exact H|]. split; [exact Hf|]. rewrite He. reflexivity.
Defined.

(** Two free pages. *)
Definition demo_free : heap :=
  set_free (demo_heap (write_bytes (write_bytes ∅ 4096 (le_bytes 8 8192 ++ replicate 4088 7))
    8192 (replicate 8 0 ++ replicate 4088 7))) 4096.

Lemma heap_alloc_pages_witness :
  exists h', alloc_many 1 demo_free = Ok (h', [4096]) /\
    free_pages (hmem h') (freelist h') [8192] /\ Forall (zero_page (hmem h')) [4096].
Proof.
  destruct (heap_alloc_pages demo_free [4096; 8192] 1) as (h' & H & _ & Hf & Hz & _);
    [by_eval|simpl; lia|].
  exists h'. split; [exact H|]. split; [exact Hf|exact Hz].
Defined.

Lemma heap_alloc_empty_witness :
  exists h', heap_alloc_page (demo_heap ∅) = Ok (h', 0) /\
    sent (io_log (ser_io (hser h'))) = line "freelist uninitialized!".
Proof.
  eexists. split; [apply (heap_alloc_empty (demo_heap ∅)); by_eval|]. vm_compute. reflexivity.
Defined.
