(* ===== verification/PageTable.v ===== *)
(** * x86_64/heap.c: the page tables

    [install_pte] walks the four levels from a root, allocating the tables it
    misses, and stores an entry; [install_page], [install_large_page],
    [install_pages] and [setup_mmu] are built on it. An entry is a 64-bit word
    of memory, a table 512 of them.

    [translate] is the processor's walk of the same tables (Intel SDM,
    volume 3, 4-level paging). The tree of tables is abstracted to the map
    [tabs] from a level and the virtual pages a table covers to the table's
    address ([pt_tree]); against it, installing a page is an update of the
    function from virtual pages to entries, and [setup_mmu] yields the
    identity mapping. *)

From stdpp Require Import base gmap list numbers strings.
From Stdlib Require Import ZArith Lia.
From S2P Require Import Prelude Mem CString Printf Serial Stdio Heap.

#[local] Open Scope Z_scope.

Definition PAGE_SHIFT : Z := 12.
Definition PT_PRESENT_MASK : Z := Z.shiftl 1 0.
Definition PT_WRITABLE_MASK : Z := Z.shiftl 1 1.
Definition PT_USER_MASK : Z := Z.shiftl 1 2.
Definition PT_PAGE_SIZE_MASK : Z := Z.shiftl 1 7.
Definition GENMASK_ULL (h l : Z) : Z :=
  Z.land (u64 (Z.shiftl 18446744073709551615 l)) (Z.shiftr 18446744073709551615 (64 - 1 - h)).
Definition PT_ADDR_MASK : Z := GENMASK_ULL 51 12.
Definition PAGE_LEVEL : Z := 4.
Definition PGDIR_WIDTH : Z := 9.
Definition PGDIR_MASK : Z := 511.
Definition PGDIR_BITS (lvl : Z) : Z := (lvl - 1) * PGDIR_WIDTH + PAGE_SHIFT.
Definition PGDIR_OFFSET (va lvl : Z) : Z := Z.land (Z.shiftr va (PGDIR_BITS lvl)) PGDIR_MASK.

(** The loop of [install_pte] from [level] down to [pte_level]; [n] rounds are
    left. The result is the table the entry goes to. *)
Fixpoint pte_loop (n : nat) (h : heap) (pt level virt pt_page : Z) : res (heap * Z) :=
  match n with
  | O => Ok (h, pt)
  | S n' =>
      let slot := pt + 8 * PGDIR_OFFSET virt level in
      e ← load64 (hmem h) slot;
      '(h, pt_page) ←
        (if Z.land e PT_PRESENT_MASK =? 0 then
           '(h, new_pt, pt_page) ←
             (if pt_page =? 0 then '(h, p) ← heap_alloc_page h; Ok (h, p, pt_page)
              else Ok (h, pt_page, 0));
           m ← memset (hmem h) new_pt 0 PAGE_SIZE;
           m ← store64 m slot
                 (Z.lor (Z.lor (Z.lor new_pt PT_PRESENT_MASK) PT_WRITABLE_MASK) PT_USER_MASK);
           Ok (set_mem h m, pt_page)
         else Ok (h, pt_page));
      e ← load64 (hmem h) slot;
      pte_loop n' h (Z.land e PT_ADDR_MASK) (level - 1) virt pt_page
  end.

(** The result is the address of the entry. *)
Definition install_pte (h : heap) (cr3 pte_level virt pte pt_page : Z) : res (heap * Z) :=
  '(h, pt) ← pte_loop (Z.to_nat (PAGE_LEVEL - pte_level)) h cr3 PAGE_LEVEL virt pt_page;
  let slot := pt + 8 * PGDIR_OFFSET virt (Z.min PAGE_LEVEL pte_level) in
  m ← store64 (hmem h) slot pte;
  Ok (set_mem h m, slot).

Definition install_large_page (h : heap) (cr3 phys virt : Z) : res (heap * Z) :=
  install_pte h cr3 2 virt
    (Z.lor (Z.lor (Z.lor (Z.lor phys PT_PRESENT_MASK) PT_WRITABLE_MASK) PT_USER_MASK)
       PT_PAGE_SIZE_MASK) 0.

Definition install_page (h : heap) (cr3 phys virt : Z) : res (heap * Z) :=
  install_pte h cr3 1 virt
    (Z.lor (Z.lor (Z.lor phys PT_PRESENT_MASK) PT_WRITABLE_MASK) PT_USER_MASK) 0.

(** [while (phys + PAGE_SIZE <= max) { ... }] *)
Fixpoint install_loop (fuel : nat) (h : heap) (cr3 phys max virt : Z) : res heap :=
  match fuel with
  | O => Err Fuel
  | S f =>
      if u64 (phys + PAGE_SIZE) <=? max then
        '(h, _) ← install_page h cr3 phys virt;
        install_loop f h cr3 (u64 (phys + PAGE_SIZE)) max (u64 (virt + PAGE_SIZE))
      else Ok h
  end.

(** The loop runs once per page of the range, and ends one test later. *)
Definition install_pages (h : heap) (cr3 phys len virt : Z) : res heap :=
  install_loop (S (Z.to_nat (len / PAGE_SIZE))) h cr3 phys (u64 (len + phys)) virt.

Definition setup_mmu (h : heap) (end_of_memory : Z) : res (heap * Z) :=
  '(h, cr3) ← heap_alloc_page h;
  let end_of_memory := if end_of_memory =? 0 then Z.shiftl 1 32 else end_of_memory in
  h ← install_pages h cr3 0 end_of_memory 0;
  let h := set_cr3s h (cr3_reg h) (cr3_reg h) in
  let h := set_cr3s h (start_cr3 h) cr3 in
  Ok (h, cr3).

Definition switch_to_start_cr3 (h : heap) : heap := set_cr3s h (start_cr3 h) (start_cr3 h).

(** ** The processor's walk *)

Definition present (e : Z) : bool := Z.testbit e 0.
Definition page_size_bit (e : Z) : bool := Z.testbit e 7.

(** Bits 51 to 12 of an entry: the frame or the next table. *)
Definition frame_of (e : Z) : Z := e mod 2 ^ 52 - e mod 2 ^ 12.

(** From a table of level [lvl] down; level 3 and 2 entries with the page-size
    bit map 1 GiB and 2 MiB. *)
Fixpoint walk (lvl : nat) (m : mem) (pt va : Z) : res (option Z) :=
  match lvl with
  | O => Ok None
  | S lower =>
      e ← load64 m (pt + 8 * ((va / 2 ^ (9 * Z.of_nat lower + 12)) mod 512));
      if negb (present e) then Ok None
      else if Nat.eqb lower 0 then Ok (Some (frame_of e + va mod 2 ^ 12))
      else if page_size_bit e && (Nat.leb lower 2) then
        let w := 9 * Z.of_nat lower + 12 in
        Ok (Some (e mod 2 ^ 52 - e mod 2 ^ w + va mod 2 ^ w))
      else walk lower m (frame_of e) va
  end.

Definition translate (m : mem) (cr3 va : Z) : res (option Z) := walk 4 m cr3 va.

(** ** The tree of tables *)

(** The table of level [L] (4 for the root, 1 for the last) that serves the
    virtual pages [v] with [v / 512^L = k] has the key [(L, k)]. *)
Abbreviation tables := (gmap (Z * Z) Z).

Record pt_tree (m : mem) (cr3 : Z) (tabs : tables) : Prop := {
  pt_root : tabs !! (4, 0) = Some cr3;
  pt_keys : forall L k t, tabs !! (L, k) = Some t -> 1 <= L <= 4 /\ 0 <= k /\ (L = 4 -> k = 0);
  pt_pages : forall key t, tabs !! key = Some t -> page_ok m t;
  pt_inj : forall k1 k2 t, tabs !! k1 = Some t -> tabs !! k2 = Some t -> k1 = k2;
  pt_up : forall L k t, tabs !! (L, k) = Some t -> L < 4 -> is_Some (tabs !! (L + 1, k / 512));
  pt_entries : forall L k t o, tabs !! (L, k) = Some t -> 2 <= L -> 0 <= o < 512 ->
    exists e, load64 m (t + 8 * o) = Ok e /\
      if present e
      then tabs !! (L - 1, 512 * k + o) = Some (frame_of e) /\ page_size_bit e = false
      else tabs !! (L - 1, 512 * k + o) = None;
}.

(** The entry of a virtual page. *)
Definition leaf (m : mem) (tabs : tables) (v : Z) : res Z :=
  match tabs !! (1, v / 512) with
  | Some t => load64 m (t + 8 * (v mod 512))
  | None => Ok 0
  end.

(** The tables and the free pages are different pages. *)
Record mmu_ok (h : heap) (cr3 : Z) (tabs : tables) (l : list Z) : Prop := {
  mmu_tree : pt_tree (hmem h) cr3 tabs;
  mmu_free : free_pages (hmem h) (freelist h) l;
  mmu_apart : forall key t, tabs !! key = Some t -> t ∉ l;
}.

(** ** Entries *)

Lemma addr_mask e : Z.land e PT_ADDR_MASK = frame_of e.
Proof. change PT_ADDR_MASK with (2 ^ 52 - 2 ^ 12). apply land_mask. lia. Qed.

Lemma present_mask e : (Z.land e PT_PRESENT_MASK =? 0) = negb (present e).
Proof. apply (land_bit e 0). lia. Qed.

Lemma lor_low p a : p mod 4096 = 0 -> 0 <= a < 4096 -> Z.lor p a = p + a.
Proof.
  intros Hp Ha. by apply (lor_disjoint p a 12).
Qed.

Lemma table_entry p :
  p mod 4096 = 0 ->
  Z.lor (Z.lor (Z.lor p PT_PRESENT_MASK) PT_WRITABLE_MASK) PT_USER_MASK = p + 7.
Proof.
  intros Hp. rewrite <- !Z.lor_assoc. apply (lor_low p 7); [done|lia].
Qed.

Lemma entry_bits p :
  p mod 4096 = 0 -> 0 <= p < 2 ^ 52 ->
  present (p + 7) = true /\ page_size_bit (p + 7) = false /\ frame_of (p + 7) = p.
Proof.
  intros Hp Hr.
  assert (Hbit : forall i, 0 <= i < 12 -> Z.testbit (p + 7) i = Z.testbit 7 i).
  { intros i Hi. rewrite <- (Z.mod_pow2_bits_low (p + 7) 12) by lia. f_equal.
    change (2 ^ 12) with 4096. Z.to_euclidean_division_equations. lia. }
  unfold present, page_size_bit. rewrite !Hbit by lia. split; [done|]. split; [done|].
  unfold frame_of. rewrite (Z.mod_small _ (2 ^ 52)).
  - change (2 ^ 12) with 4096. Z.to_euclidean_division_equations. lia.
  - change (2 ^ 52) with 4503599627370496 in *. Z.to_euclidean_division_equations. lia.
Qed.

Lemma zero_page_load m p o : zero_page m p -> 0 <= o < 512 -> load64 m (p + 8 * o) = Ok 0.
Proof.
  intros Hz Ho. unfold load64. apply (load_le_ok m (p + 8 * o) (replicate 8 0)).
  intros i b Hb. pose proof (lookup_lt_Some _ _ _ Hb) as Hi. rewrite length_replicate in Hi.
  apply lookup_replicate in Hb as [-> _]. apply Hz. lia.
Qed.

(** ** Changing the tree *)

(** A word of one table and a word of another do not overlap, nor do two
    different words of the same table. *)
Lemma words_apart m cr3 tabs k1 k2 t1 t2 o1 o2 :
  pt_tree m cr3 tabs -> tabs !! k1 = Some t1 -> tabs !! k2 = Some t2 ->
  0 <= o1 < 512 -> 0 <= o2 < 512 -> k1 <> k2 \/ o1 <> o2 ->
  t1 + 8 * o1 + 8 <= t2 + 8 * o2 \/ t2 + 8 * o2 + 8 <= t1 + 8 * o1.
Proof.
  intros Ht H1 H2 Ho1 Ho2 Hne.
  destruct (pt_pages _ _ _ Ht _ _ H1) as (Ha1 & _). destruct (pt_pages _ _ _ Ht _ _ H2) as (Ha2 & _).
  destruct (decide (t1 = t2)) as [->|Hd].
  - assert (k1 = k2) by (by eapply pt_inj). subst. destruct Hne; [done|lia].
  - pose proof (pages_apart t1 t2 Ha1 Ha2 Hd). lia.
Qed.

Lemma load_elsewhere m cr3 tabs k1 k2 t1 t2 o1 o2 v :
  pt_tree m cr3 tabs -> tabs !! k1 = Some t1 -> tabs !! k2 = Some t2 ->
  0 <= o1 < 512 -> 0 <= o2 < 512 -> k1 <> k2 \/ o1 <> o2 ->
  load64 (write_bytes m (t2 + 8 * o2) (le_bytes 8 v)) (t1 + 8 * o1) = load64 m (t1 + 8 * o1).
Proof.
  intros Ht H1 H2 Ho1 Ho2 Hne. apply load64_frame. intros x Hx. apply write64_out.
  pose proof (words_apart _ _ _ _ _ _ _ _ _ Ht H1 H2 Ho1 Ho2 Hne). lia.
Qed.

Lemma page_ok_dom m m' p : same_dom m m' -> page_ok m p -> page_ok m' p.
Proof. intros Hd. unfold page_ok. by rewrite Hd. Qed.

Lemma table_word m p o : page_ok m p -> 0 <= o < 512 -> mapped m (p + 8 * o) 8.
Proof. intros (_ & _ & Hm) Ho. eapply mapped_sub; [exact Hm| |]; lia. Qed.

(** A change that keeps the words of the tables keeps the tree. *)
Lemma pt_tree_same m m' cr3 tabs :
  pt_tree m cr3 tabs -> same_dom m m' ->
  (forall key t o, tabs !! key = Some t -> 0 <= o < 512 -> load64 m' (t + 8 * o) = load64 m (t + 8 * o)) ->
  pt_tree m' cr3 tabs /\ forall v, leaf m' tabs v = leaf m tabs v.
Proof.
  intros Ht Hd Hload. split.
  - destruct Ht as [H1 H2 H3 H4 H5 H6]. split; try done.
    + intros key t Hk. eapply page_ok_dom; eauto.
    + intros L k t o Hk HL Ho. rewrite (Hload _ _ _ Hk Ho). by apply H6.
  - intros v. unfold leaf. destruct (tabs !! _) as [t|] eqn:E; [|done].
    eapply Hload; [exact E|]. apply Z.mod_pos_bound. lia.
Qed.

(** A change inside a page that is no table keeps the tree. *)
Lemma pt_tree_frame m m' cr3 tabs p :
  pt_tree m cr3 tabs -> p mod 4096 = 0 -> (forall key, tabs !! key <> Some p) ->
  same_dom m m' -> agree_outside p (p + 4096) m m' ->
  pt_tree m' cr3 tabs /\ forall v, leaf m' tabs v = leaf m tabs v.
Proof.
  intros Ht Hp Hn Hd Ha. apply (pt_tree_same m); [done|done|].
  intros key t o Hk Ho. apply load64_frame. intros x Hx. apply Ha.
  destruct (pt_pages _ _ _ Ht _ _ Hk) as (Ht1 & _).
  destruct (pages_apart p t Hp Ht1) as [?|?]; [intros ->; by eapply Hn|lia|lia].
Qed.

(** Storing an entry of a last-level table. *)
Lemma pt_tree_leaf m cr3 tabs k t o v :
  pt_tree m cr3 tabs -> tabs !! (1, k) = Some t -> 0 <= o < 512 ->
  pt_tree (write_bytes m (t + 8 * o) (le_bytes 8 v)) cr3 tabs.
Proof.
  intros Ht Hk Ho. pose proof Ht as [H1 H2 H3 H4 H5 H6]. split; try done.
  - intros key t' Hk'. eapply page_ok_dom; [|by eapply H3].
    apply write64_dom, table_word; [by eapply H3|done].
  - intros L k' t' o' Hk' HL Ho'.
    rewrite (load_elsewhere m cr3 tabs (L, k') (1, k)); try done; [by apply H6|].
    left. intros [= -> ->]. lia.
Qed.

Lemma leaf_update m cr3 tabs v t e u :
  pt_tree m cr3 tabs -> tabs !! (1, v / 512) = Some t -> 0 <= e < 2 ^ 64 ->
  leaf (write_bytes m (t + 8 * (v mod 512)) (le_bytes 8 e)) tabs u =
  if u =? v then Ok e else leaf m tabs u.
Proof.
  intros Ht Hk He. unfold leaf. destruct (Z.eqb_spec u v) as [->|Hne].
  - rewrite Hk. apply load64_same. lia.
  - destruct (tabs !! (1, u / 512)) as [t'|] eqn:E; [|done].
    eapply (load_elsewhere m cr3 tabs); try done; try (apply Z.mod_pos_bound; lia).
    destruct (decide (u / 512 = v / 512)) as [Hd|Hd]; [|left; congruence].
    right. Z.to_euclidean_division_equations. lia.
Qed.

(** Hanging a zeroed page under an absent entry. *)
Lemma pt_tree_extend m cr3 tabs L k t o p :
  pt_tree m cr3 tabs -> tabs !! (L, k) = Some t -> 2 <= L -> 0 <= o < 512 ->
  tabs !! (L - 1, 512 * k + o) = None -> page_ok m p -> (forall key, tabs !! key <> Some p) ->
  zero_page m p ->
  let m' := write_bytes m (t + 8 * o) (le_bytes 8 (p + 7)) in
  pt_tree m' cr3 (<[(L - 1, 512 * k + o) := p]> tabs) /\
  forall v, leaf m' (<[(L - 1, 512 * k + o) := p]> tabs) v = leaf m tabs v.
Proof.
  intros Ht Hk HL Ho Hnone Hp Hfresh Hz m'. pose proof Ht as [H1 H2 H3 H4 H5 H6].
  destruct (H2 _ _ _ Hk) as (HL4 & Hk0 & _). pose proof Hp as (Hpa & Hpr & _).
  set (key := (L - 1, 512 * k + o)) in *.
  assert (Hnew : forall o', 0 <= o' < 512 -> load64 m' (p + 8 * o') = Ok 0).
  { intros o' Ho'. rewrite <- (zero_page_load m p o' Hz Ho'). apply load64_frame.
    intros x Hx. apply write64_out. destruct (H3 _ _ Hk) as (Hta & _).
    destruct (pages_apart p t Hpa Hta) as [?|?]; [intros ->; by eapply Hfresh|lia|lia]. }
  split.
  - split.
    + rewrite lookup_insert_ne; [done|]. intros [= E1 E2]. lia.
    + intros L' k' t'. rewrite lookup_insert_Some. intros [[[= <- <-] _]|[_ Hl]]; [lia|eauto].
    + intros key' t' Hl. eapply page_ok_dom; [apply write64_dom, table_word; [by eapply H3|done]|].
      rewrite lookup_insert_Some in Hl. destruct Hl as [[_ <-]|[_ Hl]]; eauto.
    + intros k1 k2 t'. rewrite !lookup_insert_Some.
      intros [[<- <-]|[? Hk1]] [[<- ?]|[? Hk2]]; subst; try done; try by exfalso; eapply Hfresh.
      by eapply H4.
    + intros L' k' t'. rewrite lookup_insert_Some. intros [[[= <- <-] _]|[_ Hl]] HL'.
      * rewrite lookup_insert_ne by (intros [= E _]; lia).
        replace (L - 1 + 1) with L by lia. replace ((512 * k + o) / 512) with k;
          [by eexists|]. Z.to_euclidean_division_equations. lia.
      * apply lookup_insert_is_Some'. right. eauto.
    + intros L' k' t' o'. rewrite lookup_insert_Some. intros [[[= <- <-] <-]|[Hne Hl]] HL' Ho'.
      * exists 0. rewrite Hnew by done. split; [done|]. cbn [present Z.testbit].
        rewrite lookup_insert_ne by (intros [= E _]; lia).
        destruct (tabs !! (L - 1 - 1, _)) as [t'|] eqn:E; [|done].
        apply H5 in E; [|lia]. replace (L - 1 - 1 + 1) with (L - 1) in E by lia.
        replace ((512 * (512 * k + o) + o') / 512) with (512 * k + o) in E
          by (Z.to_euclidean_division_equations; lia).
        unfold key in Hnone. rewrite Hnone in E. by destruct E.
      * destruct (decide (L' = L /\ k' = k /\ o' = o)) as [(-> & -> & ->)|Hd].
        -- rewrite Hk in Hl. injection Hl as <-. exists (p + 7).
           split; [apply load64_same; lia|].
           destruct (entry_bits p Hpa ltac:(lia)) as (-> & -> & ->).
           rewrite lookup_insert_eq. done.
        -- unfold m'. rewrite (load_elsewhere m cr3 tabs (L', k') (L, k)); try done.
           ++ rewrite lookup_insert_ne; [by apply H6|]. intros [= E1 E2].
              apply Hd. lia.
           ++ destruct (decide ((L', k') = (L, k))) as [[= -> ->]|]; [|by left].
              right. intros ->. by apply Hd.
  - intros v. unfold leaf. destruct (decide (key = (1, v / 512))) as [->|Hne].
    + rewrite lookup_insert_eq, Hnone. apply Hnew, Z.mod_pos_bound. lia.
    + rewrite lookup_insert_ne by done. destruct (tabs !! (1, v / 512)) as [t1|] eqn:E; [|done].
      apply (load_elsewhere m cr3 tabs (1, v / 512) (L, k)); try done.
      * apply Z.mod_pos_bound. lia.
      * left. intros [= <- _]. lia.
Qed.

(** ** One level of the walk *)

Lemma memset_page m p :
  mapped m p 4096 ->
  exists m', memset m p 0 PAGE_SIZE = Ok m' /\ zero_page m' p /\ same_dom m m' /\
    agree_outside p (p + 4096) m m'.
Proof.
  intros H. exists (write_bytes m p page_zeros). split; [by apply memset_spec|].
  split; [apply zero_page_write|]. split; [by apply zero_write_dom|].
  intros x Hx. by apply zero_write_out.
Qed.

Lemma pgdir_offset va L : 1 <= L -> PGDIR_OFFSET va L = (va / 2 ^ (9 * (L - 1) + 12)) mod 512.
Proof.
  intros HL. unfold PGDIR_OFFSET, PGDIR_BITS, PGDIR_WIDTH, PAGE_SHIFT, PGDIR_MASK.
  change 511 with (Z.ones 9). rewrite Z.land_ones, Z.shiftr_div_pow2 by lia.
  do 3 f_equal. lia.
Qed.

(** The state after the step, in terms of what the tree had: an existing
    table is followed, a missing one takes the first free page. *)
Definition grown (tabs : tables) (l : list Z) (key : Z * Z) : tables * list Z :=
  match tabs !! key, l with
  | None, p :: l' => (<[key := p]> tabs, l')
  | _, _ => (tabs, l)
  end.

(** Memory changed only inside the tables of [tabs]. *)
Definition only_tables (m m' : mem) (tabs : tables) : Prop :=
  forall x, (forall key t, tabs !! key = Some t -> x < t \/ t + 4096 <= x) -> m' !! x = m !! x.

(** The branch that adds a table: the page is zeroed a second time and hung
    under the entry. *)
Lemma add_table h cr3 tabs p l L k t o m2 next :
  mmu_ok h cr3 tabs (p :: l) -> tabs !! (L, k) = Some t -> 2 <= L -> 0 <= o < 512 ->
  tabs !! (L - 1, 512 * k + o) = None ->
  free_pages m2 next l -> zero_page m2 p -> same_dom (hmem h) m2 ->
  agree_outside p (p + 4096) (hmem h) m2 ->
  let m3 := write_bytes m2 (t + 8 * o) (le_bytes 8 (p + 7)) in
  let tabs' := <[(L - 1, 512 * k + o) := p]> tabs in
  mapped m2 (t + 8 * o) 8 /\ mmu_ok (set_free (set_mem h m3) next) cr3 tabs' l /\
  (forall v, leaf m3 tabs' v = leaf (hmem h) tabs v) /\
  same_dom (hmem h) m3 /\ only_tables (hmem h) m3 tabs'.
Proof.
  intros [Ht Hf Hap] Hk HL Ho Hnone Hf2 Hz2 Hd2 Ha2 m3 tabs'.
  destruct Hf as (_ & [Hpl _]%NoDup_cons & [Hp Hok]%Forall_cons). pose proof Hp as (Hpa & Hpr & Hpm).
  assert (Hfresh : forall key, tabs !! key <> Some p) by (intros key E; eapply Hap; [exact E|left]).
  destruct (pt_tree_frame _ m2 _ _ p Ht Hpa Hfresh Hd2 Ha2) as [Ht2 Hl2].
  pose proof (page_ok_dom _ _ _ Hd2 Hp) as Hp2.
  destruct (pt_tree_extend m2 cr3 tabs L k t o p Ht2 Hk HL Ho Hnone Hp2 Hfresh Hz2) as [Ht3 Hl3].
  pose proof (pt_pages _ _ _ Ht2 _ _ Hk) as Htp.
  assert (Hm2 : mapped m2 (t + 8 * o) 8) by (by apply table_word).
  assert (Hd3 : same_dom m2 m3) by (by apply write64_dom).
  split; [done|]. split; [split; hfields|split; [|split]].
  - exact Ht3.
  - eapply (free_pages_frame m2 m3 _ _ t); [done|by destruct Htp| |done|].
    + intros ?. eapply Hap; [exact Hk|by right].
    + intros x Hx. apply write64_out. lia.
  - intros key t'. unfold tabs'. rewrite lookup_insert_Some. intros [[_ <-]|[_ E]]; [done|].
    intros Hin. eapply Hap; [exact E|by right].
  - intros v. rewrite <- Hl2. apply Hl3.
  - by rewrite Hd2.
  - intros x Hx. unfold m3. rewrite write64_out.
    + apply Ha2, (Hx (L - 1, 512 * k + o)). apply lookup_insert_eq.
    + specialize (Hx (L, k) t). unfold tabs' in Hx. rewrite lookup_insert_ne in Hx by (intros [= E _]; lia).
      specialize (Hx Hk). lia.
Qed.

Lemma pte_step h cr3 tabs l L k t virt n key :
  mmu_ok h cr3 tabs l -> tabs !! (L, k) = Some t -> 2 <= L ->
  key = (L - 1, 512 * k + PGDIR_OFFSET virt L) -> (tabs !! key = None -> l <> []) ->
  exists m' f t',
    pte_loop (S n) h t L virt 0 = pte_loop n (set_free (set_mem h m') f) t' (L - 1) virt 0 /\
    mmu_ok (set_free (set_mem h m') f) cr3 (grown tabs l key).1 (grown tabs l key).2 /\
    (grown tabs l key).1 !! key = Some t' /\
    (forall v, leaf m' (grown tabs l key).1 v = leaf (hmem h) tabs v) /\
    same_dom (hmem h) m' /\ only_tables (hmem h) m' (grown tabs l key).1.
Proof.
  intros [Ht Hf Hap] Hk HL -> Hne. set (o := PGDIR_OFFSET virt L) in *.
  set (key := (L - 1, 512 * k + o)) in *. destruct (pt_keys _ _ _ Ht _ _ _ Hk) as (HL4 & Hk0 & _).
  assert (Ho : 0 <= o < 512) by (unfold o; rewrite pgdir_offset by lia; apply Z.mod_pos_bound; lia).
  destruct (pt_entries _ _ _ Ht L k t o Hk HL Ho) as (e & He & Hent).
  cbn [pte_loop]. fold o. rewrite He. mret. rewrite present_mask. unfold grown. fold key in Hent.
  destruct (present e); cbn [negb].
  - destruct Hent as [Hent _]. rewrite Hent. exists (hmem h), (freelist h), (frame_of e).
    mret. rewrite He. mret. rewrite addr_mask. replace (set_free _ _) with h by (by destruct h).
    split; [done|]. split; [done|]. split; [done|]. split; [done|]. split; [done|]. by intros x Hx.
  - rewrite Hent. destruct l as [|p l]; [by destruct (Hne Hent)|].
    destruct (heap_alloc_head h p l Hf) as (m1 & next & E1 & Hf1 & Hz1 & Hd1 & Ha1).
    change (0 =? 0) with true. cbn iota. rewrite E1. mret. hfields.
    pose proof Hf as (_ & _ & [Hp _]%Forall_cons). pose proof Hp as (Hpa & Hpr & Hpm).
    destruct (memset_page m1 p) as (m2 & -> & Hz2 & Hd2 & Ha2); [rewrite <- Hd1; exact Hpm|]. mret.
    rewrite table_entry by done.
    assert (Hf2 : free_pages m2 next l).
    { eapply (free_pages_frame m1 m2 _ _ p); try done. by destruct Hf as (_ & [? _]%NoDup_cons & _). }
    destruct (add_table h cr3 tabs p l L k t o m2 next) as (Hm2 & Hok & Hleaf & Hd & Hot);
      [done..|by rewrite Hd1|by eapply agree_trans|].
    destruct (store64_ok _ _ (p + 7) Hm2) as (m3 & -> & ->). mret. hfields.
    rewrite load64_same by lia. mret. rewrite addr_mask.
    destruct (entry_bits p Hpa ltac:(lia)) as (_ & _ & ->).
    exists (write_bytes m2 (t + 8 * o) (le_bytes 8 (p + 7))), next, p.
    split; [done|]. split; [exact Hok|]. split; [apply lookup_insert_eq|].
    split; [exact Hleaf|]. split; [exact Hd|exact Hot].
Qed.

(** ** Installing a page *)

(** The tables on the way to the virtual page [v], and how many of them are
    missing. *)
Definition path_keys (v : Z) : list (Z * Z) := [(3, v / 2 ^ 27); (2, v / 2 ^ 18); (1, v / 512)].

Definition grow_path (tabs : tables) (l : list Z) (v : Z) : tables * list Z :=
  foldl (fun '(tabs, l) key => grown tabs l key) (tabs, l) (path_keys v).

Definition missing_keys (tabs : tables) (keys : list (Z * Z)) : nat :=
  length (filter (fun key => tabs !! key = None) keys).

Definition missing (tabs : tables) (v : Z) : nat := missing_keys tabs (path_keys v).

Lemma grown_subset tabs l key : tabs ⊆ (grown tabs l key).1.
Proof.
  unfold grown. destruct (tabs !! key) eqn:E; [done|]. destruct l as [|p l]; [done|].
  by apply insert_subseteq.
Qed.

Lemma grow_path_subset tabs l v : tabs ⊆ (grow_path tabs l v).1.
Proof.
  unfold grow_path. generalize (path_keys v). intros keys. revert tabs l.
  induction keys as [|key keys IH]; intros tabs l; [done|]. cbn [foldl].
  pose proof (grown_subset tabs l key) as Hg.
  destruct (grown tabs l key) as [tabs1 l1]. etransitivity; [exact Hg|apply IH].
Qed.

Lemma grown_other tabs l key key' : key <> key' -> (grown tabs l key).1 !! key' = tabs !! key'.
Proof.
  intros H. unfold grown. destruct (tabs !! key); [done|]. destruct l; [done|].
  by apply lookup_insert_ne.
Qed.

Lemma only_tables_trans m1 m2 m3 tabs tabs' :
  only_tables m1 m2 tabs -> only_tables m2 m3 tabs' -> tabs ⊆ tabs' -> only_tables m1 m3 tabs'.
Proof.
  intros H1 H2 Hs x Hx. rewrite H2 by done. apply H1. intros key t Hk.
  eapply Hx, lookup_weaken; eauto.
Qed.

Lemma missing_keys_same tabs tabs' keys :
  (forall key, key ∈ keys -> tabs' !! key = tabs !! key) ->
  missing_keys tabs' keys = missing_keys tabs keys.
Proof.
  unfold missing_keys. induction keys as [|key keys IH]; intros H; [done|].
  rewrite !filter_cons, H by (left; done).
  destruct (decide (tabs !! key = None)); cbn [length]; rewrite IH; auto;
    intros k Hk; apply H; by right.
Qed.

(** The pages a step leaves are enough for the rest of the path. *)
Lemma grown_enough tabs l key keys :
  key ∉ keys -> (missing_keys tabs (key :: keys) <= length l)%nat ->
  (tabs !! key = None -> l <> []) /\
  (missing_keys (grown tabs l key).1 keys <= length (grown tabs l key).2)%nat.
Proof.
  intros Hn Hm. rewrite (missing_keys_same tabs) by (intros k Hk; apply grown_other; by intros ->).
  unfold missing_keys in *. rewrite filter_cons in Hm. unfold grown.
  destruct (decide (tabs !! key = None)) as [E|E].
  - rewrite E. destruct l as [|p l]; simpl in Hm; [lia|]. split; [done|]. simpl. lia.
  - split; [done|]. destruct (tabs !! key); [done|]. by destruct E.
Qed.

Lemma offset_keys virt :
  0 <= virt < 2 ^ 48 ->
  512 * 0 + PGDIR_OFFSET virt 4 = virt / 4096 / 2 ^ 27 /\
  512 * (virt / 4096 / 2 ^ 27) + PGDIR_OFFSET virt 3 = virt / 4096 / 2 ^ 18 /\
  512 * (virt / 4096 / 2 ^ 18) + PGDIR_OFFSET virt 2 = virt / 4096 / 512 /\
  PGDIR_OFFSET virt 1 = virt / 4096 mod 512.
Proof.
  intros Hv. rewrite !pgdir_offset by lia.
  change (2 ^ (9 * (4 - 1) + 12)) with (4096 * 134217728).
  change (2 ^ (9 * (3 - 1) + 12)) with (4096 * 262144).
  change (2 ^ (9 * (2 - 1) + 12)) with (4096 * 512).
  change (2 ^ (9 * (1 - 1) + 12)) with 4096.
  change (2 ^ 27) with 134217728. change (2 ^ 18) with 262144. change (2 ^ 48) with 281474976710656 in Hv.
  rewrite <- !Z.div_div by lia. generalize (virt / 4096) (Z.div_lt_upper_bound virt 4096 68719476736 ltac:(lia) ltac:(lia)) (Z.div_pos virt 4096 ltac:(lia) ltac:(lia)).
  intros v Hlt Hpos. repeat split; Z.to_euclidean_division_equations; lia.
Qed.

(** The three levels together: the last table of the page's path. *)
Lemma pte_path h cr3 tabs l virt :
  let v := virt / 4096 in
  mmu_ok h cr3 tabs l -> 0 <= virt < 2 ^ 48 -> (missing tabs v <= length l)%nat ->
  exists m' f t,
    pte_loop 3 h cr3 4 virt 0 = Ok (set_free (set_mem h m') f, t) /\
    mmu_ok (set_free (set_mem h m') f) cr3 (grow_path tabs l v).1 (grow_path tabs l v).2 /\
    (grow_path tabs l v).1 !! (1, v / 512) = Some t /\
    (forall u, leaf m' (grow_path tabs l v).1 u = leaf (hmem h) tabs u) /\
    same_dom (hmem h) m' /\ only_tables (hmem h) m' (grow_path tabs l v).1.
Proof.
  intros v Hok Hv Hen. destruct (offset_keys virt Hv) as (K3 & K2 & K1 & _). fold v in K3, K2, K1.
  unfold missing, path_keys in Hen. unfold grow_path, path_keys. cbn [foldl].
  assert (Hneq : forall a b c d : Z, a <> b -> (a, c) <> (b, d)) by congruence.
  apply grown_enough in Hen as [Hn3 Hen]; [|do 2 (apply not_elem_of_cons; split; [by apply Hneq|]); apply not_elem_of_nil].
  destruct (pte_step h cr3 tabs l 4 0 cr3 virt 2 (3, v / 2 ^ 27))
    as (m1 & f1 & t1 & -> & Hok1 & Ht1 & Hl1 & Hd1 & Ho1);
    [done|by eapply pt_root, mmu_tree|lia|by rewrite K3|done|].
  destruct (grown tabs l (3, v / 2 ^ 27)) as [tabs1 l1]. cbn [fst snd] in *.
  apply grown_enough in Hen as [Hn2 Hen]; [|apply not_elem_of_cons; split; [by apply Hneq|apply not_elem_of_nil]].
  destruct (pte_step (set_free (set_mem h m1) f1) cr3 tabs1 l1 3 (v / 2 ^ 27) t1 virt 1 (2, v / 2 ^ 18))
    as (m2 & f2 & t2 & H2 & Hok2 & Ht2 & Hl2 & Hd2 & Ho2);
    [done|done|lia|by rewrite K2|done|].
  change (4 - 1) with 3. rewrite H2. clear H2.
  pose proof (grown_subset tabs1 l1 (2, v / 2 ^ 18)) as S2.
  destruct (grown tabs1 l1 (2, v / 2 ^ 18)) as [tabs2 l2]. cbn [fst snd] in *.
  apply grown_enough in Hen as [Hn1 _]; [|apply not_elem_of_nil].
  destruct (pte_step (set_free (set_mem (set_free (set_mem h m1) f1) m2) f2) cr3 tabs2 l2 2
    (v / 2 ^ 18) t2 virt 0 (1, v / 512)) as (m3 & f3 & t3 & H3 & Hok3 & Ht3 & Hl3 & Hd3 & Ho3);
    [done|done|lia|by rewrite K1|done|].
  change (3 - 1) with 2. rewrite H3. clear H3.
  pose proof (grown_subset tabs2 l2 (1, v / 512)) as S3.
  exists m3, f3, t3. split; [done|]. split; [done|]. split; [done|]. split; [|split].
  - intros u. by rewrite Hl3, Hl2, Hl1.
  - by rewrite Hd1, Hd2.
  - eapply only_tables_trans; [eapply only_tables_trans; [exact Ho1|exact Ho2|done]|exact Ho3|done].
Qed.

(** [install_page] on the abstraction: the missing tables are taken from the
    free list and the page's entry is set, no other entry changes. *)
Lemma install_page_ok h cr3 tabs l phys virt :
  let v := virt / 4096 in
  let tabs' := (grow_path tabs l v).1 in
  mmu_ok h cr3 tabs l -> 0 <= virt < 2 ^ 48 -> phys mod 4096 = 0 -> 0 <= phys < 2 ^ 52 ->
  (missing tabs v <= length l)%nat ->
  exists m' f slot,
    install_page h cr3 phys virt = Ok (set_free (set_mem h m') f, slot) /\
    mmu_ok (set_free (set_mem h m') f) cr3 tabs' (grow_path tabs l v).2 /\
    (forall u, leaf m' tabs' u = if u =? v then Ok (phys + 7) else leaf (hmem h) tabs u) /\
    same_dom (hmem h) m' /\ only_tables (hmem h) m' tabs'.
Proof.
  intros v tabs' Hok Hv Hpa Hpr Hen.
  destruct (pte_path h cr3 tabs l virt Hok Hv Hen) as (m1 & f & t & H1 & Hok1 & Ht & Hl1 & Hd1 & Ho1).
  fold v tabs' in Hok1, Ht, Hl1, Ho1.
  assert (Htree : pt_tree m1 cr3 tabs') by apply Hok1.
  assert (Hvm : 0 <= v mod 512 < 512) by (apply Z.mod_pos_bound; lia).
  assert (Hw : mapped m1 (t + 8 * (v mod 512)) 8)
    by (apply table_word; [by eapply pt_pages|done]).
  unfold install_page, install_pte. change (Z.to_nat (PAGE_LEVEL - 1)) with 3%nat.
  change PAGE_LEVEL with 4. rewrite H1. mret. change (Z.min 4 1) with 1. hfields.
  destruct (offset_keys virt Hv) as (_ & _ & _ & ->). fold v.
  rewrite table_entry by done.
  destruct (store64_ok m1 _ (phys + 7) Hw) as (m2 & -> & ->). mret.
  exists (write_bytes m1 (t + 8 * (v mod 512)) (le_bytes 8 (phys + 7))), f, (t + 8 * (v mod 512)).
  split; [done|]. split; [split; hfields|split; [|split]].
  - by eapply pt_tree_leaf.
  - eapply (free_pages_frame m1); [apply Hok1| | |by apply write64_dom|].
    + by destruct (pt_pages _ _ _ Htree _ _ Ht).
    + by eapply mmu_apart.
    + intros x Hx. apply write64_out. lia.
  - apply Hok1.
  - intros u. rewrite (leaf_update m1 cr3) by (done || lia). by rewrite Hl1.
  - rewrite Hd1. by apply write64_dom.
  - intros x Hx. rewrite write64_out; [by apply Ho1|]. specialize (Hx _ _ Ht). lia.
Qed.

(** ** The walk reads the abstraction *)

Lemma walk_step m cr3 tabs lower k t va :
  let L := Z.of_nat lower + 1 in
  let key := (L - 1, 512 * k + (va / 2 ^ (9 * Z.of_nat lower + 12)) mod 512) in
  pt_tree m cr3 tabs -> tabs !! (L, k) = Some t -> (1 <= lower)%nat ->
  walk (S lower) m t va =
  match tabs !! key with Some t' => walk lower m t' va | None => Ok None end.
Proof.
  intros L key Ht Hk Hl.
  destruct (pt_entries _ _ _ Ht L k t ((va / 2 ^ (9 * Z.of_nat lower + 12)) mod 512)) as (e & He & Hent);
    [done|lia|apply Z.mod_pos_bound; lia|].
  unfold walk at 1. fold walk. rewrite He. mret. fold key in Hent.
  destruct (present e); cbn [negb].
  - destruct Hent as [-> ->]. destruct lower; [lia|]. done.
  - by rewrite Hent.
Qed.

(** What an entry maps an address to. *)
Definition entry_target (e va : Z) : option Z :=
  if present e then Some (frame_of e + va mod 4096) else None.

Lemma translate_leaf m cr3 tabs va :
  pt_tree m cr3 tabs -> 0 <= va < 2 ^ 48 ->
  translate m cr3 va = (e ← leaf m tabs (va / 4096); Ok (entry_target e va)).
Proof.
  intros Ht Hva. destruct (offset_keys va Hva) as (K3 & K2 & K1 & K0).
  rewrite !pgdir_offset in K3, K2, K1, K0 by lia. set (v := va / 4096) in *.
  assert (Hup : forall L k, 1 <= L < 4 -> tabs !! (L + 1, k / 512) = None -> tabs !! (L, k) = None).
  { intros L k HL Hn. destruct (tabs !! (L, k)) eqn:E; [|done].
    apply (pt_up _ _ _ Ht) in E; [|lia]. rewrite Hn in E. by destruct E. }
  assert (D2 : v / 2 ^ 18 / 512 = v / 2 ^ 27) by (rewrite Z.div_div by lia; done).
  assert (D1 : v / 512 / 512 = v / 2 ^ 18) by (rewrite Z.div_div by lia; done).
  unfold translate, leaf.
  rewrite (walk_step m cr3 tabs 3 0 cr3) by (done || lia || apply Ht).
  change (Z.of_nat 3 + 1 - 1) with 3. change (9 * Z.of_nat 3) with (9 * (4 - 1)). rewrite K3.
  destruct (tabs !! (3, v / 2 ^ 27)) as [t3|] eqn:E3.
  2: { rewrite (Hup 1 (v / 512)); [done|lia|]. rewrite D1. apply (Hup 2); [lia|]. by rewrite D2. }
  rewrite (walk_step m cr3 tabs 2 _ t3 va Ht E3) by lia.
  change (Z.of_nat 2 + 1 - 1) with 2. change (9 * Z.of_nat 2) with (9 * (3 - 1)). rewrite K2.
  destruct (tabs !! (2, v / 2 ^ 18)) as [t2|] eqn:E2.
  2: { rewrite (Hup 1 (v / 512)); [done|lia|]. by rewrite D1. }
  rewrite (walk_step m cr3 tabs 1 _ t2 va Ht E2) by lia.
  change (Z.of_nat 1 + 1 - 1) with 1. change (9 * Z.of_nat 1) with (9 * (2 - 1)). rewrite K1.
  destruct (tabs !! (1, v / 512)) as [t1|] eqn:E1; [|done].
  unfold walk. change (9 * Z.of_nat 0) with (9 * (1 - 1)). rewrite K0.
  destruct (load64 m _) as [e|]; mret; [|done]. unfold entry_target. by destruct (present e).
Qed.

(** Tables come from the free list: what holds of all free pages and tables
    still does. *)
Definition within (P : Z -> Prop) (tabs : tables) (l : list Z) : Prop :=
  (forall key t, tabs !! key = Some t -> P t) /\ Forall P l.

Lemma grown_within P tabs l key :
  within P tabs l -> within P (grown tabs l key).1 (grown tabs l key).2.
Proof.
  intros [Ht Hl]. unfold grown. destruct (tabs !! key); [done|]. destruct l as [|p l]; [done|].
  apply Forall_cons in Hl as [Hp Hl]. split; [|done]. cbn [fst]. intros k t.
  rewrite lookup_insert_Some. intros [[_ <-]|[_ Hk]]; [done|by eapply Ht].
Qed.

Lemma grow_path_within P tabs l v :
  within P tabs l -> within P (grow_path tabs l v).1 (grow_path tabs l v).2.
Proof.
  unfold grow_path. generalize (path_keys v). intros keys. revert tabs l.
  induction keys as [|key keys IH]; intros tabs l Hw; [done|]. cbn [foldl].
  pose proof (grown_within P tabs l key Hw) as Hg.
  destruct (grown tabs l key) as [tabs1 l1]. by apply IH.
Qed.

(** ** The identity mapping *)

Lemma grown_lookup tabs l key k' :
  (tabs !! key = None -> l <> []) ->
  is_Some ((grown tabs l key).1 !! k') <-> is_Some (tabs !! k') \/ k' = key.
Proof.
  intros Hl. unfold grown. destruct (tabs !! key) eqn:E.
  - split; [by left|]. intros [? | ->]; [done|by eexists].
  - destruct l as [|p l]; [by destruct (Hl eq_refl)|]. cbn [fst].
    rewrite lookup_insert_is_Some'. split; [intros [<-|?]|intros [? | ->]]; auto.
Qed.

Lemma grown_length tabs l key keys :
  key ∉ keys -> (missing_keys tabs (key :: keys) <= length l)%nat ->
  (length (grown tabs l key).2 + missing_keys tabs (key :: keys) =
   length l + missing_keys (grown tabs l key).1 keys)%nat.
Proof.
  intros Hn Hm. rewrite (missing_keys_same tabs _ keys) by (intros k Hk; apply grown_other; by intros ->).
  unfold missing_keys in *. rewrite filter_cons in *. unfold grown.
  destruct (decide (tabs !! key = None)) as [E|E].
  - rewrite E. destruct l as [|p l]; simpl in *; lia.
  - destruct (tabs !! key); [simpl; lia|]. by destruct E.
Qed.

Lemma grow_keys keys : forall tabs l,
  NoDup keys -> (missing_keys tabs keys <= length l)%nat ->
  let r := foldl (fun '(tabs, l) key => grown tabs l key) (tabs, l) keys in
  (forall k, is_Some (r.1 !! k) <-> is_Some (tabs !! k) \/ k ∈ keys) /\
  (length r.2 + missing_keys tabs keys = length l)%nat.
Proof.
  induction keys as [|key keys IH]; intros tabs l Hnd Hm r.
  - split; [|unfold missing_keys; simpl; lia]. intros k. unfold r. cbn [foldl fst]. rewrite elem_of_nil. tauto.
  - apply NoDup_cons in Hnd as [Hn Hnd]. unfold r. cbn [foldl].
    destruct (grown_enough _ _ _ _ Hn Hm) as [He Hm'].
    pose proof (grown_length _ _ _ _ Hn Hm) as Hlen.
    pose proof (fun k => grown_lookup tabs l key k He) as Hlk.
    destruct (grown tabs l key) as [tabs1 l1]. cbn [fst snd] in *.
    destruct (IH tabs1 l1 Hnd Hm') as [H1 H2]. split; [|lia].
    intros k. rewrite H1, Hlk, elem_of_cons. tauto.
Qed.

(** How many tables the first [i] virtual pages need below the root. *)
Definition tables_for (i : Z) : Z :=
  (i + 511) / 512 + (i + (2 ^ 18 - 1)) / 2 ^ 18 + (i + (2 ^ 27 - 1)) / 2 ^ 27.

(** The tree holds the root and the tables of the first [i] virtual pages. *)
Definition covers (tabs : tables) (i : Z) : Prop :=
  forall L k, is_Some (tabs !! (L, k)) <->
    (L = 4 /\ k = 0) \/ (1 <= L <= 3 /\ 0 <= k /\ k * 512 ^ L < i).

Lemma NoDup_path v : NoDup (path_keys v).
Proof.
  unfold path_keys. repeat (apply NoDup_cons; split); [..|apply NoDup_nil_2];
    rewrite ?not_elem_of_cons; repeat split; try apply not_elem_of_nil; congruence.
Qed.

Lemma ceil_step i d : 0 <= i -> 0 < d ->
  (i + 1 + (d - 1)) / d - (i + (d - 1)) / d = if i mod d =? 0 then 1 else 0.
Proof.
  intros Hi Hd. pose proof (Z.div_mod i d ltac:(lia)) as Hdm.
  pose proof (Z.mod_pos_bound i d Hd) as Hr. set (q := i / d) in *. set (r := i mod d) in *.
  clearbody q r. subst i. destruct (Z.eqb_spec r 0) as [->|E].
  - replace (d * q + 0 + 1 + (d - 1)) with (0 + (q + 1) * d) by lia.
    replace (d * q + 0 + (d - 1)) with (d - 1 + q * d) by lia.
    rewrite !Z.div_add, Z.div_0_l, (Z.div_small (d - 1)) by lia. lia.
  - replace (d * q + r + 1 + (d - 1)) with (r + (q + 1) * d) by lia.
    replace (d * q + r + (d - 1)) with (r - 1 + (q + 1) * d) by lia.
    rewrite !Z.div_add, !Z.div_small by lia. lia.
Qed.

Lemma covers_path tabs i L :
  covers tabs i -> 0 <= i -> 1 <= L <= 3 ->
  tabs !! (L, i / 512 ^ L) = None <-> i mod 512 ^ L = 0.
Proof.
  intros Hc Hi HL. rewrite eq_None_not_Some, (Hc L).
  pose proof (Z.div_mod i (512 ^ L) ltac:(apply Z.pow_nonzero; lia)).
  pose proof (Z.mod_pos_bound i (512 ^ L) ltac:(apply Z.pow_pos_nonneg; lia)).
  pose proof (Z.div_pos i (512 ^ L) Hi ltac:(apply Z.pow_pos_nonneg; lia)).
  rewrite (Z.mul_comm (i / _)). lia.
Qed.

Lemma missing_next tabs i :
  covers tabs i -> 0 <= i -> Z.of_nat (missing tabs i) = tables_for (i + 1) - tables_for i.
Proof.
  intros Hc Hi.
  pose proof (covers_path tabs i 1 Hc Hi ltac:(lia)) as H1.
  pose proof (covers_path tabs i 2 Hc Hi ltac:(lia)) as H2.
  pose proof (covers_path tabs i 3 Hc Hi ltac:(lia)) as H3.
  change (512 ^ 1) with 512 in H1. change (512 ^ 2) with (2 ^ 18) in H2.
  change (512 ^ 3) with (2 ^ 27) in H3.
  pose proof (ceil_step i 512 Hi ltac:(lia)) as C1.
  pose proof (ceil_step i (2 ^ 18) Hi ltac:(lia)) as C2.
  pose proof (ceil_step i (2 ^ 27) Hi ltac:(lia)) as C3.
  unfold tables_for. change (512 - 1) with 511 in C1.
  unfold missing, missing_keys, path_keys. rewrite !filter_cons, filter_nil.
  destruct (Z.eqb_spec (i mod 512) 0), (Z.eqb_spec (i mod 2 ^ 18) 0), (Z.eqb_spec (i mod 2 ^ 27) 0);
    repeat case_decide; try tauto; cbn [length]; lia.
Qed.

Lemma covers_next tabs l i :
  covers tabs i -> 0 <= i -> (missing tabs i <= length l)%nat ->
  covers (grow_path tabs l i).1 (i + 1) /\
  (length (grow_path tabs l i).2 + missing tabs i = length l)%nat.
Proof.
  intros Hc Hi Hm. destruct (grow_keys (path_keys i) tabs l (NoDup_path i) Hm) as [H1 H2].
  split; [|exact H2]. intros L k. unfold grow_path. rewrite H1, (Hc L k). unfold path_keys.
  rewrite !elem_of_cons, elem_of_nil.
  assert (Hdiv : forall k d, 0 < d -> 0 <= k ->
    k * d < i + 1 <-> k * d < i \/ k = i / d).
  { intros k' d Hd Hk. pose proof (Z.div_mod i d ltac:(lia)). pose proof (Z.mod_pos_bound i d Hd).
    split; [|intros [?| ->]; lia]. intros Hlt.
    destruct (decide (k' * d < i)); [by left|right]. assert (k' * d = i) as <- by lia.
    by rewrite Z.div_mul by lia. }
  split.
  - intros [[?|(HL & Hk & Hlt)]|[[= -> ->]|[[= -> ->]|[[= -> ->]|[]]]]].
    + by left.
    + right. split; [done|]. split; [done|lia].
    + right. split; [lia|]. split; [by apply Z.div_pos|]. change (512 ^ 3) with (2 ^ 27).
      apply Hdiv; [lia|by apply Z.div_pos|by right].
    + right. split; [lia|]. split; [by apply Z.div_pos|]. change (512 ^ 2) with (2 ^ 18).
      apply Hdiv; [lia|by apply Z.div_pos|by right].
    + right. split; [lia|]. split; [by apply Z.div_pos|]. change (512 ^ 1) with 512.
      apply Hdiv; [lia|by apply Z.div_pos|by right].
  - intros [?|(HL & Hk & Hlt)]; [by left; left|].
    apply Hdiv in Hlt as [Hlt| ->]; [by left; right| |apply Z.pow_pos_nonneg; lia|done].
    right. assert (L = 1 \/ L = 2 \/ L = 3) as [-> |[-> | ->]] by lia; auto.
Qed.

(** The mapping after [i] pages: each maps to itself, the others to nothing. *)
Definition identity_upto (m : mem) (tabs : tables) (i : Z) : Prop :=
  forall u, 0 <= u < 2 ^ 36 -> leaf m tabs u = if u <? i then Ok (4096 * u + 7) else Ok 0.

Lemma install_loop_identity r : forall fuel h cr3 tabs l i last,
  (r < fuel)%nat -> mmu_ok h cr3 tabs l -> covers tabs i -> identity_upto (hmem h) tabs i ->
  0 <= i -> i + Z.of_nat r = last / 4096 -> 0 <= last <= 2 ^ 48 ->
  tables_for (last / 4096) - tables_for i <= Z.of_nat (length l) ->
  exists m' f tabs' l',
    install_loop fuel h cr3 (4096 * i) last (4096 * i) = Ok (set_free (set_mem h m') f) /\
    mmu_ok (set_free (set_mem h m') f) cr3 tabs' l' /\
    identity_upto m' tabs' (last / 4096) /\ only_tables (hmem h) m' tabs' /\ tabs ⊆ tabs' /\
    Z.of_nat (length l) = Z.of_nat (length l') + (tables_for (last / 4096) - tables_for i) /\
    same_dom (hmem h) m' /\ forall P, within P tabs l -> within P tabs' l'.
Proof.
  induction r as [|r IH]; intros [|fuel] h cr3 tabs l i last Hf Hok Hcov Hid Hi Hr Hlast Hlen;
    try lia; cbn [install_loop]; unfold PAGE_SIZE;
    rewrite (u64_small (4096 * i + 4096)) by (Z.to_euclidean_division_equations; lia).
  - rewrite (proj2 (Z.leb_gt _ _)) by (Z.to_euclidean_division_equations; lia).
    exists (hmem h), (freelist h), tabs, l. replace (set_free _ _) with h by (by destruct h).
    rewrite <- Hr, Z.add_0_r. split; [done|]. split; [done|]. split; [done|].
    split; [by intros x Hx|]. split; [done|]. split; [lia|done].
  - rewrite (proj2 (Z.leb_le _ _)) by (Z.to_euclidean_division_equations; lia).
    assert (Hi36 : i < 2 ^ 36) by (Z.to_euclidean_division_equations; lia).
    assert (Hv : 4096 * i / 4096 = i) by (rewrite Z.mul_comm; by apply Z.div_mul).
    assert (Hmono : tables_for (i + 1) <= tables_for (last / 4096)).
    { unfold tables_for. repeat apply Z.add_le_mono; apply Z.div_le_mono; lia. }
    pose proof (missing_next tabs i Hcov Hi) as Hmiss.
    destruct (install_page_ok h cr3 tabs l (4096 * i) (4096 * i))
      as (m1 & f1 & slot & H1 & Hok1 & Hl1 & Hd1 & Ho1);
      rewrite ?Hv in *; try done; try lia; [by rewrite Z.mul_comm, Z.mod_mul|].
    destruct (covers_next tabs l i Hcov Hi ltac:(lia)) as [Hcov1 Hlen1].
    rewrite H1. mret. replace (4096 * i + 4096) with (4096 * (i + 1)) by lia.
    destruct (IH fuel (set_free (set_mem h m1) f1) cr3 _ _ (i + 1) last ltac:(lia) Hok1 Hcov1)
      as (m2 & f2 & tabs2 & l2 & H2 & Hok2 & Hid2 & Ho2 & Hs2 & Hlen2 & Hd2 & HP); try lia.
    + intros u Hu. hfields. rewrite Hl1, Hid by done.
      destruct (Z.eqb_spec u i) as [->|]; repeat btest; try lia; done.
    + exists m2, f2, tabs2, l2. split; [exact H2|]. split; [exact Hok2|]. split; [done|].
      split; [by eapply only_tables_trans|]. split; [etransitivity; [apply grow_path_subset|exact Hs2]|].
      split; [lia|]. split; [by rewrite Hd1|]. intros P HPl. by apply HP, grow_path_within.
Qed.

(** A zeroed page is the root of an empty tree. *)
Lemma root_tree m p :
  page_ok m p -> zero_page m p ->
  pt_tree m p {[ (4, 0) := p ]} /\ covers {[ (4, 0) := p ]} 0 /\ identity_upto m {[ (4, 0) := p ]} 0.
Proof.
  intros Hp Hz.
  assert (Hlk : forall L k t, ({[ (4, 0) := p ]} : tables) !! (L, k) = Some t -> L = 4 /\ k = 0 /\ t = p).
  { intros L k t H. apply lookup_singleton_Some in H as [[= <- <-] <-]. done. }
  assert (Hno : forall L k, L <> 4 -> ({[ (4, 0) := p ]} : tables) !! (L, k) = None).
  { intros L k HL. apply lookup_singleton_None. congruence. }
  split; [split|split].
  - apply lookup_singleton_eq.
  - intros L k t (-> & -> & _)%Hlk. lia.
  - intros [L k] t (_ & _ & ->)%Hlk. done.
  - intros [L1 k1] [L2 k2] t (-> & -> & _)%Hlk (-> & -> & _)%Hlk. done.
  - intros L k t (-> & _)%Hlk. lia.
  - intros L k t o (-> & -> & ->)%Hlk _ Ho. exists 0. split; [by apply zero_page_load|].
    cbn. apply Hno. lia.
  - intros L k. split.
    + intros [t (-> & -> & _)%Hlk]. by left.
    + intros [[-> ->]|(_ & Hk & Hlt)]; [rewrite lookup_singleton_eq; by eexists|].
      pose proof (Z.mul_nonneg_nonneg k (512 ^ L) Hk ltac:(apply Z.pow_nonneg; lia)). lia.
  - intros u Hu. unfold leaf. rewrite Hno by lia. btest; [lia|done].
Qed.

Lemma entry_identity va :
  0 <= va < 2 ^ 48 -> entry_target (4096 * (va / 4096) + 7) va = Some va.
Proof.
  intros Hva. unfold entry_target.
  destruct (entry_bits (4096 * (va / 4096))) as (-> & _ & ->).
  - by rewrite Z.mul_comm, Z.mod_mul.
  - Z.to_euclidean_division_equations. lia.
  - f_equal. pose proof (Z.div_mod va 4096). lia.
Qed.

(** ** Out of pages *)

(** Page 0 used as a table: every entry is absent or points to page 0. *)
Definition self_table (m : mem) : Prop :=
  mapped m 0 4096 /\
  forall o, 0 <= o < 512 -> load64 m (0 + 8 * o) = Ok 0 \/ load64 m (0 + 8 * o) = Ok 7.

(** With no free page the new table is the null pointer. *)
Lemma null_step h pt L virt n :
  let slot := pt + 8 * PGDIR_OFFSET virt L in
  freelist h = 0 -> mapped (hmem h) 0 4096 -> mapped (hmem h) slot 8 ->
  load64 (hmem h) slot = Ok 0 ->
  exists h', pte_loop (S n) h pt L virt 0 = pte_loop n h' 0 (L - 1) virt 0 /\
    freelist h' = 0 /\ same_dom (hmem h) (hmem h') /\ load64 (hmem h') slot = Ok 7 /\
    (forall a, 4096 <= a -> a + 8 <= slot \/ slot + 8 <= a -> load64 (hmem h') a = load64 (hmem h) a) /\
    (4096 <= slot -> zero_page (hmem h') 0) /\
    (pt = 0 -> 1 <= L -> self_table (hmem h')).
Proof.
  intros slot Hf H0 Hs Hload. cbn [pte_loop]. fold slot. rewrite Hload. mret.
  change (Z.land 0 PT_PRESENT_MASK =? 0) with true. change (0 =? 0) with true. cbn iota.
  unfold heap_alloc_page. rewrite Hf. change (0 =? 0) with true. cbn iota.
  rewrite say_plain by (vm_compute; (reflexivity || lia)). mret. hfields.
  destruct (memset_page (hmem h) 0 H0) as (m1 & -> & Hz & Hd & Ha). mret.
  rewrite (table_entry 0 eq_refl). change (0 + 7) with 7.
  destruct (store64_ok m1 slot 7) as (m2 & -> & Hm2); [by rewrite <- Hd|]. mret. hfields.
  assert (Hd2 : same_dom m1 m2) by (subst m2; apply write64_dom; by rewrite <- Hd).
  assert (H7 : load64 m2 slot = Ok 7) by (subst m2; apply load64_same; lia).
  rewrite H7. mret. change (Z.land 7 PT_ADDR_MASK) with 0.
  eexists. split; [done|]. hfields. split; [done|]. split; [by rewrite Hd|]. split; [done|].
  split; [|split].
  - intros a Ha0 Hap. rewrite (load64_frame m1) by (intros x Hx; subst m2; apply write64_out; lia).
    apply load64_frame. intros x Hx. apply Ha. lia.
  - intros Hsl x Hx. subst m2. rewrite write64_out by lia. by apply Hz.
  - intros -> HL. split; [by rewrite <- Hd2, <- Hd|]. intros o Ho.
    destruct (decide (o = PGDIR_OFFSET virt L)) as [->|Hne]; [by right|left].
    rewrite <- (zero_page_load m1 0 o Hz Ho). apply load64_frame. intros x Hx. subst m2.
    apply write64_out. unfold slot. lia.
Qed.

(** On page 0 the loop goes round in it. *)
Lemma self_step h L virt n :
  self_table (hmem h) -> freelist h = 0 -> 1 <= L ->
  exists h', pte_loop (S n) h 0 L virt 0 = pte_loop n h' 0 (L - 1) virt 0 /\
    self_table (hmem h') /\ freelist h' = 0 /\
    (forall a, 4096 <= a -> load64 (hmem h') a = load64 (hmem h) a).
Proof.
  intros [Hm Ht] Hf HL. set (o := PGDIR_OFFSET virt L).
  assert (Ho : 0 <= o < 512)
    by (unfold o; rewrite pgdir_offset by lia; apply Z.mod_pos_bound; lia).
  destruct (Ht o Ho) as [H|H].
  - destruct (null_step h 0 L virt n) as (h' & E & Hf' & _ & _ & Hfr & _ & Hself); try done.
    { eapply mapped_sub; [exact Hm| |]; fold o; lia. }
    exists h'. split; [exact E|]. split; [by apply Hself|]. split; [done|].
    intros a Ha. apply Hfr; [done|]. fold o. lia.
  - exists h. cbn [pte_loop]. fold o. rewrite H. mret.
    change (Z.land 7 PT_PRESENT_MASK =? 0) with false. cbn iota. mret. rewrite H. mret. done.
Qed.

(** ** Frames, and addresses above the lower half *)

(** A change outside the tables and the free pages. *)
Lemma mmu_ok_frame h m' cr3 tabs l P :
  mmu_ok h cr3 tabs l -> within P tabs l -> same_dom (hmem h) m' ->
  (forall p x, P p -> p <= x < p + 4096 -> m' !! x = hmem h !! x) ->
  mmu_ok (set_mem h m') cr3 tabs l /\
  forall va, 0 <= va < 2 ^ 48 -> translate m' cr3 va = translate (hmem h) cr3 va.
Proof.
  intros [Ht (Hl & Hnd & Hok) Ha] [HPt HPl] Hd Hag. rewrite Forall_forall in HPl.
  destruct (pt_tree_same (hmem h) m' cr3 tabs Ht Hd) as [Ht' Hleaf].
  { intros key t o Hk Ho. apply load64_frame. intros x Hx. eapply Hag; [by eapply HPt|lia]. }
  split.
  - split; hfields; [done| |done]. split; [|split; [done|]].
    + eapply linked_frame; [|exact Hl]. intros q Hq. apply load64_frame. intros x Hx.
      eapply Hag; [by apply HPl|lia].
    + eapply Forall_impl; [exact Hok|]. intros q. by apply page_ok_dom.
  - intros va Hva. by rewrite !(translate_leaf _ cr3 tabs) by done; rewrite Hleaf.
Qed.

(** The tables do not see the bits above the 48th. *)
Lemma offset_wraps va L : 1 <= L <= 4 -> PGDIR_OFFSET (va mod 2 ^ 48) L = PGDIR_OFFSET va L.
Proof.
  intros HL. rewrite !pgdir_offset by lia. set (k := 9 * (L - 1) + 12).
  pose proof (Z.div_mod va (2 ^ 48) ltac:(lia)) as Hva. rewrite Hva at 2.
  set (q := va / 2 ^ 48). set (r := va mod 2 ^ 48).
  replace (2 ^ 48 * q + r) with (r + (2 ^ (39 - k) * q * 512) * 2 ^ k).
  - rewrite Z.div_add by (apply Z.pow_nonzero; lia). by rewrite Z.mod_add by lia.
  - replace (2 ^ 48) with (2 ^ (39 - k) * 512 * 2 ^ k); [lia|].
    change 512 with (2 ^ 9). rewrite <- !Z.pow_add_r by lia. f_equal. lia.
Qed.

Lemma pte_loop_wraps n : forall h pt level virt p,
  level <= 4 -> Z.of_nat n <= level ->
  pte_loop n h pt level (virt mod 2 ^ 48) p = pte_loop n h pt level virt p.
Proof.
  induction n as [|n IH]; intros h pt level virt p H4 Hn; [done|]. cbn [pte_loop].
  rewrite offset_wraps by lia. destruct (load64 (hmem h) _) as [e|]; [|done]. mret.
  destruct (if Z.land e PT_PRESENT_MASK =? 0 then _ else _) as [[h1 p1]|]; [|done]. mret.
  destruct (load64 (hmem h1) _) as [e1|]; [|done]. mret. apply IH; lia.
Qed.

Lemma install_page_wraps h cr3 phys virt :
  install_page h cr3 phys (virt mod 2 ^ 48) = install_page h cr3 phys virt.
Proof.
  unfold install_page, install_pte. change (Z.to_nat (PAGE_LEVEL - 1)) with 3%nat. change PAGE_LEVEL with 4.
  rewrite pte_loop_wraps by lia. change (Z.min 4 1) with 1. by rewrite offset_wraps by lia.
Qed.

Lemma walk_wraps n : forall m pt va, (n <= 4)%nat -> walk n m pt (va mod 2 ^ 48) = walk n m pt va.
Proof.
  induction n as [|n IH]; intros m pt va Hn; [done|]. cbn [walk].
  assert (Hi : (va mod 2 ^ 48 / 2 ^ (9 * Z.of_nat n + 12)) mod 512 = (va / 2 ^ (9 * Z.of_nat n + 12)) mod 512).
  { pose proof (offset_wraps va (Z.of_nat n + 1) ltac:(lia)) as H. rewrite !pgdir_offset in H by lia.
    by replace (9 * (Z.of_nat n + 1 - 1) + 12) with (9 * Z.of_nat n + 12) in H by lia. }
  assert (Hm : forall w, 0 <= w <= 48 -> va mod 2 ^ 48 mod 2 ^ w = va mod 2 ^ w).
  { intros w Hw. apply Z.mod_mod_divide. exists (2 ^ (48 - w)). rewrite <- Z.pow_add_r by lia. f_equal. lia. }
  rewrite Hi. destruct (load64 m _) as [e|]; [|done]. mret. rewrite !Hm by lia.
  destruct (negb (present e)); [done|]. destruct (Nat.eqb n 0); [done|]. destruct (page_size_bit e && _); [done|]. apply IH. lia.
Qed.

Lemma translate_wraps m cr3 va : translate m cr3 (va mod 2 ^ 48) = translate m cr3 va.
Proof. by apply walk_wraps. Qed.

(** A change outside the tables. *)
Lemma translate_frame m m' cr3 tabs :
  pt_tree m cr3 tabs -> same_dom m m' ->
  (forall key t x, tabs !! key = Some t -> t <= x < t + 4096 -> m' !! x = m !! x) ->
  pt_tree m' cr3 tabs /\ forall va, translate m' cr3 va = translate m cr3 va.
Proof.
  intros Ht Hd Ha. destruct (pt_tree_same m m' cr3 tabs Ht Hd) as [Ht' Hleaf].
  { intros key t o Hk Ho. apply load64_frame. intros x Hx. eapply Ha; [exact Hk|lia]. }
  split; [done|]. intros va. rewrite <- (translate_wraps m'), <- (translate_wraps m).
  pose proof (Z.mod_pos_bound va (2 ^ 48) ltac:(lia)). by rewrite !(translate_leaf _ cr3 tabs), Hleaf by done.
Qed.

(** What [setup_mmu] does; its tables come from the free list. *)
Lemma setup_mmu_run h l end_of_memory :
  let last := if end_of_memory =? 0 then 2 ^ 32 else end_of_memory in
  free_pages (hmem h) (freelist h) l -> 0 <= end_of_memory <= 2 ^ 48 ->
  1 + tables_for (last / 4096) <= Z.of_nat (length l) ->
  exists m' f cr3 tabs l', setup_mmu h end_of_memory =
      Ok (set_cr3s (set_free (set_mem h m') f) (cr3_reg h) cr3, cr3) /\
    mmu_ok (set_cr3s (set_free (set_mem h m') f) (cr3_reg h) cr3) cr3 tabs l' /\
    Z.of_nat (length l) = Z.of_nat (length l') + 1 + tables_for (last / 4096) /\
    only_tables (hmem h) m' tabs /\ same_dom (hmem h) m' /\
    (forall P, Forall P l -> within P tabs l') /\
    forall va, 0 <= va < 2 ^ 48 -> translate m' cr3 va =
      Ok (if va / 4096 <? last / 4096 then Some va else None).
Proof.
  intros last Hf He Hlen. destruct l as [|p l].
  { assert (0 <= tables_for (last / 4096)); [|simpl in Hlen; lia].
    unfold tables_for, last. repeat apply Z.add_nonneg_nonneg; apply Z.div_pos; try lia.
    all: apply Z.add_nonneg_nonneg; [|lia]; apply Z.div_pos; destruct (_ =? 0); lia. }
  destruct (heap_alloc_head h p l Hf) as (m1 & next & H1 & Hf1 & Hz1 & Hd1 & Ha1).
  destruct Hf as (_ & [Hpl _]%NoDup_cons & [Hp _]%Forall_cons).
  destruct (root_tree m1 p) as (Ht & Hcov & Hid); [by eapply page_ok_dom|done|].
  assert (Hlast : 0 <= last <= 2 ^ 48) by (unfold last; destruct (_ =? 0); lia).
  set (h1 := set_free (set_mem h m1) next) in *.
  assert (Hok1 : mmu_ok h1 p {[ (4, 0) := p ]} l).
  { split; hfields; [done|done|]. intros key t [_ <-]%lookup_singleton_Some. done. }
  pose proof (Z.div_pos last 4096 ltac:(lia) ltac:(lia)) as Hn.
  destruct (install_loop_identity (Z.to_nat (last / 4096)) (S (Z.to_nat (last / 4096)))
    h1 p _ l 0 last ltac:(lia) Hok1 Hcov Hid)
    as (m2 & f2 & tabs & l2 & H2 & Hok2 & Hid2 & Ho2 & Hs2 & Hlen2 & Hd2 & HP); try lia.
  { change (tables_for 0) with 0. cbn [length] in Hlen. lia. }
  change (tables_for 0) with 0 in Hlen2. change (4096 * 0) with 0 in H2.
  exists m2, f2, p, tabs, l2.
  unfold setup_mmu. rewrite H1. mret. change (Z.shiftl 1 32) with (2 ^ 32). fold last.
  unfold install_pages. change PAGE_SIZE with 4096. rewrite Z.add_0_r, (u64_small last) by lia.
  fold h1. rewrite H2. mret. split; [done|].
  split; [split; apply Hok2|]. split; [cbn [length]; lia|]. split; [|split; [by rewrite Hd1|split]].
  - eapply (only_tables_trans _ m1 _ {[ (4, 0) := p ]}); [|exact Ho2|exact Hs2].
    intros x Hx. apply Ha1. apply (Hx (4, 0)). apply lookup_singleton_eq.
  - intros P HPl. apply Forall_cons in HPl as [HPp HPl]. apply HP. split; [|done].
    by intros key t [_ <-]%lookup_singleton_Some.
  - intros va Hva. rewrite (translate_leaf m2 p tabs) by (done || apply Hok2).
    rewrite Hid2 by (Z.to_euclidean_division_equations; lia).
    destruct (_ <? _); mret; [by rewrite entry_identity|done].
Qed.

(** ** The properties *)

(** C3: [install_page] maps one page and keeps every other one: afterwards
    the processor translates the addresses of the virtual page to those of the
    physical page and all other addresses as before. It takes the missing
    tables from the free list, keeps the page tables a tree apart from the
    free pages, and writes only inside tables. *)
Theorem install_page_maps h cr3 tabs l phys virt :
  mmu_ok h cr3 tabs l -> 0 <= virt < 2 ^ 48 -> phys mod 4096 = 0 -> 0 <= phys < 2 ^ 52 ->
  (missing tabs (virt / 4096) <= length l)%nat ->
  exists h' slot tabs' l', install_page h cr3 phys virt = Ok (h', slot) /\
    mmu_ok h' cr3 tabs' l' /\
    (length l' + missing tabs (virt / 4096) = length l)%nat /\
    only_tables (hmem h) (hmem h') tabs' /\
    forall va, 0 <= va < 2 ^ 48 -> translate (hmem h') cr3 va =
      if va / 4096 =? virt / 4096 then Ok (Some (phys + va mod 4096))
      else translate (hmem h) cr3 va.
Proof.
  intros Hok Hv Hpa Hpr Hen.
  destruct (install_page_ok h cr3 tabs l phys virt) as (m' & f & slot & H & Hok' & Hl & Hd & Ho);
    try done.
  eexists _, slot, _, _. split; [exact H|]. split; [exact Hok'|].
  split; [apply grow_keys; [apply NoDup_path|exact Hen]|]. split; [exact Ho|].
  intros va Hva. hfields. erewrite !translate_leaf; [|apply Hok|done|apply Hok'|done].
  rewrite Hl. destruct (_ =? _); [|done]. mret. unfold entry_target.
  by destruct (entry_bits phys Hpa Hpr) as (-> & _ & ->).
Qed.

(** C2: [setup_mmu] builds the identity mapping of the memory below its
    argument (4 GiB when it is zero) from exactly one root and the tables the
    range needs, loads it and keeps the previous root in [start_cr3]: every
    address of a whole page below the end translates to itself, every other
    one to nothing. *)
Theorem setup_mmu_identity h l end_of_memory :
  let last := if end_of_memory =? 0 then 2 ^ 32 else end_of_memory in
  free_pages (hmem h) (freelist h) l -> 0 <= end_of_memory <= 2 ^ 48 ->
  1 + tables_for (last / 4096) <= Z.of_nat (length l) ->
  exists h' cr3 tabs l', setup_mmu h end_of_memory = Ok (h', cr3) /\
    cr3_reg h' = cr3 /\ start_cr3 h' = cr3_reg h /\ mmu_ok h' cr3 tabs l' /\
    Z.of_nat (length l) = Z.of_nat (length l') + 1 + tables_for (last / 4096) /\
    only_tables (hmem h) (hmem h') tabs /\
    forall va, 0 <= va < 2 ^ 48 -> translate (hmem h') cr3 va =
      Ok (if va / 4096 <? last / 4096 then Some va else None).
Proof.
  intros last Hf He Hlen.
  destruct (setup_mmu_run h l end_of_memory Hf He Hlen) as (m' & f & cr3 & tabs & l' & H & Hok & Hl & Ho & _ & _ & Ht).
  by eexists _, cr3, tabs, l'.
Qed.

(** C40: when the free list is empty and the root has no entry for the
    address, [install_page] does not fail: it takes the null pointer for the
    new table, so page 0 is wiped and becomes the table of every level, and
    the page's entry is written into page 0. *)
Theorem install_page_no_memory h cr3 phys virt :
  freelist h = 0 -> mapped (hmem h) 0 4096 -> page_ok (hmem h) cr3 ->
  load64 (hmem h) (cr3 + 8 * PGDIR_OFFSET virt 4) = Ok 0 ->
  exists h' slot, install_page h cr3 phys virt = Ok (h', slot) /\ 0 <= slot < 4096 /\
    load64 (hmem h') (cr3 + 8 * PGDIR_OFFSET virt 4) = Ok 7.
Proof.
  intros Hf H0 Hp Hload. pose proof Hp as (Hpa & Hpr & Hpm).
  assert (Hoff : forall L, 1 <= L -> 0 <= PGDIR_OFFSET virt L < 512)
    by (intros L HL; rewrite pgdir_offset by lia; apply Z.mod_pos_bound; lia).
  assert (Hc : 4096 <= cr3) by (Z.to_euclidean_division_equations; lia).
  pose proof (Hoff 4 ltac:(lia)) as Ho4. set (slot := cr3 + 8 * PGDIR_OFFSET virt 4) in *.
  destruct (null_step h cr3 4 virt 2 Hf H0 (table_word _ _ _ Hp Ho4) Hload)
    as (h1 & E1 & Hf1 & Hd1 & H71 & _ & Hz1 & _). fold slot in H71, Hz1.
  assert (Hs1 : self_table (hmem h1)).
  { split; [by rewrite <- Hd1|]. intros o Ho. left. apply zero_page_load; [|done].
    apply Hz1. unfold slot. lia. }
  destruct (self_step h1 3 virt 1 Hs1 Hf1 ltac:(lia)) as (h2 & E2 & Hs2 & Hf2 & Hfr2).
  destruct (self_step h2 2 virt 0 Hs2 Hf2 ltac:(lia)) as (h3 & E3 & [Hm3 _] & Hf3 & Hfr3).
  unfold install_page, install_pte. change (Z.to_nat (PAGE_LEVEL - 1)) with 3%nat.
  change PAGE_LEVEL with 4. rewrite E1. change (4 - 1) with 3. rewrite E2.
  change (3 - 1) with 2. rewrite E3. cbn [pte_loop]. mret. change (Z.min 4 1) with 1.
  pose proof (Hoff 1 ltac:(lia)) as Ho1.
  edestruct (store64_ok (hmem h3) (0 + 8 * PGDIR_OFFSET virt 1)) as (m4 & -> & ->);
    [eapply mapped_sub; [exact Hm3| |]; lia|]. mret.
  eexists _, _. split; [done|]. split; [lia|]. hfields.
  rewrite (load64_frame (hmem h3)) by (intros x Hx; apply write64_out; lia).
  by rewrite Hfr3, Hfr2 by (unfold slot; lia).
Qed.

(** ** Witnesses *)

(** A zeroed root at 0x1000 and three free pages behind it. *)
Definition demo_pages : mem :=
  write_bytes (write_bytes (write_bytes (write_bytes (write_bytes ∅
    0 (replicate (Z.to_nat 4096) 9)) 4096 (replicate (Z.to_nat 4096) 0))
    8192 (le_bytes 8 12288 ++ replicate (Z.to_nat 4088) 9))
    12288 (le_bytes 8 16384 ++ replicate (Z.to_nat 4088) 9))
    16384 (le_bytes 8 0 ++ replicate (Z.to_nat 4088) 9).

Definition demo_mmu : heap := set_free (demo_heap demo_pages) 8192.

Lemma demo_zero_root : zero_page demo_pages 4096.
Proof.
  intros x Hx.
  assert (Hall : forallb (fun x => bool_decide (demo_pages !! x = Some 0)) (seqZ 4096 4096) = true)
    by (vm_compute; reflexivity).
  rewrite forallb_forall in Hall. specialize (Hall x).
  rewrite <- list_elem_of_In, elem_of_seqZ in Hall. eapply bool_decide_eq_true, Hall, Hx.
Qed.

Lemma demo_mmu_ok : mmu_ok demo_mmu 4096 {[ (4, 0) := 4096 ]} [8192; 12288; 16384].
Proof.
  split.
  - apply root_tree; [by_eval|apply demo_zero_root].
  - by_eval.
  - intros key t [_ <-]%lookup_singleton_Some. by_eval.
Qed.

(** A page at a high address, whose three tables are all missing. *)
Lemma install_page_maps_witness :
  exists h' slot, install_page demo_mmu 4096 40960 140737488351232 = Ok (h', slot) /\
    translate (hmem h') 4096 140737488351240 = Ok (Some 40968).
Proof.
  destruct (install_page_maps demo_mmu 4096 {[ (4, 0) := 4096 ]} [8192; 12288; 16384]
    40960 140737488351232) as (h' & slot & tabs & l & H & _ & _ & _ & Ht).
  - exact demo_mmu_ok.
  - lia.
  - done.
  - lia.
  - vm_compute. lia.
  - exists h', slot. split; [exact H|]. rewrite Ht by lia. reflexivity.
Defined.

(** Four free pages are what two pages of memory need: a root and a table of
    each level. *)
Lemma setup_mmu_identity_witness :
  exists h' cr3, setup_mmu (set_free (demo_heap (write_bytes demo_pages 4096 (le_bytes 8 8192))) 4096)
      8192 = Ok (h', cr3) /\
    translate (hmem h') cr3 5000 = Ok (Some 5000) /\ translate (hmem h') cr3 8192 = Ok None.
Proof.
  destruct (setup_mmu_identity
    (set_free (demo_heap (write_bytes demo_pages 4096 (le_bytes 8 8192))) 4096)
    [4096; 8192; 12288; 16384] 8192) as (h' & cr3 & tabs & l & H & _ & _ & _ & _ & _ & Ht).
  - by_eval.
  - lia.
  - vm_compute. congruence.
  - exists h', cr3. split; [exact H|]. rewrite !Ht by lia. clear H Ht. split; reflexivity.
Defined.

Lemma install_page_no_memory_witness :
  exists h' slot, install_page (demo_heap demo_pages) 4096 40960 0 = Ok (h', slot) /\
    0 <= slot < 4096.
Proof.
  destruct (install_page_no_memory (demo_heap demo_pages) 4096 40960 0)
    as (h' & slot & H & Hs & _); [done|by_eval|by_eval|by vm_compute|eauto].
Defined.
