(* ===== verification/Mp.v ===== *)
(** * x86_64/mp.c and x86_64/proc.c: finding the processors

    The search for the MultiProcessor floating pointer structure, the check
    of the configuration table it points to, and the scan of that table that
    fills [cpus]. Structures are read from memory at the offsets of
    include/mp.h. [mycpu] finds the entry of the running processor.

    The table is abstracted to its list of entries; reading it back is proved
    to give the processors, the I/O APIC and the local APIC it lists. *)

From stdpp Require Import base gmap list numbers strings.
From Stdlib Require Import ZArith Lia.
From S2P Require Import Prelude Mem CString Printf Serial Stdio.

#[local] Open Scope Z_scope.

Definition NCPU : Z := 64.

(** [struct mp] and [struct mpconf]: sizes and the offsets of the fields. *)
Definition sizeof_mp : Z := 16.
Definition mp_physaddr : Z := 4.
Definition sizeof_mpconf : Z := 44.
Definition mpconf_length : Z := 4.
Definition mpconf_version : Z := 6.
Definition mpconf_lapicaddr : Z := 36.
Definition sizeof_mpproc : Z := 20.
Definition sizeof_mpioapic : Z := 8.

Definition MPPROC : Z := 0.
Definition MPBUS : Z := 1.
Definition MPIOAPIC : Z := 2.
Definition MPIOINTR : Z := 3.
Definition MPLINTR : Z := 4.

(** ** Reading memory *)

(** [memcmp] against a string literal: the literal's bytes are constants of
    the program ([memcmp_literal] relates it to [memcmp]). *)
Fixpoint memcmp_lit (m : mem) (a : Z) (lit : list Z) : res Z :=
  match lit with
  | [] => Ok 0
  | c :: rest =>
      x ← load8 m a;
      let ret := x - c in
      if ret =? 0 then memcmp_lit m (a + 1) rest else Ok ret
  end.

(** The sum of [n] bytes, before the conversion to [uchar]. *)
Fixpoint sum_loop (n : nat) (m : mem) (addr s : Z) : res Z :=
  match n with
  | O => Ok s
  | S n' => b ← load8 m addr; s ← int_chk (s + b); sum_loop n' m (addr + 1) s
  end.

Definition sum (m : mem) (addr len : Z) : res Z :=
  s ← sum_loop (Z.to_nat len) m addr 0; Ok (u8 s).

(** ** The floating pointer structure *)

Fixpoint mpsearch_loop (fuel : nat) (m : mem) (p e : Z) : res Z :=
  match fuel with
  | O => Err Fuel
  | S f =>
      if p <? e then
        c ← memcmp_lit m p (bytes_of_string "_MP_");
        found ← (if c =? 0 then s ← sum m p sizeof_mp; Ok (s =? 0) else Ok false);
        if (found : bool) then Ok p else mpsearch_loop f m (p + sizeof_mp) e
      else Ok 0
  end.

(** [len / 16] structures fit, and the last test ends the loop; the pointers
    of a range that ends inside the address space do not wrap. *)
Definition mpsearch1 (m : mem) (a len : Z) : res Z :=
  mpsearch_loop (S (Z.to_nat len)) m a (u64 (a + len)).

Definition bda : Z := 1024.

Definition mpsearch (m : mem) : res Z :=
  h ← load8 m (bda + 15);
  l ← load8 m (bda + 14);
  let p := Z.shiftl (Z.lor (Z.shiftl h 8) l) 4 in
  mp ← (if negb (p =? 0) then mpsearch1 m p 1024
        else
          h ← load8 m (bda + 20);
          l ← load8 m (bda + 19);
          let p := Z.lor (Z.shiftl h 8) l * 1024 in
          mpsearch1 m (u64 (p - 1024)) 1024);
  if negb (mp =? 0) then Ok mp else mpsearch1 m 983040 65536.

(** ** The configuration table *)

(** The result is the table's address, or 0. *)
Definition mpconf_at (m : mem) (mp : Z) : res Z :=
  if mp =? 0 then Ok 0
  else
    conf ← load32 m (mp + mp_physaddr);
    if conf =? 0 then Ok 0
    else
      c ← memcmp_lit m conf (bytes_of_string "PCMP");
      if negb (c =? 0) then Ok 0
      else
        version ← load8 m (conf + mpconf_version);
        if negb (version =? 1) && negb (version =? 4) then Ok 0
        else
          len ← load16 m (conf + mpconf_length);
          s ← sum m conf len;
          if negb (s =? 0) then Ok 0 else Ok conf.

Definition mpconfig (m : mem) : res Z := mp ← mpsearch m; mpconf_at m mp.

(** The globals of mp.c and apic.c that [mpinit] fills: of each [struct cpu]
    the field it sets. *)
Record mpstate := mkMp {
  cpus : list Z;
  ncpu : Z;
  ioapicid : Z;
  lapic : Z;
}.

(** The loop over the table. The [break] of the default case leaves only the
    [switch]: the loop goes on at the same entry. *)
Fixpoint mp_loop (fuel : nat) (m : mem) (st : mpstate) (ismp : bool) (p e : Z)
    : res (mpstate * bool) :=
  match fuel with
  | O => Err Fuel
  | S f =>
      if p <? e then
        ty ← load8 m p;
        if ty =? MPPROC then
          apicid ← load8 m (p + 1);
          let st :=
            if ncpu st <? NCPU then
              mkMp (<[Z.to_nat (ncpu st) := apicid]> (cpus st)) (ncpu st + 1) (ioapicid st) (lapic st)
            else st in
          mp_loop f m st ismp (p + sizeof_mpproc) e
        else if ty =? MPIOAPIC then
          apicno ← load8 m (p + 1);
          mp_loop f m (mkMp (cpus st) (ncpu st) apicno (lapic st)) ismp (p + sizeof_mpioapic) e
        else if (ty =? MPBUS) || (ty =? MPIOINTR) || (ty =? MPLINTR) then
          mp_loop f m st ismp (p + 8) e
        else mp_loop f m st false p e
      else Ok (st, ismp)
  end.

(** [fuel] bounds the rounds of the loop, which need not end. *)
Definition mpinit (fuel : nat) (m : mem) (s : serial) (st : mpstate) : res (serial * mpstate) :=
  conf ← mpconfig m;
  s ← (if conf =? 0 then say no_strs s (bytes_of_string "Expect to run on an SMP") [] else Ok s);
  lapicaddr ← load32 m (conf + mpconf_lapicaddr);
  len ← load16 m (conf + mpconf_length);
  '(st, ismp) ← mp_loop fuel m (mkMp (cpus st) (ncpu st) (ioapicid st) lapicaddr) true
      (conf + sizeof_mpconf) (conf + len);
  s ← (if negb ismp then say no_strs s (bytes_of_string "Didn't find a suitable machine") []
       else Ok s);
  Ok (s, st).

(** ** proc.c *)

Definition FL_IF : Z := 512.

(** [for (i = 0; i < ncpu; ++i)]: the index of the first match from [i] on. *)
Fixpoint find_cpu (n : nat) (st : mpstate) (apicid i : Z) : res (option Z) :=
  match n with
  | O => Ok None
  | S n' =>
      id ← of_option Undef (cpus st !! Z.to_nat i);
      if id =? apicid then Ok (Some i) else find_cpu n' st apicid (i + 1)
  end.

(** [apicid] is what [lapicid] returns, [eflags] the flags register. With an
    unknown id the function returns no value; using it is undefined. *)
Definition mycpu (st : mpstate) (s : serial) (eflags apicid : Z) : res (serial * Z) :=
  s ← (if negb (Z.land eflags FL_IF =? 0)
       then say no_strs s (line "mycpu called with interrupts enabled") [] else Ok s);
  r ← find_cpu (Z.to_nat (ncpu st)) st apicid 0;
  match r with
  | Some i => Ok (s, i)
  | None => s ← say no_strs s (line "unknown apicid") []; Err Undef
  end.

(** [mycpu() - cpus] *)
Definition cpuid (st : mpstate) (s : serial) (eflags apicid : Z) : res (serial * Z) :=
  mycpu st s eflags apicid.

(** ** Reading memory: lemmas *)

Lemma memcmp_literal m a b lit :
  bytes_at m b lit -> memcmp m a b (Z.of_nat (length lit)) = memcmp_lit m a lit.
Proof.
  unfold memcmp. rewrite Nat2Z.id. revert a b.
  induction lit as [|c lit IH]; intros a b Hb; [done|]. cbn [length memcmp_loop memcmp_lit].
  apply bytes_at_cons in Hb as [H1 H2]. destruct (load8 m a) as [x|e]; mret; [|done].
  rewrite (load8_ok _ _ _ H1). mret. by rewrite IH.
Qed.

Lemma memcmp_lit_decides m a lit :
  mapped m a (Z.of_nat (length lit)) ->
  exists r, memcmp_lit m a lit = Ok r /\ (r = 0 <-> bytes_at m a lit).
Proof.
  revert a. induction lit as [|c lit IH]; intros a Hm; cbn [memcmp_lit length] in *.
  - exists 0. split; [done|]. split; [intros _; apply bytes_at_nil|done].
  - destruct (Hm a ltac:(lia)) as [x Hx]. rewrite (load8_ok _ _ _ Hx). mret. cbv zeta.
    destruct (Z.eqb_spec (x - c) 0) as [E|E].
    + destruct (IH (a + 1)) as (r & -> & Hr); [eapply mapped_sub; [exact Hm| |]; lia|].
      exists r. split; [done|]. rewrite bytes_at_cons, Hx, Hr. replace x with c by lia. tauto.
    + exists (x - c). split; [done|]. split; [done|].
      rewrite bytes_at_cons, Hx. intros [[= ->] _]. lia.
Qed.

Definition list_sum (l : list Z) : Z := foldr Z.add 0 l.

Lemma sum_loop_list m l : forall a s,
  bytes_at m a l -> Forall (fun b => 0 <= b < 256) l ->
  0 <= s -> s + 256 * Z.of_nat (length l) <= 2147483647 ->
  sum_loop (length l) m a s = Ok (s + list_sum l).
Proof.
  induction l as [|b l IH]; intros a s Hb Hl Hs Hlen; cbn [length sum_loop list_sum foldr] in *.
  - by rewrite Z.add_0_r.
  - apply bytes_at_cons in Hb as [H1 H2]. apply Forall_cons in Hl as [Hb Hl].
    rewrite (load8_ok _ _ _ H1). mret. rewrite int_chk_ok by lia. mret.
    rewrite IH by (done || lia). f_equal. unfold list_sum. lia.
Qed.

Lemma sum_bytes m a l :
  bytes_at m a l -> Forall (fun b => 0 <= b < 256) l -> Z.of_nat (length l) <= 65536 ->
  sum m a (Z.of_nat (length l)) = Ok (u8 (list_sum l)).
Proof.
  intros Hb Hl Hlen. unfold sum. rewrite Nat2Z.id, sum_loop_list by (done || lia). done.
Qed.

(** The bytes of a mapped region, as a list. *)
Lemma region_bytes m a n :
  mapped m a (Z.of_nat n) -> exists l, length l = n /\ bytes_at m a l.
Proof.
  revert a. induction n as [|n IH]; intros a Hm.
  - exists []. split; [done|]. apply bytes_at_nil.
  - destruct (Hm a ltac:(lia)) as [x Hx].
    destruct (IH (a + 1)) as (l & Hl & Hb); [eapply mapped_sub; [exact Hm| |]; lia|].
    exists (x :: l). simpl. rewrite Hl. split; [done|]. by apply bytes_at_cons.
Qed.

(** ** The search *)

(** A floating pointer structure: its signature, and a checksum of zero. *)
Definition mp_at (m : mem) (p : Z) : Prop :=
  bytes_at m p (bytes_of_string "_MP_") /\
  exists l, length l = 16%nat /\ bytes_at m p l /\ list_sum l mod 256 = 0.

(** [q] is the first of the [n] slots of 16 bytes from [a] on that holds a
    structure, or 0. *)
Definition first_mp (m : mem) (a : Z) (n : nat) (q : Z) : Prop :=
  (q = 0 /\ forall i, (i < n)%nat -> ~ mp_at m (a + 16 * Z.of_nat i)) \/
  (exists i, (i < n)%nat /\ q = a + 16 * Z.of_nat i /\ mp_at m q /\
     forall j, (j < i)%nat -> ~ mp_at m (a + 16 * Z.of_nat j)).

Lemma bytes_at_unique m a l l' :
  bytes_at m a l -> bytes_at m a l' -> length l = length l' -> l = l'.
Proof.
  intros H H' Hlen. apply list_eq. intros i.
  destruct (l !! i) as [x|] eqn:E.
  - destruct (lookup_lt_is_Some_2 l' i) as [y Hy];
      [rewrite <- Hlen; by eapply lookup_lt_Some|].
    rewrite Hy. f_equal. specialize (H _ _ E). specialize (H' _ _ Hy). congruence.
  - symmetry. apply lookup_ge_None. rewrite <- Hlen. by apply lookup_ge_None.
Qed.

(** The test of one slot decides [mp_at]. *)
Lemma slot_test m p :
  mem_wf m -> mapped m p 16 ->
  exists b : bool,
    (c ← memcmp_lit m p (bytes_of_string "_MP_");
     if c =? 0 then s ← sum m p sizeof_mp; Ok (s =? 0) else Ok false) = Ok b /\
    (b = true <-> mp_at m p).
Proof.
  intros Hwf Hm.
  destruct (memcmp_lit_decides m p (bytes_of_string "_MP_")) as (r & -> & Hr);
    [eapply mapped_sub; [exact Hm| |simpl]; lia|]. mret.
  destruct (region_bytes m p 16 Hm) as (l & Hl & Hb).
  pose proof (bytes_at_range _ _ _ Hwf Hb) as Hrange.
  destruct (Z.eqb_spec r 0) as [E|E].
  - change sizeof_mp with (Z.of_nat 16). rewrite <- Hl, sum_bytes by (done || (rewrite Hl; lia)).
    mret. eexists. split; [done|]. rewrite Z.eqb_eq. unfold mp_at, u8. split.
    + intros Hs. split; [by apply Hr|eauto].
    + intros [_ (l' & Hl' & Hb' & Hs)]. rewrite <- Hl' in Hl.
      by rewrite (bytes_at_unique m p l l').
  - exists false. split; [done|]. split; [done|]. intros [H _]. by apply Hr in H.
Qed.

Lemma mpsearch_loop_first n : forall fuel m a,
  mem_wf m -> mapped m a (16 * Z.of_nat n) -> 0 < a -> (n < fuel)%nat ->
  exists q, mpsearch_loop fuel m a (a + 16 * Z.of_nat n) = Ok q /\ first_mp m a n q.
Proof.
  induction n as [|n IH]; intros [|fuel] m a Hwf Hm Ha Hf; try lia; cbn [mpsearch_loop].
  - rewrite (proj2 (Z.ltb_ge _ _)) by lia. exists 0. split; [done|]. left. split; [done|]. lia.
  - rewrite (proj2 (Z.ltb_lt _ _)) by lia.
    destruct (slot_test m a Hwf) as (b & Hb & Hdec); [eapply mapped_sub; [exact Hm| |]; lia|].
    apply res_bind_ok in Hb as (c & -> & Hb). mret. rewrite Hb. mret. destruct b.
    + exists a. split; [done|]. right. exists 0%nat. split; [lia|]. split; [lia|].
      split; [by apply Hdec|lia].
    + destruct (IH fuel m (a + 16)) as (q & Hq & Hfirst);
        [done|eapply mapped_sub; [exact Hm| |]; lia|lia|lia|].
      exists q. unfold sizeof_mp.
      replace (a + 16 * Z.of_nat (S n)) with (a + 16 + 16 * Z.of_nat n) by lia.
      split; [done|].
      assert (Hno : ~ mp_at m (a + 16 * Z.of_nat 0))
        by (rewrite Z.add_0_r; intros H; by apply Hdec in H).
      destruct Hfirst as [[-> Hall]|(i & Hi & -> & Hat & Hall)]; [left|right].
      * split; [done|]. intros [|i] Hi; [done|].
        replace (a + 16 * Z.of_nat (S i)) with (a + 16 + 16 * Z.of_nat i) by lia. apply Hall. lia.
      * exists (S i). split; [lia|]. split; [lia|]. split; [done|]. intros [|j] Hj; [done|].
        replace (a + 16 * Z.of_nat (S j)) with (a + 16 + 16 * Z.of_nat j) by lia. apply Hall. lia.
Qed.

Lemma mpsearch1_first m a n :
  mem_wf m -> mapped m a (16 * Z.of_nat n) -> 0 < a -> a + 16 * Z.of_nat n < 2 ^ 64 ->
  exists q, mpsearch1 m a (16 * Z.of_nat n) = Ok q /\ first_mp m a n q.
Proof.
  intros Hwf Hm Ha Hb. unfold mpsearch1. rewrite u64_small by lia.
  apply mpsearch_loop_first; try done. lia.
Qed.

(** ** The configuration table as a list of entries *)

(** An entry with the bytes the scan does not read. *)
Inductive mpentry :=
  | EProc (apicid : Z) (rest : list Z)
  | EIoapic (apicno : Z) (rest : list Z)
  | EMisc (ty : Z) (rest : list Z).

Definition entry_bytes (e : mpentry) : list Z :=
  match e with
  | EProc a r => MPPROC :: a :: r
  | EIoapic a r => MPIOAPIC :: a :: r
  | EMisc t r => t :: r
  end.

Definition entry_ok (e : mpentry) : Prop :=
  match e with
  | EProc _ r => length r = 18%nat
  | EIoapic _ r => length r = 6%nat
  | EMisc t r => (t = MPBUS \/ t = MPIOINTR \/ t = MPLINTR) /\ length r = 7%nat
  end.

Definition table_bytes (es : list mpentry) : list Z := concat (entry_bytes <$> es).

Definition apply_entry (st : mpstate) (e : mpentry) : mpstate :=
  match e with
  | EProc a _ =>
      if ncpu st <? NCPU then
        mkMp (<[Z.to_nat (ncpu st) := a]> (cpus st)) (ncpu st + 1) (ioapicid st) (lapic st)
      else st
  | EIoapic a _ => mkMp (cpus st) (ncpu st) a (lapic st)
  | EMisc _ _ => st
  end.

(** The APIC ids of the processors and of the I/O APICs, in table order. *)
Definition proc_ids (es : list mpentry) : list Z :=
  omap (fun e => match e with EProc a _ => Some a | _ => None end) es.
Definition ioapic_ids (es : list mpentry) : list Z :=
  omap (fun e => match e with EIoapic a _ => Some a | _ => None end) es.

Lemma mp_loop_step f m st ismp p e last :
  entry_ok e -> bytes_at m p (entry_bytes e) -> p < last ->
  mp_loop (S f) m st ismp p last =
  mp_loop f m (apply_entry st e) ismp (p + Z.of_nat (length (entry_bytes e))) last.
Proof.
  intros Hok Hb Hp. cbn [mp_loop]. rewrite (proj2 (Z.ltb_lt _ _) Hp).
  destruct e as [a r|a r|t r]; cbn [entry_bytes entry_ok apply_entry length] in *;
    apply bytes_at_cons in Hb as [H0 Hb]; rewrite (load8_ok _ _ _ H0); mret.
  - apply bytes_at_cons in Hb as [H1 _]. change (MPPROC =? MPPROC) with true. cbn iota.
    rewrite (load8_ok _ _ _ H1). mret. rewrite Hok. done.
  - apply bytes_at_cons in Hb as [H1 _]. change (MPIOAPIC =? MPPROC) with false.
    change (MPIOAPIC =? MPIOAPIC) with true. cbn iota.
    rewrite (load8_ok _ _ _ H1). mret. rewrite Hok. done.
  - destruct Hok as [Ht Hr]. rewrite Hr. by destruct Ht as [-> |[-> | ->]].
Qed.

(** Scanning entries up to [last], in general and when they end there. *)
Lemma mp_loop_prefix m es : forall f st ismp p last,
  Forall entry_ok es -> bytes_at m p (table_bytes es) ->
  p + Z.of_nat (length (table_bytes es)) <= last ->
  mp_loop (length es + f) m st ismp p last =
  mp_loop f m (foldl apply_entry st es) ismp (p + Z.of_nat (length (table_bytes es))) last.
Proof.
  induction es as [|e es IH]; intros f st ismp p last Hok Hb Hl; cbn [length Nat.add foldl].
  - f_equal. cbn. lia.
  - apply Forall_cons in Hok as [He Hok]. unfold table_bytes in *. cbn [fmap list_fmap concat] in *.
    rewrite length_app in *. apply bytes_at_app in Hb as [Hb1 Hb2].
    assert (Hpos : (0 < length (entry_bytes e))%nat) by (destruct e; simpl; lia).
    rewrite (mp_loop_step _ _ _ _ _ e) by (done || lia).
    rewrite IH by (done || lia). f_equal. lia.
Qed.

Lemma mp_loop_table m es f st ismp p :
  Forall entry_ok es -> bytes_at m p (table_bytes es) -> (length es < f)%nat ->
  mp_loop f m st ismp p (p + Z.of_nat (length (table_bytes es))) =
  Ok (foldl apply_entry st es, ismp).
Proof.
  intros Hok Hb Hf. replace f with (length es + S (f - length es - 1))%nat by lia.
  rewrite mp_loop_prefix by (done || lia). cbn [mp_loop].
  by rewrite (proj2 (Z.ltb_ge _ _)) by lia.
Qed.

(** An entry of another type is looked at again and again. *)
Lemma mp_loop_stuck f m st ismp p last ty :
  m !! p = Some ty -> 4 < ty -> p < last -> mp_loop f m st ismp p last = Err Fuel.
Proof.
  intros Hty Hlt Hp. revert st ismp. induction f as [|f IH]; intros st ismp; [done|].
  cbn [mp_loop]. rewrite (proj2 (Z.ltb_lt _ _) Hp), (load8_ok _ _ _ Hty). mret.
  unfold MPPROC, MPIOAPIC, MPBUS, MPIOINTR, MPLINTR.
  rewrite !(proj2 (Z.eqb_neq ty _)) by lia. apply IH.
Qed.

(** However little fuel there is, it runs out first on the good entries. *)
Lemma mp_loop_stuck_after m es f st ismp p last ty :
  Forall entry_ok es -> bytes_at m p (table_bytes es) ->
  m !! (p + Z.of_nat (length (table_bytes es))) = Some ty -> 4 < ty ->
  p + Z.of_nat (length (table_bytes es)) < last ->
  mp_loop f m st ismp p last = Err Fuel.
Proof.
  revert f st ismp p. induction es as [|e es IH]; intros f st ismp p Hok Hb Hty Hlt Hl.
  - cbn in Hty, Hl. rewrite Z.add_0_r in *. by eapply mp_loop_stuck.
  - apply Forall_cons in Hok as [He Hok]. unfold table_bytes in *. cbn [fmap list_fmap concat] in *.
    rewrite length_app, Nat2Z.inj_add, Z.add_assoc in *. apply bytes_at_app in Hb as [Hb1 Hb2].
    destruct f as [|f]; [done|].
    assert (Hpos : (0 < length (entry_bytes e))%nat) by (destruct e; simpl; lia).
    rewrite (mp_loop_step _ _ _ _ _ e) by (done || lia). by apply IH.
Qed.

Lemma mp_loop_lapic f m st ismp p e st' b :
  mp_loop f m st ismp p e = Ok (st', b) -> lapic st' = lapic st.
Proof.
  revert st ismp p. induction f as [|f IH]; intros st ismp p; cbn [mp_loop]; [done|].
  destruct (p <? e); [|congruence].
  intros (ty & _ & H)%res_bind_ok. destruct (ty =? MPPROC).
  { apply res_bind_ok in H as (a & _ & H). apply IH in H. by destruct (ncpu st <? NCPU). }
  destruct (ty =? MPIOAPIC).
  { apply res_bind_ok in H as (a & _ & H). by apply IH in H. }
  destruct (_ || _); by apply IH in H.
Qed.

(** What the scan leaves in the globals. *)
Lemma apply_entries es : forall st,
  length (cpus st) = 64%nat -> 0 <= ncpu st <= 64 ->
  let st' := foldl apply_entry st es in
  length (cpus st') = 64%nat /\
  ncpu st' = Z.min 64 (ncpu st + Z.of_nat (length (proc_ids es))) /\
  (forall i a, (i < Z.to_nat (ncpu st))%nat -> cpus st !! i = Some a -> cpus st' !! i = Some a) /\
  (forall i a, proc_ids es !! i = Some a -> (Z.to_nat (ncpu st) + i < 64)%nat ->
     cpus st' !! (Z.to_nat (ncpu st) + i)%nat = Some a) /\
  ioapicid st' = default (ioapicid st) (last (ioapic_ids es)) /\ lapic st' = lapic st.
Proof.
  induction es as [|e es IH]; intros st Hl Hn st'.
  { unfold st'. cbn. repeat split; try done. lia. }
  unfold st'. cbn [foldl]. destruct e as [a r|a r|t r]; cbn [apply_entry].
  - change (proc_ids (EProc a r :: es)) with (a :: proc_ids es).
    change (ioapic_ids (EProc a r :: es)) with (ioapic_ids es).
    unfold NCPU. destruct (Z.ltb_spec (ncpu st) 64) as [Hlt|Hge].
    + edestruct (IH (mkMp (<[Z.to_nat (ncpu st) := a]> (cpus st)) (ncpu st + 1) (ioapicid st) (lapic st)))
        as (H1 & H2 & H3 & H4 & H5 & H6); cbn [cpus ncpu ioapicid lapic] in *;
        [by rewrite length_insert|lia|]. split; [done|]. cbn [length]. split; [lia|].
      split; [|split; [|done]].
      * intros i b Hi Hb. apply H3; [lia|]. by rewrite list_lookup_insert_ne by lia.
      * intros [|i] b Hb Hi; cbn [lookup list_lookup] in Hb.
        -- injection Hb as <-. rewrite Nat.add_0_r. apply H3; [lia|].
           apply list_lookup_insert_eq. lia.
        -- specialize (H4 i b Hb). replace (Z.to_nat (ncpu st + 1)) with (S (Z.to_nat (ncpu st))) in H4 by lia.
           rewrite Nat.add_succ_comm in H4. by apply H4.
    + destruct (IH st) as (H1 & H2 & H3 & H4 & H5 & H6); [done|done|].
      split; [done|]. cbn [length]. split; [lia|]. split; [done|]. split; [|done].
      intros i b _ Hi. lia.
  - change (proc_ids (EIoapic a r :: es)) with (proc_ids es).
    change (ioapic_ids (EIoapic a r :: es)) with (a :: ioapic_ids es).
    edestruct (IH (mkMp (cpus st) (ncpu st) a (lapic st))) as (H1 & H2 & H3 & H4 & H5 & H6);
      cbn [cpus ncpu ioapicid lapic] in *; [done|done|].
    repeat split; try done. rewrite H5, last_cons. by destruct (last (ioapic_ids es)).
  - by apply IH.
Qed.

Lemma find_cpu_list st a n : forall i,
  (i + n <= length (cpus st))%nat ->
  find_cpu n st a (Z.of_nat i) =
  Ok ((fun r => Z.of_nat (i + r.1)) <$> list_find (fun x => x = a) (take n (drop i (cpus st)))).
Proof.
  induction n as [|n IH]; intros i Hl; cbn [find_cpu]; [done|].
  destruct (lookup_lt_is_Some_2 (cpus st) i) as [x Hx]; [lia|].
  rewrite Nat2Z.id, Hx. cbn [of_option]. mret. rewrite (drop_S _ _ _ Hx). cbn [take list_find].
  destruct (Z.eqb_spec x a) as [E|E]; case_decide; try done.
  - cbn. by rewrite Nat.add_0_r.
  - replace (Z.of_nat i + 1) with (Z.of_nat (S i)) by lia. rewrite IH by lia.
    f_equal. destruct (list_find _ _) as [[k y]|]; [|done]. cbn. f_equal. lia.
Qed.

(** The configuration table at [conf], of [len] bytes. *)
Record config_at (m : mem) (conf len lapicaddr : Z) : Prop := {
  cfg_sig : bytes_at m conf (bytes_of_string "PCMP");
  cfg_version : m !! (conf + 6) = Some 1 \/ m !! (conf + 6) = Some 4;
  cfg_length : load16 m (conf + 4) = Ok len;
  cfg_lapic : load32 m (conf + 36) = Ok lapicaddr;
  cfg_sum : exists l, Z.of_nat (length l) = len /\ bytes_at m conf l /\ list_sum l mod 256 = 0;
}.

(** [mpsearch] finds a structure at [mp] that points to it. *)
Record found_at (m : mem) (mp conf len lapicaddr : Z) : Prop := {
  fnd_search : mpsearch m = Ok mp;
  fnd_mp : mp <> 0;
  fnd_addr : load32 m (mp + 4) = Ok conf;
  fnd_conf : conf <> 0;
  fnd_config : config_at m conf len lapicaddr;
  fnd_wf : mem_wf m;
}.

Lemma mpconfig_found m mp conf len la : found_at m mp conf len la -> mpconfig m = Ok conf.
Proof.
  intros [Hs Hmp Ha Hc [Hsig Hver Hlen Hla (l & Hl & Hb & Hsum)] Hwf]. unfold mpconfig, mpconf_at.
  rewrite Hs. mret. rewrite (proj2 (Z.eqb_neq _ _) Hmp). unfold mp_physaddr. rewrite Ha. mret.
  rewrite (proj2 (Z.eqb_neq _ _) Hc).
  destruct (memcmp_lit_decides m conf (bytes_of_string "PCMP")) as (r & -> & Hr);
    [by apply bytes_at_mapped|]. mret. rewrite (proj2 Hr Hsig). change (negb (0 =? 0)) with false.
  cbn iota. unfold mpconf_version, mpconf_length.
  assert (Hv : exists v, load8 m (conf + 6) = Ok v /\ negb (v =? 1) && negb (v =? 4) = false)
    by (destruct Hver as [Hv|Hv]; eexists; split; [by apply load8_ok| |by apply load8_ok|]; done).
  destruct Hv as (v & -> & Hv). mret. rewrite Hv, Hlen. mret.
  pose proof (bytes_at_range _ _ _ Hwf Hb) as Hrange.
  apply (load_le_range 2) in Hlen as Hlr; [|done].
  rewrite <- Hl, sum_bytes by (done || (rewrite Hl; change (256 ^ Z.of_nat 2) with 65536 in Hlr; lia)).
  mret. unfold u8. rewrite Hsum. done.
Qed.

(** [mpinit] only reads memory. *)
Lemma reads_memcmp_lit lit a : reads (fun m => memcmp_lit m a lit).
Proof. revert a. induction lit as [|c lit IH]; intros a; cbn [memcmp_lit]; reads_with ltac:(apply IH). Qed.

Lemma reads_sum a len : reads (fun m => sum m a len).
Proof.
  assert (H : forall n a s, reads (fun m => sum_loop n m a s)).
  { induction n as [|n IH]; intros b s; cbn [sum_loop]; reads_with ltac:(apply IH). }
  unfold sum. reads_with ltac:(apply H).
Qed.

Lemma reads_mpsearch1 a len : reads (fun m => mpsearch1 m a len).
Proof.
  assert (H : forall n p e, reads (fun m => mpsearch_loop n m p e)).
  { induction n as [|n IH]; intros p e; cbn [mpsearch_loop];
      reads_with ltac:(first [apply IH|apply reads_memcmp_lit|apply reads_sum]). }
  apply H.
Qed.

Lemma reads_mpconf_at mp : reads (fun m => mpconf_at m mp).
Proof. unfold mpconf_at. reads_with ltac:(first [apply reads_load_le|apply reads_memcmp_lit|apply reads_sum]). Qed.

Lemma reads_mpconfig : reads mpconfig.
Proof.
  assert (H : reads mpsearch) by (unfold mpsearch; reads_with ltac:(apply reads_mpsearch1)).
  unfold mpconfig. reads_with ltac:(first [exact H|apply reads_mpconf_at]).
Qed.

Lemma reads_mp_loop n : forall st b p e, reads (fun m => mp_loop n m st b p e).
Proof. induction n as [|n IH]; intros st b p e; cbn [mp_loop]; reads_with ltac:(apply IH). Qed.

Lemma reads_mpinit fuel s st : reads (fun m => mpinit fuel m s st).
Proof.
  unfold mpinit. reads_with ltac:(first [exact reads_mpconfig|apply reads_load_le|apply reads_mp_loop|destruct x as [x1 x2]]).
Qed.

(** The globals before [mpinit], and what it makes of a table. *)
Definition no_cpus : mpstate := mkMp (replicate 64 0) 0 0 0.
Definition table_of (la : Z) (es : list mpentry) : mpstate := foldl apply_entry (mkMp (replicate 64 0) 0 0 la) es.

Lemma table_of_facts la es :
  lapic (table_of la es) = la /\ length (cpus (table_of la es)) = 64%nat /\
  ncpu (table_of la es) = Z.min 64 (Z.of_nat (length (proc_ids es))) /\
  (forall i a, proc_ids es !! i = Some a -> (i < 64)%nat -> cpus (table_of la es) !! i = Some a) /\
  ioapicid (table_of la es) = default 0 (last (ioapic_ids es)).
Proof.
  destruct (apply_entries es (mkMp (replicate 64 0) 0 0 la)) as (H1 & H2 & _ & H4 & H5 & H6);
    [done|cbn; lia|]. cbn [ncpu cpus ioapicid lapic] in *.
  split; [done|]. split; [done|]. split; [unfold table_of; rewrite H2; f_equal; lia|]. split; [|done].
  intros i a Hi Hlt. apply (H4 i a Hi). lia.
Qed.

(** [mpinit] on the table it finds. *)
Lemma mpinit_run m mp conf len la es s fuel :
  found_at m mp conf len la -> Forall entry_ok es ->
  bytes_at m (conf + 44) (table_bytes es) -> len = 44 + Z.of_nat (length (table_bytes es)) ->
  (length es < fuel)%nat -> mpinit fuel m s no_cpus = Ok (s, table_of la es).
Proof.
  intros Hf Hok Hb Hlen Hfuel. unfold mpinit, no_cpus. rewrite (mpconfig_found _ _ _ _ _ Hf). mret.
  destruct Hf as [_ _ _ Hc [_ _ Hl Hla _] _]. rewrite (proj2 (Z.eqb_neq _ _) Hc).
  unfold mpconf_lapicaddr, mpconf_length, sizeof_mpconf. mret. rewrite Hla. mret. rewrite Hl. mret.
  replace (conf + len) with (conf + 44 + Z.of_nat (length (table_bytes es))) by lia.
  by rewrite mp_loop_table by done.
Qed.

(** ** The properties *)

(** C38: [mpsearch] looks for the floating pointer structure in the first
    kilobyte of the extended BIOS data area, or, when there is none, in the
    last kilobyte of base memory, and then in the 64 KiB from 0xF0000 on; it
    returns the first aligned structure of the first area that has one, and
    null when neither has. The 64 KiB from 0xE0000 on, which its comment
    names too, are not searched. *)
Theorem mpsearch_areas m ebda_h ebda_l base_h base_l :
  let ebda := 16 * (256 * ebda_h + ebda_l) in
  let base := 1024 * (256 * base_h + base_l) in
  let area := if ebda =? 0 then base - 1024 else ebda in
  mem_wf m -> bytes_at m 1038 [ebda_l; ebda_h] -> bytes_at m 1043 [base_l; base_h] ->
  0 < area -> mapped m area 1024 -> mapped m 983040 65536 ->
  exists q1 q2, first_mp m area 64 q1 /\ first_mp m 983040 4096 q2 /\
    mpsearch m = Ok (if q1 =? 0 then q2 else q1).
Proof.
  intros ebda base area Hwf He Hb Ha Hm Hrom.
  pose proof (bytes_at_range _ _ _ Hwf He) as Rep.
  pose proof (bytes_at_range _ _ _ Hwf Hb) as Rbp.
  apply Forall_cons in Rep as [Rel [Reh _]%Forall_cons].
  apply Forall_cons in Rbp as [Rbl [Rbh _]%Forall_cons].
  apply bytes_at_cons in He as [He1 [He2 _]%bytes_at_cons].
  apply bytes_at_cons in Hb as [Hb1 [Hb2 _]%bytes_at_cons].
  assert (Hw : forall h l, 0 <= h < 256 -> 0 <= l < 256 -> Z.lor (Z.shiftl h 8) l = 256 * h + l).
  { intros h l Hh Hl. rewrite Z.shiftl_mul_pow2 by lia. change (2 ^ 8) with 256.
    rewrite Z.mul_comm. apply (lor_disjoint (256 * h) l 8); [|lia|lia].
    change (2 ^ 8) with 256. rewrite Z.mul_comm. by apply Z.mod_mul. }
  assert (Har : area < 2 ^ 40) by (unfold area, ebda, base; destruct (_ =? 0); lia).
  destruct (mpsearch1_first m area 64) as (q1 & E1 & F1); [done|done|done|lia|].
  destruct (mpsearch1_first m 983040 4096) as (q2 & E2 & F2); [done|done|lia|lia|].
  exists q1, q2. split; [done|]. split; [done|]. unfold mpsearch, bda.
  rewrite (load8_ok _ (1024 + 15) _ He2). mret. rewrite (load8_ok _ (1024 + 14) _ He1). mret.
  rewrite Hw by done. rewrite Z.shiftl_mul_pow2 by lia. change (2 ^ 4) with 16.
  rewrite (Z.mul_comm _ 16). fold ebda.
  change (16 * Z.of_nat 64) with 1024 in E1. change (16 * Z.of_nat 4096) with 65536 in E2.
  unfold area in E1. destruct (ebda =? 0); cbn [negb].
  - rewrite (load8_ok _ (1024 + 20) _ Hb2). mret. rewrite (load8_ok _ (1024 + 19) _ Hb1). mret.
    rewrite Hw by done. rewrite (Z.mul_comm _ 1024). fold base.
    rewrite (u64_small (base - 1024)) by (unfold base; lia). rewrite E1. mret. by destruct (q1 =? 0).
  - rewrite E1. mret. by destruct (q1 =? 0).
Qed.

(** C15: [mpinit] records the machine its configuration table describes: the
    local APIC's address, the processors' APIC ids in table order (the first
    64 of them), their number, and the id of the last I/O APIC. The scan ends
    after one round per entry. *)
Theorem mpinit_table m mp conf len la es s fuel :
  found_at m mp conf len la -> Forall entry_ok es ->
  bytes_at m (conf + 44) (table_bytes es) -> len = 44 + Z.of_nat (length (table_bytes es)) ->
  (length es < fuel)%nat ->
  exists st, mpinit fuel m s no_cpus = Ok (s, st) /\
    lapic st = la /\ ncpu st = Z.min 64 (Z.of_nat (length (proc_ids es))) /\
    (forall i a, proc_ids es !! i = Some a -> (i < 64)%nat -> cpus st !! i = Some a) /\
    ioapicid st = default 0 (last (ioapic_ids es)).
Proof.
  intros Hf Hok Hb Hlen Hfuel. exists (table_of la es). split; [by eapply mpinit_run|].
  destruct (table_of_facts la es) as (H1 & _ & H2). by split.
Qed.

(** C39: an entry type above 4 does not end the scan, as the message after
    the loop expects: the [break] only leaves the [switch], so the loop looks
    at the same entry for ever. However many rounds are allowed, [mpinit]
    does not return. *)
Theorem mpinit_unknown_entry m mp conf len la es ty s st fuel :
  found_at m mp conf len la -> Forall entry_ok es ->
  bytes_at m (conf + 44) (table_bytes es ++ [ty]) -> 4 < ty ->
  44 + Z.of_nat (length (table_bytes es)) < len ->
  mpinit fuel m s st = Err Fuel.
Proof.
  intros Hf Hok Hb Hty Hlen. unfold mpinit. rewrite (mpconfig_found _ _ _ _ _ Hf). mret.
  destruct Hf as [_ _ _ Hc [_ _ Hl Hla _] _]. rewrite (proj2 (Z.eqb_neq _ _) Hc).
  unfold mpconf_lapicaddr, mpconf_length, sizeof_mpconf. mret. rewrite Hla. mret. rewrite Hl. mret.
  apply bytes_at_app in Hb as [Hb1 [Hb2 _]%bytes_at_cons].
  erewrite (mp_loop_stuck_after m es) by (done || lia). done.
Qed.

(** Without a configuration table [mpinit] prints that it expects one
    and goes on with a null pointer: the local APIC's address is the word at
    physical address 36. *)
Theorem mpinit_no_table m s st fuel s' st' :
  mpsearch m = Ok 0 -> mpinit fuel m s st = Ok (s', st') -> load32 m 36 = Ok (lapic st').
Proof.
  intros Hs H. unfold mpinit, mpconfig, mpconf_at in H. rewrite Hs in H. mret_in H.
  change (0 =? 0) with true in H. mret_in H. cbn iota in H.
  apply res_bind_ok in H as (s1 & _ & H). apply res_bind_ok in H as (la & Hla & H).
  apply res_bind_ok in H as (len & _ & H). apply res_bind_ok in H as ([st1 b] & Hl & H).
  apply res_bind_ok in H as (s2 & _ & [= _ <-]). apply mp_loop_lapic in Hl. by rewrite Hl.
Qed.

(** [mycpu] returns the first of the recorded processors with the
    running processor's APIC id, after a warning when interrupts are enabled;
    for an id that was not recorded it returns no value. *)
Theorem mycpu_finds st s eflags a :
  length (cpus st) = 64%nat -> 0 <= ncpu st <= 64 ->
  mycpu st s eflags a =
  match list_find (fun x => x = a) (take (Z.to_nat (ncpu st)) (cpus st)) with
  | Some (i, _) =>
      Ok (if Z.land eflags FL_IF =? 0 then s
          else send s (line "mycpu called with interrupts enabled"), Z.of_nat i)
  | None => Err Undef
  end.
Proof.
  intros Hl Hn. unfold mycpu.
  assert (Hs : (if negb (Z.land eflags FL_IF =? 0)
    then say no_strs s (line "mycpu called with interrupts enabled") [] else Ok s) =
    Ok (if Z.land eflags FL_IF =? 0 then s
        else send s (line "mycpu called with interrupts enabled"))).
  { destruct (_ =? 0); [done|]. cbn [negb]. apply say_plain; vm_compute; (reflexivity || lia). }
  rewrite Hs. mret.
  pose proof (find_cpu_list st a (Z.to_nat (ncpu st)) 0 ltac:(lia)) as Hfc.
  change (Z.of_nat 0) with 0 in Hfc. rewrite Hfc. mret.
  rewrite drop_0. destruct (list_find _ _) as [[i x]|]; [done|].
  cbn [fmap option_fmap option_map]. rewrite say_plain; [done|vm_compute; reflexivity|vm_compute; lia].
Qed.

(** ** Witnesses *)

(** A machine with two processors and an I/O APIC: the structure is in the
    extended BIOS data area at 0x9f000, the table at 0x500. *)
Definition demo_entries : list mpentry :=
  [EProc 3 (replicate 18 0); EMisc MPBUS (replicate 7 0); EProc 5 (replicate 18 0);
   EIoapic 9 (replicate 6 0)].

Definition demo_conf (tail : list Z) (len chk : Z) : list Z :=
  bytes_of_string "PCMP" ++ le_bytes 2 len ++ [4; chk] ++ replicate 28 0 ++
  le_bytes 4 4276092928 ++ replicate 4 0 ++ tail.

Definition demo_fps : list Z :=
  bytes_of_string "_MP_" ++ le_bytes 4 1280 ++ [1; 4; 155; 0; 0; 0; 0; 0].

(** The table with a checksum that makes its bytes add up to zero. *)
Definition demo_machine (tail : list Z) : mem :=
  let len := 44 + Z.of_nat (length tail) in
  let chk := u8 (- list_sum (demo_conf tail len 0)) in
  write_bytes (write_bytes (write_bytes ∅ 1038 [0; 159]) 1280 (demo_conf tail len chk))
    651264 (demo_fps ++ replicate 8 0).

Lemma demo_found m tail len chk :
  len = 44 + Z.of_nat (length tail) -> chk = u8 (- list_sum (demo_conf tail len 0)) ->
  bool_decide (mem_wf m) = true ->
  bool_decide (bytes_at m 1280 (demo_conf tail len chk)) = true ->
  mpsearch m = Ok 651264 ->
  load32 m 651268 = Ok 1280 ->
  load16 m 1284 = Ok len ->
  list_sum (demo_conf tail len chk) mod 256 = 0 ->
  found_at m 651264 1280 len 4276092928.
Proof.
  intros Hlen Hchk Hwf Hb Hs Ha Hl Hsum.
  apply bool_decide_eq_true in Hwf, Hb. split; try done. split; try done.
  - eapply bytes_at_app, Hb.
  - right. apply (Hb 6%nat). reflexivity.
  - unfold demo_conf in Hb. rewrite !app_assoc in Hb. apply bytes_at_app in Hb as [Hb _].
    rewrite <- !app_assoc in Hb.
    do 4 (apply bytes_at_app in Hb as [_ Hb]). apply bytes_at_app in Hb as [Hb _].
    apply (load_le_ok _ (1280 + 36)) in Hb. exact Hb.
  - eexists. split; [|split; [exact Hb|done]]. rewrite Hlen. unfold demo_conf.
    rewrite !length_app, !length_le_bytes, !length_replicate. simpl. lia.
Qed.

Lemma mpinit_table_witness :
  exists st, mpinit 5 (demo_machine (table_bytes demo_entries)) (mkSerial 0 0 (mkIo [] []))
      (mkMp (replicate 64 0) 0 0 0) = Ok (mkSerial 0 0 (mkIo [] []), st) /\
    lapic st = 4276092928 /\ ncpu st = 2 /\ cpus st !! 1%nat = Some 5 /\ ioapicid st = 9.
Proof.
  destruct (mpinit_table (demo_machine (table_bytes demo_entries)) 651264 1280 100 4276092928
    demo_entries (mkSerial 0 0 (mkIo [] [])) 5) as (st & H & H1 & H2 & H3 & H4).
  - apply (demo_found _ (table_bytes demo_entries) 100 _ eq_refl eq_refl); vm_compute; reflexivity.
  - by repeat constructor.
  - by_eval.
  - reflexivity.
  - vm_compute. lia.
  - exists st. split; [exact H|]. split; [exact H1|]. split; [exact H2|].
    split; [|exact H4]. apply (H3 1%nat 5 eq_refl). lia.
Defined.

Lemma mpinit_unknown_entry_witness :
  mpinit 1000 (demo_machine (replicate 8 7)) (mkSerial 0 0 (mkIo [] []))
    (mkMp (replicate 64 0) 0 0 0) = Err Fuel.
Proof.
  apply (mpinit_unknown_entry (demo_machine (replicate 8 7)) 651264 1280 52 4276092928 [] 7).
  - apply (demo_found _ (replicate 8 7) 52 _ eq_refl eq_refl); vm_compute; reflexivity.
  - constructor.
  - by_eval.
  - lia.
  - vm_compute. reflexivity.
Defined.

Lemma mycpu_finds_witness :
  mycpu (mkMp ([3; 5] ++ replicate 62 0) 2 0 0) (mkSerial 0 0 (mkIo [] [])) 2 5 =
  Ok (mkSerial 0 0 (mkIo [] []), 1).
Proof. rewrite mycpu_finds by (done || (cbn; lia)). reflexivity. Defined.

(** A memory with the BIOS data and the searched areas, the structure in the
    read-only memory. *)
Definition demo_rom : mem :=
  write_bytes (write_bytes (write_bytes (write_bytes ∅ 1038 [0; 0; 0; 0; 0; 127; 2])
    653312 (replicate 1024 0)) 983040 (replicate (Z.to_nat 65536) 0)) 983072 demo_fps.

Lemma mpsearch_areas_witness :
  exists q1 q2, first_mp demo_rom 653312 64 q1 /\ first_mp demo_rom 983040 4096 q2 /\
    mpsearch demo_rom = Ok (if q1 =? 0 then q2 else q1).
Proof.
  apply (mpsearch_areas demo_rom 0 0 2 127); [by_eval|by_eval|by_eval|done|by_eval|by_eval].
Defined.
