(* ===== verification/Desc.v ===== *)
(** * x86_64/desc.c: the interrupt descriptor table and exceptions

    [set_idt_entry] and [setup_idt] write gates into [boot_idt]; the entry
    stubs (macros EX and EX_E) and [__handle_exception] are the source's
    assembly, as a list of instructions run on a stack in memory; the C side
    is [do_handle_exception], the table of handlers and
    [check_exception_table], which resumes a faulting instruction at its
    fixup address. The processor's own part, delivering an exception and
    [iretq], follows the Intel SDM, volume 3, chapter 6.

    The linker's symbols ([boot_idt], the stubs' addresses, the exception
    table's bounds), the GS base and the handlers that are not in desc.c are
    parameters. *)

From stdpp Require Import base gmap list numbers strings.
From Stdlib Require Import ZArith Lia.
From S2P Require Import Prelude Mem CString Printf Serial Stdio.

#[local] Open Scope Z_scope.

(** ** Gates *)

(** Stores [v] into the bit field of [width] bits from bit [lo] on of the
    16-bit word at [a]. *)
Definition store_bits16 (m : mem) (a lo width v : Z) : res mem :=
  w ← load16 m a;
  let field := Z.shiftl (Z.ones width) lo in
  store16 m a (Z.lor (Z.land w (Z.lnot field)) (Z.shiftl (v mod 2 ^ width) lo)).

(** [boot_idt] is the table's address, [cs] what [read_cs] returns; an entry
    has 16 bytes and [vec] is not checked. *)
Definition set_idt_entry (m : mem) (boot_idt cs vec addr dpl : Z) : res mem :=
  let e := boot_idt + 16 * vec in
  m ← memset m e 0 16;
  m ← store16 m e addr;
  m ← store16 m (e + 2) cs;
  m ← store_bits16 m (e + 4) 0 3 0;
  m ← store_bits16 m (e + 4) 8 4 14;
  m ← store_bits16 m (e + 4) 13 2 dpl;
  m ← store_bits16 m (e + 4) 15 1 1;
  m ← store16 m (e + 6) (Z.shiftr addr 16);
  store32 m (e + 8) (Z.shiftr addr 32).

(** ** Saved registers *)

(** [struct ex_regs], as offsets from its start. *)
Definition ex_vector : Z := 128.
Definition ex_error_code : Z := 136.
Definition ex_rip : Z := 144.
Definition ex_cs : Z := 152.
Definition ex_rflags : Z := 160.

(** ** The message of an unhandled exception *)

Definition exception_mnemonic (vector : Z) : string :=
  match vector with
  | 0 => "#DE" | 1 => "#DB" | 2 => "#NMI" | 3 => "#BP" | 4 => "#OF" | 5 => "#BR"
  | 6 => "#UD" | 7 => "#NM" | 8 => "#DF" | 10 => "#TS" | 11 => "#NP" | 12 => "#SS"
  | 13 => "#GP" | 14 => "#PF" | 16 => "#MF" | 17 => "#AC" | 18 => "#MC" | 19 => "#XM"
  | _ => "#??"
  end.

(** The registers of the message: those of [struct ex_regs] as the list of its
    words, and the control registers 0, 2, 3, 4 and 8. *)
Definition unhandled_formats : list Z :=
  line "error_code=%04lx      rflags=%08lx      cs=%08lx" ++
  line "rax=%016lx rcx=%016lx rdx=%016lx rbx=%016lx" ++
  line "rbp=%016lx rsi=%016lx rdi=%016lx" ++
  line " r8=%016lx  r9=%016lx r10=%016lx r11=%016lx" ++
  line "r12=%016lx r13=%016lx r14=%016lx r15=%016lx" ++
  line "cr0=%016lx cr2=%016lx cr3=%016lx cr4=%016lx" ++
  line "cr8=%016lx".

Definition word (ws : list Z) (i : nat) : Z := nth i ws 0.

(** What [unhandled_exception] prints before it loops. *)
Definition unhandled_report (s : serial) (ws : list Z) (crs : list Z) (cpu : bool) : res serial :=
  let vector := word ws 16 in
  let strs a := if a =? 1 then Some (bytes_of_string (if cpu then "cpu " else ""))
                else if a =? 2 then Some (bytes_of_string (exception_mnemonic (s32 vector)))
                else None in
  s ← say strs s (line "Unhandled %sexception %ld %s at ip %016lx") [1; vector; 2; word ws 18];
  s ← (if vector =? 14
       then say no_strs s (line "PF at %#lx addr %#lx") [word ws 18; word crs 1] else Ok s);
  say no_strs s unhandled_formats
    ([word ws 17; word ws 20; word ws 19; word ws 0; word ws 1; word ws 2; word ws 3;
      word ws 5; word ws 6; word ws 7; word ws 8; word ws 9; word ws 10; word ws 11;
      word ws 12; word ws 13; word ws 14; word ws 15] ++
     [word crs 0; word crs 1; word crs 2; word crs 3; word crs 4]).

Definition unhandled_exception (s : serial) (ws crs : list Z) (cpu : bool) : res unit :=
  _ ← unhandled_report s ws crs cpu; Err Hang.

(** ** Handlers *)

(** A function pointer of [exception_handlers]. *)
Inductive handler :=
  | Hnull
  | Hcheck_table
  | Hother (fn : Z).

#[export] Instance handler_eq_dec : EqDecision handler.
Proof. solve_decision. Defined.

Section Handlers.

(** The exception table's bounds, the GS base, the code of the handlers other
    components install, and what a report of an unhandled exception goes to
    and reads: the line and the control registers. *)
Context (exception_table_start exception_table_end gs : Z).
Context (call_other : Z -> mem -> Z -> res mem).
Context (ser : serial) (crs : list Z).

(** The words of a structure in memory. *)
Fixpoint load_words (n : nat) (m : mem) (a : Z) : res (list Z) :=
  match n with
  | O => Ok []
  | S n' => w ← load64 m a; ws ← load_words n' m (a + 8); Ok (w :: ws)
  end.

(** [unhandled_exception(regs, cpu)] on the structure in memory; it does not
    return. *)
Definition unhandled (m : mem) (regs : Z) (cpu : bool) : res mem :=
  ws ← load_words 21 m regs; _ ← unhandled_exception ser ws crs cpu; Ok m.

(** The loop over the exception table; a record is the address of an
    instruction and its fixup. *)
Fixpoint ex_loop (fuel : nat) (m : mem) (regs ex : Z) : res mem :=
  match fuel with
  | O => Err Fuel
  | S f =>
      if ex =? exception_table_end then unhandled m regs false
      else
        rip ← load64 m ex;
        cur ← load64 m (regs + ex_rip);
        if rip =? cur then fixup ← load64 m (ex + 8); store64 m (regs + ex_rip) fixup
        else ex_loop f m regs (ex + 16)
  end.

Definition check_exception_table (m : mem) (regs : Z) : res mem :=
  vector ← load64 m (regs + ex_vector);
  error_code ← load64 m (regs + ex_error_code);
  rflags ← load64 m (regs + ex_rflags);
  let ex_val := u32 (Z.lor (Z.lor vector (u64 (Z.shiftl error_code 16)))
                       (Z.shiftl (Z.land (Z.shiftr rflags 16) 1) 8)) in
  m ← store32 m (gs + 4) ex_val;
  ex_loop (S (Z.to_nat ((exception_table_end - exception_table_start) / 16))) m regs
    exception_table_start.

(** The result is the new array and the old handler; [v] is a [u8]. *)
Definition handle_exception (hs : list handler) (v : Z) (fn : handler)
    : res (list handler * handler) :=
  old ← of_option Undef (hs !! Z.to_nat v);
  Ok (if v <? 256 then <[Z.to_nat v := fn]> hs else hs, old).

Definition do_handle_exception (hs : list handler) (m : mem) (regs : Z) : res mem :=
  vector ← load64 m (regs + ex_vector);
  h ← (if vector <? 256 then of_option Undef (hs !! Z.to_nat vector) else Ok Hnull);
  match h with
  | Hnull => unhandled m regs true
  | Hcheck_table => check_exception_table m regs
  | Hother fn => call_other fn m regs
  end.

Definition exception_vector (m : mem) : res Z := load8 m (gs + 4).
Definition exception_rflags_rf (m : mem) : res bool :=
  b ← load8 m (gs + 5); Ok (Z.land b 1 =? 1).

End Handlers.

(** ** Setting up *)

(** The stubs of [idt_handlers] and their vectors. *)
Definition fault_vectors : list Z := [0; 1; 2; 3; 4; 5; 6; 7; 8; 10; 11; 12; 13; 14; 16; 17; 18; 19].

Section Setup.

Context (boot_idt cs : Z) (stub : Z -> Z).

(** [idt_handlers[i]], null where there is no initialiser. *)
Definition idt_handlers (i : Z) : Z :=
  if bool_decide (i ∈ fault_vectors) then stub i else 0.

(** [for (i = 0; i < 32; i++)], from [i] on. *)
Fixpoint gates_loop (n : nat) (m : mem) (i : Z) : res mem :=
  match n with
  | O => Ok m
  | S n' =>
      m ← (if idt_handlers i =? 0 then Ok m else set_idt_entry m boot_idt cs i (idt_handlers i) 0);
      gates_loop n' m (i + 1)
  end.

Record idt_state := mkIdt {
  idt_initialized : bool;
  exception_handlers : list handler;
  idtr : Z * Z;
}.

(** [lidt(boot_idt, sizeof(boot_idt))]: the base and the 16-bit limit. *)
Definition lidt (base size : Z) : Z * Z := (base, u16 size).

Definition setup_idt (m : mem) (st : idt_state) : res (mem * idt_state) :=
  if idt_initialized st then Ok (m, st)
  else
    m ← gates_loop 32 m 0;
    '(hs, _) ← handle_exception (exception_handlers st) 0 Hcheck_table;
    '(hs, _) ← handle_exception hs 6 Hcheck_table;
    '(hs, _) ← handle_exception hs 13 Hcheck_table;
    Ok (m, mkIdt true hs (lidt boot_idt (16 * 256))).

End Setup.

(** ** The entry code *)

Inductive reg :=
  | RAX | RCX | RDX | RBX | RBP | RSI | RDI
  | R8 | R9 | R10 | R11 | R12 | R13 | R14 | R15.

#[export] Instance reg_eq_dec : EqDecision reg.
Proof. solve_decision. Defined.

Record cpu := mkCpu {
  gpr : reg -> Z;
  rsp : Z;
  rip : Z;
  cs_sel : Z;
  rflags : Z;
  ss_sel : Z;
}.

Definition set_gpr (c : cpu) (r : reg) (v : Z) : cpu :=
  mkCpu (fun r' => if decide (r = r') then v else gpr c r') (rsp c) (rip c) (cs_sel c)
    (rflags c) (ss_sel c).
Definition set_rsp (c : cpu) (v : Z) : cpu :=
  mkCpu (gpr c) v (rip c) (cs_sel c) (rflags c) (ss_sel c).

Inductive instr :=
  | Push (r : reg)
  | PushI (n : Z)
  | Pop (r : reg)
  | SubSp (n : Z)
  | AddSp (n : Z).

Definition push_word (m : mem) (c : cpu) (v : Z) : res (mem * cpu) :=
  m ← store64 m (rsp c - 8) v; Ok (m, set_rsp c (rsp c - 8)).

Definition exec (m : mem) (c : cpu) (i : instr) : res (mem * cpu) :=
  match i with
  | Push r => push_word m c (gpr c r)
  | PushI n => push_word m c n
  | Pop r => v ← load64 m (rsp c); Ok (m, set_gpr (set_rsp c (rsp c + 8)) r v)
  | SubSp n => Ok (m, set_rsp c (rsp c - n))
  | AddSp n => Ok (m, set_rsp c (rsp c + n))
  end.

Fixpoint exec_all (m : mem) (c : cpu) (code : list instr) : res (mem * cpu) :=
  match code with
  | [] => Ok (m, c)
  | i :: code' => '(m, c) ← exec m c i; exec_all m c code'
  end.

(** The vectors whose stub is EX_E; the others use EX, which pushes a zero in
    place of the error code. *)
Definition ex_e_vectors : list Z := [8; 10; 11; 12; 13; 14; 17].

Definition stub_code (v : Z) : list instr :=
  if bool_decide (v ∈ ex_e_vectors) then [PushI v] else [PushI 0; PushI v].

Definition save_code : list instr :=
  [Push R15; Push R14; Push R13; Push R12; Push R11; Push R10; Push R9; Push R8;
   Push RDI; Push RSI; Push RBP; SubSp 8; Push RBX; Push RDX; Push RCX; Push RAX].

Definition restore_code : list instr :=
  [Pop RAX; Pop RCX; Pop RDX; Pop RBX; AddSp 8; Pop RBP; Pop RSI; Pop RDI;
   Pop R8; Pop R9; Pop R10; Pop R11; Pop R12; Pop R13; Pop R14; Pop R15; AddSp 8; AddSp 8].

(** [iretq] pops five words. *)
Definition iretq (m : mem) (c : cpu) : res cpu :=
  ip ← load64 m (rsp c);
  code ← load64 m (rsp c + 8);
  fl ← load64 m (rsp c + 16);
  sp ← load64 m (rsp c + 24);
  stk ← load64 m (rsp c + 32);
  Ok (mkCpu (gpr c) sp ip code fl stk).

(** The processor aligns the stack and pushes the interrupted state, and the
    error code of the vectors that have one. *)
Definition hw_error_code (v : Z) : bool := bool_decide (v ∈ [8; 10; 11; 12; 13; 14; 17]).

Definition deliver (m : mem) (c : cpu) (v err : Z) : res (mem * cpu) :=
  let sp := rsp c in
  let c1 := set_rsp c (sp - sp mod 16) in
  '(m, c1) ← push_word m c1 (ss_sel c);
  '(m, c1) ← push_word m c1 sp;
  '(m, c1) ← push_word m c1 (rflags c);
  '(m, c1) ← push_word m c1 (cs_sel c);
  '(m, c1) ← push_word m c1 (rip c);
  if hw_error_code v then push_word m c1 err else Ok (m, c1).

(** An exception from its delivery to the instruction after [iretq]; the C
    code leaves [clobbered] in the registers it does not preserve. *)
Definition run_exception (ts te gs : Z) (call_other : Z -> mem -> Z -> res mem)
    (ser : serial) (crs : list Z) (hs : list handler) (clobbered : reg -> Z) (m : mem) (c : cpu) (v err : Z)
    : res (mem * cpu) :=
  '(m, c) ← deliver m c v err;
  '(m, c) ← exec_all m c (stub_code v);
  '(m, c) ← exec_all m c save_code;
  m ← do_handle_exception ts te gs call_other ser crs hs m (rsp c);
  let c := mkCpu clobbered (rsp c) (rip c) (cs_sel c) (rflags c) (ss_sel c) in
  '(m, c) ← exec_all m c restore_code;
  c ← iretq m c;
  Ok (m, c).

(** ** Words on the stack *)

(** The 64-bit words [ws] are stored from [a] on. *)
Fixpoint words_at (m : mem) (a : Z) (ws : list Z) : Prop :=
  match ws with
  | [] => True
  | w :: ws' => load64 m a = Ok w /\ words_at m (a + 8) ws'
  end.

Definition word_ok (w : Z) : Prop := 0 <= w < 2 ^ 64.

Lemma words_at_lookup m a ws i w :
  words_at m a ws -> ws !! i = Some w -> load64 m (a + 8 * Z.of_nat i) = Ok w.
Proof.
  revert a i. induction ws as [|x ws IH]; intros a [|i] H Hi; try done; simpl in *.
  - injection Hi as ->. rewrite Z.add_0_r. apply H.
  - rewrite <- (IH (a + 8) i) by (done || apply H). f_equal. lia.
Qed.

Lemma words_at_frame m m' a ws :
  (forall x, a <= x < a + 8 * Z.of_nat (length ws) -> m' !! x = m !! x) ->
  words_at m a ws -> words_at m' a ws.
Proof.
  revert a. induction ws as [|w ws IH]; intros a Hf H; [done|]. cbn [words_at length] in *.
  destruct H as [H1 H2]. split.
  - rewrite <- H1. apply load64_frame. intros x Hx. apply Hf. lia.
  - apply IH; [|done]. intros x Hx. apply Hf. lia.
Qed.

Lemma words_at_update m a ws i w :
  words_at m a ws -> (i < length ws)%nat -> word_ok w ->
  words_at (write_bytes m (a + 8 * Z.of_nat i) (le_bytes 8 w)) a (<[i := w]> ws).
Proof.
  intros H Hi Hw. revert a i H Hi. induction ws as [|x ws IH]; intros a [|i] H Hi; try (simpl in Hi; lia).
  - cbn [insert list_insert words_at] in *. rewrite Z.add_0_r. split; [by apply load64_same|].
    eapply words_at_frame; [|apply H]. intros y Hy. apply write64_out. lia.
  - cbn [insert list_insert words_at] in *. destruct H as [H1 H2]. split.
    + rewrite <- H1. apply load64_frame. intros y Hy. apply write64_out. lia.
    + replace (a + 8 * Z.of_nat (S i)) with (a + 8 + 8 * Z.of_nat i) by lia.
      apply IH; [done|]. simpl in Hi. lia.
Qed.

(** ** Running the entry code *)

(** The words the saving instructions leave on the stack, the top first;
    [junk] is the word [SubSp] skips. *)
Lemma push_spec m c v ws :
  words_at m (rsp c) ws -> word_ok v -> mapped m (rsp c - 8) 8 ->
  exists m', push_word m c v = Ok (m', set_rsp c (rsp c - 8)) /\
    words_at m' (rsp c - 8) (v :: ws) /\ same_dom m m' /\
    agree_outside (rsp c - 8) (rsp c) m m'.
Proof.
  intros Hw Hv Hm. unfold push_word.
  destruct (store64_ok m (rsp c - 8) v Hm) as (m' & -> & ->). mret.
  eexists. split; [done|]. cbn [words_at]. replace (rsp c - 8 + 8) with (rsp c) by lia.
  split; [split; [by apply load64_same|]|split; [by apply write64_dom|]].
  - eapply words_at_frame; [|exact Hw]. intros x Hx. apply write64_out. lia.
  - intros x Hx. apply write64_out. lia.
Qed.

(** The value a saving instruction leaves on the stack. *)
Definition saves (c : cpu) (i : instr) (v : Z) : Prop :=
  match i with
  | Push r => v = gpr c r
  | PushI n => v = n
  | SubSp n => n = 8
  | _ => False
  end.

Definition cpu_ok (c : cpu) : Prop :=
  (forall r, word_ok (gpr c r)) /\ word_ok (rsp c) /\ word_ok (rip c) /\ word_ok (cs_sel c) /\
  word_ok (rflags c) /\ word_ok (ss_sel c).

Lemma set_rsp_twice c a b : set_rsp (set_rsp c a) b = set_rsp c b.
Proof. done. Qed.

Lemma exec_saves code : forall m c ws,
  Forall (fun i => match i with Push _ => True | PushI n => word_ok n | SubSp n => n = 8
                   | _ => False end) code ->
  (forall r, word_ok (gpr c r)) -> words_at m (rsp c) ws ->
  mapped m (rsp c - 8 * Z.of_nat (length code)) (8 * Z.of_nat (length code)) ->
  exists m' vals, exec_all m c code = Ok (m', set_rsp c (rsp c - 8 * Z.of_nat (length code))) /\
    Forall2 (saves c) code vals /\
    words_at m' (rsp c - 8 * Z.of_nat (length code)) (rev vals ++ ws) /\ same_dom m m' /\
    agree_outside (rsp c - 8 * Z.of_nat (length code)) (rsp c) m m'.
Proof.
  induction code as [|i code IH]; intros m c ws Hc Hr Hw Hm; cbn [exec_all length] in *.
  - exists m, []. rewrite Z.sub_0_r. split; [by destruct c|]. split; [done|]. split; [done|].
    split; [done|]. by intros x Hx.
  - apply Forall_cons in Hc as [Hi Hc].
    assert (Hstep : exists m1 v, exec m c i = Ok (m1, set_rsp c (rsp c - 8)) /\ saves c i v /\
      words_at m1 (rsp c - 8) (v :: ws) /\ same_dom m m1 /\ agree_outside (rsp c - 8) (rsp c) m m1).
    { assert (Hm1 : mapped m (rsp c - 8) 8) by (eapply mapped_sub; [exact Hm| |]; lia).
      destruct i as [r|n|r|n|n]; cbn [exec saves]; try done.
      - destruct (push_spec m c (gpr c r) ws) as (m1 & H1 & H2); eauto 10.
      - destruct (push_spec m c n ws) as (m1 & H1 & H2); eauto 10.
      - subst n. destruct (load_le_total 8 m (rsp c - 8) Hm1) as [v Hv].
        exists m, v. split; [done|]. split; [done|]. split; [|split; [done|by intros x Hx]].
        cbn [words_at]. replace (rsp c - 8 + 8) with (rsp c) by lia. done. }
    destruct Hstep as (m1 & v & -> & Hsv & Hw1 & Hd1 & Ha1). mret.
    destruct (IH m1 (set_rsp c (rsp c - 8)) (v :: ws)) as (m2 & vals & H2 & Hs2 & Hw2 & Hd2 & Ha2);
      [done|done|done| |].
    + rewrite <- Hd1. cbn [rsp set_rsp]. eapply mapped_sub; [exact Hm| |]; lia.
    + cbn [rsp set_rsp] in *. rewrite set_rsp_twice in H2.
      replace (rsp c - 8 - 8 * Z.of_nat (length code)) with (rsp c - 8 * Z.of_nat (S (length code)))
        in * by lia.
      exists m2, (v :: vals). split; [done|]. split; [by constructor|].
      split; [cbn [rev]; by rewrite <- app_assoc|]. split; [by rewrite Hd1|].
      intros x Hx. rewrite Ha2, Ha1 by lia. done.
Qed.

(** What the restoring instructions make of the words on the stack. *)
Fixpoint pops (c : cpu) (code : list instr) (ws : list Z) : cpu :=
  match code, ws with
  | Pop r :: code', w :: ws' => pops (set_gpr (set_rsp c (rsp c + 8)) r w) code' ws'
  | AddSp n :: code', _ :: ws' => pops (set_rsp c (rsp c + n)) code' ws'
  | _, _ => c
  end.

Lemma exec_pops code : forall m c ws rest,
  Forall (fun i => match i with Pop _ => True | AddSp n => n = 8 | _ => False end) code ->
  length ws = length code -> words_at m (rsp c) (ws ++ rest) ->
  exec_all m c code = Ok (m, pops c code ws).
Proof.
  induction code as [|i code IH]; intros m c [|w ws] rest Hc Hl Hw; try done.
  apply Forall_cons in Hc as [Hi Hc]. cbn [app words_at] in Hw. destruct Hw as [H1 H2].
  cbn [exec_all]. destruct i as [r|n|r|n|n]; cbn [exec]; try done.
  - rewrite H1. mret. cbn [pops]. by apply (IH _ _ _ rest); [|injection Hl as ->|].
  - subst n. mret. cbn [pops]. by apply (IH _ _ _ rest); [|injection Hl as ->|].
Qed.

(** The frame of an exception: [struct ex_regs] and the rest of what the
    processor pushed. *)
Definition frame (c : cpu) (junk v err : Z) : list Z :=
  [gpr c RAX; gpr c RCX; gpr c RDX; gpr c RBX; junk; gpr c RBP; gpr c RSI; gpr c RDI;
   gpr c R8; gpr c R9; gpr c R10; gpr c R11; gpr c R12; gpr c R13; gpr c R14; gpr c R15;
   v; err; rip c; cs_sel c; rflags c; rsp c; ss_sel c].

(** The address of the saved registers. *)
Definition frame_addr (c : cpu) : Z := rsp c - rsp c mod 16 - 184.

Lemma deliver_frame m c v err :
  cpu_ok c -> word_ok err -> mapped m (rsp c - rsp c mod 16 - 48) 48 ->
  exists m' n, deliver m c v err = Ok (m', set_rsp c (rsp c - rsp c mod 16 - n)) /\
    n = (if hw_error_code v then 48 else 40) /\
    words_at m' (rsp c - rsp c mod 16 - n)
      ((if hw_error_code v then [err] else []) ++ [rip c; cs_sel c; rflags c; rsp c; ss_sel c]) /\
    same_dom m m' /\ agree_outside (rsp c - rsp c mod 16 - 48) (rsp c - rsp c mod 16) m m'.
Proof.
  intros (Hg & Hsp & Hip & Hcs & Hfl & Hss) He Hm. unfold deliver.
  set (sp := rsp c - rsp c mod 16) in *.
  assert (Hpush : forall m1 k v ws, words_at m1 (sp - 8 * k) ws -> word_ok v -> same_dom m m1 ->
    agree_outside (sp - 48) sp m m1 -> 0 <= k <= 5 ->
    exists m2, push_word m1 (set_rsp c (sp - 8 * k)) v = Ok (m2, set_rsp c (sp - 8 * (k + 1))) /\
      words_at m2 (sp - 8 * (k + 1)) (v :: ws) /\ same_dom m m2 /\ agree_outside (sp - 48) sp m m2).
  { intros m1 k w ws Hw Hok Hd Ha Hk.
    destruct (push_spec m1 (set_rsp c (sp - 8 * k)) w ws) as (m2 & H2 & Hw2 & Hd2 & Ha2);
      [done|done|rewrite <- Hd; cbn [rsp set_rsp]; eapply mapped_sub; [exact Hm| |]; lia|].
    cbn [rsp set_rsp] in *. rewrite set_rsp_twice in H2.
    replace (sp - 8 * k - 8) with (sp - 8 * (k + 1)) in * by lia.
    exists m2. split; [done|]. split; [done|]. split; [by rewrite Hd|].
    intros x Hx. rewrite Ha2 by lia. by apply Ha. }
  destruct (Hpush m 0 (ss_sel c) []) as (m1 & E1 & W1 & D1 & A1); [done|done|done|by intros x Hx|lia|].
  rewrite Z.mul_0_r, Z.sub_0_r in E1. rewrite E1. mret. clear E1.
  destruct (Hpush m1 1 (rsp c) _ W1 Hsp D1 A1 ltac:(lia)) as (m2 & E2 & W2 & D2 & A2).
  change (0 + 1) with 1. rewrite E2. mret.
  destruct (Hpush m2 2 (rflags c) _ W2 Hfl D2 A2 ltac:(lia)) as (m3 & E3 & W3 & D3 & A3).
  change (1 + 1) with 2. rewrite E3. mret.
  destruct (Hpush m3 3 (cs_sel c) _ W3 Hcs D3 A3 ltac:(lia)) as (m4 & E4 & W4 & D4 & A4).
  change (2 + 1) with 3. rewrite E4. mret.
  destruct (Hpush m4 4 (rip c) _ W4 Hip D4 A4 ltac:(lia)) as (m5 & E5 & W5 & D5 & A5).
  change (3 + 1) with 4. rewrite E5. mret. change (4 + 1) with 5.
  destruct (hw_error_code v).
  - destruct (Hpush m5 5 err _ W5 He D5 A5 ltac:(lia)) as (m6 & E6 & W6 & D6 & A6).
    rewrite E6. exists m6, 48. done.
  - exists m5, 40. done.
Qed.

(** The error code the handler sees. *)
Definition seen_error (v err : Z) : Z := if hw_error_code v then err else 0.

(** Delivery, stub and saving instructions build the frame, whether or not
    the processor pushes an error code. *)
Lemma entry_frame m c v err :
  cpu_ok c -> word_ok err -> word_ok v -> mapped m (frame_addr c) 184 ->
  exists m' junk,
    ('(m, c) ← deliver m c v err; '(m, c) ← exec_all m c (stub_code v); exec_all m c save_code) =
    Ok (m', set_rsp c (frame_addr c)) /\
    words_at m' (frame_addr c) (frame c junk v (seen_error v err)) /\ same_dom m m' /\
    agree_outside (frame_addr c) (frame_addr c + 184) m m'.
Proof.
  intros Hc He Hv Hm. unfold frame_addr in *. set (sp := rsp c - rsp c mod 16) in *.
  destruct (deliver_frame m c v err Hc He) as (m1 & n & -> & Hn & W1 & D1 & A1);
    [fold sp; eapply mapped_sub; [exact Hm| |]; lia|].
  mret. fold sp in W1, A1 |- *. pose proof Hc as [Hg _].
  set (hw := (if hw_error_code v then [err] else []) ++ _) in W1.
  destruct (exec_saves (stub_code v ++ save_code) m1 (set_rsp c (sp - n)) hw) as
    (m2 & vals & E2 & S2 & W2 & D2 & A2); [| |exact W1| |].
  - unfold stub_code. destruct (bool_decide _); cbn [app save_code];
      repeat (apply Forall_cons_2; [first [exact I|done|exact Hv|unfold word_ok; lia]|]); by apply Forall_nil_2.
  - done.
  - rewrite <- D1. cbn [rsp set_rsp]. eapply mapped_sub; [exact Hm| |].
    all: subst n; unfold stub_code, hw_error_code, ex_e_vectors; destruct (bool_decide _); simpl; lia.
  - assert (Hlen : sp - n - 8 * Z.of_nat (length (stub_code v ++ save_code)) = sp - 184).
    { subst n. unfold stub_code, hw_error_code, ex_e_vectors. destruct (bool_decide _); simpl; lia. }
    cbn [rsp set_rsp] in *. rewrite set_rsp_twice, Hlen in *.
    assert (Happ : forall code1 code2 m c, exec_all m c (code1 ++ code2) =
      ('(m, c) ← exec_all m c code1; exec_all m c code2)).
    { induction code1 as [|i code1 IH]; intros code2 m0 c0; [done|]. cbn [app exec_all].
      rewrite res_bind_assoc. destruct (exec m0 c0 i) as [[m3 c3]|]; mret; [apply IH|done]. }
    rewrite Happ in E2. rewrite E2.
    assert (Hvals : exists junk, rev vals ++ hw = frame c junk v (seen_error v err)).
    { clear -S2. unfold hw, stub_code, seen_error, hw_error_code, ex_e_vectors in *.
      destruct (bool_decide _); unfold save_code in S2; cbn [app] in S2.
      all: repeat (apply Forall2_cons_inv_l in S2 as (? & ? & ? & S2 & ->)).
      all: apply Forall2_nil_inv_l in S2 as ->; cbn [saves gpr set_rsp] in *; subst.
      all: eexists; reflexivity. }
    destruct Hvals as [junk Hvals]. rewrite Hvals in W2.
    exists m2, junk. split; [done|]. split; [done|]. split; [by rewrite D1|].
    intros x Hx. rewrite A2, A1 by (subst n; destruct (hw_error_code v); lia). done.
Qed.

(** The way back: the registers are what the frame holds then. *)
Lemma exit_frame m c sp ax cx dx bx j bp si di r8 r9 r10 r11 r12 r13 r14 r15 v e ip code fl sp' stk :
  words_at m sp [ax; cx; dx; bx; j; bp; si; di; r8; r9; r10; r11; r12; r13; r14; r15;
                 v; e; ip; code; fl; sp'; stk] -> rsp c = sp ->
  exists g, ('(m, c) ← exec_all m c restore_code; c ← iretq m c; Ok (m, c)) =
    Ok (m, mkCpu g sp' ip code fl stk) /\
    forall r, g r = match r with
      | RAX => ax | RCX => cx | RDX => dx | RBX => bx | RBP => bp | RSI => si | RDI => di
      | R8 => r8 | R9 => r9 | R10 => r10 | R11 => r11 | R12 => r12 | R13 => r13 | R14 => r14
      | R15 => r15 end.
Proof.
  intros Hw Hsp.
  rewrite (exec_pops restore_code m c [ax; cx; dx; bx; j; bp; si; di; r8; r9; r10; r11; r12; r13;
    r14; r15; v; e] [ip; code; fl; sp'; stk]); [|by repeat constructor|done|by rewrite Hsp].
  mret. set (c' := pops _ _ _).
  assert (Hrsp : rsp c' = sp + 144) by (subst c'; cbn; lia).
  pose proof (words_at_lookup _ _ _ 18 ip Hw eq_refl) as L0.
  pose proof (words_at_lookup _ _ _ 19 code Hw eq_refl) as L1.
  pose proof (words_at_lookup _ _ _ 20 fl Hw eq_refl) as L2.
  pose proof (words_at_lookup _ _ _ 21 sp' Hw eq_refl) as L3.
  pose proof (words_at_lookup _ _ _ 22 stk Hw eq_refl) as L4.
  unfold iretq. rewrite Hrsp.
  replace (sp + 8 * Z.of_nat 18) with (sp + 144) in L0 by lia.
  replace (sp + 8 * Z.of_nat 19) with (sp + 144 + 8) in L1 by lia.
  replace (sp + 8 * Z.of_nat 20) with (sp + 144 + 16) in L2 by lia.
  replace (sp + 8 * Z.of_nat 21) with (sp + 144 + 24) in L3 by lia.
  replace (sp + 8 * Z.of_nat 22) with (sp + 144 + 32) in L4 by lia.
  rewrite L0. mret. rewrite L1. mret. rewrite L2. mret. rewrite L3. mret. rewrite L4. mret.
  exists (gpr c'). split; [done|]. intros r. by destruct r.
Qed.

(** Two processors in the same state. *)
Record same_cpu (c c' : cpu) : Prop := {
  same_gpr : forall r, gpr c r = gpr c' r;
  same_rsp : rsp c = rsp c';
  same_rip : rip c = rip c';
  same_cs : cs_sel c = cs_sel c';
  same_rflags : rflags c = rflags c';
  same_ss : ss_sel c = ss_sel c';
}.

#[export] Instance same_cpu_equiv : Equivalence same_cpu.
Proof.
  split.
  - intros c. by split.
  - intros c c' [H1 H2 H3 H4 H5 H6]. by split.
  - intros c1 c2 c3 [A1 A2 A3 A4 A5 A6] [B1 B2 B3 B4 B5 B6]. split; etransitivity; eauto.
Qed.

Definition set_rip (c : cpu) (ip : Z) : cpu :=
  mkCpu (gpr c) (rsp c) ip (cs_sel c) (rflags c) (ss_sel c).

(** An exception whose handler leaves the frame as it was but for the saved
    instruction pointer. *)
Lemma run_exception_frame ts te gs other ser crs hs cl m c v err ip' :
  cpu_ok c -> word_ok err -> word_ok v -> mapped m (frame_addr c) 184 ->
  (forall m1 junk, words_at m1 (frame_addr c) (frame c junk v (seen_error v err)) -> same_dom m m1 ->
     agree_outside (frame_addr c) (frame_addr c + 184) m m1 ->
     exists m2, do_handle_exception ts te gs other ser crs hs m1 (frame_addr c) = Ok m2 /\
       words_at m2 (frame_addr c) (<[18%nat := ip']> (frame c junk v (seen_error v err)))) ->
  exists m' c', run_exception ts te gs other ser crs hs cl m c v err = Ok (m', c') /\
    same_cpu c' (set_rip c ip') /\
    exists m1 junk, words_at m1 (frame_addr c) (frame c junk v (seen_error v err)) /\
      same_dom m m1 /\ agree_outside (frame_addr c) (frame_addr c + 184) m m1 /\
      do_handle_exception ts te gs other ser crs hs m1 (frame_addr c) = Ok m'.
Proof.
  intros Hc He Hv Hm Hh.
  destruct (entry_frame m c v err Hc He Hv Hm) as (m1 & junk & E1 & W1 & D1 & A1).
  destruct (Hh m1 junk W1 D1 A1) as (m2 & E2 & W2).
  unfold run_exception.
  destruct (deliver m c v err) as [[ma ca]|]; [|discriminate E1]. mret. mret_in E1.
  destruct (exec_all ma ca (stub_code v)) as [[mb cb]|]; [|discriminate E1]. mret. mret_in E1.
  rewrite E1. mret. cbn [rsp set_rsp]. rewrite E2. mret.
  cbn [frame insert list_insert] in W2.
  destruct (exit_frame m2 (mkCpu cl (frame_addr c) (rip (set_rsp c (frame_addr c)))
    (cs_sel (set_rsp c (frame_addr c))) (rflags (set_rsp c (frame_addr c)))
    (ss_sel (set_rsp c (frame_addr c)))) _ _ _ _ _ _ _ _ _ _ _ _ _ _ _ _ _ _ _ _ _ _ _ _ W2 eq_refl)
    as (g & -> & Hg).
  eexists _, _. split; [done|]. split; [|eauto 10].
  split; cbn [gpr rsp rip cs_sel rflags ss_sel set_rip]; try done.
  intros r. rewrite Hg. by destruct r.
Qed.

(** ** The exception table *)

(** The words of a list of records, instruction and fixup. *)
Definition table_words (recs : list (Z * Z)) : list Z := concat ((fun r => [r.1; r.2]) <$> recs).

Lemma ex_loop_finds te ser crs recs : forall fuel m regs ws ex ip,
  words_at m ex (table_words recs) -> te = ex + 16 * Z.of_nat (length recs) ->
  (length recs < fuel)%nat -> words_at m regs ws -> ws !! 18%nat = Some ip ->
  mapped m (regs + 144) 8 ->
  Forall (fun r => word_ok r.2) recs ->
  match list_find (fun r => r.1 = ip) recs with
  | Some (_, (_, fix_)) =>
      exists m', ex_loop te ser crs fuel m regs ex = Ok m' /\
        words_at m' regs (<[18%nat := fix_]> ws) /\ agree_outside (regs + 144) (regs + 152) m m'
  | None => ex_loop te ser crs fuel m regs ex = unhandled ser crs m regs false
  end.
Proof.
  induction recs as [|[a b] recs IH]; intros [|fuel] m regs ws ex ip Ht Hte Hf Hw Hip Hm Hok;
    try (simpl in Hf; lia); cbn [ex_loop list_find length] in *.
  - by rewrite (proj2 (Z.eqb_eq _ _)) by lia.
  - rewrite (proj2 (Z.eqb_neq _ _)) by lia. unfold table_words in Ht.
    cbn [fmap list_fmap concat app fst snd words_at] in Ht. fold (table_words recs) in Ht.
    destruct Ht as (H1 & H2 & Ht). rewrite H1. mret.
    pose proof (words_at_lookup _ _ _ _ _ Hw Hip) as Hcur.
    replace (regs + 8 * Z.of_nat 18) with (regs + ex_rip) in Hcur by (unfold ex_rip; lia).
    rewrite Hcur. mret. apply Forall_cons in Hok as [Hb Hok]. cbn [fst snd] in *.
    destruct (Z.eqb_spec a ip) as [->|Hne]; case_decide; try done.
    + rewrite H2. mret. destruct (store64_ok m (regs + 144) b Hm) as (m' & E & ->).
      exists (write_bytes m (regs + 144) (le_bytes 8 b)). split; [exact E|]. split.
      * apply (words_at_update m regs ws 18 b); [done|by eapply lookup_lt_Some|done].
      * intros x Hx. apply write64_out. lia.
    + replace (ex + 8 + 8) with (ex + 16) in Ht by lia.
      specialize (IH fuel m regs ws (ex + 16) ip Ht ltac:(lia) ltac:(lia) Hw Hip Hm Hok).
      destruct (list_find _ recs) as [[k [r f]]|]; exact IH.
Qed.

(** The value [check_exception_table] leaves for [exception_vector]. *)
Definition ex_value (v err fl : Z) : Z :=
  u32 (Z.lor (Z.lor v (u64 (Z.shiftl err 16))) (Z.shiftl (Z.land (Z.shiftr fl 16) 1) 8)).

Lemma ex_value_low v err fl : 0 <= v < 256 -> ex_value v err fl mod 256 = v.
Proof.
  intros Hv. unfold ex_value, u32, u64.
  assert (Hl : forall a, a mod 256 = Z.land a (Z.ones 8)) by (intros a; by rewrite Z.land_ones).
  rewrite (Z.mod_mod_divide _ 4294967296 256) by (exists 16777216; reflexivity).
  rewrite Hl, !Z.land_lor_distr_l, <- !Hl.
  rewrite (Z.mod_mod_divide _ 18446744073709551616 256) by (exists 72057594037927936; reflexivity).
  rewrite !Z.shiftl_mul_pow2 by lia. change (2 ^ 16) with (256 * 256). change (2 ^ 8) with 256.
  rewrite Z.mul_assoc, !Z.mod_mul, !Z.lor_0_r, Z.mod_small by lia. done.
Qed.

Lemma bind_hang {A B} (r : res A) : exists e, (r ≫= fun _ => Err (A := B) Hang) = Err e.
Proof. destruct r; eauto. Qed.

Lemma unhandled_exception_hangs s ws crs b : exists e, unhandled_exception s ws crs b = Err e.
Proof. apply bind_hang. Qed.

Lemma unhandled_never ser crs m regs b m' : unhandled ser crs m regs b <> Ok m'.
Proof.
  unfold unhandled. intros (ws & _ & H)%res_bind_ok. apply res_bind_ok in H as (u & H & _).
  destruct (unhandled_exception_hangs ser ws crs b) as [e He]. by rewrite He in H.
Qed.

(** Where the code under a fault keeps the per-processor word and the table,
    out of the way of the frame. *)
Record fault_env (m : mem) (c : cpu) (ts te gs : Z) (recs : list (Z * Z)) : Prop := {
  fe_table : words_at m ts (table_words recs);
  fe_end : te = ts + 16 * Z.of_nat (length recs);
  fe_words : Forall (fun r => word_ok r.2) recs;
  fe_gs : mapped m (gs + 4) 4;
  fe_apart_table : disjoint_ranges (frame_addr c) 184 ts (16 * Z.of_nat (length recs));
  fe_apart_gs : disjoint_ranges (frame_addr c) 184 (gs + 4) 4;
  fe_apart_both : disjoint_ranges ts (16 * Z.of_nat (length recs)) (gs + 4) 4;
}.

Lemma length_table_words recs : length (table_words recs) = (2 * length recs)%nat.
Proof. induction recs as [|r recs IH]; [done|]. unfold table_words in *. cbn. rewrite IH. lia. Qed.

(** [check_exception_table] on a frame. *)
Lemma check_table_frame ts te gs ser crs recs m m1 c junk v err :
  fault_env m c ts te gs recs -> mapped m (frame_addr c) 184 ->
  words_at m1 (frame_addr c) (frame c junk v err) -> same_dom m m1 ->
  agree_outside (frame_addr c) (frame_addr c + 184) m m1 ->
  match list_find (fun r => r.1 = rip c) recs with
  | Some (_, (_, fix_)) =>
      exists m2, check_exception_table ts te gs ser crs m1 (frame_addr c) = Ok m2 /\
        words_at m2 (frame_addr c) (<[18%nat := fix_]> (frame c junk v err)) /\
        load32 m2 (gs + 4) = Ok (ex_value v err (rflags c)) /\
        load8 m2 (gs + 4) = Ok (ex_value v err (rflags c) mod 256)
  | None => forall m2, check_exception_table ts te gs ser crs m1 (frame_addr c) <> Ok m2
  end.
Proof.
  intros [Ht Hte Hok Hgs Ha1 Ha2 Ha3] Hm Hw Hd Hag. unfold disjoint_ranges in *.
  set (f := frame_addr c) in *. unfold check_exception_table.
  pose proof (words_at_lookup _ _ _ 16 v Hw eq_refl) as L16.
  pose proof (words_at_lookup _ _ _ 17 err Hw eq_refl) as L17.
  pose proof (words_at_lookup _ _ _ 20 (rflags c) Hw eq_refl) as L20.
  change (8 * Z.of_nat 16) with ex_vector in L16. change (8 * Z.of_nat 17) with ex_error_code in L17.
  change (8 * Z.of_nat 20) with ex_rflags in L20.
  rewrite L16. mret. rewrite L17. mret. rewrite L20. mret. fold (ex_value v err (rflags c)).
  assert (Hgs1 : mapped m1 (gs + 4) 4) by (by rewrite <- Hd).
  unfold store32.
  destruct (store_le_spec 4 m1 (gs + 4) (ex_value v err (rflags c)) Hgs1) as (m2 & Est & Hl2 & Hd2 & Hout).
  pose proof (store_le_first 3 _ _ _ _ Hgs1 Est) as Hb2. rewrite Est. mret.
  assert (Hw2 : words_at m2 f (frame c junk v err)).
  { eapply words_at_frame; [|exact Hw]. intros x Hx. cbn [frame length] in Hx. apply Hout. lia. }
  assert (Ht2 : words_at m2 ts (table_words recs)).
  { eapply words_at_frame; [|exact Ht]. intros x Hx. rewrite length_table_words in Hx.
    rewrite Hout by lia. apply Hag. lia. }
  pose proof (fun ws => ex_loop_finds te ser crs recs (S (Z.to_nat ((te - ts) / 16))) m2 f ws ts (rip c)
    Ht2 Hte) as Hloop.
  specialize (Hloop (frame c junk v err)).
  destruct (list_find _ recs) as [[k [r b]]|].
  - destruct Hloop as (m3 & E3 & W3 & A3); [|done|done| |done|].
    + replace (te - ts) with (Z.of_nat (length recs) * 16) by lia. rewrite Z.div_mul by lia. lia.
    + rewrite <- Hd2, <- Hd. eapply mapped_sub; [exact Hm| |]; lia.
    + exists m3. split; [exact E3|]. split; [exact W3|].
      split; [|apply load8_ok; rewrite A3 by lia; exact Hb2]. unfold load32.
      rewrite (load_le_frame 4 m2) by (intros x Hx; apply A3; lia).
      rewrite Hl2. f_equal. apply Z.mod_small. apply Z.mod_pos_bound. lia.
  - intros m3. rewrite Hloop; [apply unhandled_never| |done|done| |done].
    + replace (te - ts) with (Z.of_nat (length recs) * 16) by lia. rewrite Z.div_mul by lia. lia.
    + rewrite <- Hd2, <- Hd. eapply mapped_sub; [exact Hm| |]; lia.
Qed.

(** ** Gates as the processor reads them *)

(** An interrupt gate of 16 bytes (SDM, figure 6-8). *)
Record gate_at (m : mem) (e addr sel dpl : Z) : Prop := {
  gate_offset0 : load16 m e = Ok (addr mod 2 ^ 16);
  gate_selector : load16 m (e + 2) = Ok sel;
  gate_flags : exists w, load16 m (e + 4) = Ok w /\
    w mod 8 = 0 /\ (w / 2 ^ 8) mod 16 = 14 /\ (w / 2 ^ 13) mod 4 = dpl /\ w / 2 ^ 15 = 1;
  gate_offset1 : load16 m (e + 6) = Ok ((addr / 2 ^ 16) mod 2 ^ 16);
  gate_offset2 : load32 m (e + 8) = Ok (addr / 2 ^ 32);
}.

Lemma gate_frame m m' e addr sel dpl :
  (forall x, e <= x < e + 16 -> m' !! x = m !! x) -> gate_at m e addr sel dpl ->
  gate_at m' e addr sel dpl.
Proof.
  intros Hf [H1 H2 (w & H3 & Hw) H4 H5]. unfold load16, load32 in *.
  split; [..|exists w; split; [|done]| |]; unfold load16, load32.
  all: rewrite (load_le_frame _ m); [done|]; intros x Hx; apply Hf; lia.
Qed.

Lemma store_bits16_spec m a lo width v w w' :
  mapped m a 2 -> load16 m a = Ok w ->
  Z.lor (Z.land w (Z.lnot (Z.shiftl (Z.ones width) lo))) (Z.shiftl (v mod 2 ^ width) lo) mod 65536 = w' ->
  exists m', store_bits16 m a lo width v = Ok m' /\ load16 m' a = Ok w' /\ same_dom m m' /\
    (forall x, x < a \/ a + 2 <= x -> m' !! x = m !! x).
Proof.
  intros Hm Hw <-. unfold store_bits16. rewrite Hw. mret. by apply (store_le_spec 2).
Qed.

(** The four stores to the word of flags. *)
Lemma gate_flag_stores m a dpl :
  mapped m a 2 -> load16 m a = Ok 0 ->
  exists m', (m ← store_bits16 m a 0 3 0; m ← store_bits16 m a 8 4 14;
              m ← store_bits16 m a 13 2 dpl; store_bits16 m a 15 1 1) = Ok m' /\
    load16 m' a = Ok (36352 + 8192 * (dpl mod 4)) /\ same_dom m m' /\
    (forall x, x < a \/ a + 2 <= x -> m' !! x = m !! x).
Proof.
  intros Hm H0.
  destruct (store_bits16_spec m a 0 3 0 0 0 Hm H0 eq_refl) as (m1 & -> & L1 & D1 & A1). mret.
  destruct (store_bits16_spec m1 a 8 4 14 0 3584 ltac:(by rewrite <- D1) L1 eq_refl)
    as (m2 & -> & L2 & D2 & A2). mret.
  destruct (store_bits16_spec m2 a 13 2 dpl 3584 (3584 + 8192 * (dpl mod 4)))
    as (m3 & -> & L3 & D3 & A3); [by rewrite <- D2, <- D1|done| |].
  { change (2 ^ 2) with 4. pose proof (Z.mod_pos_bound dpl 4 ltac:(lia)) as Hd.
    assert (dpl mod 4 = 0 \/ dpl mod 4 = 1 \/ dpl mod 4 = 2 \/ dpl mod 4 = 3)
      as [-> |[-> |[-> | ->]]] by lia; reflexivity. }
  mret.
  destruct (store_bits16_spec m3 a 15 1 1 (3584 + 8192 * (dpl mod 4)) (36352 + 8192 * (dpl mod 4)))
    as (m4 & -> & L4 & D4 & A4); [by rewrite <- D3, <- D2, <- D1|done| |].
  { pose proof (Z.mod_pos_bound dpl 4 ltac:(lia)) as Hd.
    assert (dpl mod 4 = 0 \/ dpl mod 4 = 1 \/ dpl mod 4 = 2 \/ dpl mod 4 = 3)
      as [-> |[-> |[-> | ->]]] by lia; reflexivity. }
  exists m4. split; [done|]. split; [done|]. split; [by rewrite D1, D2, D3|].
  intros x Hx. rewrite A4, A3, A2, A1 by lia. done.
Qed.

Lemma set_idt_entry_ok m boot cs vec addr dpl :
  let e := boot + 16 * vec in
  mapped m e 16 -> word_ok addr -> 0 <= cs < 65536 ->
  exists m', set_idt_entry m boot cs vec addr dpl = Ok m' /\ gate_at m' e addr cs (dpl mod 4) /\
    same_dom m m' /\ agree_outside e (e + 16) m m'.
Proof.
  intros e Hm Ha Hcs. unfold set_idt_entry. fold e.
  rewrite memset_spec by (done || lia). mret. change (u8 0) with 0.
  set (m0 := write_bytes m e (replicate (Z.to_nat 16) 0)).
  assert (D0 : same_dom m m0) by (apply write_bytes_dom; rewrite length_replicate; exact Hm).
  assert (A0 : forall x, x < e \/ e + 16 <= x -> m0 !! x = m !! x)
    by (intros x Hx; apply write_bytes_out; rewrite length_replicate; lia).
  assert (L0 : load16 m0 (e + 4) = Ok 0).
  { apply (load_le_ok m0 (e + 4) [0; 0]). apply (bytes_at_app m0 e (replicate 4 0)).
    assert (Hb : bytes_at m0 e (replicate 4 0 ++ [0; 0] ++ replicate 10 0)) by apply write_bytes_at.
    rewrite app_assoc in Hb. by apply bytes_at_app in Hb as [Hb _]. }
  clearbody m0. unfold store16, store32.
  assert (Msub : forall mm a n, same_dom m mm -> e <= a -> a + n <= e + 16 -> mapped mm a n)
    by (intros mm a n Hd H1 H2; rewrite <- Hd; eapply mapped_sub; [exact Hm| |]; lia).
  destruct (store_le_spec 2 m0 e addr) as (m1 & -> & L1 & D1 & A1); [apply Msub; [done|lia|lia]|].
  mret. destruct (store_le_spec 2 m1 (e + 2) cs) as (m2 & -> & L2 & D2 & A2);
    [apply Msub; [by rewrite D0|lia|lia]|]. mret.
  destruct (gate_flag_stores m2 (e + 4) dpl) as (m3 & E3 & L3 & D3 & A3).
  { apply Msub; [by rewrite D0, D1|lia|lia]. }
  { rewrite <- L0. unfold load16. apply load_le_frame. intros x Hx. rewrite A2, A1 by lia. done. }
  apply res_bind_ok in E3 as (ma & -> & E3). mret. apply res_bind_ok in E3 as (mb & -> & E3). mret.
  apply res_bind_ok in E3 as (mc & -> & E3). mret. rewrite E3. mret.
  destruct (store_le_spec 2 m3 (e + 6) (Z.shiftr addr 16)) as (m4 & -> & L4 & D4 & A4);
    [apply Msub; [by rewrite D0, D1, D2|lia|lia]|]. mret.
  destruct (store_le_spec 4 m4 (e + 8) (Z.shiftr addr 32)) as (m5 & -> & L5 & D5 & A5);
    [apply Msub; [by rewrite D0, D1, D2, D3|lia|lia]|].
  exists m5. split; [done|]. split; [|split; [by rewrite D0, D1, D2, D3, D4|]].
  - rewrite !Z.shiftr_div_pow2 in * by lia. pose proof Ha as [Ha0 Ha1].
    split; [| |exists (36352 + 8192 * (dpl mod 4)); split| |]; unfold load16, load32.
    + rewrite (load_le_frame _ m1); [exact L1|]. intros x Hx. rewrite A5, A4, A3, A2 by lia. done.
    + rewrite (load_le_frame _ m2) by (intros x Hx; rewrite A5, A4, A3 by lia; done).
      rewrite L2. f_equal. apply Z.mod_small. exact Hcs.
    + rewrite (load_le_frame _ m3); [exact L3|]. intros x Hx. rewrite A5, A4 by lia. done.
    + pose proof (Z.mod_pos_bound dpl 4 ltac:(lia)) as Hd.
      assert (dpl mod 4 = 0 \/ dpl mod 4 = 1 \/ dpl mod 4 = 2 \/ dpl mod 4 = 3)
        as [-> |[-> |[-> | ->]]] by lia; done.
    + rewrite (load_le_frame _ m4); [exact L4|]. intros x Hx. rewrite A5 by lia. done.
    + rewrite L5. f_equal. apply Z.mod_small. split; [by apply Z.div_pos|].
      apply Z.div_lt_upper_bound; [lia|]. exact Ha1.
  - intros x Hx. rewrite A5, A4, A3, A2, A1, A0 by lia. done.
Qed.

Section Gates.

Context (boot cs : Z) (stub : Z -> Z).
Hypothesis Hstub : forall v, v ∈ fault_vectors -> word_ok (stub v) /\ stub v <> 0.
Hypothesis Hcs : 0 <= cs < 65536.

(** The loop writes the gates of the vectors from [i] to [i + n] that have a
    stub, and nothing else. *)
Lemma gates_loop_ok n : forall m i,
  mapped m boot 4096 -> 0 <= i -> i + Z.of_nat n <= 256 ->
  exists m', gates_loop boot cs stub n m i = Ok m' /\ same_dom m m' /\
    (forall v, i <= v < i + Z.of_nat n -> v ∈ fault_vectors ->
       gate_at m' (boot + 16 * v) (stub v) cs 0) /\
    (forall x, (forall v, i <= v < i + Z.of_nat n -> v ∈ fault_vectors ->
       x < boot + 16 * v \/ boot + 16 * v + 16 <= x) -> m' !! x = m !! x).
Proof.
  induction n as [|n IH]; intros m i Hm Hi Hn; cbn [gates_loop].
  - exists m. split; [done|]. split; [done|]. split; [lia|done].
  - unfold idt_handlers at 1 2.
    destruct (bool_decide_reflect (i ∈ fault_vectors)) as [Hin|Hout].
    + destruct (Hstub i Hin) as [Hw Hnz]. rewrite (proj2 (Z.eqb_neq _ _) Hnz).
      destruct (set_idt_entry_ok m boot cs i (stub i) 0) as (m1 & -> & G1 & D1 & A1);
        [eapply mapped_sub; [exact Hm| |]; lia|done|done|]. mret.
      destruct (IH m1 (i + 1)) as (m2 & -> & D2 & G2 & A2); [by rewrite <- D1|lia|lia|].
      exists m2. split; [done|]. split; [by rewrite D1|]. split.
      * intros v Hv Hvin. destruct (decide (v = i)) as [->|Hne]; [|apply G2; [lia|done]].
        eapply gate_frame; [|exact G1]. intros x Hx. apply A2. intros w Hw' _. lia.
      * intros x Hx. rewrite A2 by (intros v Hv; apply Hx; lia). apply A1.
        specialize (Hx i ltac:(lia) Hin). lia.
    + change (0 =? 0) with true. mret.
      destruct (IH m (i + 1)) as (m2 & -> & D2 & G2 & A2); [done|lia|lia|].
      exists m2. split; [done|]. split; [done|]. split.
      * intros v Hv Hvin. apply G2; [|done]. destruct (decide (v = i)) as [->|]; [done|lia].
      * intros x Hx. apply A2. intros v Hv. apply Hx. lia.
Qed.

End Gates.

(** ** Setting up *)

Lemma setup_idt_run m boot cs stub st :
  (forall v, v ∈ fault_vectors -> word_ok (stub v) /\ stub v <> 0) -> 0 <= cs < 65536 ->
  mapped m boot 4096 -> idt_initialized st = false -> length (exception_handlers st) = 256%nat ->
  exists m' st', setup_idt boot cs stub m st = Ok (m', st') /\
    (forall v, v ∈ fault_vectors -> gate_at m' (boot + 16 * v) (stub v) cs 0) /\
    (forall x, (forall v, v ∈ fault_vectors -> x < boot + 16 * v \/ boot + 16 * v + 16 <= x) ->
       m' !! x = m !! x) /\
    (forall v, exception_handlers st' !! v =
       if decide (v ∈ [0; 6; 13]%nat) then Some Hcheck_table else exception_handlers st !! v) /\
    idtr st' = (boot, 4096) /\ setup_idt boot cs stub m' st' = Ok (m', st') /\ same_dom m m' /\
    idt_initialized st' = true.
Proof.
  intros Hstub Hcs Hm Hi Hlen.
  destruct (gates_loop_ok boot cs stub Hstub Hcs 32 m 0 Hm) as (m' & E & D & G & A); [lia|lia|].
  assert (Hrange : forall v, v ∈ fault_vectors -> 0 <= v < 0 + Z.of_nat 32).
  { intros v Hv. unfold fault_vectors in Hv. rewrite !elem_of_cons, elem_of_nil in Hv. lia. }
  unfold setup_idt at 1. rewrite Hi, E. mret.
  assert (Hhe : forall hs k, (k < length hs)%nat -> (k < 256)%nat ->
    exists old, handle_exception hs (Z.of_nat k) Hcheck_table = Ok (<[k := Hcheck_table]> hs, old)).
  { intros hs k Hk Hk2. unfold handle_exception. rewrite Nat2Z.id.
    destruct (lookup_lt_is_Some_2 hs k Hk) as [old ->]. exists old. cbn [of_option]. mret.
    by rewrite (proj2 (Z.ltb_lt _ _)) by lia. }
  destruct (Hhe (exception_handlers st) 0%nat) as [o1 E1]; [lia|lia|].
  change (Z.of_nat 0) with 0 in E1. rewrite E1. mret.
  destruct (Hhe (<[0%nat := Hcheck_table]> (exception_handlers st)) 6%nat) as [o2 E2];
    [rewrite length_insert; lia|lia|]. change (Z.of_nat 6) with 6 in E2. rewrite E2. mret.
  destruct (Hhe (<[6%nat := Hcheck_table]> (<[0%nat := Hcheck_table]> (exception_handlers st))) 13%nat)
    as [o3 E3]; [rewrite !length_insert; lia|lia|].
  change (Z.of_nat 13) with 13 in E3. rewrite E3. mret.
  eexists _, _. split; [done|]. split; [intros v Hv; apply G; [by apply Hrange|done]|].
  split; [intros x Hx; apply A; intros v _; apply Hx|]. split; [|done].
  intros v. cbn [exception_handlers]. rewrite !list_lookup_insert, !length_insert, Hlen.
  destruct (decide (v ∈ [0; 6; 13]%nat)) as [Hv|Hv]; rewrite !elem_of_cons, elem_of_nil in Hv.
  - repeat case_decide; try done; lia.
  - repeat case_decide; try done; lia.
Qed.

(** A listed fault, from its delivery to its fixup. *)
Lemma fault_run ts te gs other ser crs hs clobbered m c v err recs i a fix_ :
  cpu_ok c -> word_ok err -> 0 <= v < 256 -> mapped m (frame_addr c) 184 ->
  hs !! Z.to_nat v = Some Hcheck_table -> fault_env m c ts te gs recs ->
  list_find (fun r => r.1 = rip c) recs = Some (i, (a, fix_)) ->
  exists m' c', run_exception ts te gs other ser crs hs clobbered m c v err = Ok (m', c') /\
    same_cpu c' (set_rip c fix_) /\ exception_vector gs m' = Ok v /\
    load32 m' (gs + 4) = Ok (ex_value v (seen_error v err) (rflags c)).
Proof.
  intros Hc He Hv Hm Hh Henv Hfind.
  assert (Hdo : forall m1 junk, words_at m1 (frame_addr c) (frame c junk v (seen_error v err)) ->
    do_handle_exception ts te gs other ser crs hs m1 (frame_addr c) =
    check_exception_table ts te gs ser crs m1 (frame_addr c)).
  { intros m1 junk Hw. unfold do_handle_exception.
    pose proof (words_at_lookup _ _ _ 16 v Hw eq_refl) as L16.
    change (8 * Z.of_nat 16) with ex_vector in L16. rewrite L16. mret.
    rewrite (proj2 (Z.ltb_lt _ _)) by lia. rewrite Hh. done. }
  pose proof (fun m1 junk => check_table_frame ts te gs ser crs recs m m1 c junk v (seen_error v err)
    Henv Hm) as Hchk. rewrite Hfind in Hchk.
  destruct (run_exception_frame ts te gs other ser crs hs clobbered m c v err fix_)
    as (m' & c' & H & Hsame & m1 & junk & Hw & Hd & Ha & Hrun); [done|done|unfold word_ok; lia|done| |].
  - intros m1 junk Hw Hd Ha. rewrite (Hdo m1 junk Hw).
    destruct (Hchk m1 junk Hw Hd Ha) as (m2 & E2 & W2 & _). eauto.
  - exists m', c'. split; [done|]. split; [done|]. rewrite (Hdo m1 junk Hw) in Hrun.
    destruct (Hchk m1 junk Hw Hd Ha) as (m2 & E2 & _ & L4 & L2). rewrite E2 in Hrun. injection Hrun as <-.
    unfold exception_vector. by rewrite L2, ex_value_low.
Qed.

(** ** The properties *)

(** C13: an exception is invisible to the interrupted code when its handler
    leaves the saved registers alone: from the delivery, through the stub, the
    saving and restoring instructions and [iretq], every register, the flags,
    the stack and the instruction pointer come back, whether or not the
    processor pushes an error code and whatever the handler's C code leaves
    in the registers. *)
Theorem exception_transparent ts te gs other ser crs hs clobbered m c v err fn :
  cpu_ok c -> word_ok err -> 0 <= v < 256 -> mapped m (frame_addr c) 184 ->
  hs !! Z.to_nat v = Some (Hother fn) ->
  (forall m1 junk, words_at m1 (frame_addr c) (frame c junk v (seen_error v err)) ->
     exists m2, other fn m1 (frame_addr c) = Ok m2 /\
       words_at m2 (frame_addr c) (frame c junk v (seen_error v err))) ->
  exists m' c', run_exception ts te gs other ser crs hs clobbered m c v err = Ok (m', c') /\
    same_cpu c' c.
Proof.
  intros Hc He Hv Hm Hh Hfn.
  destruct (run_exception_frame ts te gs other ser crs hs clobbered m c v err (rip c))
    as (m' & c' & H & Hsame & _); [done|done|unfold word_ok; lia|done| |].
  - intros m1 junk Hw Hd Ha. destruct (Hfn m1 junk Hw) as (m2 & E2 & W2). exists m2.
    split; [|exact W2]. unfold do_handle_exception.
    pose proof (words_at_lookup _ _ _ 16 v Hw eq_refl) as L16.
    change (8 * Z.of_nat 16) with ex_vector in L16. rewrite L16. mret.
    rewrite (proj2 (Z.ltb_lt _ _)) by lia. rewrite Hh. cbn [of_option]. mret. exact E2.
  - exists m', c'. split; [done|]. rewrite Hsame. by destruct c.
Qed.

(** C11: a fault at an instruction that the exception table lists resumes at
    its fixup with every other register as it was, and [exception_vector]
    then tells which fault it was. *)
Theorem fault_resumes_at_fixup ts te gs other ser crs hs clobbered m c v err recs i a fix_ :
  cpu_ok c -> word_ok err -> 0 <= v < 256 -> mapped m (frame_addr c) 184 ->
  hs !! Z.to_nat v = Some Hcheck_table -> fault_env m c ts te gs recs ->
  list_find (fun r => r.1 = rip c) recs = Some (i, (a, fix_)) ->
  exists m' c', run_exception ts te gs other ser crs hs clobbered m c v err = Ok (m', c') /\
    same_cpu c' (set_rip c fix_) /\ exception_vector gs m' = Ok v.
Proof.
  intros Hc He Hv Hm Hh Henv Hfind.
  destruct (fault_run ts te gs other ser crs hs clobbered m c v err recs i a fix_) as (m' & c' & H & Hs & Hx & _);
    try done. by exists m', c'.
Qed.

(** C36: a fault at an instruction that the table does not list never
    returns to the interrupted code. *)
Theorem fault_unlisted_stops ts te gs other ser crs hs clobbered m c v err recs r :
  cpu_ok c -> word_ok err -> 0 <= v < 256 -> mapped m (frame_addr c) 184 ->
  hs !! Z.to_nat v = Some Hcheck_table -> fault_env m c ts te gs recs ->
  Forall (fun r => r.1 <> rip c) recs ->
  run_exception ts te gs other ser crs hs clobbered m c v err <> Ok r.
Proof.
  intros Hc He Hv Hm Hh Henv Hno Hrun.
  assert (Hfind : list_find (fun r => r.1 = rip c) recs = None) by (by apply list_find_None).
  destruct (entry_frame m c v err Hc He ltac:(unfold word_ok; lia) Hm) as (m1 & junk & E1 & W1 & D1 & A1).
  pose proof (check_table_frame ts te gs ser crs recs m m1 c junk v (seen_error v err)
    Henv Hm W1 D1 A1) as Hchk. rewrite Hfind in Hchk.
  unfold run_exception in Hrun.
  destruct (deliver m c v err) as [[ma ca]|]; [|discriminate E1]. mret_in Hrun. mret_in E1.
  destruct (exec_all ma ca (stub_code v)) as [[mb cb]|]; [|discriminate E1]. mret_in Hrun. mret_in E1.
  rewrite E1 in Hrun. mret_in Hrun. cbn [rsp set_rsp] in Hrun. unfold do_handle_exception in Hrun.
  pose proof (words_at_lookup _ _ _ 16 v W1 eq_refl) as L16.
  change (8 * Z.of_nat 16) with ex_vector in L16. rewrite L16 in Hrun. mret_in Hrun.
  rewrite (proj2 (Z.ltb_lt _ _)), Hh in Hrun by lia. cbn [of_option] in Hrun. mret_in Hrun.
  apply res_bind_ok in Hrun as (m2 & E2 & _). by apply Hchk in E2.
Qed.

(** [set_idt_entry] writes a present interrupt gate of the given
    address, code segment and privilege level, as the processor decodes it,
    and nothing else. *)
Theorem set_idt_entry_gate m boot cs vec addr dpl :
  mapped m (boot + 16 * vec) 16 -> word_ok addr -> 0 <= cs < 65536 -> 0 <= dpl < 4 ->
  exists m', set_idt_entry m boot cs vec addr dpl = Ok m' /\
    gate_at m' (boot + 16 * vec) addr cs dpl /\
    agree_outside (boot + 16 * vec) (boot + 16 * vec + 16) m m'.
Proof.
  intros Hm Ha Hcs Hd. destruct (set_idt_entry_ok m boot cs vec addr dpl Hm Ha Hcs)
    as (m' & H & G & _ & A).
  rewrite Z.mod_small in G by lia. eauto.
Qed.

(** C22: [setup_idt] installs a gate for each of the 18 exceptions that have a
    stub and leaves every other byte of memory alone, makes the exception
    table the handler of the vectors 0, 6 and 13, and loads the table with
    its size as the limit, one more than its last byte; a second call does
    nothing. *)
Theorem setup_idt_gates m boot cs stub st :
  (forall v, v ∈ fault_vectors -> word_ok (stub v) /\ stub v <> 0) -> 0 <= cs < 65536 ->
  mapped m boot 4096 -> idt_initialized st = false -> length (exception_handlers st) = 256%nat ->
  exists m' st', setup_idt boot cs stub m st = Ok (m', st') /\
    (forall v, v ∈ fault_vectors -> gate_at m' (boot + 16 * v) (stub v) cs 0) /\
    (forall x, (forall v, v ∈ fault_vectors -> x < boot + 16 * v \/ boot + 16 * v + 16 <= x) ->
       m' !! x = m !! x) /\
    (forall v, exception_handlers st' !! v =
       if decide (v ∈ [0; 6; 13]%nat) then Some Hcheck_table else exception_handlers st !! v) /\
    idtr st' = (boot, 4096) /\ setup_idt boot cs stub m' st' = Ok (m', st').
Proof.
  intros Hstub Hcs Hm Hi Hlen.
  destruct (setup_idt_run m boot cs stub st Hstub Hcs Hm Hi Hlen) as (m' & st' & H & G & A & X & I & R & _).
  by exists m', st'.
Qed.

(** ** Witnesses *)

Definition demo_cpu : cpu := mkCpu (fun r => if decide (r = RAX) then 7 else 9) 2000 5000 8 66050 16.

(** A stack below 2000, a table of two records at 3000, the GS area at 256. *)
Definition demo_recs : list (Z * Z) := [(4000, 4100); (5000, 5100)].
Definition demo_stack : mem :=
  write_bytes (write_bytes (write_bytes ∅ 1800 (replicate 200 1))
    3000 (concat (le_bytes 8 <$> table_words demo_recs))) 260 (replicate 4 0).

Lemma demo_cpu_ok : cpu_ok demo_cpu.
Proof.
  split; [intros r; unfold demo_cpu; cbn [gpr]; case_decide; unfold word_ok; lia|].
  unfold word_ok. cbn. lia.
Qed.

Lemma demo_env recs te :
  Forall (fun r => word_ok r.2) recs -> words_at demo_stack 3000 (table_words recs) ->
  te = 3000 + 16 * Z.of_nat (length recs) -> (length recs <= 2)%nat ->
  fault_env demo_stack demo_cpu 3000 te 256 recs.
Proof.
  intros Hok Hw Hte Hl. split; try done; [by_eval|left|right|right]; vm_compute frame_addr; lia.
Qed.

Lemma exception_transparent_witness :
  exists m' c', run_exception 3000 3032 256 (fun _ m _ => Ok m) (mkSerial 0 0 (mkIo [] [])) []
      (replicate 256 (Hother 1)) (fun _ => 0) demo_stack demo_cpu 14 5 = Ok (m', c') /\
    same_cpu c' demo_cpu.
Proof.
  apply (exception_transparent 3000 3032 256 (fun _ m _ => Ok m) (mkSerial 0 0 (mkIo [] [])) []
    (replicate 256 (Hother 1)) (fun _ => 0) demo_stack demo_cpu 14 5 1).
  - exact demo_cpu_ok.
  - unfold word_ok. lia.
  - lia.
  - by_eval.
  - reflexivity.
  - intros m1 junk Hw. exists m1. split; [reflexivity|exact Hw].
Defined.

Lemma fault_resumes_at_fixup_witness :
  exists m' c', run_exception 3000 3032 256 (fun _ m _ => Ok m) (mkSerial 0 0 (mkIo [] [])) []
      (replicate 256 Hcheck_table) (fun _ => 0) demo_stack demo_cpu 6 0 = Ok (m', c') /\
    same_cpu c' (set_rip demo_cpu 5100) /\ exception_vector 256 m' = Ok 6.
Proof.
  apply (fault_resumes_at_fixup 3000 3032 256 (fun _ m _ => Ok m) (mkSerial 0 0 (mkIo [] [])) []
    (replicate 256 Hcheck_table) (fun _ => 0) demo_stack demo_cpu 6 0 demo_recs 1 5000 5100).
  - exact demo_cpu_ok.
  - unfold word_ok. lia.
  - lia.
  - by_eval.
  - reflexivity.
  - apply demo_env; [by_eval|repeat split|reflexivity|simpl; lia].
  - reflexivity.
Defined.

Lemma fault_unlisted_stops_witness :
  run_exception 3000 3016 256 (fun _ m _ => Ok m) (mkSerial 0 0 (mkIo [] [])) []
    (replicate 256 Hcheck_table) (fun _ => 0) demo_stack demo_cpu 13 0 <> Ok (demo_stack, demo_cpu).
Proof.
  apply (fault_unlisted_stops 3000 3016 256 (fun _ m _ => Ok m) (mkSerial 0 0 (mkIo [] [])) []
    (replicate 256 Hcheck_table) (fun _ => 0) demo_stack demo_cpu 13 0 [(4000, 4100)]).
  - exact demo_cpu_ok.
  - unfold word_ok. lia.
  - lia.
  - by_eval.
  - reflexivity.
  - apply demo_env; [by_eval|repeat split|reflexivity|simpl; lia].
  - by_eval.
Defined.

Definition demo_idt : mem := write_bytes ∅ 8192 (replicate (Z.to_nat 4096) 255).

Lemma set_idt_entry_gate_witness :
  exists m', set_idt_entry demo_idt 8192 8 32 1311768467463790320 3 = Ok m' /\
    gate_at m' 8704 1311768467463790320 8 3.
Proof.
  destruct (set_idt_entry_gate demo_idt 8192 8 32 1311768467463790320 3) as (m' & H & G & _);
    [by_eval|unfold word_ok; lia|lia|lia|]. exists m'. split; [exact H|exact G].
Defined.

Lemma setup_idt_gates_witness :
  exists m' st', setup_idt 8192 8 (fun v => 1048576 + 16 * v) demo_idt
      (mkIdt false (replicate 256 Hnull) (0, 0)) = Ok (m', st') /\
    gate_at m' 8416 1048800 8 0 /\ idtr st' = (8192, 4096).
Proof.
  destruct (setup_idt_gates demo_idt 8192 8 (fun v => 1048576 + 16 * v)
    (mkIdt false (replicate 256 Hnull) (0, 0))) as (m' & st' & H & G & _ & _ & L & _).
  - intros v Hv. unfold fault_vectors in Hv. rewrite !elem_of_cons, elem_of_nil in Hv.
    unfold word_ok. lia.
  - lia.
  - by_eval.
  - reflexivity.
  - reflexivity.
  - exists m', st'. split; [exact H|]. split; [|exact L]. apply (G 14). by_eval.
Defined.
