(* ===== verification/Layout.v ===== *)
(** * Structures in memory

    The structures that the headers share with the processor, the BIOS and the
    boot loader, as types of C, and where the compiler puts their fields: each
    at the next multiple of its alignment, or with no gap in a packed structure
    (System V ABI). A group of bit-fields is one field of their type. The other
    files read these structures at constant offsets; here the boot loader's and
    the BIOS's structures are in memory as the compiler lays them out, and the
    functions that read them are shown to find their fields. *)

From stdpp Require Import base gmap list numbers strings.
From Stdlib Require Import ZArith Lia.
From S2P Require Import Prelude Mem CString Printf Serial Stdio Heap Mp Desc.

#[local] Open Scope Z_scope.

(** ** Types *)

#[warnings="-register-all"]
Inductive ctype :=
  | Word (n : Z)
  | Ptr
  | Array (n : Z) (t : ctype)
  | Struct (packed : bool) (fs : list (string * ctype)).

Section Layout.

(** The size of a pointer: 8, or 4 in the 32-bit build. *)
Context (ptr : Z).

Fixpoint align_of (t : ctype) : Z :=
  match t with
  | Word n => n
  | Ptr => ptr
  | Array _ t => align_of t
  | Struct true _ => 1
  | Struct false fs => foldr (fun f a => Z.max (align_of f.2) a) 1 fs
  end.

Definition round_up (o a : Z) : Z := (o + a - 1) / a * a.

(** Where a field of type [t] goes when the ones before it end at [o]. *)
Definition place (packed : bool) (o : Z) (t : ctype) : Z := if packed then o else round_up o (align_of t).

Fixpoint size_of (t : ctype) : Z :=
  match t with
  | Word n => n
  | Ptr => ptr
  | Array n t => n * size_of t
  | Struct packed fs =>
      round_up (foldl (fun o f => place packed o f.2 + size_of f.2) 0 fs) (align_of t)
  end.

(** The fields with their offsets and types. *)
Fixpoint fields_from (packed : bool) (o : Z) (fs : list (string * ctype)) : list (string * (Z * ctype)) :=
  match fs with
  | [] => []
  | (n, t) :: fs' => (n, (place packed o t, t)) :: fields_from packed (place packed o t + size_of t) fs'
  end.

Definition fields (t : ctype) : list (string * (Z * ctype)) :=
  match t with Struct packed fs => fields_from packed 0 fs | _ => [] end.

Definition field (t : ctype) (n : string) : option (Z * ctype) :=
  match list_find (fun f => f.1 = n) (fields t) with Some (_, f) => Some f.2 | None => None end.

Definition offset (t : ctype) (n : string) : option Z := fst <$> field t n.

End Layout.

(** ** The structures *)

Definition uchar : ctype := Word 1.
Definition ushort : ctype := Word 2.
Definition uint : ctype := Word 4.
Definition ulong : ctype := Word 8.

Definition each (t : ctype) (ns : list string) : list (string * ctype) := (fun n => (n, t)) <$> ns.

(** Alternating words of 16 bits and their padding. *)
Definition pads (ns : list string) : list (string * ctype) := each ushort ns.

Definition struct_mp : ctype :=
  Struct false ([("signature", Array 4 uchar); ("physaddr", uint)] ++
    each uchar ["length"; "specrev"; "checksum"; "type"; "imcrp"] ++ [("reserved", Array 3 uchar)]).

Definition struct_mpconf : ctype :=
  Struct false [("signature", Array 4 uchar); ("length", ushort); ("version", uchar); ("checksum", uchar);
    ("product", Array 20 uchar); ("oemtable", uint); ("oemlength", ushort); ("entry", ushort); ("lapicaddr", uint);
    ("xlength", ushort); ("xchecksum", uchar); ("reserved", uchar)].

Definition struct_mpproc : ctype :=
  Struct false (each uchar ["type"; "apicid"; "version"; "flags"] ++
    [("signature", Array 4 uchar); ("feature", uint); ("reserved", Array 8 uchar)]).

Definition struct_mpioapic : ctype :=
  Struct false (each uchar ["type"; "apicno"; "version"; "flags"] ++ [("addr", uint)]).

Definition mbi_bootinfo : ctype :=
  Struct false (each uint ["flags"; "mem_lower"; "mem_upper"; "boot_device"; "cmdline"; "mods_count"; "mods_addr"] ++
    [("reserved", Array 4 uint); ("mmap_length", uint); ("mmap_addr", uint); ("reserved0", Array 3 uint); ("bootloader", uint);
     ("reserved1", Array 5 uint); ("size", uint)]).

Definition mmap_entry_t : ctype := Struct true [("size", uint); ("base_addr", ulong); ("length", ulong); ("type", uint)].

Definition ex_regs : ctype :=
  Struct false (each ulong ["rax"; "rcx"; "rdx"; "rbx"; "dummy"; "rbp"; "rsi"; "rdi"; "r8"; "r9"; "r10"; "r11"; "r12"; "r13";
    "r14"; "r15"; "vector"; "error_code"; "rip"; "cs"; "rflags"]).

(** [ist] to [p] are the bits of one word. *)
Definition idt_entry_t : ctype :=
  Struct false (each ushort ["offset0"; "selector"; "bits"; "offset1"] ++ [("offset2", uint); ("reserved", uint)]).

Definition gdt_entry_t : ctype :=
  Struct false [("limit_low", ushort); ("base_low", ushort); ("base_middle", uchar); ("access", uchar); ("granularity", uchar);
    ("base_high", uchar)].

(** [type_limit_flags] is also the bits from [type] to [g]. *)
Definition segment_desc64 : ctype :=
  Struct true [("limit1", ushort); ("base1", ushort); ("base2", uchar); ("type_limit_flags", ushort); ("base3", uchar);
    ("base4", uint); ("zero", uint)].

Definition tss32_t : ctype :=
  Struct false ([("prev", ushort); ("res1", ushort); ("esp0", uint); ("ss0", ushort); ("res2", ushort); ("esp1", uint);
    ("ss1", ushort); ("res3", ushort); ("esp2", uint); ("ss2", ushort); ("res4", ushort)] ++
    each uint ["cr3"; "eip"; "eflags"; "eax"; "ecx"; "edx"; "ebx"; "esp"; "ebp"; "esi"; "edi"] ++
    pads ["es"; "res5"; "cs"; "res6"; "ss"; "res7"; "ds"; "res8"; "fs"; "res9"; "gs"; "res10"; "ldt"; "res11"; "t"; "iomap_base"]).

Definition tss64_t : ctype :=
  Struct true ([("res1", uint)] ++
    each ulong ["rsp0"; "rsp1"; "rsp2"; "res2"; "ist1"; "ist2"; "ist3"; "ist4"; "ist5"; "ist6"; "ist7"; "res3"] ++
    [("res4", ushort); ("iomap_base", ushort)]).

(** [struct taskstate] of mmu.h; its [esp1], [esp2], [cr3], [eip], [esp] and
    [ebp] are pointers. *)
Definition taskstate : ctype :=
  Struct false ([("link", uint); ("esp0", uint); ("ss0", ushort); ("padding1", ushort); ("esp1", Ptr); ("ss1", ushort);
    ("padding2", ushort); ("esp2", Ptr); ("ss2", ushort); ("padding3", ushort); ("cr3", Ptr); ("eip", Ptr)] ++
    each uint ["eflags"; "eax"; "ecx"; "edx"; "ebx"] ++ [("esp", Ptr); ("ebp", Ptr); ("esi", uint); ("edi", uint)] ++
    pads ["es"; "padding4"; "cs"; "padding5"; "ss"; "padding6"; "ds"; "padding7"; "fs"; "padding8"; "gs"; "padding9"; "ldt";
          "padding10"; "t"; "iomb"]).

(** [struct segdesc] is two words of bits; [NSEGS] is 6. *)
Definition struct_cpu : ctype :=
  Struct false [("apicid", uchar); ("scheduler", Ptr); ("ts", taskstate); ("gdt", Array 6 (Struct false [("lo", uint); ("hi", uint)]));
    ("started", uint); ("ncli", uint); ("intena", uint); ("proc", Ptr)].

Definition struct_context : ctype := Struct false (each uint ["edi"; "esi"; "ebx"; "ebp"; "eip"]).

(** An enumeration is an [unsigned int]; [NOFILE] is 16. *)
Definition struct_proc : ctype :=
  Struct false [("sz", uint); ("pgdir", Ptr); ("kstack", Ptr); ("state", uint); ("pid", uint); ("parent", Ptr); ("tf", Ptr);
    ("context", Ptr); ("chan", Ptr); ("killed", uint); ("ofile", Array 16 Ptr); ("cwd", Ptr); ("name", Array 16 uchar)].

Definition struct_spinlock : ctype := Struct false [("v", uint)].

(** [struct ex_record] of desc.c. *)
Definition ex_record : ctype := Struct false [("rip", ulong); ("handler", ulong)].

Definition atomic_t : ctype := Struct false [("counter", uint)].
Definition atomic64_t : ctype := Struct false [("counter", ulong)].

(** ** Structures in memory *)

(** At [a] there is a structure of type [t] whose fields that are numbers have
    the values [val], in 64-bit code; and its field [n] has the bytes [l]. *)
Definition holds (m : mem) (a : Z) (t : ctype) (val : string -> Z) : Prop :=
  forall n o w, field 8 t n = Some (o, Word w) -> load_le (Z.to_nat w) m (a + o) = Ok (val n).

Definition field_bytes (m : mem) (a : Z) (t : ctype) (n : string) (l : list Z) : Prop :=
  forall o u, field 8 t n = Some (o, u) -> bytes_at m (a + o) l.

(** An array of structures. *)
Definition array_at (m : mem) (a : Z) (t : ctype) (vals : list (string -> Z)) : Prop :=
  forall i val, vals !! i = Some val -> holds m (a + size_of 8 t * Z.of_nat i) t val.

(** The entries of the configuration table between [a] and [e]: structures of
    two types, and entries of eight bytes that the kernel skips. *)
Inductive entries_at (m : mem) : Z -> Z -> list mpentry -> Prop :=
  | entries_end a : entries_at m a a []
  | entries_proc a e val es :
      holds m a struct_mpproc val -> val "type" = MPPROC -> entries_at m (a + size_of 8 struct_mpproc) e es ->
      entries_at m a e (EProc (val "apicid") [] :: es)
  | entries_ioapic a e val es :
      holds m a struct_mpioapic val -> val "type" = MPIOAPIC -> entries_at m (a + size_of 8 struct_mpioapic) e es ->
      entries_at m a e (EIoapic (val "apicno") [] :: es)
  | entries_misc a e ty es :
      load8 m a = Ok ty -> ty = MPBUS \/ ty = MPIOINTR \/ ty = MPLINTR -> entries_at m (a + 8) e es ->
      entries_at m a e (EMisc ty [] :: es).

(** What the boot loader passes at [mbi]: the memory information [bi], with a
    map of the entries [es]. *)
Record loader_at (m : mem) (mbi : Z) (bi : string -> Z) (es : list (string -> Z)) : Prop := {
  ld_info : holds m mbi mbi_bootinfo bi;
  ld_size : bi "mmap_length" = size_of 8 mmap_entry_t * Z.of_nat (length es);
  ld_map : array_at m (bi "mmap_addr") mmap_entry_t es;
  ld_fits : bi "mmap_addr" + bi "mmap_length" < 2 ^ 32;
}.

(** What the BIOS leaves: the floating pointer structure [fp], where [mpsearch]
    finds it, the configuration table [cf] that it points to, whose bytes add
    up to zero, and the table's entries [es]. *)
Record bios_at (m : mem) (mp : Z) (fp cf : string -> Z) (es : list mpentry) : Prop := {
  bs_search : mpsearch m = Ok mp /\ mp <> 0;
  bs_fp : holds m mp struct_mp fp /\ fp "physaddr" <> 0;
  bs_conf : holds m (fp "physaddr") struct_mpconf cf;
  bs_sig : field_bytes m (fp "physaddr") struct_mpconf "signature" (bytes_of_string "PCMP");
  bs_version : cf "version" = 1 \/ cf "version" = 4;
  bs_sum : exists l, Z.of_nat (length l) = cf "length" /\ bytes_at m (fp "physaddr") l /\ list_sum l mod 256 = 0;
  bs_entries : entries_at m (fp "physaddr" + size_of 8 struct_mpconf) (fp "physaddr" + cf "length") es;
}.

(** A number of one byte. *)
Lemma load_one m a v : load_le 1 m a = Ok v -> load8 m a = Ok v.
Proof.
  cbn [load_le]. destruct (load8 m a) as [b|]; [|done]. mret. intros [= <-]. f_equal. lia.
Qed.

Lemma entries_le m a e es : entries_at m a e es -> a + Z.of_nat (length es) <= e.
Proof.
  induction 1 as [a|a e v es _ _ _ IH|a e v es _ _ _ IH|a e ty es _ _ _ IH]; cbn [length]; [lia| | |lia].
  - change (size_of 8 struct_mpproc) with 20 in IH. lia.
  - change (size_of 8 struct_mpioapic) with 8 in IH. lia.
Qed.

(** The scan of the entries. *)
Lemma mp_loop_entries m a e es :
  entries_at m a e es -> forall f st ismp, (length es < f)%nat ->
  mp_loop f m st ismp a e = Ok (foldl apply_entry st es, ismp).
Proof.
  induction 1 as [a|a e v es Hv Ht He IH|a e v es Hv Ht He IH|a e ty es Hl Ht He IH]; intros [|f] st ismp Hf;
    cbn [length] in Hf; try lia; cbn [mp_loop foldl].
  - by rewrite Z.ltb_irrefl.
  - apply entries_le in He as Hle. change (size_of 8 struct_mpproc) with 20 in *. rewrite (proj2 (Z.ltb_lt _ _)) by lia.
    pose proof (load_one _ _ _ (Hv "type" 0 1 eq_refl)) as H0. pose proof (load_one _ _ _ (Hv "apicid" 1 1 eq_refl)) as H1.
    rewrite Z.add_0_r in H0. rewrite H0. mret. rewrite Ht, H1. change (MPPROC =? MPPROC) with true. cbn iota. mret.
    by apply IH; lia.
  - apply entries_le in He as Hle. change (size_of 8 struct_mpioapic) with 8 in *. rewrite (proj2 (Z.ltb_lt _ _)) by lia.
    pose proof (load_one _ _ _ (Hv "type" 0 1 eq_refl)) as H0. pose proof (load_one _ _ _ (Hv "apicno" 1 1 eq_refl)) as H1.
    rewrite Z.add_0_r in H0. rewrite H0. mret. rewrite Ht, H1. change (MPIOAPIC =? MPPROC) with false.
    change (MPIOAPIC =? MPIOAPIC) with true. cbn iota. mret. by apply IH; lia.
  - apply entries_le in He as Hle. rewrite (proj2 (Z.ltb_lt _ _)) by lia. rewrite Hl. mret.
    destruct Ht as [->|[->| ->]]; apply IH; lia.
Qed.

Lemma bios_found m mp fp cf es :
  mem_wf m -> bios_at m mp fp cf es -> found_at m mp (fp "physaddr") (cf "length") (cf "lapicaddr").
Proof.
  intros Hwf [[S1 S2] [F1 F2] C Sg V Sm _]. split; try done; [exact (F1 "physaddr" 4 4 eq_refl)|]. split.
  - pose proof (Sg _ _ eq_refl) as H. by rewrite Z.add_0_r in H.
  - pose proof (load_one _ _ _ (C "version" 6 1 eq_refl)) as H. apply load8_inv in H. rewrite H. destruct V as [-> | ->]; auto.
  - exact (C "length" 4 2 eq_refl).
  - exact (C "lapicaddr" 36 4 eq_refl).
  - exact Sm.
Qed.

Lemma mpinit_bios m mp fp cf es s fuel :
  mem_wf m -> bios_at m mp fp cf es -> (length es < fuel)%nat ->
  mpinit fuel m s no_cpus = Ok (s, table_of (cf "lapicaddr") es).
Proof.
  intros Hwf Hb Hf. pose proof (bios_found m mp fp cf es Hwf Hb) as Hfd. unfold mpinit, no_cpus.
  rewrite (mpconfig_found _ _ _ _ _ Hfd). mret. destruct Hfd as [_ _ _ Hc [_ _ Hl Hla _] _].
  rewrite (proj2 (Z.eqb_neq _ _) Hc). unfold mpconf_lapicaddr, mpconf_length. mret. rewrite Hla. mret. rewrite Hl. mret.
  pose proof (bs_entries _ _ _ _ _ Hb) as He. change (size_of 8 struct_mpconf) with sizeof_mpconf in He.
  by rewrite (mp_loop_entries _ _ _ _ He).
Qed.

Lemma loader_bootinfo m mbi bi es :
  mem_wf m -> loader_at m mbi bi es ->
  bootinfo_at m mbi (bi "mem_upper") (bi "mmap_addr") ((fun e => e "length") <$> es) /\ 0 <= bi "mem_upper" < 2 ^ 32.
Proof.
  intros Hwf [I Sz Mp Ft]. change (size_of 8 mmap_entry_t) with 24 in *.
  assert (Hr : forall n o, field 8 mbi_bootinfo n = Some (o, Word 4) -> 0 <= bi n < 2 ^ 32).
  { intros n o Hn. exact (load_le_range 4 _ _ _ Hwf (I n o 4 Hn)). }
  split; [|exact (Hr "mem_upper" 8 eq_refl)]. split; rewrite ?length_fmap.
  - exact (I "mem_upper" 8 4 eq_refl).
  - rewrite <- Sz. exact (I "mmap_length" 44 4 eq_refl).
  - exact (I "mmap_addr" 48 4 eq_refl).
  - intros i len Hi. rewrite list_lookup_fmap in Hi. destruct (es !! i) as [e|] eqn:Ei; [|done]. injection Hi as <-.
    exact (Mp i e Ei "length" 12 8 eq_refl).
  - rewrite <- Sz. split; [apply (Hr "mmap_addr" 48 eq_refl)|exact Ft].
Qed.

(** ** Claims *)

(** C35: what the boot loader and the BIOS describe in the structures of
    multiboot.h and mp.h, as the compiler lays them out, is what the kernel
    finds: [early_mem_init] frees the pages from the kernel's end to the
    [mem_upper] kilobytes of the boot information and takes the end of memory
    from the [length]s of the map's entries, and [mpinit], on the memory that
    this leaves, records the [lapicaddr] of the configuration table, the
    [apicid]s of its processors and the [apicno] of its last I/O APIC. *)
Theorem structures_read low h base mbi bi es mp fp cf ents n s fuel :
  low ⊆ hmem h -> mem_wf low -> (forall x, is_Some (low !! x) -> x < page_up base) ->
  loader_at low mbi bi es -> bios_at low mp fp cf ents -> (length ents < fuel)%nat ->
  first_mem_init h = false -> 0 < base -> bi "mem_upper" * 1024 = page_up base + 4096 * Z.of_nat n -> (0 < n)%nat ->
  mapped (hmem h) (page_up base) (4096 * Z.of_nat n) ->
  exists h' st, early_mem_init h base mbi = Ok h' /\ mpinit fuel (hmem h') s no_cpus = Ok (s, st) /\
    free_pages (hmem h') (freelist h') (pages_from (page_up base) n) /\
    heap_end h' = Z.land (u64 (sum_lengths ((fun e => e "length") <$> es))) page_mask /\
    lapic st = cf "lapicaddr" /\ ncpu st = Z.min 64 (Z.of_nat (length (proc_ids ents))) /\
    (forall i a, proc_ids ents !! i = Some a -> (i < 64)%nat -> cpus st !! i = Some a) /\
    ioapicid st = default 0 (last (ioapic_ids ents)).
Proof.
  intros Hsub Hwf Hlow Hld Hbs Hfuel Hfi Hb Hend Hn Hm. destruct (loader_bootinfo _ _ _ _ Hwf Hld) as [Hbi Hu].
  destruct (early_mem_init_links h base mbi _ _ _ n Hfi (bootinfo_mono _ _ _ _ _ _ Hsub Hbi) Hb Hend Hn Hu Hm)
    as (h' & E & G1 & G2 & G3 & _ & _ & Ha & _).
  assert (Hsub' : low ⊆ hmem h').
  { apply map_subseteq_spec. intros x v Hx. rewrite Ha; [by eapply lookup_weaken|]. left. apply Hlow. by rewrite Hx. }
  exists h', (table_of (cf "lapicaddr") ents). split; [done|].
  split; [exact (reads_mpinit _ _ _ _ _ _ Hsub' (mpinit_bios low mp fp cf ents s fuel Hwf Hbs Hfuel))|].
  destruct (table_of_facts (cf "lapicaddr") ents) as (H1 & _ & H2).
  split; [exact G1|]. split; [exact G3|]. split; [exact H1|exact H2].
Qed.

(** The structures of the headers are laid out as their readers expect:
    the offsets and sizes that the models of the table search, the memory map
    and the exception frame use are those of the structures; descriptors, gates
    and task states have the sizes and offsets of the hardware. The exception
    is [struct taskstate] of mmu.h, which has them only where pointers have 4
    bytes: in 64-bit code it has 144 bytes and not 104. *)
Theorem layouts :
  (size_of 8 struct_mp = sizeof_mp /\ offset 8 struct_mp "physaddr" = Some mp_physaddr) /\
  (size_of 8 struct_mpconf = sizeof_mpconf /\ offset 8 struct_mpconf "length" = Some mpconf_length /\
   offset 8 struct_mpconf "version" = Some mpconf_version /\ offset 8 struct_mpconf "lapicaddr" = Some mpconf_lapicaddr) /\
  (size_of 8 struct_mpproc = sizeof_mpproc /\ size_of 8 struct_mpioapic = sizeof_mpioapic) /\
  (offset 8 mbi_bootinfo "mem_upper" = Some mbi_mem_upper /\ offset 8 mbi_bootinfo "mmap_length" = Some mbi_mmap_length /\
   offset 8 mbi_bootinfo "mmap_addr" = Some mbi_mmap_addr) /\
  (size_of 8 mmap_entry_t = mmap_entry_size /\ offset 8 mmap_entry_t "length" = Some mmap_entry_length) /\
  (offset 8 ex_regs "vector" = Some ex_vector /\ offset 8 ex_regs "error_code" = Some ex_error_code /\
   offset 8 ex_regs "rip" = Some ex_rip /\ offset 8 ex_regs "cs" = Some ex_cs /\ offset 8 ex_regs "rflags" = Some ex_rflags) /\
  (size_of 8 ex_record = 16 /\ offset 8 ex_record "handler" = Some 8) /\
  (size_of 8 idt_entry_t = 16 /\ size_of 8 gdt_entry_t = 8 /\ size_of 8 segment_desc64 = 16) /\
  (size_of 8 tss64_t = 104 /\ offset 8 tss64_t "rsp0" = Some 4 /\ offset 8 tss64_t "ist1" = Some 36 /\
   offset 8 tss64_t "iomap_base" = Some 102) /\
  (size_of 8 tss32_t = 104 /\ offset 8 tss32_t "ss0" = Some 8 /\ offset 8 tss32_t "cr3" = Some 28 /\
   offset 8 tss32_t "eip" = Some 32 /\ offset 8 tss32_t "iomap_base" = Some 102) /\
  (size_of 4 taskstate = 104 /\ offset 4 taskstate "ss0" = Some 8 /\ offset 4 taskstate "cr3" = Some 28 /\
   offset 4 taskstate "eip" = Some 32 /\ offset 4 taskstate "iomb" = Some 102) /\
  (size_of 8 taskstate = 144 /\ offset 8 taskstate "cr3" = Some 48 /\ offset 8 taskstate "iomb" = Some 142 /\
   size_of 8 struct_cpu = 232).
Proof. repeat match goal with |- _ /\ _ => split end; vm_compute; reflexivity. Qed.

(** ** Witnesses *)

(** The values that are in memory. *)
Definition values (m : mem) (a : Z) (t : ctype) (n : string) : Z :=
  match field 8 t n with
  | Some (o, Word w) => match load_le (Z.to_nat w) m (a + o) with Ok x => x | Err _ => 0 end
  | _ => 0
  end.

Definition readable (m : mem) (a : Z) (t : ctype) : bool :=
  forallb (fun f => match f.2.2 with
                    | Word w => match load_le (Z.to_nat w) m (a + f.2.1) with Ok _ => true | Err _ => false end
                    | _ => true
                    end) (fields 8 t).

Lemma readable_holds m a t : readable m a t = true -> holds m a t (values m a t).
Proof.
  intros H n o w Hf. unfold values. rewrite Hf. unfold field in Hf.
  destruct (list_find _ (fields 8 t)) as [[i f]|] eqn:E; [|done]. injection Hf as Hf.
  apply list_find_Some in E as (Hi & _). unfold readable in H. rewrite forallb_forall in H.
  specialize (H f (proj1 (list_elem_of_In _ _) (list_elem_of_lookup_2 _ _ _ Hi))). rewrite Hf in H. cbn [snd fst] in H.
  by destruct (load_le _ m (a + o)).
Qed.

(** The boot information at 2048 and its map of one entry at 2304, beside the
    tables of the machine of Mp; four pages from 1 MiB on. *)
Definition demo_firmware : mem :=
  write_bytes (write_bytes (demo_machine (table_bytes demo_entries)) 2048
    (replicate 8 0 ++ le_bytes 4 1040 ++ replicate 32 0 ++ le_bytes 4 24 ++ le_bytes 4 2304 ++ replicate 40 0))
    2304 (replicate 12 0 ++ le_bytes 8 1064960 ++ replicate 4 0).
Definition demo_structs : mem := demo_firmware ∪ write_bytes ∅ 1048576 (replicate (Z.to_nat 16384) 0).

Lemma demo_loader : loader_at demo_firmware 2048 (values demo_firmware 2048 mbi_bootinfo) [values demo_firmware 2304 mmap_entry_t].
Proof.
  split; [apply readable_holds; vm_compute; reflexivity|vm_compute; reflexivity| |vm_compute; reflexivity].
  intros [|i] val Hi; [|discriminate Hi]. injection Hi as <-. apply readable_holds. vm_compute. reflexivity.
Qed.

Definition demo_ents : list mpentry := [EProc 3 []; EMisc 1 []; EProc 5 []; EIoapic 9 []].

Lemma demo_bios :
  bios_at demo_firmware 651264 (values demo_firmware 651264 struct_mp) (values demo_firmware 1280 struct_mpconf) demo_ents.
Proof.
  assert (Hb : bytes_at demo_firmware 1280 (demo_conf (table_bytes demo_entries) 100
    (u8 (- list_sum (demo_conf (table_bytes demo_entries) 100 0))))) by by_eval.
  assert (Hp : values demo_firmware 651264 struct_mp "physaddr" = 1280) by (vm_compute; reflexivity).
  split; rewrite ?Hp.
  - split; [vm_compute; reflexivity|done].
  - split; [apply readable_holds; vm_compute; reflexivity|done].
  - apply readable_holds. vm_compute. reflexivity.
  - intros o u Hf. vm_compute in Hf. injection Hf as <- _. by_eval.
  - right. vm_compute. reflexivity.
  - eexists. split; [|split; [exact Hb|vm_compute; reflexivity]]. vm_compute. reflexivity.
  - change (1280 + size_of 8 struct_mpconf) with 1324.
    assert (He : 1280 + values demo_firmware 1280 struct_mpconf "length" = 1380) by (vm_compute; reflexivity). rewrite He.
    apply (entries_proc _ 1324 _ (values demo_firmware 1324 struct_mpproc));
      [apply readable_holds; vm_compute; reflexivity|vm_compute; reflexivity|].
    apply (entries_misc _ 1344); [vm_compute; reflexivity|by left|].
    apply (entries_proc _ 1352 _ (values demo_firmware 1352 struct_mpproc));
      [apply readable_holds; vm_compute; reflexivity|vm_compute; reflexivity|].
    apply (entries_ioapic _ 1372 _ (values demo_firmware 1372 struct_mpioapic));
      [apply readable_holds; vm_compute; reflexivity|vm_compute; reflexivity|]. apply entries_end.
Qed.

Lemma demo_firmware_where x : is_Some (demo_firmware !! x) -> x < 753664.
Proof.
  intros Hx. enough (H : Forall (fun x => x < 753664) (map_to_list demo_firmware).*1); [|by_eval].
  rewrite Forall_forall in H. apply H. destruct Hx as [v Hx]. apply list_elem_of_fmap. exists (x, v).
  split; [reflexivity|]. by apply elem_of_map_to_list.
Qed.

Lemma structures_read_witness :
  exists h' st, early_mem_init (demo_heap demo_structs) 1048000 2048 = Ok h' /\
    mpinit 5 (hmem h') (mkSerial 0 0 (mkIo [] [])) no_cpus = Ok (mkSerial 0 0 (mkIo [] []), st) /\
    free_pages (hmem h') (freelist h') [1048576; 1052672; 1056768; 1060864] /\
    ncpu st = 2 /\ cpus st !! 1%nat = Some 5 /\ ioapicid st = 9.
Proof.
  destruct (structures_read demo_firmware (demo_heap demo_structs) 1048000 2048 (values demo_firmware 2048 mbi_bootinfo)
    [values demo_firmware 2304 mmap_entry_t] 651264 (values demo_firmware 651264 struct_mp) (values demo_firmware 1280 struct_mpconf) demo_ents 4
    (mkSerial 0 0 (mkIo [] [])) 5) as (h' & st & H1 & H2 & H3 & _ & _ & H4 & H5 & H6).
  - apply map_union_subseteq_l.
  - apply mem_wf_b_spec. vm_compute. reflexivity.
  - intros x Hx%demo_firmware_where. change (page_up 1048000) with 1048576. lia.
  - exact demo_loader.
  - exact demo_bios.
  - simpl. lia.
  - reflexivity.
  - lia.
  - vm_compute. reflexivity.
  - lia.
  - change (page_up 1048000) with 1048576. apply union_mapped, replicate_mapped. lia.
  - exists h', st. split; [exact H1|]. split; [exact H2|]. split; [exact H3|]. split; [exact H4|].
    split; [apply (H5 1%nat 5 eq_refl); lia|exact H6].
Defined.
