(* ===== verification/Apic.v ===== *)
(** * x86_64/apic.c: local and I/O APICs

    Device registers in memory and model-specific registers are accesses in
    the log of Serial: a read takes the devices' next answer, a write is
    recorded. [struct apic_ops] is a record of operations with its two
    implementations, [xapic_ops] and [x2apic_ops], and the law they share:
    an interrupt command reaches the destination it names. [ipis] reads the
    commands a log sends, for either interface. *)

From stdpp Require Import base gmap list numbers strings.
From Stdlib Require Import ZArith Lia.
From S2P Require Import Prelude Mem CString Printf Serial Stdio.

#[local] Open Scope Z_scope.

(** ** Accesses *)

Definition take_answer (s : io) (conv : Z -> Z) (ev : Z -> io_event) : res (Z * io) :=
  match io_in s with
  | v :: rest => Ok (conv v, mkIo rest (io_log s ++ [ev (conv v)]))
  | [] => Err Fuel
  end.

Definition record (s : io) (ev : io_event) : io := mkIo (io_in s) (io_log s ++ [ev]).

Definition mmio_read (s : io) (a : Z) : res (Z * io) := take_answer s u32 (EvMmioRd a).
Definition mmio_write (s : io) (a v : Z) : io := record s (EvMmioWr a (u32 v)).
Definition rdmsr (s : io) (i : Z) : res (Z * io) := take_answer s u64 (EvRdmsr (u32 i)).
Definition wrmsr (s : io) (i v : Z) : io := record s (EvWrmsr (u32 i) (u64 v)).

(** ** The registers as an array of words *)

Definition ID : Z := 8.
Definition VER : Z := 12.
Definition TPR : Z := 32.
Definition EOI : Z := 44.
Definition SVR : Z := 60.
Definition ENABLE : Z := 256.
Definition ESR : Z := 160.
Definition ICRLO : Z := 192.
Definition INIT : Z := 1280.
Definition STARTUP : Z := 1536.
Definition ASSERT : Z := 16384.
Definition LEVEL : Z := 32768.
Definition ICRHI : Z := 196.
Definition TIMER : Z := 200.
Definition X1 : Z := 11.
Definition PERIODIC : Z := 131072.
Definition PCINT : Z := 208.
Definition LINT0 : Z := 212.
Definition LINT1 : Z := 216.
Definition ERROR : Z := 220.
Definition MASKED : Z := 65536.
Definition TICR : Z := 224.
Definition TDCR : Z := 248.
Definition T_IRQ0 : Z := 32.
Definition IRQ_TIMER : Z := 0.
Definition IRQ_ERROR : Z := 19.
Definition IRQ_SPURIOUS : Z := 31.

(** [lapic] is the pointer [mpinit] found. *)
Definition lapicw (s : io) (lapic index value : Z) : res io :=
  let s := mmio_write s (lapic + 4 * index) value in
  '(_, s) ← mmio_read s (lapic + 4 * ID);
  Ok s.

Definition lapicinit (s : io) (lapic : Z) : res io :=
  if lapic =? 0 then Ok s
  else
    s ← lapicw s lapic SVR (Z.lor ENABLE (T_IRQ0 + IRQ_SPURIOUS));
    s ← lapicw s lapic TDCR X1;
    s ← lapicw s lapic TIMER (Z.lor PERIODIC (T_IRQ0 + IRQ_TIMER));
    s ← lapicw s lapic TICR 10000000;
    s ← lapicw s lapic LINT0 MASKED;
    s ← lapicw s lapic LINT1 MASKED;
    '(ver, s) ← mmio_read s (lapic + 4 * VER);
    s ← (if 4 <=? Z.land (Z.shiftr ver 16) 255 then lapicw s lapic PCINT MASKED else Ok s);
    s ← lapicw s lapic ERROR (T_IRQ0 + IRQ_ERROR);
    s ← lapicw s lapic ESR 0;
    s ← lapicw s lapic ESR 0;
    s ← lapicw s lapic EOI 0;
    lapicw s lapic TPR 0.

Definition microdelay (s : io) (us : Z) : io := s.

Definition CMOS_PORT : Z := 112.
Definition warm_reset_vector : Z := Z.lor (Z.shiftl 64 4) 103.

(** One round of the loop at the end of [lapicstartap]. *)
Definition send_startup (s : io) (lapic apicid addr : Z) : res io :=
  s ← lapicw s lapic ICRHI (Z.shiftl apicid 24);
  s ← lapicw s lapic ICRLO (Z.lor STARTUP (Z.shiftr addr 12));
  Ok (microdelay s 200).

Definition lapicstartap (m : mem) (s : io) (lapic apicid addr : Z) : res (mem * io) :=
  let s := outb s 15 CMOS_PORT in
  let s := outb s 10 (CMOS_PORT + 1) in
  m ← store16 m warm_reset_vector 0;
  m ← store16 m (warm_reset_vector + 2) (Z.shiftr addr 4);
  s ← lapicw s lapic ICRHI (Z.shiftl apicid 24);
  s ← lapicw s lapic ICRLO (Z.lor (Z.lor INIT LEVEL) ASSERT);
  let s := microdelay s 200 in
  s ← lapicw s lapic ICRLO (Z.lor INIT LEVEL);
  let s := microdelay s 100 in
  s ← send_startup s lapic apicid addr;
  s ← send_startup s lapic apicid addr;
  Ok (m, s).

Definition lapicid (s : io) (lapic : Z) : res (Z * io) :=
  if lapic =? 0 then Ok (0, s)
  else '(v, s) ← mmio_read s (lapic + 4 * ID); Ok (Z.shiftr v 24, s).

(** ** The two interfaces *)

Definition g_apic : Z := 4276092928.
Definition g_ioapic : Z := 4273995776.
Definition APIC_ID : Z := 32.
Definition APIC_EOI : Z := 176.
Definition APIC_ICR : Z := 768.
Definition APIC_ICR2 : Z := 784.
Definition APIC_ICR_BUSY : Z := 4096.
Definition APIC_BASE_MSR : Z := 2048.

Record apic_ops := mkOps {
  reg_read : io -> Z -> res (Z * io);
  reg_write : io -> Z -> Z -> io;
  icr_write : io -> Z -> Z -> res io;
  id : io -> res (Z * io);
}.

Definition xapic_read (s : io) (reg : Z) : res (Z * io) := mmio_read s (g_apic + reg).
Definition xapic_write (s : io) (reg val : Z) : io := mmio_write s (g_apic + reg) val.

(** [while (xapic_read(APIC_ICR) & APIC_ICR_BUSY);] every poll takes an
    answer. *)
Fixpoint icr_wait (fuel : nat) (s : io) : res io :=
  match fuel with
  | O => Err Fuel
  | S f =>
      '(v, s) ← xapic_read s APIC_ICR;
      if Z.land v APIC_ICR_BUSY =? 0 then Ok s else icr_wait f s
  end.

Definition xapic_icr_write (s : io) (val dest : Z) : res io :=
  s ← icr_wait (S (length (io_in s))) s;
  let s := xapic_write s APIC_ICR2 (Z.shiftl dest 24) in
  Ok (xapic_write s APIC_ICR val).

Definition xapic_id (s : io) : res (Z * io) :=
  '(v, s) ← xapic_read s APIC_ID; Ok (Z.shiftr v 24, s).

Definition xapic_ops : apic_ops := mkOps xapic_read xapic_write xapic_icr_write xapic_id.

Definition x2apic_read (s : io) (reg : Z) : res (Z * io) :=
  '(v, s) ← rdmsr s (APIC_BASE_MSR + reg / 16); Ok (u32 v, s).
Definition x2apic_write (s : io) (reg val : Z) : io :=
  wrmsr s (APIC_BASE_MSR + reg / 16) (u32 val).
Definition x2apic_icr_write (s : io) (val dest : Z) : res io :=
  Ok (wrmsr s (APIC_BASE_MSR + APIC_ICR / 16) (Z.shiftl (u32 dest) 32 + u32 val)).
Definition x2apic_id (s : io) : res (Z * io) := x2apic_read s APIC_ID.

Definition x2apic_ops : apic_ops := mkOps x2apic_read x2apic_write x2apic_icr_write x2apic_id.

(** The pointer [apic_ops] of the source. *)
Definition apic_read (ops : apic_ops) (s : io) (reg : Z) : res (Z * io) := reg_read ops s reg.
Definition apic_write (ops : apic_ops) (s : io) (reg val : Z) : io := reg_write ops s reg val.
Definition apic_icr_write (ops : apic_ops) (s : io) (val dest : Z) : res io := icr_write ops s val dest.
Definition apic_id (ops : apic_ops) (s : io) : res (Z * io) := id ops s.
Definition eoi (ops : apic_ops) (s : io) : io := apic_write ops s APIC_EOI 0.

Definition apic_read_bit (ops : apic_ops) (s : io) (reg n : Z) : res (bool * io) :=
  let reg := reg + Z.shiftl (Z.shiftr n 5) 4 in
  '(v, s) ← apic_read ops s reg;
  Ok (negb (Z.land v (Z.shiftl 1 (Z.land n 31)) =? 0), s).

Definition MSR_IA32_APICBASE : Z := 27.
Definition APIC_EXTD : Z := 1024.
Definition APIC_EN : Z := 2048.

(** [cpuid_ecx] is the ECX that leaf 1 of the CPUID instruction returns. The
    results are the operations to use from now on and the return value. *)
Definition enable_x2apic (ops : apic_ops) (s : io) (cpuid_ecx : Z) : res (apic_ops * io * Z) :=
  if negb (Z.land cpuid_ecx (Z.shiftl 1 21) =? 0) then
    '(v, s) ← rdmsr s MSR_IA32_APICBASE;
    Ok (x2apic_ops, wrmsr s MSR_IA32_APICBASE (Z.lor v (Z.shiftl 1 10)), 1)
  else Ok (ops, s, 0).

Definition disable_apic (s : io) : res (apic_ops * io) :=
  '(v, s) ← rdmsr s MSR_IA32_APICBASE;
  Ok (xapic_ops, wrmsr s MSR_IA32_APICBASE (Z.land v (Z.lnot (Z.lor APIC_EN APIC_EXTD)))).

Definition reset_apic (s : io) : res (apic_ops * io) :=
  '(ops, s) ← disable_apic s;
  '(v, s) ← rdmsr s MSR_IA32_APICBASE;
  Ok (ops, wrmsr s MSR_IA32_APICBASE (Z.lor v APIC_EN)).

Definition enable_apic (s : serial) : res serial :=
  s ← say no_strs s (bytes_of_string "enabling apic" ++ [CR; LF]) [];
  Ok (with_io s (xapic_write (ser_io s) 240 511)).

Definition mask_pic_interrupts (s : io) : io := outb (outb s 255 33) 255 161.

(** The task priority is the CR8 register. *)
Definition apic_get_tpr (cr8 : Z) : Z := u8 cr8.
Definition apic_set_tpr (cr8 tpr : Z) : Z := u8 tpr.

Definition set_irq_line (s : io) (line val : Z) : io := outb s val (8192 + line).

(** ** The I/O APIC *)

Definition ioapic_read_reg (s : io) (reg : Z) : res (Z * io) :=
  let s := mmio_write s g_ioapic reg in
  mmio_read s (g_ioapic + 16).

Definition ioapic_write_reg (s : io) (reg value : Z) : io :=
  let s := mmio_write s g_ioapic reg in
  mmio_write s (g_ioapic + 16) value.

(** [ioapic_redir_entry_t]: the bit fields as gcc lays them out, [reserved] the
    four bytes before the last. *)
Record redir := mkRedir {
  vector : Z; delivery_mode : Z; dest_mode : Z; delivery_status : Z; polarity : Z;
  remote_irr : Z; trig_mode : Z; mask : Z; reserve : Z; reserved : Z; dest_id : Z;
}.

Definition redir_low (e : redir) : Z :=
  vector e + 2 ^ 8 * delivery_mode e + 2 ^ 11 * dest_mode e + 2 ^ 12 * delivery_status e +
  2 ^ 13 * polarity e + 2 ^ 14 * remote_irr e + 2 ^ 15 * trig_mode e + 2 ^ 16 * mask e +
  2 ^ 17 * reserve e + 2 ^ 24 * (reserved e mod 2 ^ 8).
Definition redir_high (e : redir) : Z := reserved e / 2 ^ 8 + 2 ^ 24 * dest_id e.

Definition redir_of (lo hi : Z) : redir :=
  mkRedir (lo mod 2 ^ 8) ((lo / 2 ^ 8) mod 8) ((lo / 2 ^ 11) mod 2) ((lo / 2 ^ 12) mod 2)
    ((lo / 2 ^ 13) mod 2) ((lo / 2 ^ 14) mod 2) ((lo / 2 ^ 15) mod 2) ((lo / 2 ^ 16) mod 2)
    ((lo / 2 ^ 17) mod 2 ^ 7) (lo / 2 ^ 24 + 2 ^ 8 * (hi mod 2 ^ 24)) (hi / 2 ^ 24).

Definition ioapic_write_redir (s : io) (line : Z) (e : redir) : io :=
  let s := ioapic_write_reg s (16 + line * 2 + 0) (redir_low e) in
  ioapic_write_reg s (16 + line * 2 + 1) (redir_high e).

Definition ioapic_read_redir (s : io) (line : Z) : res (redir * io) :=
  '(lo, s) ← ioapic_read_reg s (16 + line * 2 + 0);
  '(hi, s) ← ioapic_read_reg s (16 + line * 2 + 1);
  Ok (redir_of lo hi, s).

Definition ioapic_set_redir (s : io) (line vec trig : Z) : io :=
  ioapic_write_redir s line (mkRedir (u8 vec) 0 0 0 0 0 (trig mod 2) 0 0 0 0).

Definition with_mask (e : redir) (b : Z) : redir :=
  mkRedir (vector e) (delivery_mode e) (dest_mode e) (delivery_status e) (polarity e)
    (remote_irr e) (trig_mode e) (b mod 2) (reserve e) (reserved e) (dest_id e).

Definition set_mask (s : io) (line b : Z) : res io :=
  '(e, s) ← ioapic_read_redir s line;
  Ok (ioapic_write_redir s line (with_mask e b)).

(** ** What reaches the other processors *)

(** The interrupt commands (value and destination) a log sends through the
    registers at [base] or through the x2APIC register; [hi] is the last
    value of the high half. *)
Fixpoint ipis (base hi : Z) (l : list io_event) : list (Z * Z) :=
  match l with
  | [] => []
  | EvMmioWr a v :: l' =>
      if a =? base + APIC_ICR2 then ipis base v l'
      else if a =? base + APIC_ICR then (v, hi / 2 ^ 24) :: ipis base hi l'
      else ipis base hi l'
  | EvWrmsr i v :: l' =>
      if i =? 2096 then (v mod 2 ^ 32, v / 2 ^ 32) :: ipis base hi l' else ipis base hi l'
  | _ :: l' => ipis base hi l'
  end.

(** A zero written to the end-of-interrupt register. *)
Definition is_eoi (ev : io_event) : bool :=
  match ev with
  | EvMmioWr a v => (a =? g_apic + APIC_EOI) && (v =? 0)
  | EvWrmsr i v => (i =? 2059) && (v =? 0)
  | _ => false
  end.

(** What a processor may rely on when it uses its local APIC through [ops]:
    once the device is ready, [icr_write] sends exactly one command with the
    given value to the given destination, if that is below [limit], and
    writing the end-of-interrupt register ends the interrupt. *)
Class IcrSender (ops : apic_ops) (ready : list Z -> Prop) (limit : Z) : Prop := {
  icr_sends : forall s val dest, ready (io_in s) -> 0 <= val < 2 ^ 32 -> 0 <= dest < limit ->
    exists s' evs, apic_icr_write ops s val dest = Ok s' /\ io_log s' = io_log s ++ evs /\
      forall hi, ipis g_apic hi evs = [(val, dest)];
  eoi_ends : forall s, exists ev, io_log (eoi ops s) = io_log s ++ [ev] /\ is_eoi ev = true;
}.

(** The xAPIC is ready after any number of busy answers. *)
Definition xapic_ready (answers : list Z) : Prop :=
  exists busy idle rest, answers = busy ++ idle :: rest /\
    Forall (fun v => Z.land (u32 v) APIC_ICR_BUSY <> 0) busy /\ Z.land (u32 idle) APIC_ICR_BUSY = 0.

Lemma icr_wait_spec busy : forall fuel s idle rest,
  io_in s = busy ++ idle :: rest -> (length busy < fuel)%nat ->
  Forall (fun v => Z.land (u32 v) APIC_ICR_BUSY <> 0) busy -> Z.land (u32 idle) APIC_ICR_BUSY = 0 ->
  icr_wait fuel s =
  Ok (mkIo rest (io_log s ++ ((fun v => EvMmioRd (g_apic + APIC_ICR) (u32 v)) <$> (busy ++ [idle])))).
Proof.
  induction busy as [|b busy IH]; intros [|fuel] s idle rest Hs Hf Hb Hi; try (simpl in Hf; lia);
    cbn [icr_wait app fmap list_fmap] in *; unfold xapic_read, mmio_read, take_answer; rewrite Hs; mret.
  - rewrite (proj2 (Z.eqb_eq _ _) Hi). done.
  - apply Forall_cons in Hb as [Hb1 Hb]. rewrite (proj2 (Z.eqb_neq _ _) Hb1).
    rewrite (IH fuel _ idle rest); [|done|simpl in Hf; lia|done|done].
    cbn [io_log]. by rewrite <- app_assoc.
Qed.

Lemma ipis_reads base hi f l l' :
  ipis base hi (((fun v => EvMmioRd (f v) (u32 v)) <$> l) ++ l') = ipis base hi l'.
Proof. induction l as [|v l IH]; [done|]. apply IH. Qed.

#[export] Instance xapic_sender : IcrSender xapic_ops xapic_ready 256.
Proof.
  split; [|intros s; by eexists].
  intros s val dest (busy & idle & rest & Hs & Hb & Hi) Hv Hd.
  unfold apic_icr_write. cbn [icr_write xapic_ops]. unfold xapic_icr_write.
  rewrite (icr_wait_spec busy _ s idle rest) by (done || (rewrite Hs, length_app; simpl; lia)). mret.
  eexists _, _. split; [done|]. split.
  - unfold xapic_write, mmio_write, record. cbn [io_log]. rewrite <- !app_assoc. done.
  - intros hi. rewrite (ipis_reads g_apic hi (fun _ => g_apic + APIC_ICR)).
    cbn [app ipis]. rewrite Z.eqb_refl.
    change (g_apic + APIC_ICR =? g_apic + APIC_ICR2) with false. rewrite Z.eqb_refl.
    rewrite (u32_small val) by lia.
    rewrite Z.shiftl_mul_pow2, u32_small, Z.div_mul by lia. done.
Qed.

#[export] Instance x2apic_sender : IcrSender x2apic_ops (fun _ => True) (2 ^ 32).
Proof.
  split; [|intros s; by eexists].
  intros s val dest _ Hv Hd. unfold apic_icr_write. cbn [icr_write x2apic_ops]. unfold x2apic_icr_write.
  eexists _, _. split; [done|]. split; [done|]. intros hi. cbn [ipis].
  change (u32 (APIC_BASE_MSR + APIC_ICR / 16) =? 2096) with true. cbn iota.
  rewrite (u32_small val), (u32_small dest), Z.shiftl_mul_pow2, u64_small by lia.
  rewrite (Z.add_comm (dest * 2 ^ 32)), Z.mod_add, Z.div_add, Z.mod_small, Z.div_small by lia.
  done.
Qed.

(** ** Lemmas *)

Lemma lapicw_spec s lapic index value v rest :
  io_in s = v :: rest ->
  lapicw s lapic index value =
  Ok (mkIo rest (io_log s ++ [EvMmioWr (lapic + 4 * index) (u32 value);
                              EvMmioRd (lapic + 4 * ID) (u32 v)])).
Proof.
  intros Hs. unfold lapicw, mmio_write, record, mmio_read, take_answer. cbn [io_in]. rewrite Hs.
  mret. cbn [io_log]. by rewrite <- app_assoc.
Qed.

(** One bit of a 32-bit word replaced. *)
Definition set_bit16 (lo b : Z) : Z := lo - 2 ^ 16 * ((lo / 2 ^ 16) mod 2) + 2 ^ 16 * (b mod 2).

Lemma redir_low_mask lo hi b :
  0 <= lo < 2 ^ 32 -> redir_low (with_mask (redir_of lo hi) b) = set_bit16 lo b.
Proof.
  intros Hlo. unfold redir_low, with_mask, redir_of, set_bit16.
  cbn [vector delivery_mode dest_mode delivery_status polarity remote_irr trig_mode mask reserve
       reserved dest_id].
  assert (Hr : (lo / 2 ^ 24 + 2 ^ 8 * (hi mod 2 ^ 24)) mod 2 ^ 8 = lo / 2 ^ 24).
  { rewrite (Z.mul_comm (2 ^ 8)), Z.mod_add by lia. apply Z.mod_small.
    split; [apply Z.div_pos|apply Z.div_lt_upper_bound]; lia. }
  rewrite Hr.
  assert (Hsplit : forall j k n, 0 <= j -> 0 <= k -> n = j + k ->
    lo / 2 ^ j = (lo / 2 ^ j) mod 2 ^ k + 2 ^ k * (lo / 2 ^ n)).
  { intros j k n Hj Hk ->. rewrite Z.pow_add_r, <- Z.div_div by lia.
    rewrite Z.add_comm. apply Z.div_mod. lia. }
  pose proof (Hsplit 0 8 8 ltac:(lia) ltac:(lia) eq_refl) as S0.
  pose proof (Hsplit 8 3 11 ltac:(lia) ltac:(lia) eq_refl) as S8.
  pose proof (Hsplit 11 1 12 ltac:(lia) ltac:(lia) eq_refl) as S11.
  pose proof (Hsplit 12 1 13 ltac:(lia) ltac:(lia) eq_refl) as S12.
  pose proof (Hsplit 13 1 14 ltac:(lia) ltac:(lia) eq_refl) as S13.
  pose proof (Hsplit 14 1 15 ltac:(lia) ltac:(lia) eq_refl) as S14.
  pose proof (Hsplit 15 1 16 ltac:(lia) ltac:(lia) eq_refl) as S15.
  pose proof (Hsplit 16 1 17 ltac:(lia) ltac:(lia) eq_refl) as S16.
  pose proof (Hsplit 17 7 24 ltac:(lia) ltac:(lia) eq_refl) as S17.
  rewrite Z.div_1_r in S0.
  change (2 ^ 1) with 2 in *. change (2 ^ 3) with 8 in *. lia.
Qed.

Lemma redir_high_mask lo hi b :
  0 <= lo < 2 ^ 32 -> redir_high (with_mask (redir_of lo hi) b) = hi.
Proof.
  intros Hlo. unfold redir_high, with_mask, redir_of. cbn [reserved dest_id].
  rewrite (Z.mul_comm (2 ^ 8)), Z.div_add by lia.
  rewrite (Z.div_small (lo / 2 ^ 24)) by (split; [apply Z.div_pos|apply Z.div_lt_upper_bound]; lia).
  rewrite Z.add_0_l, Z.add_comm. symmetry. apply Z.div_mod. lia.
Qed.

(** One write of the high half followed by one of the low half, each with the
    read that [lapicw] appends, sends one command; a further write of the low
    half repeats it to the same destination. *)
Lemma ipis_high lapic hi v x l :
  ipis lapic hi (EvMmioWr (lapic + 4 * ICRHI) v :: EvMmioRd (lapic + 4 * ID) x :: l) = ipis lapic v l.
Proof. cbn [ipis]. change (4 * ICRHI) with APIC_ICR2. by rewrite Z.eqb_refl. Qed.

Lemma ipis_low lapic hi v x l :
  ipis lapic hi (EvMmioWr (lapic + 4 * ICRLO) v :: EvMmioRd (lapic + 4 * ID) x :: l) =
  (v, hi / 2 ^ 24) :: ipis lapic hi l.
Proof.
  cbn [ipis]. change (4 * ICRLO) with APIC_ICR.
  rewrite (proj2 (Z.eqb_neq _ _)) by (unfold APIC_ICR, APIC_ICR2; lia). by rewrite Z.eqb_refl.
Qed.

Lemma icr_high_byte apicid : 0 <= apicid < 256 -> u32 (Z.shiftl apicid 24) / 2 ^ 24 = apicid.
Proof. intros H. rewrite Z.shiftl_mul_pow2, u32_small by lia. apply Z.div_mul. lia. Qed.

(** A page number and the STARTUP bits do not meet. *)
Lemma startup_command addr :
  0 <= addr < 2 ^ 20 -> u32 (Z.lor STARTUP (Z.shiftr addr 12)) = STARTUP + addr / 2 ^ 12.
Proof.
  intros H. rewrite Z.shiftr_div_pow2 by lia.
  assert (0 <= addr / 2 ^ 12 < 2 ^ 8) by (split; [apply Z.div_pos|apply Z.div_lt_upper_bound]; lia).
  rewrite (lor_disjoint STARTUP _ 8) by done. apply u32_small. unfold STARTUP. lia.
Qed.

(** The warm reset vector at 40:67, offset and segment. *)
Lemma warm_reset_stores m addr :
  0 <= addr < 2 ^ 20 -> mapped m warm_reset_vector 4 ->
  exists m1 m2, store16 m warm_reset_vector 0 = Ok m1 /\
    store16 m1 (warm_reset_vector + 2) (Z.shiftr addr 4) = Ok m2 /\
    load16 m2 warm_reset_vector = Ok 0 /\ load16 m2 (warm_reset_vector + 2) = Ok (addr / 16) /\
    (forall x, x < warm_reset_vector \/ warm_reset_vector + 4 <= x -> m2 !! x = m !! x) /\
    same_dom m m2.
Proof.
  intros Ha Hm.
  destruct (store_le_spec 2 m warm_reset_vector 0) as (m1 & H1 & L1 & D1 & F1).
  { eapply mapped_sub; [exact Hm|lia|lia]. }
  destruct (store_le_spec 2 m1 (warm_reset_vector + 2) (Z.shiftr addr 4)) as (m2 & H2 & L2 & D2 & F2).
  { intros x Hx. apply D1, Hm. lia. }
  exists m1, m2. split; [exact H1|]. split; [exact H2|]. split_and!.
  - etransitivity; [|exact L1]. apply load_le_frame. intros x Hx. apply F2. lia.
  - unfold load16. rewrite L2. f_equal. rewrite Z.shiftr_div_pow2 by lia. apply Z.mod_small.
    split; [apply Z.div_pos|apply Z.div_lt_upper_bound]; lia.
  - intros x Hx. rewrite F2 by lia. apply F1. lia.
  - by etransitivity.
Qed.

(** A redirection entry read back after its mask bit changed. *)
Lemma set_mask_run s line b lo hi rest :
  io_in s = lo :: hi :: rest ->
  set_mask s line b =
  Ok (mkIo rest (io_log s ++
    [EvMmioWr g_ioapic (u32 (16 + line * 2 + 0)); EvMmioRd (g_ioapic + 16) (u32 lo);
     EvMmioWr g_ioapic (u32 (16 + line * 2 + 1)); EvMmioRd (g_ioapic + 16) (u32 hi);
     EvMmioWr g_ioapic (u32 (16 + line * 2 + 0));
     EvMmioWr (g_ioapic + 16) (u32 (redir_low (with_mask (redir_of (u32 lo) (u32 hi)) b)));
     EvMmioWr g_ioapic (u32 (16 + line * 2 + 1));
     EvMmioWr (g_ioapic + 16) (u32 (redir_high (with_mask (redir_of (u32 lo) (u32 hi)) b)))])).
Proof.
  intros Hs. unfold set_mask, ioapic_read_redir, ioapic_read_reg, mmio_write, record, mmio_read, take_answer.
  cbn [io_in]. rewrite Hs. mret. cbn [io_in io_log]. mret.
  unfold ioapic_write_redir, ioapic_write_reg, mmio_write, record. cbn [io_in io_log].
  by rewrite <- !app_assoc.
Qed.

Lemma set_bit16_range lo b : 0 <= lo < 2 ^ 32 -> 0 <= set_bit16 lo b < 2 ^ 32.
Proof.
  intros H. unfold set_bit16. change (2 ^ 16) with 65536. change (2 ^ 32) with 4294967296 in *.
  Z.div_mod_to_equations. lia.
Qed.

(** The bits of a number given as low bits and a multiple of a power of two. *)
Lemma testbit_parts a h k n :
  0 <= n -> 0 <= k -> 0 <= a < 2 ^ k ->
  Z.testbit (a + h * 2 ^ k) n = if n <? k then Z.testbit a n else Z.testbit h (n - k).
Proof.
  intros Hn Hk Ha. destruct (Z.ltb_spec n k).
  - rewrite <- (Z.mod_pow2_bits_low (a + h * 2 ^ k) k n), Z.mod_add, Z.mod_small by lia. done.
  - replace n with (n - k + k) at 1 by lia.
    rewrite <- Z.div_pow2_bits, Z.div_add, Z.div_small by lia. done.
Qed.

Lemma set_bit16_bits lo b n :
  0 <= n -> Z.testbit (set_bit16 lo b) n = if n =? 16 then Z.odd b else Z.testbit lo n.
Proof.
  intros Hn. set (a := lo mod 2 ^ 16). set (q := lo / 2 ^ 16 / 2). set (r := lo / 2 ^ 16 mod 2).
  assert (Ha : 0 <= a < 2 ^ 16) by (apply Z.mod_pos_bound; lia).
  assert (Hb : forall c, 0 <= c mod 2 < 2 ^ 1) by (intros c; apply Z.mod_pos_bound; lia).
  assert (Hr : 0 <= r < 2 ^ 1) by apply Hb.
  assert (Hlo : lo = a + (r + q * 2 ^ 1) * 2 ^ 16).
  { pose proof (Z.div_mod lo (2 ^ 16) ltac:(lia)). pose proof (Z.div_mod (lo / 2 ^ 16) 2 ltac:(lia)). lia. }
  replace (set_bit16 lo b) with (a + (b mod 2 + q * 2 ^ 1) * 2 ^ 16) by (unfold set_bit16; lia).
  rewrite Hlo, (testbit_parts a (r + _) 16 n), (testbit_parts a (b mod 2 + _) 16 n) by (done || lia).
  clearbody a q r.
  destruct (Z.ltb_spec n 16), (Z.eqb_spec n 16); try lia; try done.
  - subst n. rewrite testbit_parts by (done || lia).
    change (16 - 16) with 0. rewrite Z.bit0_odd, Zmod_odd. by destruct (Z.odd b).
  - rewrite !testbit_parts by (done || lia). by destruct (Z.ltb_spec (n - 16) 1); [lia|].
Qed.

Lemma lapicstartap_run m s lapic apicid addr :
  (7 <= length (io_in s))%nat -> 0 <= apicid < 256 -> 0 <= addr < 2 ^ 20 ->
  mapped m warm_reset_vector 4 ->
  exists m' s' evs, lapicstartap m s lapic apicid addr = Ok (m', s') /\
    io_log s' = io_log s ++ [EvOut 1 112 15; EvOut 1 113 10] ++ evs /\
    (forall hi, ipis lapic hi evs =
       [(INIT + LEVEL + ASSERT, apicid); (INIT + LEVEL, apicid);
        (STARTUP + addr / 2 ^ 12, apicid); (STARTUP + addr / 2 ^ 12, apicid)]) /\
    load16 m' 1127 = Ok 0 /\ load16 m' 1129 = Ok (addr / 16) /\
    (forall x, x < 1127 \/ 1131 <= x -> m' !! x = m !! x) /\ same_dom m m'.
Proof.
  intros Hs Hid Ha Hm. destruct (warm_reset_stores m addr Ha Hm) as (m1 & m2 & H1 & H2 & L1 & L2 & F & D).
  destruct s as [ins log]. cbn [io_in io_log] in *.
  do 7 (destruct ins as [|? ins]; [simpl in Hs; lia|]).
  exists m2. unfold lapicstartap, outb, port_out. cbn [io_in io_log].
  rewrite H1; mret. rewrite H2; mret. unfold send_startup, microdelay.
  do 7 (erewrite lapicw_spec by reflexivity; mret; cbn [io_log]).
  eexists _, _. split; [reflexivity|]. cbn [io_log]. split; [by rewrite <- !app_assoc|].
  split; [|by split_and!].
  intros hi. cbn [app]. rewrite ipis_high, ipis_low, ipis_low, ipis_high, ipis_low, ipis_high, ipis_low.
  rewrite icr_high_byte, startup_command by done. reflexivity.
Qed.

(** ** Claims *)

(** C32: through either interface [apic_icr_write] sends exactly one interrupt
    command, with the value and to the processor it was asked for: the xAPIC
    after any number of busy answers and for 8-bit destinations, the x2APIC at
    once and for 32-bit ones. *)
Theorem apic_icr_write_sends s val dest :
  xapic_ready (io_in s) -> 0 <= val < 2 ^ 32 -> 0 <= dest < 256 ->
  Forall (fun ops => exists s' evs, apic_icr_write ops s val dest = Ok s' /\
            io_log s' = io_log s ++ evs /\ forall hi, ipis g_apic hi evs = [(val, dest)])
    [xapic_ops; x2apic_ops].
Proof.
  intros Hr Hv Hd. repeat constructor.
  - by apply (icr_sends (limit := 256)).
  - apply (icr_sends (ready := fun _ => True) (limit := 2 ^ 32)); [done|done|lia].
Qed.

Lemma apic_icr_write_sends_witness :
  Forall (fun ops => exists s' evs, apic_icr_write ops (mkIo [4096; 4096; 0] []) 16416 3 = Ok s' /\
            io_log s' = io_log (mkIo [4096; 4096; 0] []) ++ evs /\ forall hi, ipis g_apic hi evs = [(16416, 3)])
    [xapic_ops; x2apic_ops].
Proof.
  apply apic_icr_write_sends; [|lia|lia].
  exists [4096; 4096], 0, []. split; [reflexivity|]. split; [|reflexivity].
  repeat constructor; vm_compute; discriminate.
Defined.

(** C21: [lapicstartap] sets the shutdown code in CMOS, points the warm reset
    vector at the start-up code and then sends to the named processor the four
    commands of the universal start-up algorithm: INIT asserted, INIT
    deasserted and STARTUP twice with the page number of the code. No other
    memory changes. *)
Theorem lapicstartap_sequence m s lapic apicid addr :
  (7 <= length (io_in s))%nat -> 0 <= apicid < 256 -> 0 <= addr < 2 ^ 20 ->
  mapped m warm_reset_vector 4 ->
  exists m' s' evs, lapicstartap m s lapic apicid addr = Ok (m', s') /\
    io_log s' = io_log s ++ [EvOut 1 112 15; EvOut 1 113 10] ++ evs /\
    (forall hi, ipis lapic hi evs =
       [(INIT + LEVEL + ASSERT, apicid); (INIT + LEVEL, apicid);
        (STARTUP + addr / 2 ^ 12, apicid); (STARTUP + addr / 2 ^ 12, apicid)]) /\
    load16 m' 1127 = Ok 0 /\ load16 m' 1129 = Ok (addr / 16) /\
    (forall x, x < 1127 \/ 1131 <= x -> m' !! x = m !! x).
Proof.
  intros Hs Hid Ha Hm.
  destruct (lapicstartap_run m s lapic apicid addr Hs Hid Ha Hm) as (m' & s' & evs & H & L & I & L1 & L2 & F & _).
  by exists m', s', evs.
Qed.

Definition low_mem : mem := write_bytes ∅ 1120 (replicate 16 255).

Lemma lapicstartap_sequence_witness :
  exists m' s' evs, lapicstartap low_mem (mkIo (replicate 7 0) []) 4276092928 2 28672 = Ok (m', s') /\
    io_log s' = [] ++ [EvOut 1 112 15; EvOut 1 113 10] ++ evs /\
    (forall hi, ipis 4276092928 hi evs =
       [(INIT + LEVEL + ASSERT, 2); (INIT + LEVEL, 2); (STARTUP + 28672 / 2 ^ 12, 2); (STARTUP + 28672 / 2 ^ 12, 2)]) /\
    load16 m' 1127 = Ok 0 /\ load16 m' 1129 = Ok (28672 / 16) /\
    (forall x, x < 1127 \/ 1131 <= x -> m' !! x = low_mem !! x).
Proof.
  apply (lapicstartap_sequence low_mem (mkIo (replicate 7 0) [])); [simpl; lia|lia|lia|].
  apply mapped_b_spec. vm_compute. reflexivity.
Defined.

(** [set_mask] reads both halves of a line's redirection entry and writes
    them back with the mask bit replaced and every other bit, the destination
    included, as it was. *)
Theorem set_mask_only_mask s line b lo hi rest :
  io_in s = lo :: hi :: rest -> 0 <= lo < 2 ^ 32 -> 0 <= hi < 2 ^ 32 -> 0 <= line < 120 ->
  set_mask s line b =
  Ok (mkIo rest (io_log s ++
    [EvMmioWr g_ioapic (16 + 2 * line); EvMmioRd (g_ioapic + 16) lo;
     EvMmioWr g_ioapic (17 + 2 * line); EvMmioRd (g_ioapic + 16) hi;
     EvMmioWr g_ioapic (16 + 2 * line); EvMmioWr (g_ioapic + 16) (set_bit16 lo b);
     EvMmioWr g_ioapic (17 + 2 * line); EvMmioWr (g_ioapic + 16) hi])) /\
  (forall n, 0 <= n -> Z.testbit (set_bit16 lo b) n = if n =? 16 then Z.odd b else Z.testbit lo n).
Proof.
  intros Hs Hlo Hhi Hline. split; [|apply set_bit16_bits].
  rewrite (set_mask_run s line b lo hi rest Hs), !(u32_small lo), !(u32_small hi) by done.
  rewrite redir_low_mask, redir_high_mask, (u32_small (set_bit16 lo b)), (u32_small hi), !u32_small
    by (done || lia || by apply set_bit16_range).
  replace (16 + line * 2 + 0) with (16 + 2 * line) by lia.
  by replace (16 + line * 2 + 1) with (17 + 2 * line) by lia.
Qed.

Lemma set_mask_only_mask_witness :
  set_mask (mkIo [48; 16777216] []) 1 1 =
  Ok (mkIo [] ([] ++
    [EvMmioWr g_ioapic (16 + 2 * 1); EvMmioRd (g_ioapic + 16) 48;
     EvMmioWr g_ioapic (17 + 2 * 1); EvMmioRd (g_ioapic + 16) 16777216;
     EvMmioWr g_ioapic (16 + 2 * 1); EvMmioWr (g_ioapic + 16) (set_bit16 48 1);
     EvMmioWr g_ioapic (17 + 2 * 1); EvMmioWr (g_ioapic + 16) 16777216])) /\
  (forall n, 0 <= n -> Z.testbit (set_bit16 48 1) n = if n =? 16 then Z.odd 1 else Z.testbit 48 n).
Proof. apply (set_mask_only_mask (mkIo [48; 16777216] [])); [reflexivity|lia|lia|lia]. Defined.
