(* ===== verification/Smp.v ===== *)
(** * Calls between processors: x86_64/mp.c, include/spinlock.h

    [__on_cpu] and the handler [ipi] of the target processor, as a machine
    that takes one memory access at a time in any order the processors choose,
    on top of the interface that the APIC operations promise ([IcrSender]). A
    schedule is the list of those choices; every theorem is about all
    schedules.

    Accesses are sequentially consistent: x86 orders stores, and the locked
    exchange of the spin lock is a barrier. *)

From stdpp Require Import base gmap list numbers strings.
From Stdlib Require Import ZArith Lia.
From S2P Require Import Prelude Mem CString Printf Serial Stdio Mp Apic.

#[local] Open Scope Z_scope.

(** [__sync_lock_test_and_set(&lock->v, 1)]: the old value, and the new one.
    [__sync_lock_release] is [spin_unlock]. *)
Definition lock_test_and_set (v : Z) : Z * Z := (v, 1).

(** ** Inter-processor interrupts *)

Module OnCpu.

Definition IPI_VECTOR : Z := 32.
Definition APIC_INT_ASSERT : Z := 16384.
Definition APIC_DEST_PHYSICAL : Z := 0.
Definition APIC_DM_FIXED : Z := 0.

Definition ipi_command : Z :=
  Z.lor (Z.lor (Z.lor APIC_INT_ASSERT APIC_DEST_PHYSICAL) APIC_DM_FIXED) IPI_VECTOR.

(** [on_cpu] passes the APIC id of the processor with the given index. *)
Definition on_cpu_dest (st : mpstate) (cpu : Z) : res Z := of_option Undef (cpus st !! Z.to_nat cpu).

(** Where a call of [__on_cpu] is: before [spin_lock], before
    [ipi_done = 0], before [apic_icr_write], in [while(!ipi_done)], before
    [spin_unlock], returned. *)
Inductive pc := PLock | PClear | PSend | PWait | PUnlock | PRet.

(** Where the handler of a processor is: not running, before [ipi_done = 1],
    before the write of the end-of-interrupt register. *)
Inductive hpc := HNone | HSet | HEoi.

#[export] Instance pc_eq_dec : EqDecision pc.
Proof. solve_decision. Defined.
#[export] Instance hpc_eq_dec : EqDecision hpc.
Proof. solve_decision. Defined.

(** What is visible from outside: the command of call [i] to processor [d],
    the handler's run on a processor, and the return of a call. *)
Inductive event := Sent (i : nat) (d : Z) | Handled (c : Z) | Returned (i : nat).

#[export] Instance event_eq_dec : EqDecision event.
Proof. solve_decision. Defined.

(** [ipi_lock], [ipi_done], the calls with their targets, and for each
    processor whether the interrupt is pending and where its handler is. *)
Record smp := mkSmp {
  ipi_lock : Z;
  ipi_done : Z;
  callers : list (Z * pc);
  irr : gset Z;
  running : gmap Z hpc;
  events : list event;
}.

Definition handler_at (st : smp) (c : Z) : hpc := default HNone (running st !! c).

(** The processors that the commands of a log interrupt with IPI_VECTOR. *)
Fixpoint post (cmds : list (Z * Z)) (pending : gset Z) : gset Z :=
  match cmds with
  | [] => pending
  | (v, d) :: cmds' =>
      post cmds' (if Z.land v 2047 =? IPI_VECTOR then {[d]} ∪ pending else pending)
  end.

Section Machine.

(** [apic_ops], and which processors have interrupts enabled. *)
Context (ops : apic_ops) (iflag : Z -> bool).

Definition move (st : smp) (i : nat) (d : Z) (p : pc) : list (Z * pc) := <[i := (d, p)]> (callers st).

(** The next access of call [i]; [answers] is what the APIC answers if it is
    read. [None] when the call has returned. *)
Definition __on_cpu (st : smp) (i : nat) (answers : list Z) : option smp :=
  match callers st !! i with
  | Some (d, PLock) =>
      let '(old, v) := lock_test_and_set (ipi_lock st) in
      Some (mkSmp v (ipi_done st) (move st i d (if old =? 0 then PClear else PLock))
              (irr st) (running st) (events st))
  | Some (d, PClear) =>
      Some (mkSmp (ipi_lock st) 0 (move st i d PSend) (irr st) (running st) (events st))
  | Some (d, PSend) =>
      match apic_icr_write ops (mkIo answers []) ipi_command d with
      | Ok s => Some (mkSmp (ipi_lock st) (ipi_done st) (move st i d PWait)
                        (post (ipis g_apic 0 (io_log s)) (irr st)) (running st)
                        (events st ++ [Sent i d]))
      | Err _ => None
      end
  | Some (d, PWait) =>
      Some (mkSmp (ipi_lock st) (ipi_done st) (move st i d (if ipi_done st =? 0 then PWait else PUnlock))
              (irr st) (running st) (events st))
  | Some (d, PUnlock) =>
      Some (mkSmp (spin_unlock (ipi_lock st)) (ipi_done st) (move st i d PRet)
              (irr st) (running st) (events st ++ [Returned i]))
  | Some (_, PRet) | None => None
  end.

(** The next step of processor [c] in the interrupt: it accepts a pending
    interrupt when interrupts are enabled and none is in service, runs the
    two statements of [ipi] and returns. *)
Definition ipi (st : smp) (c : Z) : option smp :=
  match handler_at st c with
  | HNone =>
      if bool_decide (c ∈ irr st) && iflag c then
        Some (mkSmp (ipi_lock st) (ipi_done st) (callers st) (irr st ∖ {[c]})
                (<[c := HSet]> (running st)) (events st))
      else None
  | HSet =>
      Some (mkSmp (ipi_lock st) 1 (callers st) (irr st)
              (<[c := HEoi]> (running st)) (events st ++ [Handled c]))
  | HEoi =>
      if existsb is_eoi (io_log (apic_write ops (mkIo [] []) APIC_EOI 0)) then
        Some (mkSmp (ipi_lock st) (ipi_done st) (callers st) (irr st)
                (<[c := HNone]> (running st)) (events st))
      else None
  end.

(** A choice of the scheduler. *)
Inductive choice := Call (i : nat) (answers : list Z) | Irq (c : Z).

Definition step (st : smp) (x : choice) : option smp :=
  match x with
  | Call i answers => __on_cpu st i answers
  | Irq c => ipi st c
  end.

Fixpoint run (st : smp) (xs : list choice) : option smp :=
  match xs with
  | [] => Some st
  | x :: xs' => st' ← step st x; run st' xs'
  end.

End Machine.

(** All calls about to start. *)
Definition start (dests : list Z) : smp :=
  mkSmp 0 0 ((fun d => (d, PLock)) <$> dests) ∅ ∅ [].

(** ** What the calls promise *)

(** One call at a time: its command, then the handler's run on its target,
    then its return. *)
Inductive phase := Idle | Requested (i : nat) (d : Z) | Served (i : nat) (d : Z).

#[export] Instance phase_eq_dec : EqDecision phase.
Proof. solve_decision. Defined.

Definition next_phase (a : phase) (e : event) : option phase :=
  match a, e with
  | Idle, Sent i d => Some (Requested i d)
  | Requested i d, Handled c => if decide (c = d) then Some (Served i d) else None
  | Served i d, Returned j => if decide (i = j) then Some Idle else None
  | _, _ => None
  end.

Fixpoint phases (a : phase) (l : list event) : option phase :=
  match l with
  | [] => Some a
  | e :: l' => a' ← next_phase a e; phases a' l'
  end.

(** ** The invariant *)

Definition others_free (cs : list (Z * pc)) (i : nat) : Prop :=
  forall j d p, j <> i -> cs !! j = Some (d, p) -> p = PLock \/ p = PRet.

(** No interrupt is pending and no handler is about to set [ipi_done]. *)
Definition quiet (st : smp) : Prop := irr st = ∅ /\ forall c, handler_at st c <> HSet.

(** Call [i] to [d] holds the lock at [p], and no other call does. *)
Definition holder (st : smp) (i : nat) (d : Z) (p : pc) : Prop :=
  ipi_lock st = 1 /\ callers st !! i = Some (d, p) /\ others_free (callers st) i.

Inductive inv (st : smp) : phase -> Prop :=
  | inv_free : ipi_lock st = 0 ->
      (forall i d p, callers st !! i = Some (d, p) -> p = PLock \/ p = PRet) ->
      quiet st -> inv st Idle
  | inv_clear i d : holder st i d PClear -> quiet st -> inv st Idle
  | inv_send i d : holder st i d PSend -> ipi_done st = 0 -> quiet st -> inv st Idle
  | inv_pending i d : holder st i d PWait -> ipi_done st = 0 -> irr st = {[d]} ->
      (forall c, handler_at st c <> HSet) -> inv st (Requested i d)
  | inv_handler i d : holder st i d PWait -> ipi_done st = 0 -> irr st = ∅ ->
      (forall c, handler_at st c = HSet <-> c = d) -> inv st (Requested i d)
  | inv_done i d : holder st i d PWait -> ipi_done st = 1 -> quiet st -> inv st (Served i d)
  | inv_unlock i d : holder st i d PUnlock -> quiet st -> inv st (Served i d).

Lemma smp_eta st :
  mkSmp (ipi_lock st) (ipi_done st) (callers st) (irr st) (running st) (events st) = st.
Proof. by destruct st. Qed.

(** A call that spins changes nothing. *)
Lemma move_same st i d p : callers st !! i = Some (d, p) -> move st i d p = callers st.
Proof. apply list_insert_id. Qed.

Lemma others_free_move cs i x : others_free cs i -> others_free (<[i := x]> cs) i.
Proof. intros H j d p Hj. rewrite list_lookup_insert_ne by done. by apply H. Qed.

Lemma lookup_move st i d q p : callers st !! i = Some (d, q) -> move st i d p !! i = Some (d, p).
Proof. intros H. apply list_lookup_insert_eq. by eapply lookup_lt_Some. Qed.

(** The call that is not free is the holder. *)
Lemma holder_unique st i d p j e q :
  holder st i d p -> callers st !! j = Some (e, q) -> q <> PLock -> q <> PRet ->
  j = i /\ e = d /\ q = p.
Proof.
  intros (_ & Hi & Ho) Hj H1 H2. destruct (decide (j = i)) as [->|Hne].
  - rewrite Hi in Hj. by injection Hj as -> ->.
  - destruct (Ho j e q Hne Hj); done.
Qed.

Lemma handler_insert st c h l i cs ir ev x :
  handler_at (mkSmp l i cs ir (<[c := h]> (running st)) ev) x =
  if decide (x = c) then h else handler_at st x.
Proof.
  unfold handler_at. cbn [running]. case_decide as H.
  - subst x. by rewrite lookup_insert_eq.
  - by rewrite lookup_insert_ne.
Qed.

Section Proofs.

Context (ops : apic_ops) (ready : list Z -> Prop) (limit : Z) (iflag : Z -> bool).
Context {Hops : IcrSender ops ready limit}.

(** The APIC is ready when a command is to be sent. *)
Definition choice_ok (x : choice) : Prop :=
  match x with Call _ answers => ready answers | Irq _ => True end.

Definition dests_ok (st : smp) : Prop := Forall (fun c => 0 <= c.1 < limit) (callers st).

Lemma send_posts answers d pending :
  ready answers -> 0 <= d < limit ->
  exists s, apic_icr_write ops (mkIo answers []) ipi_command d = Ok s /\
    post (ipis g_apic 0 (io_log s)) pending = {[d]} ∪ pending.
Proof.
  intros Hr Hd. destruct (icr_sends (mkIo answers []) ipi_command d Hr) as (s & evs & H & L & E);
    [by vm_compute|done|]. exists s. split; [done|]. rewrite L. cbn [io_log app]. by rewrite E.
Qed.

(** One choice: what it adds to the events is the next step of the abstract
    machine, and the invariant holds again. *)
Definition simulates (st st' : smp) (a : phase) : Prop :=
  exists evs a', events st' = events st ++ evs /\ phases a evs = Some a' /\ inv st' a'.

Lemma simulates_silent st st' a : events st' = events st -> inv st' a -> simulates st st' a.
Proof. intros He Hi. exists [], a. by rewrite He, app_nil_r. Qed.

Lemma simulates_event st st' a e a' :
  events st' = events st ++ [e] -> next_phase a e = Some a' -> inv st' a' -> simulates st st' a.
Proof. intros He Hn Hi. exists [e], a'. cbn [phases]. rewrite Hn. by repeat split. Qed.

(** The invariant names the holder, if there is one. *)
Lemma inv_lock st a i d p :
  inv st a -> callers st !! i = Some (d, p) ->
  (ipi_lock st = 0 /\ (p = PLock \/ p = PRet)) \/ (ipi_lock st = 1 /\ (p = PLock \/ p = PRet)) \/ holder st i d p.
Proof.
  intros Hinv Hi. destruct Hinv as [Hl Hf _|j e Hh|j e Hh|j e Hh|j e Hh|j e Hh|j e Hh];
    [left; split; [done|by eapply Hf]|right..];
    (destruct (decide (i = j)) as [->|Hne];
     [right; destruct Hh as (? & Hj & ?); rewrite Hi in Hj; injection Hj as -> ->; by repeat split
     |left; destruct Hh as (? & _ & Ho); split; [done|by eapply Ho]]).
Qed.

Lemma holder_move st i d p q done ir r ev :
  holder st i d p -> holder (mkSmp (ipi_lock st) done (move st i d q) ir r ev) i d q.
Proof.
  intros (Hl & Hi & Ho). split; [done|]. cbn [callers]. split; [by eapply lookup_move|].
  by apply others_free_move.
Qed.

(** The phase and the rest of the invariant at each place of the holder. *)
Lemma inv_at_clear st a i d : inv st a -> holder st i d PClear -> a = Idle /\ quiet st.
Proof.
  intros Hinv Hh. pose proof Hh as (_ & Hi & _).
  destruct Hinv as [Hl Hf Hq|j e Hj Hq|j e Hj|j e Hj|j e Hj|j e Hj|j e Hj];
    [destruct (Hf _ _ _ Hi); done|done|..];
    by destruct (holder_unique _ _ _ _ _ _ _ Hj Hi) as (_ & _ & ?).
Qed.

Lemma inv_at_send st a i d :
  inv st a -> holder st i d PSend -> a = Idle /\ ipi_done st = 0 /\ quiet st.
Proof.
  intros Hinv Hh. pose proof Hh as (_ & Hi & _).
  destruct Hinv as [Hl Hf Hq|j e Hj Hq|j e Hj|j e Hj|j e Hj|j e Hj|j e Hj];
    try (by destruct (holder_unique _ _ _ _ _ _ _ Hj Hi) as (_ & _ & ?)).
  destruct (Hf _ _ _ Hi); done.
Qed.

Lemma inv_at_wait st a i d :
  inv st a -> holder st i d PWait ->
  (a = Requested i d /\ ipi_done st = 0) \/ (a = Served i d /\ ipi_done st = 1 /\ quiet st).
Proof.
  intros Hinv Hh. pose proof Hh as (_ & Hi & _).
  destruct Hinv as [Hl Hf Hq|j e Hj Hq|j e Hj|j e Hj|j e Hj|j e Hj|j e Hj];
    try (destruct (holder_unique _ _ _ _ _ _ _ Hj Hi) as (-> & -> & ?); try done; by auto).
  destruct (Hf _ _ _ Hi); done.
Qed.

Lemma inv_at_unlock st a i d : inv st a -> holder st i d PUnlock -> a = Served i d /\ quiet st.
Proof.
  intros Hinv Hh. pose proof Hh as (_ & Hi & _).
  destruct Hinv as [Hl Hf Hq|j e Hj Hq|j e Hj|j e Hj|j e Hj|j e Hj|j e Hj];
    try (destruct (holder_unique _ _ _ _ _ _ _ Hj Hi) as (-> & -> & ?); try done; by auto).
  destruct (Hf _ _ _ Hi); done.
Qed.

Lemma free_phase st a : inv st a -> ipi_lock st = 0 -> a = Idle /\ quiet st /\
  (forall i d p, callers st !! i = Some (d, p) -> p = PLock \/ p = PRet).
Proof.
  intros Hinv Hl. destruct Hinv as [_ Hf Hq|j e Hj|j e Hj|j e Hj|j e Hj|j e Hj|j e Hj];
    [done|destruct Hj as (Hj1 & _); rewrite Hj1 in Hl; discriminate..].
Qed.

Lemma call_simulates st a i answers st' :
  inv st a -> dests_ok st -> ready answers -> __on_cpu ops st i answers = Some st' ->
  simulates st st' a.
Proof.
  intros Hinv Hd Hr. unfold __on_cpu. destruct (callers st !! i) as [[d p]|] eqn:Hi; [|done].
  assert (Hdi : 0 <= d < limit) by exact (proj1 (Forall_lookup _ _) Hd _ _ Hi).
  pose proof (inv_lock st a i d p Hinv Hi) as Hlock. destruct p; cbn [lock_test_and_set].
  - destruct (Z.eqb_spec (ipi_lock st) 0) as [Hl|Hl]; intros [= <-]; apply simulates_silent; try done.
    + destruct (free_phase st a Hinv Hl) as (-> & Hq & Hf). apply (inv_clear _ i d); [|done].
      split; [done|]. split; [by eapply lookup_move|]. apply others_free_move. intros j e q _. apply Hf.
    + rewrite (move_same _ _ _ _ Hi).
      replace 1 with (ipi_lock st) by (destruct Hlock as [[? ?]|[[? ?]|(? & _)]]; done || lia).
      by rewrite smp_eta.
  - destruct Hlock as [[_ [?|?]]|[[_ [?|?]]|Hh]]; try done. intros [= <-].
    destruct (inv_at_clear st a i d Hinv Hh) as [-> Hq]. apply simulates_silent; [done|].
    apply (inv_send _ i d); [by eapply holder_move|done|done].
  - destruct Hlock as [[_ [?|?]]|[[_ [?|?]]|Hh]]; try done.
    destruct (inv_at_send st a i d Hinv Hh) as (-> & Hdn & Hir & Hs).
    destruct (send_posts answers d (irr st) Hr Hdi) as (s & -> & Hp). intros [= <-].
    eapply simulates_event; [done|done|]. apply inv_pending; [by eapply holder_move|done| |done].
    cbn [irr]. rewrite Hp, Hir. apply (right_id_L ∅ (∪)).
  - destruct Hlock as [[_ [?|?]]|[[_ [?|?]]|Hh]]; try done.
    destruct (inv_at_wait st a i d Hinv Hh) as [[-> Hdn]|(-> & Hdn & Hq)]; rewrite Hdn; intros [= <-];
      apply simulates_silent; try done.
    + cbn. rewrite (move_same _ _ _ _ Hi), <- Hdn. by rewrite smp_eta.
    + apply inv_unlock; [by eapply holder_move|done].
  - destruct Hlock as [[_ [?|?]]|[[_ [?|?]]|Hh]]; try done. intros [= <-].
    destruct (inv_at_unlock st a i d Hinv Hh) as [-> Hq].
    eapply simulates_event; [done|by cbn; rewrite decide_True|].
    apply inv_free; [done| |done]. cbn [callers]. intros j e q Hj.
    destruct (decide (j = i)) as [->|Hne].
    + rewrite (lookup_move st i d PUnlock PRet Hi) in Hj. injection Hj as _ <-. by right.
    + unfold move in Hj. rewrite list_lookup_insert_ne in Hj by done. by apply (proj2 (proj2 Hh) j e).
  - done.
Qed.

Lemma irq_simulates st a c st' :
  inv st a -> ipi ops iflag st c = Some st' -> simulates st st' a.
Proof.
  intros Hinv. unfold ipi. destruct (handler_at st c) eqn:Hc.
  - case_bool_decide as Hin; [|done]. destruct (iflag c); [|done]. intros [= <-].
    apply simulates_silent; [done|].
    destruct Hinv as [? ? [Hq _]|j e ? [Hq _]|j e ? ? [Hq _]|j e Hh Hd Hirr Hs|j e ? ? Hq ?|j e ? ? [Hq _]|j e ? [Hq _]];
      try (rewrite Hq in Hin; set_solver).
    rewrite Hirr in Hin. apply elem_of_singleton in Hin as ->.
    apply (inv_handler _ j e); [exact Hh|exact Hd| |].
    + cbn [irr]. rewrite Hirr. apply difference_diag_L.
    + intros x. rewrite handler_insert. case_decide; [done|]. split; [intros Hx; by apply Hs in Hx|done].
  - intros [= <-].
    destruct Hinv as [? ? [_ Hq]|j e ? [_ Hq]|j e ? ? [_ Hq]|j e ? ? ? Hq|j e Hh Hd Hirr Hs|j e ? ? [_ Hq]|j e ? [_ Hq]];
      try (by apply Hq in Hc).
    apply Hs in Hc as ->. eapply simulates_event; [done|by cbn; rewrite decide_True|].
    apply inv_done; [exact Hh|done|]. split; [done|]. intros x. rewrite handler_insert.
    case_decide as Hx; [done|]. intros Hx'. by apply Hs in Hx'.
  - destruct (existsb _ _); [|done]. intros [= <-]. apply simulates_silent; [done|].
    assert (Hh : forall x, handler_at (mkSmp (ipi_lock st) (ipi_done st) (callers st) (irr st)
        (<[c := HNone]> (running st)) (events st)) x = HSet <-> handler_at st x = HSet).
    { intros x. rewrite handler_insert. case_decide as Hx; [|done]. subst x. by rewrite Hc. }
    destruct Hinv as [? ? [? Hq]|j e ? [? Hq]|j e ? ? [? Hq]|j e ? ? ? Hq|j e ? ? ? Hq|j e ? ? [? Hq]|j e ? [? Hq]];
      [eapply inv_free|eapply inv_clear|eapply inv_send|eapply inv_pending|eapply inv_handler
      |eapply inv_done|eapply inv_unlock]; try done; try (split; [done|]); intros x;
      rewrite Hh; by apply Hq.
Qed.

Lemma step_callers st x st' :
  step ops iflag st x = Some st' -> (callers st').*1 = (callers st).*1.
Proof.
  assert (Hm : forall i d p q, callers st !! i = Some (d, p) -> (move st i d q).*1 = (callers st).*1).
  { intros i d p q Hi. unfold move. rewrite list_fmap_insert. apply list_insert_id.
    by rewrite list_lookup_fmap, Hi. }
  destruct x as [i answers|c]; cbn [step].
  - unfold __on_cpu. destruct (callers st !! i) as [[d []]|] eqn:Hi; cbn [lock_test_and_set];
      try (intros [= <-]; by eapply Hm); try done.
    destruct (apic_icr_write _ _ _ _); [|done]. intros [= <-]. by eapply Hm.
  - unfold ipi. repeat case_match; try done; by intros [= <-].
Qed.

Lemma dests_ok_step st x st' : step ops iflag st x = Some st' -> dests_ok st -> dests_ok st'.
Proof.
  unfold dests_ok. intros Hs. rewrite <- !(Forall_fmap fst (fun d => 0 <= d < limit)).
  by rewrite (step_callers _ _ _ Hs).
Qed.

Lemma phases_app a l1 l2 : phases a (l1 ++ l2) = phases a l1 ≫= (fun a' => phases a' l2).
Proof.
  revert a. induction l1 as [|e l1 IH]; intros a; [done|]. cbn [phases app].
  destruct (next_phase a e); cbn [mbind option_bind]; [apply IH|done].
Qed.

Lemma run_simulates xs : forall st a st',
  inv st a -> dests_ok st -> Forall choice_ok xs -> run ops iflag st xs = Some st' ->
  simulates st st' a /\ dests_ok st'.
Proof.
  induction xs as [|x xs IH]; intros st a st' Hinv Hd Hok; cbn [run].
  - intros [= <-]. split; [by apply simulates_silent|done].
  - apply Forall_cons in Hok as [Hx Hok]. destruct (step ops iflag st x) as [st1|] eqn:Hs; [|done].
    cbn [mbind option_bind]. intros Hrun.
    assert (simulates st st1 a) as (evs1 & a1 & E1 & P1 & Hinv1).
    { destruct x; [by eapply call_simulates|by eapply irq_simulates]. }
    destruct (IH st1 a1 st' Hinv1 (dests_ok_step _ _ _ Hs Hd) Hok Hrun) as [(evs2 & a2 & E2 & P2 & Hinv2) Hd2].
    split; [|done]. exists (evs1 ++ evs2), a2. split; [by rewrite E2, E1, app_assoc|].
    split; [|done]. by rewrite phases_app, P1.
Qed.

Lemma start_inv dests : inv (start dests) Idle.
Proof.
  apply inv_free; [done| |split; [done|]]; cbn.
  - intros i d p Hi. apply list_lookup_fmap_Some in Hi as (y & ? & _). left. congruence.
  - intros c. by unfold handler_at.
Qed.

(** ** Progress *)

(** Some schedule of ready choices leads from [st] to [st']. *)
Definition reaches (st st' : smp) : Prop :=
  exists xs, Forall choice_ok xs /\ run ops iflag st xs = Some st'.

Lemma run_app st xs ys :
  run ops iflag st (xs ++ ys) = run ops iflag st xs ≫= (fun st' => run ops iflag st' ys).
Proof.
  revert st. induction xs as [|x xs IH]; intros st; [done|]. cbn [run app].
  destruct (step ops iflag st x); cbn [mbind option_bind]; [apply IH|done].
Qed.

#[global] Instance reaches_preorder : PreOrder reaches.
Proof.
  split.
  - intros st. by exists [].
  - intros s1 s2 s3 (xs & Ox & Rx) (ys & Oy & Ry). exists (xs ++ ys).
    split; [by apply Forall_app|]. by rewrite run_app, Rx.
Qed.

Lemma reaches_step st x st' : choice_ok x -> step ops iflag st x = Some st' -> reaches st st'.
Proof. intros Ok_ Hs. exists [x]. split; [by repeat constructor|]. cbn [run]. by rewrite Hs. Qed.

Context (answers : list Z).
Hypothesis Hanswers : ready answers.

(** No call holds the lock, and the calls are those of [cs]. *)
Definition at_rest (st : smp) (cs : list (Z * pc)) : Prop :=
  callers st = cs /\ ipi_lock st = 0 /\ inv st Idle.

Lemma finish_unlock st i d :
  holder st i d PUnlock -> quiet st -> exists st', reaches st st' /\ at_rest st' (<[i := (d, PRet)]> (callers st)).
Proof.
  intros Hh Hq. eexists. split.
  - eapply (reaches_step _ (Call i answers)); [done|]. cbn [step]. unfold __on_cpu.
    destruct Hh as (_ & -> & _). done.
  - split; [done|]. split; [done|]. apply inv_free; [done| |done]. intros j e q Hj. cbn [callers] in Hj.
    destruct (decide (j = i)) as [->|Hne].
    + destruct Hh as (_ & Hi & _). rewrite (lookup_move st i d PUnlock PRet Hi) in Hj.
      injection Hj as _ <-. by right.
    + unfold move in Hj. rewrite list_lookup_insert_ne in Hj by done. by apply (proj2 (proj2 Hh) j e).
Qed.

(** Moving call [i] and then further on. *)
Lemma finish_via st st1 i d p :
  reaches st st1 -> callers st1 = move st i d p ->
  (exists st', reaches st1 st' /\ at_rest st' (<[i := (d, PRet)]> (callers st1))) ->
  exists st', reaches st st' /\ at_rest st' (<[i := (d, PRet)]> (callers st)).
Proof.
  intros H1 Hc (st' & H2 & H3). exists st'. split; [by etransitivity|].
  rewrite Hc in H3. unfold move in H3. by rewrite list_insert_insert_eq in H3.
Qed.

Lemma finish_done st i d :
  holder st i d PWait -> ipi_done st = 1 -> quiet st ->
  exists st', reaches st st' /\ at_rest st' (<[i := (d, PRet)]> (callers st)).
Proof.
  intros Hh Hd Hq. pose proof Hh as (_ & Hi & _). eapply (finish_via _ _ i d PUnlock).
  - eapply (reaches_step _ (Call i answers)); [done|]. cbn [step]. unfold __on_cpu. rewrite Hi, Hd. done.
  - done.
  - apply finish_unlock; [by eapply holder_move|done].
Qed.

Lemma finish_handler st i d :
  holder st i d PWait -> irr st = ∅ -> (forall c, handler_at st c = HSet <-> c = d) ->
  exists st', reaches st st' /\ at_rest st' (<[i := (d, PRet)]> (callers st)).
Proof.
  intros Hh Hirr Hs. pose proof Hh as (_ & Hi & _). eapply (finish_via _ _ i d PWait).
  - eapply (reaches_step _ (Irq d)); [done|]. cbn [step]. unfold ipi. by rewrite (proj2 (Hs d) eq_refl).
  - cbn [callers]. by rewrite (move_same _ _ _ _ Hi).
  - apply finish_done; [exact Hh|done|]. split; [done|]. intros x. rewrite handler_insert.
    case_decide as Hx; [done|]. intros Hx'. by apply Hs in Hx'.
Qed.

Lemma finish_pending st i d :
  iflag d = true -> holder st i d PWait -> irr st = {[d]} -> (forall c, handler_at st c <> HSet) ->
  exists st', reaches st st' /\ at_rest st' (<[i := (d, PRet)]> (callers st)).
Proof.
  intros Hif.
  assert (Haccept : forall st, holder st i d PWait -> irr st = {[d]} -> (forall c, handler_at st c <> HSet) ->
    handler_at st d = HNone -> exists st', reaches st st' /\ at_rest st' (<[i := (d, PRet)]> (callers st))).
  { clear st. intros st Hh Hirr Hs Hn. pose proof Hh as (_ & Hi & _). eapply (finish_via _ _ i d PWait).
    - eapply (reaches_step _ (Irq d)); [done|]. cbn [step]. unfold ipi.
      rewrite Hn, Hif, bool_decide_true by (rewrite Hirr; set_solver). done.
    - cbn [callers]. by rewrite (move_same _ _ _ _ Hi).
    - apply finish_handler; [exact Hh|cbn [irr]; rewrite Hirr; apply difference_diag_L|].
      intros x. rewrite handler_insert. case_decide; [done|]. split; [intros Hx; by apply Hs in Hx|done]. }
  intros Hh Hirr Hs. destruct (handler_at st d) eqn:Hd; [by apply Haccept|by apply Hs in Hd|].
  pose proof Hh as (_ & Hi & _). eapply (finish_via _ _ i d PWait).
  - eapply (reaches_step _ (Irq d)); [done|]. cbn [step]. unfold ipi. rewrite Hd.
    destruct (eoi_ends (mkIo [] [])) as (ev & E1 & E2). unfold eoi in E1. rewrite E1. cbn [app io_log existsb].
    by rewrite E2.
  - cbn [callers]. by rewrite (move_same _ _ _ _ Hi).
  - apply Haccept; [exact Hh|done| |]; [intros x|]; rewrite handler_insert; by case_decide.
Qed.

Lemma finish_send st i d :
  iflag d = true -> 0 <= d < limit -> holder st i d PSend -> quiet st ->
  exists st', reaches st st' /\ at_rest st' (<[i := (d, PRet)]> (callers st)).
Proof.
  intros Hif Hd Hh [Hirr Hs]. pose proof Hh as (_ & Hi & _).
  destruct (send_posts answers d (irr st) Hanswers Hd) as (s & Hw & Hp).
  eapply (finish_via _ _ i d PWait).
  - eapply (reaches_step _ (Call i answers)); [done|]. cbn [step]. unfold __on_cpu. rewrite Hi, Hw. done.
  - done.
  - apply finish_pending; [done|by eapply holder_move| |done].
    cbn [irr]. rewrite Hp, Hirr. apply (right_id_L ∅ (∪)).
Qed.

Lemma finish_clear st i d :
  iflag d = true -> 0 <= d < limit -> holder st i d PClear -> quiet st ->
  exists st', reaches st st' /\ at_rest st' (<[i := (d, PRet)]> (callers st)).
Proof.
  intros Hif Hd Hh Hq. pose proof Hh as (_ & Hi & _). eapply (finish_via _ _ i d PSend).
  - eapply (reaches_step _ (Call i answers)); [done|]. cbn [step]. unfold __on_cpu. by rewrite Hi.
  - done.
  - apply finish_send; [done|done|by eapply holder_move|done].
Qed.

(** From rest, a call that has not started runs to its return. *)
Lemma finish_call st i d :
  at_rest st (callers st) -> iflag d = true -> 0 <= d < limit -> callers st !! i = Some (d, PLock) ->
  exists st', reaches st st' /\ at_rest st' (<[i := (d, PRet)]> (callers st)).
Proof.
  intros (_ & Hl & Hinv) Hif Hd Hi. destruct (free_phase st Idle Hinv Hl) as (_ & Hq & Hf).
  eapply (finish_via _ _ i d PClear).
  - eapply (reaches_step _ (Call i answers)); [done|]. cbn [step]. unfold __on_cpu. rewrite Hi, Hl. done.
  - done.
  - apply finish_clear; [done|done| |done]. split; [done|]. split; [by eapply lookup_move|].
    apply others_free_move. intros j e q _. apply Hf.
Qed.

(** From anywhere, the call that holds the lock runs to its return. *)
Lemma finish_holder st a :
  inv st a -> dests_ok st -> Forall (fun c => iflag c.1 = true) (callers st) ->
  exists st', reaches st st' /\ at_rest st' (callers st').
Proof.
  intros Hinv Hd Hif.
  assert (Hat : forall i d p, callers st !! i = Some (d, p) -> 0 <= d < limit /\ iflag d = true).
  { intros i d p Hi. split.
    - exact (proj1 (Forall_lookup _ _) Hd _ _ Hi).
    - exact (proj1 (Forall_lookup _ _) Hif _ _ Hi). }
  assert (Hend : forall cs, (exists st', reaches st st' /\ at_rest st' cs) ->
    exists st', reaches st st' /\ at_rest st' (callers st')).
  { intros cs (st' & H1 & H2 & H3). by exists st'. }
  destruct Hinv as [Hl Hf Hq|i d Hh Hq|i d Hh Hdn Hq|i d Hh Hdn Hirr Hs|i d Hh Hdn Hirr Hs|i d Hh Hdn Hq|i d Hh Hq];
    [exists st; split; [done|]; split; [done|]; split; [done|by apply inv_free]|..];
    (destruct (Hat _ _ _ (proj1 (proj2 Hh))) as [Hd' Hif']; eapply Hend;
     by eauto using finish_clear, finish_send, finish_pending, finish_handler, finish_done, finish_unlock).
Qed.

Lemma reaches_inv st a st' : inv st a -> dests_ok st -> reaches st st' ->
  (exists a', inv st' a') /\ dests_ok st' /\ (callers st').*1 = (callers st).*1.
Proof.
  intros Hinv Hd (xs & Hok & Hrun). destruct (run_simulates xs st a st') as [(evs & a' & _ & _ & Hinv') Hd']; try done.
  split; [by eexists|]. split; [done|]. clear Hinv Hd Hok. revert st Hrun.
  induction xs as [|x xs IH]; intros st Hrun; cbn [run] in Hrun; [by injection Hrun as <-|].
  destruct (step ops iflag st x) as [st1|] eqn:Hs; [|done].
  rewrite (IH st1 Hrun). by eapply step_callers.
Qed.

(** From rest, all calls return one after another. *)
Lemma finish_all n : forall st,
  at_rest st (callers st) -> dests_ok st -> Forall (fun c => iflag c.1 = true) (callers st) ->
  (n <= length (callers st))%nat ->
  exists st', reaches st st' /\ at_rest st' (callers st') /\
    forall i d p, (i < n)%nat -> callers st' !! i = Some (d, p) -> p = PRet.
Proof.
  induction n as [|n IH]; intros st Hr Hd Hif Hn; [exists st; split; [done|]; split; [done|lia]|].
  destruct (IH st Hr Hd Hif ltac:(lia)) as (st1 & R1 & Hr1 & Hret).
  pose proof Hr as (_ & _ & Hinv). destruct (reaches_inv _ _ _ Hinv Hd R1) as (_ & Hd1 & Hc1).
  assert (Hif1 : Forall (fun c => iflag c.1 = true) (callers st1)).
  { revert Hif. rewrite <- !(Forall_fmap fst (fun d => iflag d = true)). by rewrite Hc1. }
  assert (Hlen : (n < length (callers st1))%nat).
  { rewrite <- (length_fmap fst), Hc1, length_fmap. lia. }
  destruct (lookup_lt_is_Some_2 _ _ Hlen) as [[d p] Hp].
  pose proof Hr1 as (_ & Hl1 & Hinv1). destruct (free_phase _ _ Hinv1 Hl1) as (_ & _ & Hf).
  destruct (Hf _ _ _ Hp) as [->| ->].
  - destruct (finish_call st1 n d) as (st2 & R2 & Hc2 & Hl2 & Hinv2); [done| | |done|].
    + exact (proj1 (Forall_lookup _ _) Hif1 _ _ Hp).
    + exact (proj1 (Forall_lookup _ _) Hd1 _ _ Hp).
    + exists st2. split; [by etransitivity|]. split; [done|]. intros i e q Hi He. rewrite Hc2 in He.
      destruct (decide (i = n)) as [->|Hne].
      * rewrite list_lookup_insert_eq in He by done. by injection He as _ <-.
      * rewrite list_lookup_insert_ne in He by done. eapply Hret; [|done]. lia.
  - exists st1. split; [done|]. split; [done|]. intros i e q Hi He.
    destruct (decide (i = n)) as [->|Hne]; [rewrite Hp in He; by injection He as _ <-|].
    eapply Hret; [|done]. lia.
Qed.

(** ** What the events say of single calls *)

(** A call that returned is in the events, a command in the events is of a
    call to that processor, and only processors with interrupts enabled run
    the handler. *)
Record facts (st : smp) : Prop := mkFacts {
  facts_ret : forall i d, callers st !! i = Some (d, PRet) -> Returned i ∈ events st;
  facts_sent : forall i d, Sent i d ∈ events st -> exists p, callers st !! i = Some (d, p);
  facts_if : forall c, handler_at st c <> HNone -> iflag c = true;
  facts_handled : forall c, Handled c ∈ events st -> iflag c = true;
}.

(** A move of call [i] other than to its return, with new events [evs]. *)
Lemma facts_move st i d p q lock done_ ir evs :
  facts st -> callers st !! i = Some (d, p) ->
  (q = PRet -> Returned i ∈ evs) -> (forall e, e ∈ evs -> e = Sent i d \/ e = Returned i) ->
  facts (mkSmp lock done_ (move st i d q) ir (running st) (events st ++ evs)).
Proof.
  intros [F1 F2 F3 F4] Hi Hq Hev. split; cbn [callers events]; try done.
  - intros j e Hj. rewrite elem_of_app. destruct (decide (j = i)) as [->|Hne].
    + rewrite (lookup_move st i d p q Hi) in Hj. injection Hj as _ ->. by auto.
    + unfold move in Hj. rewrite list_lookup_insert_ne in Hj by done. left. by eapply F1.
  - intros j e. rewrite elem_of_app. intros [Hj|Hj].
    + destruct (F2 _ _ Hj) as [p' Hp']. destruct (decide (j = i)) as [->|Hne].
      * rewrite Hi in Hp'. injection Hp' as -> _. exists q. by eapply lookup_move.
      * exists p'. unfold move. by rewrite list_lookup_insert_ne.
    + destruct (Hev _ Hj) as [[= -> ->]|?]; [|done]. exists q. by eapply lookup_move.
  - intros c. rewrite elem_of_app. intros [Hc|Hc]; [by apply F4|]. by destruct (Hev _ Hc).
Qed.

Lemma facts_step st x st' : facts st -> step ops iflag st x = Some st' -> facts st'.
Proof.
  intros Hf. destruct x as [i ans|c]; cbn [step].
  - assert (Hsilent : forall d p q lock done_ ir, callers st !! i = Some (d, p) -> q <> PRet ->
      facts (mkSmp lock done_ (move st i d q) ir (running st) (events st))).
    { intros d p q lock done_ ir Hi Hq. rewrite <- (app_nil_r (events st)).
      eapply facts_move; [done|done|done|]. intros e He. by apply elem_of_nil in He. }
    unfold __on_cpu. destruct (callers st !! i) as [[d []]|] eqn:Hi; cbn [lock_test_and_set]; try done.
    + intros [= <-]. eapply Hsilent; [done|]. by case_match.
    + intros [= <-]. by eapply Hsilent.
    + destruct (apic_icr_write _ _ _ _); [|done]. intros [= <-]. eapply facts_move; [done|done|done|].
      intros e He. apply list_elem_of_singleton in He. by left.
    + intros [= <-]. eapply Hsilent; [done|]. by case_match.
    + intros [= <-]. eapply facts_move; [done|done| |].
      * intros _. by apply list_elem_of_singleton.
      * intros e He. apply list_elem_of_singleton in He. by right.
  - destruct Hf as [F1 F2 F3 F4]. unfold ipi. destruct (handler_at st c) eqn:Hc.
    + destruct (iflag c) eqn:Hif; [|by rewrite andb_false_r]. case_bool_decide; [|done]. intros [= <-].
      split; try done. intros x. rewrite handler_insert. case_decide; [by subst|apply F3].
    + intros [= <-]. assert (Hif : iflag c = true) by (apply F3; by rewrite Hc).
      split; cbn [callers events].
      * intros i d Hi. rewrite elem_of_app. left. by eapply F1.
      * intros i d. rewrite elem_of_app, list_elem_of_singleton. intros [Hi|?]; [by apply F2|done].
      * intros x. rewrite handler_insert. case_decide; [by subst|apply F3].
      * intros x. rewrite elem_of_app, list_elem_of_singleton. intros [Hx|[= ->]]; [by apply F4|done].
    + destruct (existsb _ _); [|done]. intros [= <-]. split; try done.
      intros x. rewrite handler_insert. case_decide; [done|apply F3].
Qed.

Lemma facts_run xs : forall st st', facts st -> run ops iflag st xs = Some st' -> facts st'.
Proof.
  induction xs as [|x xs IH]; intros st st' Hf; cbn [run]; [by intros [= <-]|].
  destruct (step ops iflag st x) as [st1|] eqn:Hs; [|done]. apply IH. by eapply facts_step.
Qed.

Lemma facts_start dests : facts (start dests).
Proof.
  split; cbn.
  - intros i d Hi. apply list_lookup_fmap_Some in Hi as (y & ? & _). congruence.
  - intros i d Hi. by apply elem_of_nil in Hi.
  - intros c Hc. by unfold handler_at in Hc.
  - intros c Hc. by apply elem_of_nil in Hc.
Qed.

End Proofs.

(** In events that follow the phases, a return is the end of a round. *)
Lemma phases_round n : forall l i b,
  (length l <= n)%nat -> phases Idle l = Some b -> Returned i ∈ l ->
  exists d l1 l2, l = l1 ++ [Sent i d; Handled d; Returned i] ++ l2.
Proof.
  induction n as [|n IH]; intros l i b Hn Hp Hi.
  - destruct l; [by apply elem_of_nil in Hi|simpl in Hn; lia].
  - destruct l as [|[j d|c|j] l]; [by apply elem_of_nil in Hi| |done|done]. cbn in Hp.
    destruct l as [|[j' d'|c|j'] l]; [set_solver|done| |done]. cbn in Hp. case_decide as Hc; [|done]. subst c.
    cbn in Hp. destruct l as [|[j' d'|c|j'] l]; [set_solver|done|done|]. cbn in Hp.
    case_decide as Hj; [|done]. subst j'. cbn in Hp.
    destruct (decide (i = j)) as [->|Hne]; [by exists d, [], l|].
    destruct (IH l i b) as (e & l1 & l2 & ->); [simpl in Hn; lia|done|set_solver|].
    by exists e, (Sent j d :: Handled d :: Returned j :: l1), l2.
Qed.

(** ** Claims *)

(** Between [spin_lock] and the end of [spin_unlock]. *)
Definition in_section (p : pc) : bool := match p with PLock | PRet => false | _ => true end.

(** C8: however the processors interleave, calls of [__on_cpu] are served one
    at a time: the events are rounds of a command, the run of the handler on
    its target and the return, at most one call is past [spin_lock], and for
    each call that has returned the handler ran on its target between its own
    command and its return. This holds for any APIC operations that keep the
    promise of [IcrSender]. *)
Theorem on_cpu_serial ops ready limit iflag (Hops : IcrSender ops ready limit) dests xs st :
  Forall (fun d => 0 <= d < limit) dests -> Forall (choice_ok ready) xs ->
  run ops iflag (start dests) xs = Some st ->
  is_Some (phases Idle (events st)) /\
  (forall i j d e p q, callers st !! i = Some (d, p) -> callers st !! j = Some (e, q) ->
     in_section p = true -> in_section q = true -> i = j) /\
  (forall i d, callers st !! i = Some (d, PRet) ->
     exists l1 l2, events st = l1 ++ [Sent i d; Handled d; Returned i] ++ l2).
Proof.
  intros Hd Hok Hrun. assert (Hd' : dests_ok limit (start dests)) by by apply Forall_fmap.
  destruct (run_simulates ops ready limit iflag xs _ _ _ (start_inv dests) Hd' Hok Hrun)
    as [(evs & a & E & P & Hinv) _]. cbn [events start app] in E.
  pose proof (facts_run ops iflag xs _ _ (facts_start iflag dests) Hrun) as [F1 F2 _ _].
  split; [rewrite E; by eexists|]. split.
  - intros i j d e p q Hi Hj Hp Hq.
    destruct (inv_lock _ _ _ _ _ Hinv Hi) as [[_ [-> | ->]]|[[_ [-> | ->]]|Hh]]; try done.
    symmetry. by eapply (holder_unique _ _ _ _ _ _ _ Hh Hj); intros ->.
  - intros i d Hi. destruct (phases_round (length evs) evs i a) as (d' & l1 & l2 & Hl);
      [done|done|rewrite <- E; by eapply F1|].
    assert (Hs : Sent i d' ∈ events st) by (rewrite E, Hl; set_solver).
    destruct (F2 _ _ Hs) as [p Hp]. rewrite Hi in Hp. injection Hp as <- _.
    rewrite E. by exists l1, l2.
Qed.

(** C19: no deadlock: when the targets have interrupts enabled, every call can
    still return, from whatever point the processors have reached. *)
Theorem on_cpu_completes ops ready limit iflag (Hops : IcrSender ops ready limit) dests xs st answers :
  Forall (fun d => 0 <= d < limit /\ iflag d = true) dests -> Forall (choice_ok ready) xs ->
  ready answers -> run ops iflag (start dests) xs = Some st ->
  exists xs' st', Forall (choice_ok ready) xs' /\ run ops iflag (start dests) (xs ++ xs') = Some st' /\
    callers st' = (fun d => (d, PRet)) <$> dests.
Proof.
  intros Hd Hok Hans Hrun. apply Forall_and in Hd as [Hd Hif].
  assert (Hd' : dests_ok limit (start dests)) by by apply Forall_fmap.
  assert (Hst : reaches ops ready iflag (start dests) st) by by exists xs.
  destruct (reaches_inv ops ready limit iflag _ _ _ (start_inv dests) Hd' Hst) as ([a Hinv] & Hd1 & Hc1).
  assert (Hids : (callers (start dests)).*1 = dests) by (cbn; by rewrite <- list_fmap_compose, list_fmap_id).
  rewrite Hids in Hc1.
  assert (Hif' : forall s, (callers s).*1 = dests -> Forall (fun c => iflag c.1 = true) (callers s)).
  { intros s Hs. apply (Forall_fmap fst (fun d => iflag d = true)). by rewrite Hs. }
  destruct (finish_holder ops ready limit iflag answers Hans st a Hinv Hd1 (Hif' _ Hc1)) as (st1 & R1 & Hr1).
  destruct (reaches_inv ops ready limit iflag _ _ _ Hinv Hd1 R1) as (_ & Hd2 & Hc2). rewrite Hc1 in Hc2.
  destruct (finish_all ops ready limit iflag answers Hans (length (callers st1)) st1 Hr1 Hd2 (Hif' _ Hc2) ltac:(lia))
    as (st2 & R2 & (_ & _ & Hinv2) & Hret).
  destruct (reaches_inv ops ready limit iflag _ _ _ (proj2 (proj2 Hr1)) Hd2 R2) as (_ & _ & Hc3).
  rewrite Hc2 in Hc3. destruct (transitivity R1 R2) as (xs' & Hok' & Hrun').
  exists xs', st2. split; [done|]. split; [by rewrite run_app, Hrun|].
  assert (Hl : length (callers st2) = length (callers st1)).
  { rewrite <- (length_fmap fst (callers st2)), <- (length_fmap fst (callers st1)). congruence. }
  rewrite <- Hc3. apply list_eq. intros i. rewrite !list_lookup_fmap.
  destruct (callers st2 !! i) as [[d p]|] eqn:Hi; [|done]. cbn. f_equal. f_equal.
  eapply Hret; [|done]. rewrite <- Hl. by eapply lookup_lt_Some.
Qed.

(** C37: a call to a processor with interrupts disabled never returns. The
    boot processor, which never enables them, cannot interrupt itself. *)
Theorem on_cpu_needs_interrupts ops ready limit iflag (Hops : IcrSender ops ready limit) dests xs st i d p :
  Forall (fun d => 0 <= d < limit) dests -> Forall (choice_ok ready) xs ->
  run ops iflag (start dests) xs = Some st -> iflag d = false -> callers st !! i = Some (d, p) -> p <> PRet.
Proof.
  intros Hd Hok Hrun Hif Hi ->. assert (Hd' : dests_ok limit (start dests)) by by apply Forall_fmap.
  destruct (run_simulates ops ready limit iflag xs _ _ _ (start_inv dests) Hd' Hok Hrun)
    as [(evs & a & E & P & _) _]. cbn [events start app] in E.
  pose proof (facts_run ops iflag xs _ _ (facts_start iflag dests) Hrun) as [F1 F2 _ F4].
  destruct (phases_round (length evs) evs i a) as (d' & l1 & l2 & Hl);
    [done|done|rewrite <- E; by eapply F1|].
  destruct (F2 i d') as [p Hp]; [rewrite E, Hl; set_solver|]. rewrite Hi in Hp. injection Hp as <- _.
  assert (iflag d = true) by (apply F4; rewrite E, Hl; set_solver). congruence.
Qed.

(** ** Witnesses *)

(** Two processors interrupt a third; the second finds the lock taken, and
    sends while the handler of the first has not ended yet. *)
Definition demo_schedule : list choice :=
  let call i := Call i [4096; 0] in
  [call 0%nat; call 1%nat; call 0%nat; call 0%nat; Irq 1; Irq 1; call 0%nat; call 0%nat;
   call 1%nat; call 1%nat; call 1%nat; Irq 1; Irq 1; call 1%nat; Irq 1; call 1%nat; call 1%nat].

Definition demo_iflag (c : Z) : bool := c =? 1.

Lemma demo_ready : xapic_ready [4096; 0].
Proof.
  exists [4096], 0, []. split; [done|]. split; [|done]. repeat constructor. by vm_compute.
Qed.

Lemma demo_schedule_ok n : Forall (choice_ok xapic_ready) (take n demo_schedule).
Proof. apply Forall_take. repeat constructor; exact demo_ready. Qed.

Lemma on_cpu_serial_witness :
  exists st, run xapic_ops demo_iflag (start [1; 1]) demo_schedule = Some st /\
    is_Some (phases Idle (events st)) /\
    exists l1 l2, events st = l1 ++ [Sent 1 1; Handled 1; Returned 1] ++ l2.
Proof.
  destruct (run xapic_ops demo_iflag (start [1; 1]) demo_schedule) as [st|] eqn:Hrun;
    [|vm_compute in Hrun; discriminate].
  destruct (on_cpu_serial xapic_ops xapic_ready 256 demo_iflag xapic_sender [1; 1] demo_schedule st)
    as (Hp & _ & Hret).
  - repeat constructor; lia.
  - exact (demo_schedule_ok 17).
  - exact Hrun.
  - exists st. split; [reflexivity|]. split; [exact Hp|]. apply Hret.
    vm_compute in Hrun. injection Hrun as <-. reflexivity.
Defined.

Lemma on_cpu_completes_witness :
  exists xs' st', Forall (choice_ok xapic_ready) xs' /\
    run xapic_ops demo_iflag (start [1; 1]) (take 11 demo_schedule ++ xs') = Some st' /\
    callers st' = [(1, PRet); (1, PRet)].
Proof.
  destruct (run xapic_ops demo_iflag (start [1; 1]) (take 11 demo_schedule)) as [st|] eqn:Hrun;
    [|vm_compute in Hrun; discriminate].
  apply (on_cpu_completes xapic_ops xapic_ready 256 demo_iflag xapic_sender [1; 1] (take 11 demo_schedule) st
    [4096; 0]).
  - repeat constructor; lia.
  - apply demo_schedule_ok.
  - exact demo_ready.
  - exact Hrun.
Defined.

(** The boot processor, APIC id 0, calls itself. *)
Lemma on_cpu_needs_interrupts_witness :
  exists st, run xapic_ops demo_iflag (start [0]) [Call 0 [0]; Call 0 [0]; Call 0 [0]; Call 0 [0]] = Some st /\
    callers st !! 0%nat = Some (0, PWait) /\ PWait <> PRet.
Proof.
  destruct (run xapic_ops demo_iflag (start [0]) [Call 0 [0]; Call 0 [0]; Call 0 [0]; Call 0 [0]]) as [st|] eqn:Hrun;
    [|vm_compute in Hrun; discriminate].
  exists st. split; [reflexivity|].
  assert (Hc : callers st !! 0%nat = Some (0, PWait)) by (vm_compute in Hrun; injection Hrun as <-; reflexivity).
  split; [exact Hc|].
  apply (on_cpu_needs_interrupts xapic_ops xapic_ready 256 demo_iflag xapic_sender [0]
    [Call 0 [0]; Call 0 [0]; Call 0 [0]; Call 0 [0]] st 0 0 PWait).
  - repeat constructor; lia.
  - repeat constructor; (exists [], 0, []; split; [reflexivity|]; split; [constructor|reflexivity]).
  - exact Hrun.
  - reflexivity.
  - exact Hc.
Defined.

End OnCpu.
