(* ===== verification/ApicReg.v ===== *)
(** * include/apic.h: the registers and words of the local APIC

    The register offsets and the fields of the words in them: the interrupt
    command, the destination, the logical id, the local vector table and the
    version. The layout of the interrupt command is the one of the Intel SDM,
    volume 3, section 11.6.1. *)

From stdpp Require Import base gmap list numbers strings.
From Stdlib Require Import ZArith Lia.
From S2P Require Import Prelude Mem Serial Mp Apic Smp Segment.

#[local] Open Scope Z_scope.

(** ** The interrupt command *)

Definition APIC_DEST_SELF : Z := 0x40000.
Definition APIC_DEST_ALLINC : Z := 0x80000.
Definition APIC_DEST_ALLBUT : Z := 0xC0000.
Definition APIC_INT_LEVELTRIG : Z := 0x08000.
Definition APIC_DEST_LOGICAL : Z := 0x00800.
Definition APIC_DM_LOWEST : Z := 0x00100.
Definition APIC_DM_SMI : Z := 0x00200.
Definition APIC_DM_REMRD : Z := 0x00300.
Definition APIC_DM_NMI : Z := 0x00400.
Definition APIC_DM_INIT : Z := 0x00500.
Definition APIC_DM_STARTUP : Z := 0x00600.
Definition APIC_DM_EXTINT : Z := 0x00700.
Definition APIC_VECTOR_MASK : Z := 0x000FF.

(** Its fields: the vector, the delivery mode, logical destination, delivery
    status, a reserved bit, the level, the trigger mode, the remote read status
    and the destination shorthand. *)
Record icr := mkIcr {
  icr_vector : Z;
  icr_mode : Z;
  icr_logical : Z;
  icr_status : Z;
  icr_reserved : Z;
  icr_level : Z;
  icr_trigger : Z;
  icr_remote : Z;
  icr_shorthand : Z;
}.

Definition icr_widths : list Z := [8; 3; 1; 1; 1; 1; 1; 2; 2].

Definition icr_of (w : Z) : icr :=
  match unpack icr_widths w with
  | [a; b; c; d; e; f; g; h; i] => mkIcr a b c d e f g h i
  | _ => mkIcr 0 0 0 0 0 0 0 0 0
  end.

(** The constants for each field with the code of the field. *)
Definition delivery_modes : list (Z * Z) :=
  [(OnCpu.APIC_DM_FIXED, 0); (APIC_DM_LOWEST, 1); (APIC_DM_SMI, 2); (APIC_DM_REMRD, 3); (APIC_DM_NMI, 4);
   (APIC_DM_INIT, 5); (APIC_DM_STARTUP, 6); (APIC_DM_EXTINT, 7)].
Definition dest_modes : list (Z * Z) := [(OnCpu.APIC_DEST_PHYSICAL, 0); (APIC_DEST_LOGICAL, 1)].
Definition levels : list (Z * Z) := [(0, 0); (OnCpu.APIC_INT_ASSERT, 1)].
Definition triggers : list (Z * Z) := [(0, 0); (APIC_INT_LEVELTRIG, 1)].
Definition shorthands : list (Z * Z) := [(0, 0); (APIC_DEST_SELF, 1); (APIC_DEST_ALLINC, 2); (APIC_DEST_ALLBUT, 3)].

Definition high (dm dst lvl trg sh : Z) : Z := Z.lor (Z.lor (Z.lor (Z.lor sh trg) lvl) dst) dm.
Definition command (v dm dst lvl trg sh : Z) : Z := Z.lor (high dm dst lvl trg sh) v.

(** ** Macros on words *)

Definition GET_APIC_VERSION (x : Z) : Z := Z.land x 0xFF.
Definition GET_APIC_MAXLVT (x : Z) : Z := Z.land (Z.shiftr x 16) 0xFF.
Definition GET_APIC_LOGICAL_ID (x : Z) : Z := Z.land (Z.shiftr x 24) 0xFF.
Definition SET_APIC_LOGICAL_ID (x : Z) : Z := u32 (Z.shiftl x 24).
Definition GET_APIC_DEST_FIELD (x : Z) : Z := Z.land (Z.shiftr x 24) 0xFF.
Definition SET_APIC_DEST_FIELD (x : Z) : Z := u32 (Z.shiftl x 24).
Definition GET_APIC_TIMER_BASE (x : Z) : Z := Z.land (Z.shiftr x 18) 0x3.
Definition SET_APIC_TIMER_BASE (x : Z) : Z := u32 (Z.shiftl x 18).
Definition GET_APIC_DELIVERY_MODE (x : Z) : Z := Z.land (Z.shiftr x 8) 0x7.
Definition SET_APIC_DELIVERY_MODE (x y : Z) : Z := Z.lor (Z.land x (Z.lnot 0x700)) (Z.shiftl y 8).

(** ** The registers *)

Definition APIC_LVR : Z := 0x30.
Definition APIC_TASKPRI : Z := 0x80.
Definition APIC_ARBPRI : Z := 0x90.
Definition APIC_PROCPRI : Z := 0xA0.
Definition APIC_RRR : Z := 0xC0.
Definition APIC_LDR : Z := 0xD0.
Definition APIC_DFR : Z := 0xE0.
Definition APIC_SPIV : Z := 0xF0.
Definition APIC_ISR : Z := 0x100.
Definition APIC_TMR : Z := 0x180.
Definition APIC_IRR : Z := 0x200.
Definition APIC_ESR : Z := 0x280.
Definition APIC_LVTT : Z := 0x320.
Definition APIC_LVTTHMR : Z := 0x330.
Definition APIC_LVTPC : Z := 0x340.
Definition APIC_LVT0 : Z := 0x350.
Definition APIC_LVT1 : Z := 0x360.
Definition APIC_LVTERR : Z := 0x370.
Definition APIC_TMICT : Z := 0x380.
Definition APIC_TMCCT : Z := 0x390.
Definition APIC_TDCR : Z := 0x3E0.
Definition APIC_SELF_IPI : Z := 0x3F0.
Definition APIC_EILVT0 : Z := 0x500.
Definition APIC_EILVT1 : Z := 0x510.
Definition APIC_EILVT2 : Z := 0x520.
Definition APIC_EILVT3 : Z := 0x530.

Definition apic_registers : list Z :=
  [APIC_ID; APIC_LVR; APIC_TASKPRI; APIC_ARBPRI; APIC_PROCPRI; APIC_EOI; APIC_RRR; APIC_LDR; APIC_DFR; APIC_SPIV; APIC_ISR;
   APIC_TMR; APIC_IRR; APIC_ESR; APIC_ICR; APIC_ICR2; APIC_LVTT; APIC_LVTTHMR; APIC_LVTPC; APIC_LVT0; APIC_LVT1; APIC_LVTERR;
   APIC_TMICT; APIC_TMCCT; APIC_TDCR; APIC_SELF_IPI; APIC_EILVT0; APIC_EILVT1; APIC_EILVT2; APIC_EILVT3].

(** ** Proofs *)

Lemma unpack_low w ws v c :
  0 <= w -> 0 <= v < 2 ^ w -> c mod 2 ^ w = 0 -> unpack (w :: ws) (Z.lor c v) = v :: unpack ws (c / 2 ^ w).
Proof.
  intros Hw Hv Hc. rewrite (lor_disjoint c v w) by done. cbn [unpack].
  assert (Hp : 0 < 2 ^ w) by (apply Z.pow_pos_nonneg; lia). apply Z.mod_divide in Hc as [q ->]; [|lia].
  rewrite (Z.add_comm _ v), Z.mod_add, Z.div_add, Z.div_mul, (Z.mod_small v), (Z.div_small v) by lia. done.
Qed.

(** The fields above the vector, for every choice of the constants. *)
Lemma command_high :
  Forall (fun dm => Forall (fun dst => Forall (fun lvl => Forall (fun trg => Forall (fun sh =>
    high dm.1 dst.1 lvl.1 trg.1 sh.1 mod 2 ^ 8 = 0 /\
    unpack (tail icr_widths) (high dm.1 dst.1 lvl.1 trg.1 sh.1 / 2 ^ 8) = [dm.2; dst.2; 0; 0; lvl.2; trg.2; 0; sh.2])
    shorthands) triggers) levels) dest_modes) delivery_modes.
Proof. by_eval. Qed.

(** ** Claims *)

(** The constants of the interrupt command are its fields: or-ing one of
    each kind with a vector gives the command that the hardware decodes to
    exactly those fields; so the command of [__on_cpu] is an asserted, fixed
    interrupt with its vector. *)
Theorem icr_fields v dm dst lvl trg sh :
  0 <= v < 256 -> dm ∈ delivery_modes -> dst ∈ dest_modes -> lvl ∈ levels -> trg ∈ triggers -> sh ∈ shorthands ->
  icr_of (command v dm.1 dst.1 lvl.1 trg.1 sh.1) = mkIcr v dm.2 dst.2 0 0 lvl.2 trg.2 0 sh.2 /\
  icr_of OnCpu.ipi_command = mkIcr OnCpu.IPI_VECTOR 0 0 0 0 1 0 0 0.
Proof.
  intros Hv H1 H2 H3 H4 H5. split; [|reflexivity].
  pose proof (proj1 (Forall_forall _ _) command_high _ H1) as H. pose proof (proj1 (Forall_forall _ _) H _ H2) as Ha.
  pose proof (proj1 (Forall_forall _ _) Ha _ H3) as Hb. pose proof (proj1 (Forall_forall _ _) Hb _ H4) as Hc.
  pose proof (proj1 (Forall_forall _ _) Hc _ H5) as [Hd He]. unfold icr_of, command.
  change icr_widths with (8 :: tail icr_widths). rewrite unpack_low by (done || lia). by rewrite He.
Qed.

(** A field that was set is read back, and setting the delivery mode changes
    nothing else. *)
Theorem apic_field_macros x y :
  0 <= x < 256 -> 0 <= y < 8 ->
  GET_APIC_DEST_FIELD (SET_APIC_DEST_FIELD x) = x /\ GET_APIC_LOGICAL_ID (SET_APIC_LOGICAL_ID x) = x /\
  GET_APIC_TIMER_BASE (SET_APIC_TIMER_BASE (x mod 4)) = x mod 4 /\
  forall w, GET_APIC_DELIVERY_MODE (SET_APIC_DELIVERY_MODE w y) = y /\
    forall i, 0 <= i -> i < 8 \/ 11 <= i -> Z.testbit (SET_APIC_DELIVERY_MODE w y) i = Z.testbit w i.
Proof.
  intros Hx Hy. unfold GET_APIC_DEST_FIELD, SET_APIC_DEST_FIELD, GET_APIC_LOGICAL_ID, SET_APIC_LOGICAL_ID,
    GET_APIC_TIMER_BASE, SET_APIC_TIMER_BASE.
  assert (Hb : Z.land (Z.shiftr (u32 (Z.shiftl x 24)) 24) 255 = x).
  { rewrite (land_low _ 8), Z.shiftl_mul_pow2, Z.shiftr_div_pow2 by lia. change (2 ^ 24) with 16777216. change (2 ^ 8) with 256. mach. }
  split; [done|]. split; [done|]. split.
  { rewrite (land_low _ 2), Z.shiftl_mul_pow2, Z.shiftr_div_pow2 by lia. change (2 ^ 18) with 262144. change (2 ^ 2) with 4. mach. }
  assert (Hm : forall i, 0 <= i -> Z.testbit 0x700 i = (8 <=? i) && (i <? 11)).
  { intros i Hi. change 0x700 with (Z.shiftl (Z.ones 3) 8). rewrite Z.shiftl_spec by done. destruct (Z.leb_spec 8 i); cbn [andb].
    - rewrite Z.testbit_ones by lia. rewrite (proj2 (Z.leb_le 0 (i - 8))) by lia. cbn [andb].
      destruct (Z.ltb_spec i 11), (Z.ltb_spec (i - 8) 3); lia || done.
    - apply Z.testbit_neg_r. lia. }
  assert (Hs : forall i, 3 <= i -> Z.testbit y i = false).
  { intros i Hi. rewrite <- (Z.mod_small y (2 ^ 3)) by (change (2 ^ 3) with 8; lia). apply Z.mod_pow2_bits_high. lia. }
  intros w. unfold GET_APIC_DELIVERY_MODE, SET_APIC_DELIVERY_MODE.
  assert (Hbits : forall i, 0 <= i ->
    Z.testbit (Z.lor (Z.land w (Z.lnot 0x700)) (Z.shiftl y 8)) i = Z.testbit w i && negb ((8 <=? i) && (i <? 11)) || Z.testbit y (i - 8)).
  { intros i Hi. rewrite Z.lor_spec, Z.land_spec, Z.lnot_spec, Z.shiftl_spec, Hm by done. done. }
  split.
  - apply Z.bits_inj'. intros i Hi. change 7 with (Z.ones 3). rewrite Z.land_spec, Z.shiftr_spec, Hbits, Z.testbit_ones by lia.
    replace (i + 8 - 8) with i by lia. rewrite (proj2 (Z.leb_le 0 i)), (proj2 (Z.leb_le 8 (i + 8))) by lia. cbn [andb].
    destruct (Z.ltb_spec i 3).
    + rewrite (proj2 (Z.ltb_lt (i + 8) 11)) by lia. cbn [negb]. by rewrite andb_false_r, andb_true_r.
    + rewrite andb_false_r, Hs by lia. done.
  - intros i Hi Ho. rewrite Hbits by done. destruct Ho.
    + rewrite (proj2 (Z.leb_gt 8 i)) by lia. cbn [andb negb]. rewrite andb_true_r, (Z.testbit_neg_r y) by lia. apply orb_false_r.
    + rewrite (proj2 (Z.ltb_ge i 11)), andb_false_r, Hs by lia. cbn [negb]. by rewrite andb_true_r, orb_false_r.
Qed.

(** The registers of the x2APIC: the offsets are those of sixteen-byte slots,
    and different registers are different model-specific registers, from 0x800
    to 0x8ff. *)
Theorem x2apic_registers r1 r2 :
  r1 ∈ apic_registers -> r2 ∈ apic_registers ->
  2048 <= APIC_BASE_MSR + r1 / 16 <= 2303 /\ (APIC_BASE_MSR + r1 / 16 = APIC_BASE_MSR + r2 / 16 -> r1 = r2).
Proof.
  assert (H : Forall (fun r => r mod 16 = 0 /\ 0 <= r < 4096) apic_registers) by by_eval.
  intros H1 H2. destruct (proj1 (Forall_forall _ _) H _ H1), (proj1 (Forall_forall _ _) H _ H2).
  unfold APIC_BASE_MSR. split; [mach|]. intros E. mach.
Qed.

(** ** Witnesses *)

Lemma icr_fields_witness :
  icr_of (command 8 APIC_DM_STARTUP 0 OnCpu.APIC_INT_ASSERT 0 APIC_DEST_ALLBUT) = mkIcr 8 6 0 0 0 1 0 0 3.
Proof.
  exact (proj1 (icr_fields 8 (APIC_DM_STARTUP, 6) (0, 0) (OnCpu.APIC_INT_ASSERT, 1) (0, 0) (APIC_DEST_ALLBUT, 3)
    ltac:(lia) ltac:(by_eval) ltac:(by_eval) ltac:(by_eval) ltac:(by_eval) ltac:(by_eval))).
Defined.

Lemma apic_field_macros_witness : GET_APIC_DEST_FIELD (SET_APIC_DEST_FIELD 3) = 3.
Proof. exact (proj1 (apic_field_macros 3 4 ltac:(lia) ltac:(lia))). Defined.

Lemma x2apic_registers_witness : 2048 <= APIC_BASE_MSR + APIC_ICR / 16 <= 2303.
Proof. exact (proj1 (x2apic_registers APIC_ICR APIC_EOI ltac:(by_eval) ltac:(by_eval))). Defined.
