(* ===== verification/Ipi.v ===== *)
(** * The interrupt gate of x86_64/mp.c

    [smp_init] installs the gate of IPI_VECTOR, and [ipi_entry] is the code
    behind it: [call ipi; iretq]. Smp shows what the interrupt does for
    [__on_cpu]; here it runs on the processor and the stack of Desc. Also the
    identifiers [setup_smp_id] stores and [smp_id] reads, and [do_test]. *)

From stdpp Require Import base gmap list numbers strings.
From Stdlib Require Import ZArith Lia.
From S2P Require Import Prelude Mem CString Printf Serial Stdio Desc Apic Smp.

#[local] Open Scope Z_scope.

(** [gs] is the base of the GS segment. *)
Definition setup_smp_id (ops : apic_ops) (m : mem) (s : io) (gs : Z) : res (mem * io) :=
  '(id, s) ← apic_id ops s; m ← store32 m gs id; Ok (m, s).

Definition smp_id (m : mem) (gs : Z) : res Z := id ← load32 m gs; Ok (s32 id).

Definition do_test (s : serial) : res unit := _ ← say no_strs s (bytes_of_string "STOP") []; Err Hang.

Definition smp_init (boot_idt cs : Z) (stub : Z -> Z) (ipi_entry : Z) (m : mem) (st : idt_state)
    : res (mem * idt_state) :=
  '(m, st) ← setup_idt boot_idt cs stub m st;
  m ← set_idt_entry m boot_idt cs OnCpu.IPI_VECTOR ipi_entry 0;
  Ok (m, st).

(** ** ipi_entry *)

(** The registers a C function preserves (System V ABI for x86-64). *)
Definition callee_saved (r : reg) : bool :=
  match r with RBX | RBP | R12 | R13 | R14 | R15 => true | _ => false end.

(** The interrupt from its delivery to the instruction after [iretq]: the
    return address of [call ipi] goes below the frame and is popped again,
    [ipi] stores to [ipi_done] and ends the interrupt, and leaves [clobbered]
    in the registers it need not preserve. *)
Definition run_ipi (ops : apic_ops) (ipi_done ret : Z) (clobbered : reg -> Z) (m : mem) (s : io) (c : cpu)
    : res (mem * io * cpu) :=
  '(m, c) ← deliver m c OnCpu.IPI_VECTOR 0;
  '(m, c) ← push_word m c ret;
  m ← store32 m ipi_done 1;
  let s := apic_write ops s APIC_EOI 0 in
  let c := mkCpu (fun r => if callee_saved r then gpr c r else clobbered r) (rsp c + 8) (rip c) (cs_sel c)
             (rflags c) (ss_sel c) in
  c ← iretq m c;
  Ok (m, s, c).

(** ** Claims *)

(** [smp_init] leaves a present gate to [ipi_entry] at IPI_VECTOR next to
    the gates of the 18 exceptions, and changes no other byte. *)
Theorem smp_init_gates m boot cs stub ipi_entry st :
  (forall v, v ∈ fault_vectors -> word_ok (stub v) /\ stub v <> 0) -> word_ok ipi_entry -> 0 <= cs < 65536 ->
  mapped m boot 4096 -> idt_initialized st = false -> length (exception_handlers st) = 256%nat ->
  exists m' st', smp_init boot cs stub ipi_entry m st = Ok (m', st') /\
    gate_at m' (boot + 512) ipi_entry cs 0 /\
    (forall v, v ∈ fault_vectors -> gate_at m' (boot + 16 * v) (stub v) cs 0) /\
    (forall x, (forall v, v = 32 \/ v ∈ fault_vectors -> x < boot + 16 * v \/ boot + 16 * v + 16 <= x) ->
       m' !! x = m !! x).
Proof.
  intros Hstub He Hcs Hm Hi Hl.
  destruct (setup_idt_run m boot cs stub st Hstub Hcs Hm Hi Hl) as (m1 & st1 & E1 & G1 & A1 & _ & _ & _ & D1 & _).
  assert (Hm1 : mapped m1 (boot + 16 * 32) 16) by (intros x Hx; apply D1, Hm; lia).
  destruct (set_idt_entry_ok m1 boot cs 32 ipi_entry 0 Hm1 He Hcs) as (m2 & E2 & G2 & _ & A2).
  exists m2, st1. unfold smp_init. rewrite E1. mret. change OnCpu.IPI_VECTOR with 32. rewrite E2. mret.
  split; [done|]. split; [exact G2|]. split.
  - intros v Hv. eapply gate_frame; [|by apply G1]. intros x Hx. apply A2.
    unfold fault_vectors in Hv. rewrite !elem_of_cons, elem_of_nil in Hv. lia.
  - intros x Hx. rewrite A2 by (specialize (Hx 32 ltac:(by left)); lia). apply A1. intros v Hv. apply Hx. by right.
Qed.

(** C31: the interrupt sets [ipi_done], ends itself at the APIC and returns to
    the interrupted instruction with its stack and flags, but [ipi_entry] saves
    no register: those a C function may change come back changed. *)
Theorem ipi_entry_registers ops ready limit (Hops : IcrSender ops ready limit) ipi_done ret clobbered m s c :
  cpu_ok c -> word_ok ret -> mapped m (rsp c - rsp c mod 16 - 48) 48 -> mapped m ipi_done 4 ->
  (ipi_done + 4 <= rsp c - rsp c mod 16 - 48 \/ rsp c - rsp c mod 16 <= ipi_done) ->
  exists m' s' c' ev, run_ipi ops ipi_done ret clobbered m s c = Ok (m', s', c') /\
    load32 m' ipi_done = Ok 1 /\ io_log s' = io_log s ++ [ev] /\ is_eoi ev = true /\
    (rip c', rsp c', cs_sel c', rflags c', ss_sel c') = (rip c, rsp c, cs_sel c, rflags c, ss_sel c) /\
    (forall r, gpr c' r = if callee_saved r then gpr c r else clobbered r).
Proof.
  intros Hc Hr Hm Hd Hdis. unfold run_ipi.
  destruct (deliver_frame m c OnCpu.IPI_VECTOR 0 Hc) as (m1 & n & -> & Hn & W1 & D1 & A1);
    [unfold word_ok; lia|done|]. change (hw_error_code OnCpu.IPI_VECTOR) with false in *. subst n.
  cbn [app] in W1. set (sp := rsp c - rsp c mod 16) in *. mret.
  destruct (push_spec m1 (set_rsp c (sp - 40)) ret _ W1 Hr) as (m2 & -> & W2 & D2 & A2).
  { intros x Hx. apply D1, Hm. cbn [set_rsp rsp] in Hx. lia. }
  mret. cbn [set_rsp rsp] in *.
  destruct (store_le_spec 4 m2 ipi_done 1) as (m3 & S3 & L3 & D3 & A3).
  { intros x Hx. apply D2, D1, Hd. lia. }
  unfold store32. rewrite S3. mret.
  destruct (eoi_ends s) as (ev & Hev & Hisev).
  assert (W3 : words_at m3 (sp - 40) [rip c; cs_sel c; rflags c; rsp c; ss_sel c]).
  { eapply (words_at_frame m2); [|replace (sp - 40) with (sp - 40 - 8 + 8) by lia; apply W2].
    intros x Hx. cbn [length] in Hx. apply A3. lia. }
  destruct W3 as (I1 & I2 & I3 & I4 & I5 & _). unfold iretq. cbn [rsp].
  replace (sp - 40 - 8 + 8) with (sp - 40) by lia.
  replace (sp - 40 + 16) with (sp - 40 + 8 + 8) by lia.
  replace (sp - 40 + 24) with (sp - 40 + 8 + 8 + 8) by lia.
  replace (sp - 40 + 32) with (sp - 40 + 8 + 8 + 8 + 8) by lia.
  rewrite I1, I2, I3, I4, I5. mret. eexists _, _, _, ev. split; [done|].
  split; [exact L3|]. split; [exact Hev|]. split; [done|]. by split.
Qed.

(** ** Witnesses *)

Lemma smp_init_gates_witness :
  exists m' st', smp_init 8192 8 (fun v => 1048576 + 16 * v) 2097152 demo_idt
      (mkIdt false (replicate 256 Hnull) (0, 0)) = Ok (m', st') /\
    gate_at m' 8704 2097152 8 0.
Proof.
  destruct (smp_init_gates demo_idt 8192 8 (fun v => 1048576 + 16 * v) 2097152
    (mkIdt false (replicate 256 Hnull) (0, 0))) as (m' & st' & H & G & _).
  - intros v Hv. unfold fault_vectors in Hv. rewrite !elem_of_cons, elem_of_nil in Hv.
    unfold word_ok. lia.
  - unfold word_ok. lia.
  - lia.
  - by_eval.
  - reflexivity.
  - reflexivity.
  - exists m', st'. split; [exact H|exact G].
Defined.

(** The interrupted code had 7 in RAX; the handler leaves 0. *)
Lemma ipi_entry_registers_witness :
  exists m' s' c' ev, run_ipi xapic_ops 260 9000 (fun _ => 0) demo_stack (mkIo [] []) demo_cpu = Ok (m', s', c') /\
    load32 m' 260 = Ok 1 /\ io_log s' = [] ++ [ev] /\ is_eoi ev = true /\
    (rip c', rsp c', cs_sel c', rflags c', ss_sel c') =
    (rip demo_cpu, rsp demo_cpu, cs_sel demo_cpu, rflags demo_cpu, ss_sel demo_cpu) /\
    (forall r, gpr c' r = if callee_saved r then gpr demo_cpu r else 0).
Proof.
  apply (ipi_entry_registers xapic_ops xapic_ready 256 xapic_sender 260 9000 (fun _ => 0) demo_stack (mkIo [] []) demo_cpu).
  - exact demo_cpu_ok.
  - unfold word_ok. lia.
  - by_eval.
  - by_eval.
  - left. by_eval.
Defined.
