(* ===== verification/Vpages.v ===== *)
(** * Concurrent calls of alloc_vpages, x86_64/heap.c

    [alloc_vpages] moves [vfree_top] under the lock but reads the result
    after releasing it. The calls run one memory access at a time, in any
    order; [Heap.alloc_vpages] is the same function on one processor. *)

From stdpp Require Import base gmap list numbers strings.
From Stdlib Require Import ZArith Lia.
From S2P Require Import Prelude Mem CString Serial Heap Smp.

#[local] Open Scope Z_scope.

Module Vpages.

(** Where a call is: before [spin_lock], before the load and the store of
    [vfree_top -= PAGE_SIZE * nr], before [spin_unlock], before the load of
    the result, returned. *)
Inductive vpc := VLock | VLoad | VStore (old : Z) | VUnlock | VRead | VRet (r : Z).

#[export] Instance vpc_eq_dec : EqDecision vpc.
Proof. solve_decision. Defined.

(** [lock], [vfree_top], and the calls with their [nr]. *)
Record vstate := mkV {
  vlock : Z;
  vtop : Z;
  vcalls : list (Z * vpc);
}.

Definition vmove (st : vstate) (i : nat) (nr : Z) (p : vpc) : list (Z * vpc) := <[i := (nr, p)]> (vcalls st).

(** The next access of call [i]. *)
Definition vstep (st : vstate) (i : nat) : option vstate :=
  match vcalls st !! i with
  | Some (nr, VLock) =>
      let '(old, v) := lock_test_and_set (vlock st) in
      Some (mkV v (vtop st) (vmove st i nr (if old =? 0 then VLoad else VLock)))
  | Some (nr, VLoad) => Some (mkV (vlock st) (vtop st) (vmove st i nr (VStore (vtop st))))
  | Some (nr, VStore old) =>
      Some (mkV (vlock st) (u64 (old - u64 (PAGE_SIZE * nr))) (vmove st i nr VUnlock))
  | Some (nr, VUnlock) => Some (mkV (spin_unlock (vlock st)) (vtop st) (vmove st i nr VRead))
  | Some (nr, VRead) => Some (mkV (vlock st) (vtop st) (vmove st i nr (VRet (vtop st))))
  | Some (_, VRet _) | None => None
  end.

Fixpoint vrun (st : vstate) (xs : list nat) : option vstate :=
  match xs with
  | [] => Some st
  | i :: xs' => st' ← vstep st i; vrun st' xs'
  end.

Definition vstart (top : Z) (nrs : list Z) : vstate := mkV 0 top ((fun nr => (nr, VLock)) <$> nrs).

(** ** The invariant *)

Definition in_lock (p : vpc) : bool :=
  match p with VLoad | VStore _ | VUnlock => true | _ => false end.

(** The pages of the calls whose update is done. *)
Definition taken (c : Z * vpc) : Z :=
  match c.2 with VUnlock | VRead | VRet _ => c.1 | _ => 0 end.

Fixpoint total (cs : list (Z * vpc)) : Z :=
  match cs with
  | [] => 0
  | c :: cs' => taken c + total cs'
  end.

Record vinv (top : Z) (st : vstate) : Prop := mkVinv {
  vinv_lock : vlock st = 0 \/ vlock st = 1;
  vinv_free : vlock st = 0 -> forall i nr p, vcalls st !! i = Some (nr, p) -> in_lock p = false;
  vinv_one : forall i j a b p q, vcalls st !! i = Some (a, p) -> vcalls st !! j = Some (b, q) ->
    in_lock p = true -> in_lock q = true -> i = j;
  vinv_old : forall i nr old, vcalls st !! i = Some (nr, VStore old) -> old = vtop st;
  vinv_top : vtop st = u64 (top - PAGE_SIZE * total (vcalls st));
}.

Lemma total_insert cs i c c' :
  cs !! i = Some c -> total (<[i := c']> cs) = total cs - taken c + taken c'.
Proof.
  revert i. induction cs as [|x cs IH]; intros [|i] Hi; try done; simpl in *.
  - injection Hi as ->. lia.
  - rewrite (IH _ Hi). lia.
Qed.

Lemma lookup_vmove st i j nr p a q :
  vmove st i nr p !! j = Some (a, q) ->
  (j = i /\ a = nr /\ q = p) \/ (j <> i /\ vcalls st !! j = Some (a, q)).
Proof.
  unfold vmove. destruct (decide (j = i)) as [->|Hne].
  - intros H. left. apply list_lookup_insert_Some in H as [(_ & ? & _)|(? & _)]; [|done]. by simplify_eq.
  - rewrite list_lookup_insert_ne by done. by right.
Qed.

(** A step of a call that neither takes nor releases the lock, and leaves
    [vfree_top] alone. *)
Lemma vinv_move top st i nr p q :
  vinv top st -> vcalls st !! i = Some (nr, p) -> in_lock q = in_lock p -> taken (nr, q) = taken (nr, p) ->
  (forall old, q = VStore old -> old = vtop st) ->
  vinv top (mkV (vlock st) (vtop st) (vmove st i nr q)).
Proof.
  intros [H1 H2 H3 H4 H5] Hi Hin Ht Hold. split; cbn [vlock vtop vcalls]; [done| | | |].
  - intros Hl j a r Hj. apply lookup_vmove in Hj as [(-> & -> & ->)|[_ Hj]]; [rewrite Hin|]; by eapply H2.
  - intros j k a b r s Hj Hk Hr Hs.
    apply lookup_vmove in Hj as [(-> & -> & ->)|[Hj' Hj]];
      apply lookup_vmove in Hk as [(-> & -> & ->)|[Hk' Hk]]; [done|..].
    + rewrite Hin in Hr. by eapply (H3 i k).
    + rewrite Hin in Hs. by eapply (H3 j i).
    + by eapply (H3 j k).
  - intros j a old Hj. apply lookup_vmove in Hj as [(-> & -> & Hq)|[_ Hj]]; [by apply Hold|by eapply H4].
  - unfold vmove. rewrite (total_insert _ _ _ _ Hi), Ht.
    replace (total (vcalls st) - taken (nr, p) + taken (nr, p)) with (total (vcalls st)) by lia. done.
Qed.

Lemma vinv_acquire top st i nr :
  vinv top st -> vcalls st !! i = Some (nr, VLock) -> vlock st = 0 ->
  vinv top (mkV 1 (vtop st) (vmove st i nr VLoad)).
Proof.
  intros [H1 H2 H3 H4 H5] Hi Hl. split; cbn [vlock vtop vcalls]; [by right|done| | |].
  - intros j k a b r s Hj Hk Hr Hs.
    apply lookup_vmove in Hj as [(-> & -> & ->)|[_ Hj]]; [|by rewrite (H2 Hl _ _ _ Hj) in Hr].
    apply lookup_vmove in Hk as [(-> & -> & ->)|[_ Hk]]; [done|by rewrite (H2 Hl _ _ _ Hk) in Hs].
  - intros j a old Hj. apply lookup_vmove in Hj as [(_ & _ & ?)|[_ Hj]]; [done|by eapply H4].
  - unfold vmove. rewrite (total_insert _ _ _ _ Hi). cbn [taken fst snd].
    by replace (total (vcalls st) - 0 + 0) with (total (vcalls st)) by lia.
Qed.

(** While call [i] holds the lock no other call does. *)
Lemma vinv_alone top st i nr p j a q :
  vinv top st -> vcalls st !! i = Some (nr, p) -> in_lock p = true ->
  j <> i -> vcalls st !! j = Some (a, q) -> in_lock q = false.
Proof.
  intros Hv Hi Hp Hne Hj. destruct (in_lock q) eqn:Hq; [|done].
  by destruct (Hne (vinv_one _ _ Hv _ _ _ _ _ _ Hj Hi Hq Hp)).
Qed.

Lemma vinv_store top st i nr old :
  vinv top st -> vcalls st !! i = Some (nr, VStore old) ->
  vinv top (mkV (vlock st) (u64 (old - u64 (PAGE_SIZE * nr))) (vmove st i nr VUnlock)).
Proof.
  intros Hv Hi. pose proof (fun j a q => vinv_alone top st i nr _ j a q Hv Hi eq_refl) as Hone.
  destruct Hv as [H1 H2 H3 H4 H5]. split; cbn [vlock vtop vcalls]; [done| | | |].
  - intros Hl. by pose proof (H2 Hl _ _ _ Hi).
  - intros j k a b r s Hj Hk Hr Hs.
    apply lookup_vmove in Hj as [(-> & -> & ->)|[Hj' Hj]]; [|by rewrite (Hone _ _ _ Hj' Hj) in Hr].
    apply lookup_vmove in Hk as [(-> & -> & ->)|[Hk' Hk]]; [done|by rewrite (Hone _ _ _ Hk' Hk) in Hs].
  - intros j a o Hj. apply lookup_vmove in Hj as [(_ & _ & ?)|[Hne Hj]]; [done|].
    by pose proof (Hone _ _ _ Hne Hj).
  - rewrite (H4 _ _ _ Hi), H5. unfold vmove. rewrite (total_insert _ _ _ _ Hi). cbn [taken fst snd].
    unfold u64. rewrite Zminus_mod_idemp_l, Zminus_mod_idemp_r. f_equal. lia.
Qed.

Lemma vinv_release top st i nr :
  vinv top st -> vcalls st !! i = Some (nr, VUnlock) ->
  vinv top (mkV 0 (vtop st) (vmove st i nr VRead)).
Proof.
  intros Hv Hi. pose proof (fun j a q => vinv_alone top st i nr _ j a q Hv Hi eq_refl) as Hone.
  destruct Hv as [H1 H2 H3 H4 H5]. split; cbn [vlock vtop vcalls]; [by left| | | |].
  - intros _ j a q Hj. apply lookup_vmove in Hj as [(-> & -> & ->)|[Hne Hj]]; [done|by eapply Hone].
  - intros j k a b r s Hj Hk Hr Hs.
    apply lookup_vmove in Hj as [(-> & -> & ->)|[_ Hj]]; [done|].
    apply lookup_vmove in Hk as [(-> & -> & ->)|[_ Hk]]; [done|by eapply (H3 j k)].
  - intros j a o Hj. apply lookup_vmove in Hj as [(_ & _ & ?)|[_ Hj]]; [done|by eapply H4].
  - unfold vmove. rewrite (total_insert _ _ _ _ Hi). cbn [taken fst snd].
    by replace (total (vcalls st) - nr + nr) with (total (vcalls st)) by lia.
Qed.

Lemma vinv_step top st i st' : vinv top st -> vstep st i = Some st' -> vinv top st'.
Proof.
  intros Hv. unfold vstep. destruct (vcalls st !! i) as [[nr p]|] eqn:Hi; [|done].
  destruct p as [| |old| | |r]; cbn [lock_test_and_set]; intros [= <-].
  - destruct (Z.eqb_spec (vlock st) 0) as [Hl|Hl]; [by apply vinv_acquire|].
    replace 1 with (vlock st) by (destruct (vinv_lock _ _ Hv); lia). by eapply vinv_move.
  - eapply vinv_move; try done. by intros old [= <-].
  - by apply vinv_store.
  - by apply vinv_release.
  - by eapply vinv_move.
Qed.

Lemma vinv_run top xs : forall st st', vinv top st -> vrun st xs = Some st' -> vinv top st'.
Proof.
  induction xs as [|i xs IH]; intros st st' Hv; cbn [vrun]; [by intros [= <-]|].
  destruct (vstep st i) as [st1|] eqn:Hs; [|done]. apply IH. by eapply vinv_step.
Qed.

Lemma vinv_start top nrs : 0 <= top < 2 ^ 64 -> vinv top (vstart top nrs).
Proof.
  intros Ht.
  assert (Hp : forall i nr p, vcalls (vstart top nrs) !! i = Some (nr, p) -> p = VLock).
  { intros i nr p Hi. apply list_lookup_fmap_Some in Hi as (y & ? & _). congruence. }
  split; cbn [vstart vlock vtop].
  - by left.
  - intros _ i nr p Hi. by rewrite (Hp _ _ _ Hi).
  - intros i j a b p q Hi _. by rewrite (Hp _ _ _ Hi).
  - intros i nr old Hi. by apply Hp in Hi.
  - assert (H0 : total (vcalls (vstart top nrs)) = 0).
    { cbn [vcalls vstart]. clear Hp. by induction nrs as [|n nrs IH]. }
    rewrite H0, Z.mul_0_r, Z.sub_0_r. symmetry. by apply u64_small.
Qed.

Lemma vrun_nrs xs : forall st st', vrun st xs = Some st' -> (vcalls st').*1 = (vcalls st).*1.
Proof.
  induction xs as [|i xs IH]; intros st st'; cbn [vrun]; [by intros [= <-]|].
  destruct (vstep st i) as [st1|] eqn:Hs; [|done]. intros Hr. rewrite (IH _ _ Hr).
  assert (Hm : forall nr p q, vcalls st !! i = Some (nr, p) -> (vmove st i nr q).*1 = (vcalls st).*1).
  { intros nr p q Hi. unfold vmove. rewrite list_fmap_insert. apply list_insert_id.
    by rewrite list_lookup_fmap, Hi. }
  unfold vstep in Hs. destruct (vcalls st !! i) as [[nr []]|] eqn:Hi; cbn [lock_test_and_set] in Hs;
    try done; injection Hs as <-; by eapply Hm.
Qed.

(** ** Claims *)

Definition returned (c : Z * vpc) : bool := match c.2 with VRet _ => true | _ => false end.

Lemma total_returned cs : forallb returned cs = true -> total cs = foldr Z.add 0 cs.*1.
Proof.
  induction cs as [|[nr p] cs IH]; [done|]. simpl. destruct p; try done. simpl. intros H. by rewrite IH.
Qed.

(** Under every interleaving of calls the lock makes the update of
    [vfree_top] atomic: at most one call is between the lock and its release,
    and once all calls have returned [vfree_top] is lower by the pages of all
    of them, modulo the width of a pointer. *)
Theorem vpages_total top nrs xs st :
  0 <= top < 2 ^ 64 -> vrun (vstart top nrs) xs = Some st ->
  (forall i j a b p q, vcalls st !! i = Some (a, p) -> vcalls st !! j = Some (b, q) ->
     in_lock p = true -> in_lock q = true -> i = j) /\
  (forallb returned (vcalls st) = true -> vtop st = u64 (top - PAGE_SIZE * foldr Z.add 0 nrs)).
Proof.
  intros Ht Hrun. pose proof (vinv_run _ _ _ _ (vinv_start top nrs Ht) Hrun) as Hv.
  split; [exact (vinv_one _ _ Hv)|]. intros Hr. rewrite (vinv_top _ _ Hv), total_returned by done.
  rewrite (vrun_nrs _ _ _ Hrun). cbn [vcalls vstart]. by rewrite <- list_fmap_compose, list_fmap_id.
Qed.

Lemma vpages_total_witness :
  exists st, vrun (vstart 0 [2; 1]) [0; 1; 0; 0; 0; 1; 0; 1; 1; 1; 1]%nat = Some st /\
    vtop st = u64 (0 - PAGE_SIZE * 3).
Proof.
  destruct (vrun (vstart 0 [2; 1]) [0; 1; 0; 0; 0; 1; 0; 1; 1; 1; 1]%nat) as [st|] eqn:Hrun;
    [|vm_compute in Hrun; discriminate].
  exists st. split; [reflexivity|].
  apply (vpages_total 0 [2; 1] [0; 1; 0; 0; 0; 1; 0; 1; 1; 1; 1]%nat st); [lia|exact Hrun|].
  vm_compute in Hrun. injection Hrun as <-. reflexivity.
Defined.

(** C29: two overlapping calls of [alloc_vpages] can return the same address,
    because the result is read after the lock is released: the ranges of
    both calls then overlap. *)
Theorem vpages_race top n1 n2 :
  exists xs st r, vrun (vstart top [n1; n2]) xs = Some st /\
    vcalls st = [(n1, VRet r); (n2, VRet r)] /\
    r = u64 (u64 (top - u64 (PAGE_SIZE * n1)) - u64 (PAGE_SIZE * n2)).
Proof.
  exists [0; 0; 0; 0; 1; 1; 1; 1; 0; 1]%nat. eexists _, _. split; [reflexivity|]. done.
Qed.

(** On one processor the machine is [Heap.alloc_vpages]. *)
Lemma vpages_alone h nr :
  hlock h = 0 ->
  exists h' st r, alloc_vpages h nr = Ok (h', r) /\
    vrun (mkV (hlock h) (vfree_top h) [(nr, VLock)]) [0; 0; 0; 0; 0]%nat = Some st /\
    vcalls st = [(nr, VRet r)] /\ vtop st = vfree_top h' /\ vlock st = hlock h'.
Proof.
  intros Hl. unfold alloc_vpages, spin_lock. rewrite Hl. change (0 =? 0) with true. mret.
  eexists _, _, _. split; [done|]. split; [reflexivity|]. done.
Qed.

End Vpages.
