(* ===== verification/Boot.v ===== *)
(** * Starting the other processors: x86_64/main.c and x86_64/cstart.S

    [startothers] on the boot processor and [mpenter] on each processor it
    starts, as a machine of one step at a time in any order, with the table of
    processors [mpinit] filled. [startothers] first copies the entry code of
    cstart.S to address 0, where a STARTUP with vector 0 sends a processor;
    the code itself is a list of bytes. What [lapicstartap] writes to the APIC
    decides which processor starts; a started processor takes its stack from
    [smp_stacktop] with a locked addition, prints, and tells [startothers] that
    it is up. Also [platform_shutdown], [list_apicid] and [DEBUG]; [main] is in
    Main. *)

From stdpp Require Import base gmap list numbers strings.
From Stdlib Require Import ZArith Lia.
From S2P Require Import Prelude Mem CString Printf Serial Stdio Mp Desc Apic.

#[local] Open Scope Z_scope.

(** ** The end of a run, and two messages *)

Definition platform_shutdown (s : io) : res io :=
  let s := outl s 2147486592 3320 in
  '(al, s) ← inb s 3324;
  let s := outb s (Z.lor al 1) 3324 in
  let s := outl s 2147486528 3320 in
  let s := outl s 28673 3324 in
  Ok (outw s 8192 28676).

Fixpoint list_loop (n : nat) (s : serial) (st : mpstate) (i : Z) : res serial :=
  match n with
  | O => Ok s
  | S n' =>
      id ← of_option Undef (cpus st !! Z.to_nat i);
      s ← say no_strs s (bytes_of_string "%5d ") [id];
      list_loop n' s st (i + 1)
  end.

Definition list_apicid (s : serial) (st : mpstate) : res serial :=
  s ← say no_strs s (line "The number of processors : %d") [ncpu st];
  s ← list_loop (Z.to_nat (ncpu st)) s st 0;
  say no_strs s [LF] [].

Definition DEBUG (s : serial) : res serial := say no_strs s (line "move done!") [].

(** ** The machine *)

(** Where a processor that is to be started is: halted until a STARTUP
    arrives, in the entry code, on its own stack in [mpenter], after its
    greeting, after [enable_apic], after the exchange that sets [started], in
    the idle loop. *)
Inductive ap :=
  | WaitSipi
  | Entered
  | InMpenter (sp : Z)
  | Greeted (sp : Z)
  | Enabled (sp : Z)
  | Announced (sp : Z)
  | Idling (sp : Z).

#[export] Instance ap_eq_dec : EqDecision ap.
Proof. solve_decision. Defined.

(** Where [startothers] is: before [sipi_entry_mov], at the test of the loop
    for entry [k], waiting for entry [k], returned. *)
Inductive bpc := BMove | BTest (k : nat) | BWait (k : nat) | BEnd.

#[export] Instance bpc_eq_dec : EqDecision bpc.
Proof. solve_decision. Defined.

(** [b_started] is the field [started] of each entry of the table, [b_aps] and
    [b_idtr] are the processors and their IDT registers by APIC id,
    [b_stacktop] is the word [smp_stacktop] and [b_ops] the pointer
    [apic_ops], which all processors share. *)
Record boot := mkBoot {
  b_pc : bpc;
  b_started : list Z;
  b_aps : gmap Z ap;
  b_idtr : gmap Z (Z * Z);
  b_stacktop : Z;
  b_ops : apic_ops;
  b_mem : mem;
  b_ser : serial;
}.

Definition set_bsp (st : boot) (pc : bpc) (aps : gmap Z ap) (m : mem) (ser : serial) : boot :=
  mkBoot pc (b_started st) aps (b_idtr st) (b_stacktop st) (b_ops st) m ser.
Definition set_ap (st : boot) (a : Z) (x : ap) (ser : serial) : boot :=
  mkBoot (b_pc st) (b_started st) (<[a := x]> (b_aps st)) (b_idtr st) (b_stacktop st) (b_ops st)
    (b_mem st) ser.
Definition set_stacktop (st : boot) (top : Z) : boot :=
  mkBoot (b_pc st) (b_started st) (b_aps st) (b_idtr st) top (b_ops st) (b_mem st) (b_ser st).
Definition set_started (st : boot) (i : nat) : boot :=
  mkBoot (b_pc st) (<[i := 1]> (b_started st)) (b_aps st) (b_idtr st) (b_stacktop st) (b_ops st)
    (b_mem st) (b_ser st).
Definition set_idtr (st : boot) (a : Z) (r : Z * Z) : boot :=
  mkBoot (b_pc st) (b_started st) (b_aps st) (<[a := r]> (b_idtr st)) (b_stacktop st) (b_ops st)
    (b_mem st) (b_ser st).
Definition set_ops (st : boot) (ops : apic_ops) : boot :=
  mkBoot (b_pc st) (b_started st) (b_aps st) (b_idtr st) (b_stacktop st) ops (b_mem st) (b_ser st).

(** What an interrupt command does to the processor it names: INIT with the
    level asserted halts it, STARTUP releases a halted processor and is
    ignored by any other (Intel SDM, volume 3, section 8.4). *)
Definition signal1 (aps : gmap Z ap) (cmd : Z * Z) : gmap Z ap :=
  let mode := Z.land cmd.1 1792 in
  if (mode =? INIT) && negb (Z.land cmd.1 ASSERT =? 0) then alter (fun _ => WaitSipi) cmd.2 aps
  else if mode =? STARTUP then
    alter (fun a => if decide (a = WaitSipi) then Entered else a) cmd.2 aps
  else aps.

Definition signal (cmds : list (Z * Z)) (aps : gmap Z ap) : gmap Z ap := foldl signal1 aps cmds.

(** [rep movsb] of the [size] bytes from [sipi_entry] to address 0. *)
Definition sipi_entry_mov (m : mem) (sipi_entry size : Z) : res mem :=
  memcpy_loop (Z.to_nat size) m 0 sipi_entry.

Section Boot.

(** The entry code in the kernel image, by its address and its size; the
    table, the APIC id of the boot processor, the address of [boot_idt] and
    the ECX of leaf 1 of CPUID. Interrupts are disabled on every processor
    until [mpenter] has returned. *)
Context (sipi_entry size : Z) (tab : mpstate) (me boot_idt ecx : Z).

(** The next step of [startothers]; [answers] is what the APIC answers. *)
Definition startothers (st : boot) (answers : list Z) : res boot :=
  match b_pc st with
  | BMove =>
      m ← sipi_entry_mov (b_mem st) sipi_entry size;
      Ok (set_bsp st (BTest 0) (b_aps st) m (b_ser st))
  | BTest k =>
      if Z.of_nat k <? ncpu tab then
        '(ser, i) ← mycpu tab (b_ser st) 0 me;
        if Z.of_nat k =? i then Ok (set_bsp st (BTest (S k)) (b_aps st) (b_mem st) ser)
        else
          apicid ← of_option Undef (cpus tab !! k);
          '(m, s) ← lapicstartap (b_mem st) (mkIo answers []) (lapic tab) apicid 0;
          Ok (set_bsp st (BWait k) (signal (ipis (lapic tab) 0 (io_log s)) (b_aps st)) m ser)
      else Ok (set_bsp st BEnd (b_aps st) (b_mem st) (b_ser st))
  | BWait k =>
      v ← of_option Undef (b_started st !! k);
      Ok (set_bsp st (if v =? 0 then BWait k else BTest (S k)) (b_aps st) (b_mem st) (b_ser st))
  | BEnd => Err Hang
  end.

(** The next step of the processor with APIC id [a]: the locked addition of
    the entry code, then [mpenter]; [answers] is what its registers answer. *)
Definition mpenter (st : boot) (a : Z) (answers : list Z) : res boot :=
  match b_aps st !! a with
  | Some Entered =>
      Ok (set_stacktop (set_ap st a (InMpenter (b_stacktop st)) (b_ser st)) (u32 (b_stacktop st - 4096)))
  | Some (InMpenter sp) =>
      '(ser, i) ← cpuid tab (b_ser st) 0 a;
      '(ser, j) ← cpuid tab ser 0 a;
      ser ← say no_strs ser (bytes_of_string "cpu%d: starting %d" ++ [CR; LF]) [i; j];
      Ok (set_ap st a (Greeted sp) ser)
  | Some (Greeted sp) =>
      let st := set_idtr st a (lidt boot_idt (16 * 256 - 1)) in
      ser ← enable_apic (b_ser st);
      Ok (set_ap st a (Enabled sp) ser)
  | Some (Enabled sp) =>
      '(ser, i) ← mycpu tab (b_ser st) 0 a;
      Ok (set_started (set_ap st a (Announced sp) ser) (Z.to_nat i))
  | Some (Announced sp) =>
      '(ops, _, _) ← enable_x2apic (b_ops st) (mkIo answers []) ecx;
      Ok (set_ops (set_ap st a (Idling sp) (b_ser st)) ops)
  | _ => Err Hang
  end.

Inductive bchoice := Bsp (answers : list Z) | Ap (a : Z) (answers : list Z).

Definition bstep (st : boot) (x : bchoice) : res boot :=
  match x with
  | Bsp answers => startothers st answers
  | Ap a answers => mpenter st a answers
  end.

Fixpoint brun (st : boot) (xs : list bchoice) : res boot :=
  match xs with
  | [] => Ok st
  | x :: xs' => st' ← bstep st x; brun st' xs'
  end.

End Boot.

(** [smp_stacktop] of cstart.S. *)
Definition smp_stacktop : Z := 655360.

(** Nothing started: the processors other than [me] are halted. *)
Definition bstart (tab : mpstate) (me : Z) (m : mem) (ser : serial) : boot :=
  mkBoot BMove (replicate 64 0)
    (list_to_map ((fun a => (a, WaitSipi)) <$> filter (fun a => a <> me) (take (Z.to_nat (ncpu tab)) (cpus tab))))
    ∅ smp_stacktop xapic_ops m ser.

(** ** The invariant *)

Section Proofs.

Context (sipi_entry : Z) (code : list Z) (tab : mpstate) (me boot_idt ecx : Z) (ids : list Z) (self : nat).
Context (m0 : mem) (ser0 : serial).
Hypothesis Hcpus : length (cpus tab) = 64%nat.
Hypothesis Hncpu : 0 <= ncpu tab <= 64.
Hypothesis Hids : take (Z.to_nat (ncpu tab)) (cpus tab) = ids.
Hypothesis Hnodup : NoDup ids.
Hypothesis Hrange : Forall (fun a => 0 <= a < 256) ids.
Hypothesis Hself : ids !! self = Some me.

(** How many processors were started before entry [k], and the stack that the
    one of entry [k] gets. *)
Definition rank (k : nat) : nat := if (self <? k)%nat then (k - 1)%nat else k.
Definition stack_of (k : nat) : Z := smp_stacktop - 4096 * Z.of_nat (rank k).

(** What the processor of entry [k] prints: its greeting, then the message of
    [enable_apic]; and the lines of the entries before [k]. *)
Definition greeting (k : nat) : list Z :=
  bytes_of_string "cpu" ++ dec_text (Z.of_nat k) ++ bytes_of_string ": starting " ++
  dec_text (Z.of_nat k) ++ [CR; LF].
Definition enabling : list Z := bytes_of_string "enabling apic" ++ [CR; LF].
Definition hello (k : nat) : list Z := greeting k ++ enabling.
Definition hellos (k : nat) : list Z := concat (hello <$> filter (fun j => j <> self) (seq 0 k)).

(** [t] has been printed, and no answer of a port used. *)
Definition said (ser : serial) (t : list Z) : Prop :=
  io_in (ser_io ser) = io_in (ser_io ser0) /\
  sent (io_log (ser_io ser)) = sent (io_log (ser_io ser0)) ++ t.

(** Entry [j], processor [a]: up, and not started yet. *)
Definition up (sp : Z) (x : ap) : Prop := x = Announced sp \/ x = Idling sp.

Definition settled (st : boot) (j : nat) (a : Z) : Prop :=
  b_started st !! j = Some 1 /\ (exists x, b_aps st !! a = Some x /\ up (stack_of j) x) /\
  b_idtr st !! a = Some (boot_idt, 4095).

Definition fresh (st : boot) (j : nat) (a : Z) : Prop :=
  b_started st !! j = Some 0 /\ b_aps st !! a = Some WaitSipi.

Definition below (st : boot) (k : nat) : Prop :=
  forall j a, (j < k)%nat -> j <> self -> ids !! j = Some a -> settled st j a.
Definition above (st : boot) (k : nat) : Prop :=
  forall j a, (k <= j)%nat -> j <> self -> ids !! j = Some a -> fresh st j a.

(** The processor [startothers] waits for. *)
Inductive coming (st : boot) (k : nat) (a : Z) : Prop :=
  | coming_entered : b_started st !! k = Some 0 -> b_aps st !! a = Some Entered ->
      b_stacktop st = stack_of k -> said (b_ser st) (hellos k) -> coming st k a
  | coming_mpenter : b_started st !! k = Some 0 -> b_aps st !! a = Some (InMpenter (stack_of k)) ->
      b_stacktop st = stack_of (S k) -> said (b_ser st) (hellos k) -> coming st k a
  | coming_greeted : b_started st !! k = Some 0 -> b_aps st !! a = Some (Greeted (stack_of k)) ->
      b_stacktop st = stack_of (S k) -> said (b_ser st) (hellos k ++ greeting k) -> coming st k a
  | coming_enabled : b_started st !! k = Some 0 -> b_aps st !! a = Some (Enabled (stack_of k)) ->
      b_idtr st !! a = Some (boot_idt, 4095) -> b_stacktop st = stack_of (S k) ->
      said (b_ser st) (hellos (S k)) -> coming st k a
  | coming_up : settled st k a -> b_stacktop st = stack_of (S k) -> said (b_ser st) (hellos (S k)) -> coming st k a.

(** The entry code, in the image and once it is copied. *)
Record low_ok (m : mem) (copied : Prop) : Prop := mkLow {
  low_warm : mapped m warm_reset_vector 4;
  low_code : bytes_at m sipi_entry code;
  low_dest : mapped m 0 (Z.of_nat (length code));
  low_copied : copied -> bytes_at m 0 code;
}.

(** Memory outside the copy and the warm reset vector. *)
Definition kept (m : mem) : Prop :=
  same_dom m0 m /\
  forall x, x < 0 \/ Z.of_nat (length code) <= x < 1127 \/ 1131 <= x -> m !! x = m0 !! x.

Definition code_ok : Prop :=
  Forall (fun b => 0 <= b < 256) code /\ Z.of_nat (length code) <= warm_reset_vector /\ warm_reset_vector + 4 <= sipi_entry.

Definition at_pc (st : boot) : Prop :=
  match b_pc st with
  | BMove => above st 0 /\ b_stacktop st = stack_of 0 /\ said (b_ser st) []
  | BTest k =>
      (k <= length ids)%nat /\ below st k /\ above st k /\ b_stacktop st = stack_of k /\ said (b_ser st) (hellos k)
  | BWait k => k <> self /\ exists a, ids !! k = Some a /\ below st k /\ above st (S k) /\ coming st k a
  | BEnd => below st (length ids) /\ said (b_ser st) (hellos (length ids))
  end.

Record binv (st : boot) : Prop := mkBinv {
  binv_mem : low_ok (b_mem st) (b_pc st <> BMove);
  binv_dom : forall a x, b_aps st !! a = Some x -> exists j, j <> self /\ ids !! j = Some a;
  binv_len : length (b_started st) = 64%nat;
  binv_pc : at_pc st;
  binv_kept : kept (b_mem st);
}.

Hypothesis Hcode : code_ok.

Lemma low_weaken m (P Q : Prop) : low_ok m P -> (Q -> P) -> low_ok m Q.
Proof. intros [H1 H2 H3 H4] HQ. split; try done. by auto. Qed.

(** A change of the warm reset vector. *)
Lemma low_frame m m' P :
  low_ok m P -> same_dom m m' -> (forall x, x < 1127 \/ 1131 <= x -> m' !! x = m !! x) -> low_ok m' P.
Proof.
  intros [H1 H2 H3 H4] Hd Hf. destruct Hcode as (_ & Hl & He). change warm_reset_vector with 1127 in *.
  split; [by rewrite <- Hd| |by rewrite <- Hd|].
  - eapply bytes_at_frame; [|exact H2]. intros x Hx. apply Hf. lia.
  - intros HP. eapply bytes_at_frame; [|by apply H4]. intros x Hx. apply Hf. lia.
Qed.

(** The copy. *)
Lemma low_move m P :
  low_ok m P -> kept m ->
  exists m', sipi_entry_mov m sipi_entry (Z.of_nat (length code)) = Ok m' /\ low_ok m' True /\ kept m'.
Proof.
  intros [H1 H2 H3 _] [Kd Kx]. destruct Hcode as (Hb & Hl & He). change warm_reset_vector with 1127 in *.
  unfold sipi_entry_mov. rewrite Nat2Z.id, (memcpy_loop_spec m 0 sipi_entry code) by (done || lia).
  eexists. split; [done|]. pose proof (write_bytes_dom m 0 code H3) as Hd.
  split; [split; [by rewrite <- Hd| |by rewrite <- Hd|]|split].
  - apply bytes_at_write_disjoint; [done|]. lia.
  - intros _. apply write_bytes_at.
  - by rewrite Kd.
  - intros x Hx. rewrite write_bytes_out by lia. by apply Kx.
Qed.

(** ** What is printed *)

(** Sequencing by rewriting, where computation would unfold the messages. *)
Lemma bind_ok {A B} (x : A) (f : A -> res B) : (y ← Ok x; f y) = f x.
Proof. reflexivity. Qed.

Lemma hellos_next k : k <> self -> hellos (S k) = hellos k ++ hello k.
Proof.
  intros Hk. unfold hellos. rewrite seq_S, filter_app, fmap_app, concat_app. cbn [Nat.add].
  rewrite filter_cons_True by done. cbn [filter list_filter fmap list_fmap concat]. by rewrite app_nil_r.
Qed.

Lemma hellos_self : hellos (S self) = hellos self.
Proof.
  unfold hellos. rewrite seq_S, filter_app, fmap_app, concat_app. cbn [Nat.add].
  rewrite filter_cons_False by (intros H; by apply H). by rewrite app_nil_r.
Qed.

(** The two messages of [mpenter] are printed. *)
Lemma greeting_run ser i :
  0 <= Z.of_nat i < 2 ^ 31 ->
  exists ser', say no_strs ser (bytes_of_string "cpu%d: starting %d" ++ [CR; LF]) [Z.of_nat i; Z.of_nat i] = Ok ser' /\
    forall t, said ser t -> said ser' (t ++ greeting i).
Proof.
  intros Hi. pose proof (length_dec_text (Z.of_nat i) ltac:(lia)) as Hl.
  unfold say. change (bytes_of_string "cpu%d: starting %d" ++ [CR; LF]) with
    ([99; 112; 117] ++ [37; 100] ++ [58; 32; 115; 116; 97; 114; 116; 105; 110; 103; 32] ++ [37; 100] ++ [13; 10] ++ []).
  rewrite format_plain, format_dec, format_plain, format_dec, format_plain
    by (repeat (constructor; [done|]); constructor).
  change (format no_strs [] []) with (Ok (A := list Z) []). mret. rewrite s32_small by lia.
  rewrite take_ge by (rewrite !length_app; simpl; lia). eexists. split; [done|].
  intros t [H1 H2]. split; [done|]. cbn [with_io ser_io io_log].
  rewrite sent_send, H2. unfold greeting. by rewrite app_nil_r, <- !app_assoc.
Qed.

Lemma enabling_run ser :
  exists ser', enable_apic ser = Ok ser' /\ forall t, said ser t -> said ser' (t ++ enabling).
Proof.
  unfold enable_apic. rewrite say_plain; [|by vm_compute|vm_compute; lia]. mret. eexists. split; [done|].
  intros t [H1 H2]. split; [done|]. unfold xapic_write, mmio_write, record. cbn [with_io ser_io io_log].
  rewrite sent_app, sent_send, H2. cbn [sent omap list_omap sent_of]. by rewrite app_nil_r, <- app_assoc.
Qed.

(** ** Looking up the table *)

Lemma ncpu_ids : Z.to_nat (ncpu tab) = length ids.
Proof. rewrite <- Hids, length_take. lia. Qed.

Lemma ids_short k : (k < length ids)%nat -> (k < 64)%nat.
Proof. rewrite <- ncpu_ids. lia. Qed.

Lemma ids_cpus k a : ids !! k = Some a -> cpus tab !! k = Some a.
Proof. rewrite <- Hids. intros Hk. apply lookup_take_Some in Hk. apply Hk. Qed.

Lemma mycpu_index s k a : ids !! k = Some a -> mycpu tab s 0 a = Ok (s, Z.of_nat k).
Proof.
  intros Hk. unfold mycpu. change (negb (Z.land 0 FL_IF =? 0)) with false. mret.
  pose proof (find_cpu_list tab a (Z.to_nat (ncpu tab)) 0 ltac:(lia)) as Hf.
  change (Z.of_nat 0) with 0 in Hf. rewrite Hf, drop_0, Hids. mret.
  assert (Hl : list_find (fun x => x = a) ids = Some (k, a)).
  { apply list_find_Some. split; [done|]. split; [done|]. intros j y Hj Hjk ->.
    assert (j = k) by by eapply NoDup_lookup. lia. }
  by rewrite Hl.
Qed.

Lemma same_index j k a : ids !! j = Some a -> ids !! k = Some a -> j = k.
Proof. by eapply NoDup_lookup. Qed.

Lemma stack_next k : k <> self -> (k < length ids)%nat -> u32 (stack_of k - 4096) = stack_of (S k).
Proof.
  intros Hk Hn. apply ids_short in Hn. unfold stack_of, rank, smp_stacktop.
  destruct (Nat.ltb_spec self k), (Nat.ltb_spec self (S k)); try lia; rewrite u32_small; lia.
Qed.

Lemma stack_self : stack_of (S self) = stack_of self.
Proof. unfold stack_of, rank. destruct (Nat.ltb_spec self self), (Nat.ltb_spec self (S self)); lia. Qed.

(** ** Commands *)

(** The four commands of [lapicstartap] start the processor they name. *)
Lemma signal_startup aps a :
  aps !! a = Some WaitSipi ->
  signal [(INIT + LEVEL + ASSERT, a); (INIT + LEVEL, a); (STARTUP + 0 / 2 ^ 12, a); (STARTUP + 0 / 2 ^ 12, a)] aps =
  <[a := Entered]> aps.
Proof.
  intros Ha. unfold signal. cbn [foldl]. unfold signal1. cbn [fst snd].
  change (Z.land (INIT + LEVEL + ASSERT) 1792 =? INIT) with true.
  change (Z.land (INIT + LEVEL + ASSERT) ASSERT =? 0) with false.
  change (Z.land (INIT + LEVEL) 1792 =? INIT) with true.
  change (Z.land (INIT + LEVEL) ASSERT =? 0) with true.
  change (Z.land (INIT + LEVEL) 1792 =? STARTUP) with false.
  change (Z.land (STARTUP + 0 / 2 ^ 12) 1792 =? INIT) with false.
  change (Z.land (STARTUP + 0 / 2 ^ 12) 1792 =? STARTUP) with true. cbn [negb andb].
  apply map_eq. intros b. destruct (decide (b = a)) as [->|Hne].
  - by rewrite !lookup_alter_eq, Ha, lookup_insert_eq.
  - by rewrite !lookup_alter_ne, lookup_insert_ne by done.
Qed.

(** ** Steps *)

(** [st'] and [st] agree on entry [j], processor [a]. *)
Definition agree (st st' : boot) (j : nat) (a : Z) : Prop :=
  b_started st' !! j = b_started st !! j /\ b_aps st' !! a = b_aps st !! a /\
  b_idtr st' !! a = b_idtr st !! a.

Lemma settled_agree st st' j a : agree st st' j a -> settled st j a -> settled st' j a.
Proof. unfold settled. by intros (-> & -> & ->). Qed.

Lemma fresh_agree st st' j a : agree st st' j a -> fresh st j a -> fresh st' j a.
Proof. unfold fresh. by intros (-> & -> & _). Qed.

(** What [lapicstartap] does to the machine. *)
Lemma startothers_starts st k a answers :
  binv st -> b_pc st = BTest k -> k <> self -> ids !! k = Some a -> (7 <= length answers)%nat ->
  exists m, startothers sipi_entry (Z.of_nat (length code)) tab me st answers =
    Ok (set_bsp st (BWait k) (<[a := Entered]> (b_aps st)) m (b_ser st)) /\ low_ok m True /\ kept m.
Proof.
  intros [Hm _ _ Hpc Hkept] Hk Hne Ha Hans. rewrite Hk in Hm. unfold at_pc in Hpc. rewrite Hk in Hpc. destruct Hpc as (_ & _ & Hab & _).
  assert (Hkn : (k < length ids)%nat) by by eapply lookup_lt_Some.
  unfold startothers. rewrite Hk, (proj2 (Z.ltb_lt _ _)) by (rewrite <- ncpu_ids in Hkn; lia).
  rewrite (mycpu_index _ self me Hself). mret. rewrite (proj2 (Z.eqb_neq _ _)) by lia.
  rewrite (ids_cpus _ _ Ha). cbn [of_option]. mret.
  assert (Hr : 0 <= a < 256) by exact (proj1 (Forall_lookup _ _) Hrange _ _ Ha).
  destruct (lapicstartap_run (b_mem st) (mkIo answers []) (lapic tab) a 0)
    as (m' & s' & evs & -> & Hlog & Hipi & _ & _ & Hout & Hdom); [done|done|lia|apply Hm|]. mret.
  exists m'. rewrite Hlog. cbn [io_log app ipis]. rewrite Hipi, signal_startup by (by apply (Hab k a)).
  split; [done|]. split; [eapply low_weaken; [eapply low_frame; [exact Hm|done|done]|done]|].
  destruct Hkept as [Kd Kx]. split; [by rewrite Kd|]. intros x Hx. rewrite Hout by lia. by apply Kx.
Qed.

(** Leaving the entry of the boot processor. *)
Lemma bsp_skip_inv st :
  binv st -> b_pc st = BTest self -> binv (set_bsp st (BTest (S self)) (b_aps st) (b_mem st) (b_ser st)).
Proof.
  intros [Hm Hd Hl Hpc Hkept] Ek. unfold at_pc in Hpc. rewrite Ek in Hpc. destruct Hpc as (_ & Hb & Ha & Ht & Hsaid).
  split; try done; [by rewrite Ek in Hm; eapply low_weaken|]. unfold at_pc. cbn [set_bsp b_pc b_stacktop].
  split; [by apply Nat.le_succ_l; eapply lookup_lt_Some|]. split; [|split; [|split]].
  - intros j a Hj Hjs. apply (Hb j a); [lia|done].
  - intros j a Hj Hjs. apply (Ha j a); [lia|done].
  - by rewrite stack_self.
  - by rewrite hellos_self.
Qed.

(** Starting entry [k]. *)
Lemma bsp_start_inv st k a m :
  binv st -> b_pc st = BTest k -> k <> self -> ids !! k = Some a -> low_ok m True -> kept m ->
  binv (set_bsp st (BWait k) (<[a := Entered]> (b_aps st)) m (b_ser st)).
Proof.
  intros [_ Hd Hl Hpc _] Ek Hne Ha Hm Hkept. unfold at_pc in Hpc. rewrite Ek in Hpc. destruct Hpc as (_ & Hb & Hab & Ht & Hsaid).
  assert (Hagree : forall j b, j <> k -> ids !! j = Some b ->
    agree st (set_bsp st (BWait k) (<[a := Entered]> (b_aps st)) m (b_ser st)) j b).
  { intros j b Hj Hb'. split; [done|]. split; [|done]. apply lookup_insert_ne. intros <-.
    by apply Hj, (same_index j k a). }
  split; [by eapply low_weaken| |done| |done].
  - intros b x. cbn [set_bsp b_aps]. destruct (decide (b = a)) as [->|Hb']; [by exists k|].
    rewrite lookup_insert_ne by done. apply Hd.
  - unfold at_pc. cbn [set_bsp b_pc]. split; [done|]. exists a. split; [done|]. split; [|split].
    + intros j b Hj Hjs Hjb. eapply settled_agree; [|by apply Hb]. apply Hagree; [lia|done].
    + intros j b Hj Hjs Hjb. eapply fresh_agree; [|apply Hab; [lia|done|done]]. apply Hagree; [lia|done].
    + apply coming_entered; [by apply (Hab k a)|by apply lookup_insert_eq|done|done].
Qed.

(** The end of the wait for entry [k]. *)
Lemma bsp_next_inv st k v :
  binv st -> b_pc st = BWait k -> b_started st !! k = Some v -> v <> 0 ->
  binv (set_bsp st (BTest (S k)) (b_aps st) (b_mem st) (b_ser st)).
Proof.
  intros [Hm Hd Hl Hpc Hkept] Ek Hv Hv0. unfold at_pc in Hpc. rewrite Ek in Hpc.
  destruct Hpc as (Hne & a & Ha & Hb & Hab & Hc).
  assert (Hup : settled st k a /\ b_stacktop st = stack_of (S k) /\ said (b_ser st) (hellos (S k)))
    by (destruct Hc; first [congruence|by split]).
  split; try done; [by rewrite Ek in Hm; eapply low_weaken|]. unfold at_pc. cbn [set_bsp b_pc b_stacktop].
  split; [by apply Nat.le_succ_l; eapply lookup_lt_Some|]. split; [|split; [done|apply Hup]].
  intros j b Hj Hjs Hjb. destruct (decide (j = k)) as [->|Hjk]; [|apply (Hb j b); [lia|done|done]].
  rewrite Ha in Hjb. injection Hjb as <-. apply Hup.
Qed.

Lemma bsp_inv st answers st' :
  binv st -> (7 <= length answers)%nat -> startothers sipi_entry (Z.of_nat (length code)) tab me st answers = Ok st' -> binv st'.
Proof.
  intros Hinv Hans Hs. destruct (b_pc st) as [|k|k|] eqn:Ek.
  - destruct Hinv as [Hm Hd Hl Hpc Hkept]. unfold at_pc in Hpc. rewrite Ek in Hpc.
    destruct (low_move _ _ Hm Hkept) as (m & Hmv & Hlow & Hk').
    unfold startothers in Hs. rewrite Ek, Hmv in Hs. mret_in Hs. injection Hs as <-.
    split; [by eapply low_weaken|done|done| |done]. unfold at_pc. cbn [set_bsp b_pc b_stacktop b_ser].
    split; [lia|]. split; [intros j a Hj; lia|done].
  - destruct (decide (k < length ids)%nat) as [Hk|Hk].
    + destruct (decide (k = self)) as [->|Hne].
      * unfold startothers in Hs. rewrite Ek, (proj2 (Z.ltb_lt _ _)) in Hs by (rewrite <- ncpu_ids in Hk; lia).
        rewrite (mycpu_index _ self me Hself) in Hs. mret_in Hs. rewrite Z.eqb_refl in Hs. injection Hs as <-.
        by apply bsp_skip_inv.
      * destruct (lookup_lt_is_Some_2 ids k Hk) as [a Ha].
        destruct (startothers_starts st k a answers Hinv Ek Hne Ha Hans) as (m & Hs' & Hm' & Hk').
        rewrite Hs' in Hs. injection Hs as <-. by apply bsp_start_inv.
    + unfold startothers in Hs. rewrite Ek, (proj2 (Z.ltb_ge _ _)) in Hs by (rewrite <- ncpu_ids in Hk; lia).
      injection Hs as <-. destruct Hinv as [Hm ? ? Hpc ?]. unfold at_pc in Hpc. rewrite Ek in Hpc.
      destruct Hpc as (Hle & Hb & _ & _ & Hsaid). split; try done; [by rewrite Ek in Hm; eapply low_weaken|]. unfold at_pc. cbn [set_bsp b_pc].
      by replace (length ids) with k by lia.
  - unfold startothers in Hs. rewrite Ek in Hs.
    destruct (b_started st !! k) as [v|] eqn:Hv; [|done]. cbn [of_option] in Hs. mret_in Hs. injection Hs as <-.
    destruct (Z.eqb_spec v 0) as [->|Hv0]; [|by eapply bsp_next_inv].
    unfold set_bsp. rewrite <- Ek. by destruct st.
  - unfold startothers in Hs. by rewrite Ek in Hs.
Qed.

(** *** The processors being started *)

(** A processor in the entry code or in [mpenter] is the one that
    [startothers] waits for. *)
Definition booting (x : ap) : bool :=
  match x with Entered | InMpenter _ | Greeted _ | Enabled _ => true | _ => false end.

Lemma booting_waited st a x :
  binv st -> b_aps st !! a = Some x -> booting x = true ->
  exists k, b_pc st = BWait k /\ k <> self /\ ids !! k = Some a.
Proof.
  intros [_ Hd _ Hpc _] Hx Hb. destruct (Hd _ _ Hx) as (j & Hj & Ha).
  assert (Hup : ~ settled st j a).
  { intros (_ & (y & Hy & [-> | ->]) & _); rewrite Hx in Hy; injection Hy as ->; discriminate. }
  assert (Hfr : ~ fresh st j a) by (intros (_ & Hy); rewrite Hx in Hy; injection Hy as ->; discriminate).
  unfold at_pc in Hpc. destruct (b_pc st) as [|k|k|].
  - by destruct (Hfr (proj1 Hpc j a ltac:(lia) Hj Ha)).
  - destruct Hpc as (_ & Hbe & Hab & _). destruct (Nat.lt_ge_cases j k) as [Hjk|Hjk].
    + by destruct (Hup (Hbe j a Hjk Hj Ha)).
    + by destruct (Hfr (Hab j a Hjk Hj Ha)).
  - destruct Hpc as (Hk & b & Hkb & Hbe & Hab & _). exists k. split; [done|]. split; [done|].
    destruct (decide (j = k)) as [->|Hne]; [done|]. destruct (Nat.lt_ge_cases j k) as [Hjk|Hjk].
    + by destruct (Hup (Hbe j a Hjk Hj Ha)).
    + by destruct (Hfr (Hab j a ltac:(lia) Hj Ha)).
  - destruct (Hup (proj1 Hpc j a (lookup_lt_Some _ _ _ Ha) Hj Ha)).
Qed.

(** A step of the awaited processor. *)
Lemma ap_awaited_inv st st' k a x :
  binv st -> b_pc st = BWait k -> ids !! k = Some a ->
  b_pc st' = BWait k -> b_mem st' = b_mem st -> length (b_started st') = 64%nat ->
  b_aps st' = <[a := x]> (b_aps st) ->
  (forall j b, j <> k -> b <> a -> b_started st' !! j = b_started st !! j /\ b_idtr st' !! b = b_idtr st !! b) ->
  coming st' k a -> binv st'.
Proof.
  intros [Hm Hd Hl Hpc Hkept] Ek Ha Ek' Em El Eaps Hag Hc. unfold at_pc in Hpc. rewrite Ek in Hpc.
  destruct Hpc as (Hne & a' & Ha' & Hb & Hab & _). rewrite Ha in Ha'. injection Ha' as <-.
  assert (Hagree : forall j b, j <> k -> ids !! j = Some b -> agree st st' j b).
  { intros j b Hj Hjb. assert (Hba : b <> a) by (intros ->; by apply Hj, (same_index j k a)).
    destruct (Hag j b Hj Hba) as [H1 H2]. split; [done|]. split; [|done].
    rewrite Eaps. by apply lookup_insert_ne. }
  split; [rewrite Em, Ek'; by rewrite Ek in Hm| |done| |by rewrite Em].
  - intros b y. rewrite Eaps. destruct (decide (b = a)) as [->|Hb']; [by exists k|].
    rewrite lookup_insert_ne by done. apply Hd.
  - unfold at_pc. rewrite Ek'. split; [done|]. exists a. split; [done|]. split; [|split; [|done]].
    + intros j b Hj Hjs Hjb. eapply settled_agree; [|by apply Hb]. apply Hagree; [lia|done].
    + intros j b Hj Hjs Hjb. eapply fresh_agree; [|apply Hab; [lia|done|done]]. apply Hagree; [lia|done].
Qed.

(** The last step, into the idle loop. *)
Lemma ap_idle_inv st a sp ops :
  binv st -> b_aps st !! a = Some (Announced sp) ->
  binv (set_ops (set_ap st a (Idling sp) (b_ser st)) ops).
Proof.
  intros [Hm Hd Hl Hpc Hkept] Hx. set (st' := set_ops _ _).
  assert (Hother : forall b, b <> a -> b_aps st' !! b = b_aps st !! b) by (intros b Hb; by apply lookup_insert_ne).
  assert (Hset : forall j b, settled st j b -> settled st' j b).
  { intros j b (H1 & (x & Hxb & Hu) & H2). split; [done|]. split; [|done].
    destruct (decide (b = a)) as [->|Hb]; [|exists x; by rewrite Hother].
    exists (Idling sp). split; [apply lookup_insert_eq|]. rewrite Hx in Hxb. injection Hxb as <-.
    destruct Hu as [[= ->]|[=]]. by right. }
  assert (Hnot : forall b x, b_aps st !! b = Some x -> x <> Announced sp -> b_aps st' !! b = Some x).
  { intros b x Hb Hne. rewrite Hother; [done|]. intros ->. congruence. }
  assert (Hfr : forall j b, fresh st j b -> fresh st' j b) by (intros j b (H1 & H2); split; [done|by apply Hnot]).
  split; [done| |done| |done].
  - intros b x. cbn [st' set_ops set_ap b_aps]. destruct (decide (b = a)) as [->|Hb].
    + intros _. by eapply Hd.
    + rewrite lookup_insert_ne by done. apply Hd.
  - unfold at_pc, below, above in *. cbn [st' set_ops set_ap b_pc]. destruct (b_pc st) as [|k|k|].
    + destruct Hpc as (H1 & H2). by auto 10.
    + destruct Hpc as (H1 & H2 & H3 & H4 & H5). by auto 10.
    + destruct Hpc as (H1 & b & H2 & H3 & H4 & H5). split; [done|]. exists b. split; [done|].
      split; [by auto|]. split; [by auto|].
      destruct H5; [eapply coming_entered|eapply coming_mpenter|eapply coming_greeted|eapply coming_enabled|eapply coming_up];
        try done; by apply Hnot || by apply Hset.
    + destruct Hpc. by auto.
Qed.

(** Where the awaited processor and the stack pointer are. *)
Lemma booting_coming st a x :
  binv st -> b_aps st !! a = Some x -> booting x = true ->
  exists k, b_pc st = BWait k /\ k <> self /\ ids !! k = Some a /\ coming st k a.
Proof.
  intros Hinv Hx Hb. destruct (booting_waited _ _ _ Hinv Hx Hb) as (k & Ek & Hne & Ha).
  pose proof (binv_pc _ Hinv) as Hpc. unfold at_pc in Hpc. rewrite Ek in Hpc.
  destruct Hpc as (_ & a' & Ha' & _ & _ & Hc). rewrite Ha in Ha'. injection Ha' as <-. by exists k.
Qed.

Lemma ap_entered_inv st a :
  binv st -> b_aps st !! a = Some Entered ->
  binv (set_stacktop (set_ap st a (InMpenter (b_stacktop st)) (b_ser st)) (u32 (b_stacktop st - 4096))).
Proof.
  intros Hinv Hx. destruct (booting_coming _ _ _ Hinv Hx eq_refl) as (k & Ek & Hne & Ha & Hc).
  assert (Hst : b_started st !! k = Some 0 /\ b_stacktop st = stack_of k /\ said (b_ser st) (hellos k)).
  { destruct Hc as [| | | |(_ & (y & Hy & [-> | ->]) & _)]; split_and?; first [done|congruence]. }
  destruct Hst as (H0 & Ht & Hsaid). eapply (ap_awaited_inv st _ k a); try done; [apply (binv_len _ Hinv)|].
  apply coming_mpenter; [done| | |done].
  - cbn [set_stacktop set_ap b_aps]. rewrite lookup_insert_eq. by rewrite Ht.
  - cbn [set_stacktop b_stacktop]. rewrite Ht. apply stack_next; [done|by eapply lookup_lt_Some].
Qed.

Lemma ap_mpenter_inv st a sp k ser :
  binv st -> b_aps st !! a = Some (InMpenter sp) -> ids !! k = Some a ->
  (forall t, said (b_ser st) t -> said ser (t ++ greeting k)) ->
  binv (set_ap st a (Greeted sp) ser).
Proof.
  intros Hinv Hx Hk Hser. destruct (booting_coming _ _ _ Hinv Hx eq_refl) as (k' & Ek & Hne & Ha & Hc).
  assert (k' = k) as -> by by apply (same_index k' k a).
  assert (Hst : b_started st !! k = Some 0 /\ b_stacktop st = stack_of (S k) /\ sp = stack_of k /\
    said (b_ser st) (hellos k)).
  { destruct Hc as [| | | |(_ & (y & Hy & [-> | ->]) & _)]; split_and?; first [done|congruence]. }
  destruct Hst as (H0 & Ht & -> & Hsaid). eapply (ap_awaited_inv st _ k a); try done; [apply (binv_len _ Hinv)|].
  apply coming_greeted; [done|apply lookup_insert_eq|done|by apply Hser].
Qed.

Lemma ap_greeted_inv st a sp ser :
  binv st -> b_aps st !! a = Some (Greeted sp) ->
  (forall t, said (b_ser st) t -> said ser (t ++ enabling)) ->
  binv (set_ap (set_idtr st a (boot_idt, 4095)) a (Enabled sp) ser).
Proof.
  intros Hinv Hx Hser. destruct (booting_coming _ _ _ Hinv Hx eq_refl) as (k & Ek & Hne & Ha & Hc).
  assert (Hst : b_started st !! k = Some 0 /\ b_stacktop st = stack_of (S k) /\ sp = stack_of k /\
    said (b_ser st) (hellos k ++ greeting k)).
  { destruct Hc as [| | | |(_ & (y & Hy & [-> | ->]) & _)]; split_and?; first [done|congruence]. }
  destruct Hst as (H0 & Ht & -> & Hsaid). eapply (ap_awaited_inv st _ k a); try done; [apply (binv_len _ Hinv)| |].
  - intros j b _ Hb. split; [done|]. by apply lookup_insert_ne.
  - apply coming_enabled; [done|apply lookup_insert_eq|apply lookup_insert_eq|done|].
    cbn [set_ap b_ser]. rewrite hellos_next by done. unfold hello. rewrite app_assoc. by apply Hser.
Qed.

Lemma ap_enabled_inv st a sp k :
  binv st -> b_aps st !! a = Some (Enabled sp) -> ids !! k = Some a ->
  binv (set_started (set_ap st a (Announced sp) (b_ser st)) k).
Proof.
  intros Hinv Hx Hk. destruct (booting_coming _ _ _ Hinv Hx eq_refl) as (k' & Ek & Hne & Ha & Hc).
  assert (k' = k) as -> by by apply (same_index k' k a).
  assert (Hst : b_idtr st !! a = Some (boot_idt, 4095) /\ b_stacktop st = stack_of (S k) /\ sp = stack_of k /\
    said (b_ser st) (hellos (S k))).
  { destruct Hc as [| | | |(_ & (y & Hy & [-> | ->]) & _)]; split_and?; first [done|congruence]. }
  destruct Hst as (H0 & Ht & -> & Hsaid). pose proof (binv_len _ Hinv) as Hl.
  eapply (ap_awaited_inv st _ k a); try done.
  - cbn [set_started b_started]. by rewrite length_insert.
  - intros j b Hj _. split; [|done]. cbn [set_started b_started set_ap]. by apply list_lookup_insert_ne.
  - apply coming_up; [|done|done]. split; [|split; [|done]].
    + apply list_lookup_insert_eq. cbn [set_ap b_started]. rewrite Hl. apply ids_short. by eapply lookup_lt_Some.
    + eexists. split; [apply lookup_insert_eq|by left].
Qed.

Lemma ap_inv st a answers st' :
  binv st -> mpenter tab boot_idt ecx st a answers = Ok st' -> binv st'.
Proof.
  intros Hinv Hs. unfold mpenter in Hs. destruct (b_aps st !! a) as [x|] eqn:Hx; [|done].
  destruct x as [| |sp|sp|sp|sp|sp]; try done.
  - injection Hs as <-. by apply ap_entered_inv.
  - destruct (booting_waited _ _ _ Hinv Hx eq_refl) as (k & Ek & Hne & Ha). unfold cpuid in Hs.
    assert (Hk64 : (k < 64)%nat) by (apply ids_short; by eapply lookup_lt_Some).
    rewrite (mycpu_index _ k a Ha), bind_ok, (mycpu_index _ k a Ha), bind_ok in Hs.
    destruct (greeting_run (b_ser st) k ltac:(lia)) as (ser' & Hser & Hsaid). rewrite Hser, bind_ok in Hs.
    injection Hs as <-. by eapply ap_mpenter_inv.
  - destruct (enabling_run (b_ser st)) as (ser' & Hser & Hsaid). cbn [set_idtr b_ser] in Hs.
    rewrite Hser, bind_ok in Hs. injection Hs as <-. by eapply ap_greeted_inv.
  - destruct (booting_waited _ _ _ Hinv Hx eq_refl) as (k & Ek & Hne & Ha).
    rewrite (mycpu_index _ k a Ha) in Hs. mret_in Hs. rewrite Nat2Z.id in Hs. injection Hs as <-.
    by apply ap_enabled_inv.
  - apply res_bind_ok in Hs as ([[ops s] r] & _ & Hs). injection Hs as <-. by apply ap_idle_inv.
Qed.

(** ** Runs *)

Definition bchoice_ok (x : bchoice) : Prop :=
  match x with Bsp answers => (7 <= length answers)%nat | Ap _ _ => True end.

Lemma brun_inv xs : forall st st',
  binv st -> Forall bchoice_ok xs -> brun sipi_entry (Z.of_nat (length code)) tab me boot_idt ecx st xs = Ok st' -> binv st'.
Proof.
  induction xs as [|x xs IH]; intros st st' Hinv Hok; cbn [brun]; [by intros [= <-]|].
  apply Forall_cons in Hok as [Hx Hok]. intros Hs. apply res_bind_ok in Hs as (st1 & Hs & Hr).
  apply (IH st1); [|done|done]. destruct x; [by eapply bsp_inv|by eapply ap_inv].
Qed.

Lemma bstart_inv : low_ok m0 False -> binv (bstart tab me m0 ser0).
Proof.
  intros Hm. unfold bstart. rewrite Hids.
  set (others := filter (fun a => a <> me) ids).
  assert (Hkeys : ((fun a => (a, WaitSipi)) <$> others).*1 = others) by
    (by rewrite <- list_fmap_compose, list_fmap_id).
  assert (Hlook : forall a, a ∈ others ->
    (list_to_map ((fun a => (a, WaitSipi)) <$> others) : gmap Z ap) !! a = Some WaitSipi).
  { intros a Ha. apply elem_of_list_to_map_1; [rewrite Hkeys; by apply NoDup_filter|].
    apply list_elem_of_fmap. by exists a. }
  split; [by eapply low_weaken| |done| |done].
  - cbn [b_aps]. intros a x Hx. apply elem_of_list_to_map_2, list_elem_of_fmap in Hx as (b & [= -> ->] & Hb).
    apply list_elem_of_filter in Hb as [Hne Hb]. apply list_elem_of_lookup in Hb as [j Hj].
    exists j. split; [|done]. intros ->. congruence.
  - unfold at_pc. cbn [b_pc b_stacktop]. split.
    + intros j a _ Hj Ha. split; cbn [b_started b_aps].
      * apply lookup_replicate. split; [done|]. apply ids_short. by eapply lookup_lt_Some.
      * apply Hlook, list_elem_of_filter. split; [|by eapply list_elem_of_lookup_2].
        intros ->. by apply Hj, (same_index j self me).
    + split; [|split; [done|by rewrite app_nil_r]].
      unfold stack_of, rank. destruct (Nat.ltb_spec self 0); [lia|]. by rewrite Z.sub_0_r.
Qed.

(** ** Progress *)

Definition breaches (st st' : boot) : Prop :=
  exists xs, Forall bchoice_ok xs /\ brun sipi_entry (Z.of_nat (length code)) tab me boot_idt ecx st xs = Ok st'.

Lemma brun_app st xs ys :
  brun sipi_entry (Z.of_nat (length code)) tab me boot_idt ecx st (xs ++ ys) =
  (st' ← brun sipi_entry (Z.of_nat (length code)) tab me boot_idt ecx st xs; brun sipi_entry (Z.of_nat (length code)) tab me boot_idt ecx st' ys).
Proof.
  revert st. induction xs as [|x xs IH]; intros st; [done|]. cbn [brun app].
  destruct (bstep sipi_entry (Z.of_nat (length code)) tab me boot_idt ecx st x); mret; [apply IH|done].
Qed.

#[global] Instance breaches_preorder : PreOrder breaches.
Proof.
  split.
  - intros st. by exists [].
  - intros s1 s2 s3 (xs & Ox & Rx) (ys & Oy & Ry). exists (xs ++ ys).
    split; [by apply Forall_app|]. by rewrite brun_app, Rx.
Qed.

Lemma breaches_step st x st' :
  bchoice_ok x -> bstep sipi_entry (Z.of_nat (length code)) tab me boot_idt ecx st x = Ok st' -> breaches st st'.
Proof. intros Hx Hs. exists [x]. split; [by repeat constructor|]. cbn [brun]. by rewrite Hs. Qed.

Lemma breaches_inv st st' : binv st -> breaches st st' -> binv st'.
Proof. intros Hinv (xs & Hok & Hr). by eapply brun_inv. Qed.

(** The awaited processor gets up. *)
Definition gets_up (st : boot) (k : nat) : Prop :=
  exists st', breaches st st' /\ b_pc st' = BWait k /\ b_started st' !! k = Some 1.

Lemma gets_up_via st st1 k : breaches st st1 -> gets_up st1 k -> gets_up st k.
Proof. intros R (st' & R' & H). exists st'. split; [by etransitivity|done]. Qed.

Lemma up_from_enabled st k a sp :
  binv st -> b_pc st = BWait k -> ids !! k = Some a -> b_aps st !! a = Some (Enabled sp) -> gets_up st k.
Proof.
  intros Hinv Ek Ha Hx. eexists. split.
  - apply (breaches_step _ (Ap a [])); [done|]. cbn [bstep]. unfold mpenter. rewrite Hx.
    rewrite (mycpu_index _ k a Ha). mret. reflexivity.
  - split; [done|]. cbn [set_started b_started set_ap]. rewrite Nat2Z.id. apply list_lookup_insert_eq.
    rewrite (binv_len _ Hinv). apply ids_short. by eapply lookup_lt_Some.
Qed.

Lemma up_from_greeted st k a sp :
  binv st -> b_pc st = BWait k -> ids !! k = Some a -> b_aps st !! a = Some (Greeted sp) -> gets_up st k.
Proof.
  intros Hinv Ek Ha Hx. destruct (enabling_run (b_ser st)) as (ser' & Hser & _).
  assert (R : breaches st (set_ap (set_idtr st a (boot_idt, 4095)) a (Enabled sp) ser')).
  { apply (breaches_step _ (Ap a [])); [done|]. cbn [bstep]. unfold mpenter. rewrite Hx.
    cbn [set_idtr b_ser]. by rewrite Hser. }
  apply (gets_up_via _ _ k R), (up_from_enabled _ k a sp); [by eapply breaches_inv|done|done|apply lookup_insert_eq].
Qed.

Lemma up_from_mpenter st k a sp :
  binv st -> b_pc st = BWait k -> ids !! k = Some a -> b_aps st !! a = Some (InMpenter sp) -> gets_up st k.
Proof.
  intros Hinv Ek Ha Hx. assert (Hk64 : (k < 64)%nat) by (apply ids_short; by eapply lookup_lt_Some).
  destruct (greeting_run (b_ser st) k ltac:(lia)) as (ser' & Hser & _).
  assert (R : breaches st (set_ap st a (Greeted sp) ser')).
  { apply (breaches_step _ (Ap a [])); [done|]. cbn [bstep]. unfold mpenter. rewrite Hx. unfold cpuid.
    by rewrite (mycpu_index _ k a Ha), bind_ok, (mycpu_index _ k a Ha), bind_ok, Hser. }
  apply (gets_up_via _ _ k R), (up_from_greeted _ k a sp); [by eapply breaches_inv|done|done|apply lookup_insert_eq].
Qed.

Lemma awaited_gets_up st k : binv st -> b_pc st = BWait k -> gets_up st k.
Proof.
  intros Hinv Ek. pose proof (binv_pc _ Hinv) as Hpc. unfold at_pc in Hpc. rewrite Ek in Hpc.
  destruct Hpc as (_ & a & Ha & _ & _ & [H0 Hx Ht _|H0 Hx Ht _|H0 Hx Ht _|H0 Hx Hi Ht _|Hs Ht _]).
  - eassert (R : breaches st _).
    { apply (breaches_step _ (Ap a [])); [done|]. cbn [bstep]. unfold mpenter. rewrite Hx. reflexivity. }
    apply (gets_up_via _ _ k R), (up_from_mpenter _ k a (b_stacktop st)); [by eapply breaches_inv|done|done|].
    apply lookup_insert_eq.
  - by eapply up_from_mpenter.
  - by eapply up_from_greeted.
  - by eapply up_from_enabled.
  - exists st. split; [done|]. split; [done|apply Hs].
Qed.

(** [startothers] gets from the test for entry [k] to its end. *)
Lemma boot_ends n : forall st k,
  (length ids - k <= n)%nat -> binv st -> b_pc st = BTest k -> exists st', breaches st st' /\ b_pc st' = BEnd.
Proof.
  induction n as [|n IH]; intros st k Hn Hinv Ek.
  - eexists. split; [apply (breaches_step _ (Bsp (replicate 7 0))); [simpl; lia|]|].
    + cbn [bstep]. unfold startothers. rewrite Ek, (proj2 (Z.ltb_ge _ _)) by (rewrite <- ncpu_ids in Hn; lia).
      reflexivity.
    + reflexivity.
  - destruct (decide (k < length ids)%nat) as [Hk|Hk]; [|apply (IH st k); [lia|done|done]].
    assert (Hnext : exists st', breaches st st' /\ b_pc st' = BTest (S k)).
    { destruct (decide (k = self)) as [->|Hne].
      - eexists. split; [apply (breaches_step _ (Bsp (replicate 7 0))); [simpl; lia|]|].
        + cbn [bstep]. unfold startothers. rewrite Ek, (proj2 (Z.ltb_lt _ _)) by (rewrite <- ncpu_ids in Hk; lia).
          rewrite (mycpu_index _ self me Hself). mret. rewrite Z.eqb_refl. reflexivity.
        + reflexivity.
      - destruct (lookup_lt_is_Some_2 ids k Hk) as [a Ha].
        destruct (startothers_starts st k a (replicate 7 0) Hinv Ek Hne Ha) as (m & Hs & _); [simpl; lia|].
        assert (R1 := breaches_step st (Bsp (replicate 7 0)) _ ltac:(simpl; lia) Hs).
        destruct (awaited_gets_up _ k (breaches_inv _ _ Hinv R1) eq_refl) as (st2 & R2 & Ek2 & Hst).
        eexists. split; [etransitivity; [exact R1|]; etransitivity; [exact R2|]|].
        + apply (breaches_step _ (Bsp (replicate 7 0))); [simpl; lia|]. cbn [bstep]. unfold startothers.
          rewrite Ek2, Hst. reflexivity.
        + reflexivity. }
    destruct Hnext as (st1 & R1 & Ek1).
    destruct (IH st1 (S k)) as (st2 & R2 & H2); [lia|by eapply breaches_inv|done|].
    exists st2. split; [by etransitivity|done].
Qed.

Lemma boot_ends_anywhere st : binv st -> exists st', breaches st st' /\ b_pc st' = BEnd.
Proof.
  intros Hinv. destruct (b_pc st) as [|k|k|] eqn:Ek.
  - destruct (low_move _ _ (binv_mem _ Hinv) (binv_kept _ Hinv)) as (m & Hmv & _).
    eassert (R : breaches st _).
    { apply (breaches_step _ (Bsp (replicate 7 0))); [simpl; lia|]. cbn [bstep]. unfold startothers.
      rewrite Ek, Hmv. reflexivity. }
    destruct (boot_ends (length ids) _ 0 ltac:(lia) (breaches_inv _ _ Hinv R) eq_refl) as (st' & R' & H').
    exists st'. split; [by etransitivity|done].
  - by apply (boot_ends (length ids - k) st k).
  - destruct (awaited_gets_up st k Hinv Ek) as (st1 & R1 & Ek1 & Hst).
    eassert (R2 : breaches st1 _).
    { apply (breaches_step _ (Bsp (replicate 7 0))); [simpl; lia|]. cbn [bstep]. unfold startothers.
      rewrite Ek1, Hst. reflexivity. }
    assert (Hinv2 := breaches_inv _ _ Hinv (transitivity R1 R2)).
    destruct (boot_ends (length ids - S k) _ (S k) ltac:(lia) Hinv2 eq_refl) as (st3 & R3 & H3).
    exists st3. split; [|done]. etransitivity; [exact R1|]. by etransitivity.
  - by exists st.
Qed.

End Proofs.

(** ** Claims *)

(** The table that [mpinit] leaves: [ids] are the APIC ids of its entries,
    all different, and the boot processor [me] is entry [self]. *)
Record table_ok (tab : mpstate) (me : Z) (ids : list Z) (self : nat) : Prop := mkTableOk {
  table_len : length (cpus tab) = 64%nat;
  table_ncpu : 0 <= ncpu tab <= 64;
  table_ids : take (Z.to_nat (ncpu tab)) (cpus tab) = ids;
  table_nodup : NoDup ids;
  table_range : Forall (fun a => 0 <= a < 256) ids;
  table_self : ids !! self = Some me;
}.

(** The entry code is in the image, and the memory it is copied to and the
    warm reset vector are there. *)
Definition entry_code (sipi_entry : Z) (code : list Z) (m : mem) : Prop :=
  code_ok sipi_entry code /\ low_ok sipi_entry code m False.

(** The invariant of every run. *)
Lemma brun_binv sipi_entry code tab me boot_idt ecx ids self m ser xs st :
  table_ok tab me ids self -> entry_code sipi_entry code m -> Forall bchoice_ok xs ->
  brun sipi_entry (Z.of_nat (length code)) tab me boot_idt ecx (bstart tab me m ser) xs = Ok st ->
  binv sipi_entry code boot_idt ids self m ser st.
Proof.
  intros [H1 H2 H3 H4 H5 H6] [Hc Hm] Hok Hrun.
  by eapply (brun_inv sipi_entry code tab me boot_idt ecx ids self m ser); [..|apply bstart_inv|exact Hok|exact Hrun].
Qed.

(** What [startothers] leaves: the lines of the processors printed, no answer
    of a port used, and memory unchanged but for the copy and the warm reset
    vector. *)
Lemma brun_ended sipi_entry code tab me boot_idt ecx ids self m ser xs st :
  table_ok tab me ids self -> entry_code sipi_entry code m -> Forall bchoice_ok xs ->
  brun sipi_entry (Z.of_nat (length code)) tab me boot_idt ecx (bstart tab me m ser) xs = Ok st ->
  b_pc st = BEnd ->
  said ser (b_ser st) (hellos self (length ids)) /\ kept code m (b_mem st).
Proof.
  intros Htab Hent Hok Hrun Hend. destruct (brun_binv _ _ _ _ _ _ _ _ _ _ _ _ Htab Hent Hok Hrun) as [_ _ _ Hpc Hk].
  unfold at_pc in Hpc. rewrite Hend in Hpc. by destruct Hpc.
Qed.

(** C12: [startothers] starts the processors of the table one at a time: in
    every interleaving at most one of them is between its STARTUP and the
    moment it sets [started], and a processor that runs finds the entry code
    at address 0. When [startothers] returns, every other entry of the table
    is started, its processor has the exception table loaded and its own
    stack, one page below that of the processor started before, and the
    messages of the processors are printed whole, in the order of the table. *)
Theorem startothers_serial sipi_entry code tab me boot_idt ecx ids self m ser xs st :
  table_ok tab me ids self -> entry_code sipi_entry code m -> Forall bchoice_ok xs ->
  brun sipi_entry (Z.of_nat (length code)) tab me boot_idt ecx (bstart tab me m ser) xs = Ok st ->
  (forall a b x y, b_aps st !! a = Some x -> b_aps st !! b = Some y ->
     booting x = true -> booting y = true -> a = b) /\
  (forall a x, b_aps st !! a = Some x -> x <> WaitSipi -> bytes_at (b_mem st) 0 code) /\
  (b_pc st = BEnd ->
     (forall j a, ids !! j = Some a -> a <> me ->
        b_started st !! j = Some 1 /\ b_idtr st !! a = Some (boot_idt, 4095) /\
        exists x, b_aps st !! a = Some x /\
          up (smp_stacktop - 4096 * Z.of_nat (if (self <? j)%nat then j - 1 else j)) x) /\
     sent (io_log (ser_io (b_ser st))) = sent (io_log (ser_io ser)) ++ hellos self (length ids)).
Proof.
  intros Htab Hent Hok Hrun. pose proof (brun_binv _ _ _ _ _ _ _ _ _ _ _ _ Htab Hent Hok Hrun) as Hinv.
  split; [|split].
  - intros a b x y Ha Hb Hx Hy.
    destruct (booting_waited _ _ _ _ _ _ _ _ (table_len _ _ _ _ Htab) _ _ _ Hinv Ha Hx) as (k & E1 & _ & I1).
    destruct (booting_waited _ _ _ _ _ _ _ _ (table_len _ _ _ _ Htab) _ _ _ Hinv Hb Hy) as (k' & E2 & _ & I2).
    rewrite E1 in E2. injection E2 as <-. congruence.
  - intros a x Ha Hx. apply (low_copied _ _ _ _ (binv_mem _ _ _ _ _ _ _ _ Hinv)). intros Hpc.
    destruct (binv_dom _ _ _ _ _ _ _ _ Hinv a x Ha) as (j & Hj & Hid).
    pose proof (binv_pc _ _ _ _ _ _ _ _ Hinv) as Hat. unfold at_pc in Hat. rewrite Hpc in Hat.
    destruct (proj1 Hat j a ltac:(lia) Hj Hid) as [_ Hw]. congruence.
  - intros Hend. pose proof (binv_pc _ _ _ _ _ _ _ _ Hinv) as Hpc. unfold at_pc in Hpc. rewrite Hend in Hpc.
    destruct Hpc as [Hpc [_ Hsaid]]. split; [|done]. intros j a Hj Hne.
    destruct (Hpc j a) as (S1 & S2 & S3); [by eapply lookup_lt_Some| |done|].
    + intros ->. destruct Htab. congruence.
    + split; [done|]. split; [done|]. exact S2.
Qed.

(** [startothers] does not hang: from every point the processors can
    reach, the boot processor can still get to its end. *)
Theorem startothers_ends sipi_entry code tab me boot_idt ecx ids self m ser xs st :
  table_ok tab me ids self -> entry_code sipi_entry code m -> Forall bchoice_ok xs ->
  brun sipi_entry (Z.of_nat (length code)) tab me boot_idt ecx (bstart tab me m ser) xs = Ok st ->
  exists xs' st', Forall bchoice_ok xs' /\
    brun sipi_entry (Z.of_nat (length code)) tab me boot_idt ecx (bstart tab me m ser) (xs ++ xs') = Ok st' /\
    b_pc st' = BEnd.
Proof.
  intros Htab Hent Hok Hrun. pose proof (brun_binv _ _ _ _ _ _ _ _ _ _ _ _ Htab Hent Hok Hrun) as Hinv.
  destruct Htab as [H1 H2 H3 H4 H5 H6], Hent as [Hc Hm].
  destruct (boot_ends_anywhere sipi_entry code tab me boot_idt ecx ids self m ser H1 H2 H3 H4 H5 H6 Hc st Hinv)
    as (st' & (xs' & Hok' & Hrun') & Hend).
  exists xs', st'. split; [done|]. split; [|done]. by rewrite brun_app, Hrun.
Qed.

(** ** Witnesses *)

(** Three processors, the boot processor second in the table. *)
Definition demo_tab : mpstate := mkMp ([4; 0; 2] ++ replicate 61 0) 3 0 4276092928.

(** The first page, and an entry code of three bytes at 5000. *)
Definition demo_entry : list Z := [15; 32; 192].
Definition demo_low : mem := write_bytes (write_bytes ∅ 0 (replicate 1200 255)) 5000 demo_entry.

Definition demo_line : serial := mkSerial 0 0 (mkIo [] []).

Definition demo_boot : list bchoice :=
  let bsp := Bsp (replicate 7 0) in
  [bsp; bsp; bsp; Ap 4 []; Ap 4 []; bsp; Ap 4 []; bsp; Ap 4 []; bsp; Ap 4 [0]; bsp; bsp; Ap 2 []; Ap 2 []; Ap 2 []; Ap 2 []; bsp; bsp].

Lemma demo_tab_ok : table_ok demo_tab 0 [4; 0; 2] 1.
Proof.
  split; [reflexivity|cbn; lia|reflexivity| |repeat constructor; lia|reflexivity]. by_eval.
Qed.

Lemma demo_low_code : entry_code 5000 demo_entry demo_low.
Proof.
  split; [split; [by_eval|split; by_eval]|]. split; [by_eval| |by_eval|done].
  apply bytes_at_b_spec. vm_compute. reflexivity.
Qed.

Lemma demo_boot_ok n : Forall bchoice_ok (take n demo_boot).
Proof. apply Forall_take. repeat constructor. Qed.

Lemma startothers_serial_witness :
  exists st, brun 5000 3 demo_tab 0 8192 2097152 (bstart demo_tab 0 demo_low demo_line) demo_boot = Ok st /\
    b_pc st = BEnd /\ b_started st !! 2%nat = Some 1 /\
    exists x, b_aps st !! 2 = Some x /\ up (smp_stacktop - 4096) x.
Proof.
  assert (Hpc : (st ← brun 5000 3 demo_tab 0 8192 2097152 (bstart demo_tab 0 demo_low demo_line) demo_boot;
                 Ok (b_pc st)) = Ok BEnd) by (vm_compute; reflexivity).
  destruct (brun 5000 3 demo_tab 0 8192 2097152 (bstart demo_tab 0 demo_low demo_line) demo_boot) as [st|e] eqn:Hrun;
    [|discriminate Hpc].
  injection Hpc as Hpc.
  exists st. split; [reflexivity|]. split; [exact Hpc|].
  destruct (startothers_serial 5000 demo_entry demo_tab 0 8192 2097152 [4; 0; 2] 1 demo_low demo_line demo_boot st
    demo_tab_ok demo_low_code (demo_boot_ok 19) Hrun) as (_ & _ & Hend).
  destruct (proj1 (Hend Hpc) 2%nat 2 eq_refl ltac:(lia)) as (H1 & _ & H2). split; [exact H1|exact H2].
Defined.

Lemma startothers_ends_witness :
  exists xs' st', Forall bchoice_ok xs' /\
    brun 5000 3 demo_tab 0 8192 2097152 (bstart demo_tab 0 demo_low demo_line) (take 6 demo_boot ++ xs') = Ok st' /\
    b_pc st' = BEnd.
Proof.
  assert (Hpc : (st ← brun 5000 3 demo_tab 0 8192 2097152 (bstart demo_tab 0 demo_low demo_line) (take 6 demo_boot);
                 Ok (b_pc st)) = Ok (BWait 0)) by (vm_compute; reflexivity).
  destruct (brun 5000 3 demo_tab 0 8192 2097152 (bstart demo_tab 0 demo_low demo_line) (take 6 demo_boot)) as [st|e] eqn:Hrun;
    [|discriminate Hpc].
  exact (startothers_ends 5000 demo_entry demo_tab 0 8192 2097152 [4; 0; 2] 1 demo_low demo_line (take 6 demo_boot) st
    demo_tab_ok demo_low_code (demo_boot_ok 6) Hrun).
Defined.
