(* ===== verification/Cstart.v ===== *)
(** * x86_64/cstart.S: into long mode

    The assembly that runs before C: [entry] on the boot processor, from the
    boot loader to [main]; [sipi_entry], [ap_start32] and [ap_start64] on the
    others, from the STARTUP to [mpenter]; [prepare_64], which both call, and
    the page tables that both load. The code is a list of instructions per
    label, with the size it is assembled for; the processor (Cpu) must decode
    that size when it gets there. A fault at this stage resets the machine.

    Addresses of memory are linear addresses with segments of base 0 and go
    through the page tables once paging is on. The symbols' addresses are the
    linker's. *)

From stdpp Require Import base gmap list numbers strings.
From Stdlib Require Import ZArith Lia.
From S2P Require Import Prelude Mem CString Printf Serial Stdio Heap PageTable Mp Desc Apic Boot Segment Cpu.

#[local] Open Scope Z_scope.

(** ** The code *)

Inductive label :=
  | Entry | EntryRet | Prepare64 | Start64 | Main | MainRet
  | SipiEntry | ApStart32 | ApRet | ApStart64 | Mpenter | MpenterRet.

#[export] Instance label_eq_dec : EqDecision label.
Proof. solve_decision. Defined.

(** [sy_gdt32_descr] is the offset of the descriptor in the copy at address 0,
    [gdt32_descr - sipi_entry]. *)
Record symbols := mkSymbols {
  sy_address : label -> Z;
  sy_mb_boot_info : Z;
  sy_mb_magic : Z;
  sy_stacktop : Z;
  sy_smp_stacktop : Z;
  sy_pt_root : Z;
  sy_gdt64_desc : Z;
  sy_gdt64 : Z;
  sy_gdt32_descr : Z;
  sy_gdt32 : Z;
  sy_ptl2 : Z;
  sy_ptl3 : Z;
  sy_ptl4 : Z;
}.

(** [Load n] loads [n] bytes, [Store] stores four; [MovAx] is the move of 16
    bits; [Bts], [OrI] and the moves of control registers work on EAX. *)
Inductive ins :=
  | Load (n : nat) (r : gpr) (a : Z)
  | Store (r : gpr) (a : Z)
  | MovI (r : gpr) (v : Z)
  | MovAx (v : Z)
  | MovR (dst src : gpr)
  | ReadCr0
  | WriteCr0
  | WriteCr3
  | ReadCr4
  | WriteCr4
  | Bts (n : Z)
  | OrI (v : Z)
  | Rdmsr
  | Wrmsr
  | Lgdt (a : Z)
  | MovSeg (i : nat)
  | Xadd (r : gpr) (a : Z)
  | Sti
  | Nop
  | Call (target ret : label)
  | Ret
  | Ljmp (sel : Z) (target : label).

Section Cstart.

Context (sy : symbols).

Definition entry : list ins :=
  [Store RBX (sy_mb_boot_info sy);
   Store RAX (sy_mb_magic sy);
   MovI RSP (sy_stacktop sy);
   Call Prepare64 EntryRet].

Definition entry_ret : list ins := [Ljmp 8 Start64].

Definition prepare_64 : list ins :=
  [Lgdt (sy_gdt64_desc sy);
   ReadCr4; Bts 5; WriteCr4;
   Load 4 RAX (sy_pt_root sy); WriteCr3;
   MovI RCX 0xC0000080; Rdmsr; Bts 8; Wrmsr;
   ReadCr0; Bts 0; Bts 31; WriteCr0;
   Ret].

Definition start64 : list ins :=
  [Load 8 RBX (sy_mb_boot_info sy); MovR RDI RBX;
   Load 8 RBX (sy_mb_magic sy); MovR RSI RBX;
   Call Main MainRet].

Definition sipi_entry : list ins :=
  [ReadCr0; OrI 1; WriteCr0; Lgdt (sy_gdt32_descr sy); Ljmp 8 ApStart32].

(** [SEG_KDATA << 3] is 16; the order of the segment registers is DS, ES, FS,
    GS, SS. *)
Definition ap_start32 : list ins :=
  [MovAx 16; MovSeg 0; MovSeg 1; MovSeg 2; MovSeg 3; MovSeg 4;
   MovI RSP (-4096);
   Xadd RSP (sy_smp_stacktop sy);
   Call Prepare64 ApRet].

Definition ap_ret : list ins := [Ljmp 8 ApStart64].

Definition ap_start64 : list ins := [Call Mpenter MpenterRet].

(** After [mpenter] the processor enables interrupts and halts. *)
Definition mpenter_ret : list ins := [Sti; Nop].

Definition block (l : label) : option (seg_size * list ins) :=
  match l with
  | Entry => Some (Size32, entry)
  | EntryRet => Some (Size32, entry_ret)
  | Prepare64 => Some (Size32, prepare_64)
  | Start64 => Some (Size64, start64)
  | SipiEntry => Some (Size16, sipi_entry)
  | ApStart32 => Some (Size32, ap_start32)
  | ApRet => Some (Size32, ap_ret)
  | ApStart64 => Some (Size64, ap_start64)
  | MpenterRet => Some (Size64, mpenter_ret)
  | Main | MainRet | Mpenter => None
  end.

(** ** Memory *)

(** Paging outside long mode is not used. *)
Definition linear (c : x86) (m : mem) (a : Z) : res Z :=
  if paging c then
    if long_active c then t ← translate m (cr3 c) a; of_option Fault t else Err Undef
  else Ok a.

Fixpoint lload (n : nat) (c : x86) (m : mem) (a : Z) : res Z :=
  match n with
  | O => Ok 0
  | S n' => p ← linear c m a; b ← load8 m p; r ← lload n' c m (a + 1); Ok (b + 256 * r)
  end.

Fixpoint lstore (n : nat) (c : x86) (m : mem) (a v : Z) : res mem :=
  match n with
  | O => Ok m
  | S n' => p ← linear c m a; m ← store8 m p v; lstore n' c m (a + 1) (v / 256)
  end.

(** ** Instructions *)

Context (cr4_bits : Z).

Definition fault {A} (o : option A) : res A := of_option Fault o.

(** A selector names a present, flat, ring-0 descriptor of the table, and does
    not itself ask for another ring or the local table. *)
Definition fetch (c : x86) (m : mem) (sel : Z) : res segdesc :=
  if (sel mod 8 =? 0) && (sel + 7 <=? (gdtr c).2) then
    w ← lload 8 c m ((gdtr c).1 + sel);
    let d := segdesc_of w in
    if (sd_p d =? 1) && (sd_s d =? 1) && (sd_dpl d =? 0) && (seg_base d =? 0) then Ok d else Err Fault
  else Err Fault.

(** A code segment cannot be of 64 and of 32 bits. *)
Definition far_jump (c : x86) (m : mem) (sel : Z) : res x86 :=
  d ← fetch c m sel;
  if seg_code d && negb (long_active c && negb (sd_rsv1 d =? 0) && negb (sd_db d =? 0)) then
    Ok (set_code c sel (negb (sd_db d =? 0)) (negb (sd_rsv1 d =? 0)))
  else Err Fault.

(** Data segments are writable. *)
Definition load_seg (c : x86) (m : mem) (i : nat) (sel : Z) : res x86 :=
  d ← fetch c m sel;
  if negb (seg_code d) && Z.testbit (sd_type d) 1 then Ok (set_sregs c (<[i := sel]> (sregs c))) else Err Fault.

(** The width of the stack's words. *)
Definition width (sz : seg_size) : nat := match sz with Size16 => 2 | Size32 => 4 | Size64 => 8 end.
Definition cut (sz : seg_size) (v : Z) : Z := v mod 256 ^ Z.of_nat (width sz).

Definition push (sz : seg_size) (c : x86) (m : mem) (v : Z) : res (x86 * mem) :=
  let sp := cut sz (rsp c - Z.of_nat (width sz)) in
  m ← lstore (width sz) c m sp v;
  Ok (set_reg c RSP sp, m).

Definition pop (sz : seg_size) (c : x86) (m : mem) : res (x86 * Z) :=
  v ← lload (width sz) c m (rsp c);
  Ok (set_reg c RSP (cut sz (rsp c + Z.of_nat (width sz))), v).

(** The instructions that go on to the next one. *)
Definition exec1 (c : x86) (m : mem) (i : ins) : res (x86 * mem) :=
  match i with
  | Load n r a => v ← lload n c m a; Ok (set_reg c r v, m)
  | Store r a => m ← lstore 4 c m a (u32 (get_reg c r)); Ok (c, m)
  | MovI r v => Ok (set_reg c r (u32 v), m)
  | MovAx v => Ok (set_reg c RAX (rax c - rax c mod 65536 + u16 v), m)
  | MovR dst src => Ok (set_reg c dst (get_reg c src), m)
  | ReadCr0 => Ok (set_reg c RAX (u32 (read_cr0 c)), m)
  | WriteCr0 => c ← fault (write_cr0 c (u32 (rax c))); Ok (c, m)
  | WriteCr3 => c ← fault (write_cr3 c (u32 (rax c))); Ok (c, m)
  | ReadCr4 => Ok (set_reg c RAX (u32 (read_cr4 c)), m)
  | WriteCr4 => c ← fault (write_cr4 cr4_bits c (u32 (rax c))); Ok (c, m)
  | Bts n => Ok (set_reg c RAX (Z.setbit (u32 (rax c)) n), m)
  | OrI v => Ok (set_reg c RAX (Z.lor (u32 (rax c)) v), m)
  | Rdmsr => Ok (rdmsr_ins c, m)
  | Wrmsr => c ← fault (wrmsr_ins c); Ok (c, m)
  | Lgdt a => limit ← lload 2 c m a; base ← lload 4 c m (a + 2); Ok (set_gdtr c (base, limit), m)
  | MovSeg i => c ← load_seg c m i (u16 (rax c)); Ok (c, m)
  | Xadd r a =>
      old ← lload 4 c m a;
      m ← lstore 4 c m a (u32 (old + u32 (get_reg c r)));
      Ok (set_reg c r old, m)
  | Sti => Ok (sti c, m)
  | Nop => Ok (c, m)
  | Call _ _ | Ret | Ljmp _ _ => Err Undef
  end.

(** The label that a return address belongs to. *)
Definition return_to (a : Z) : option label :=
  if a =? sy_address sy EntryRet then Some EntryRet
  else if a =? sy_address sy ApRet then Some ApRet
  else None.

(** Runs the code up to a label that is C code, or to the end of the code. *)
Fixpoint run (fuel : nat) (c : x86) (m : mem) (sz : seg_size) (code : list ins) : res (x86 * mem * option label) :=
  match fuel with
  | O => Err Fuel
  | S f =>
      let go c m l :=
        match block l with Some (sz, code) => run f c m sz code | None => Ok (c, m, Some l) end in
      match code with
      | [] => Ok (c, m, None)
      | i :: rest =>
          if decide (code_size c = sz) then
            match i with
            | Call target ret => '(c, m) ← push sz c m (sy_address sy ret); go c m target
            | Ret => '(c, a) ← pop sz c m; l ← of_option Undef (return_to a); go c m l
            | Ljmp sel target => c ← far_jump c m sel; go c m target
            | _ => '(c, m) ← exec1 c m i; run f c m sz rest
            end
          else Err Undef
      end
  end.

Definition run_from (fuel : nat) (c : x86) (m : mem) (l : label) : res (x86 * mem * option label) :=
  match block l with Some (sz, code) => run fuel c m sz code | None => Ok (c, m, Some l) end.

(** ** The page tables *)

Definition ptl2 : list Z := (fun i => Z.lor 0x1e7 (Z.shiftl (Z.of_nat i) 21)) <$> seq 0 (512 * 4).
Definition ptl3 : list Z :=
  [sy_ptl2 sy + 7 + 0 * 4096; sy_ptl2 sy + 7 + 1 * 4096; sy_ptl2 sy + 7 + 2 * 4096; sy_ptl2 sy + 7 + 3 * 4096].
Definition ptl4 : list Z := [sy_ptl3 sy + 7].

(** ** The image *)

(** What the code reads: the tables, the root's address, the descriptor table
    and its register's contents. *)
Record image_ok (m : mem) : Prop := {
  io_ptl2 : words_at m (sy_ptl2 sy) ptl2;
  io_ptl3 : words_at m (sy_ptl3 sy) ptl3;
  io_ptl4 : words_at m (sy_ptl4 sy) ptl4;
  io_root : load32 m (sy_pt_root sy) = Ok (sy_ptl4 sy);
  io_limit : load16 m (sy_gdt64_desc sy) = Ok 127;
  io_base : load32 m (sy_gdt64_desc sy + 2) = Ok (sy_gdt64 sy);
  io_gdt : words_at m (sy_gdt64 sy) gdt64;
}.

(** The memory they occupy. *)
Definition image_ranges : list (Z * Z) :=
  [(sy_ptl2 sy, 16384); (sy_ptl3 sy, 32); (sy_ptl4 sy, 8); (sy_pt_root sy, 4); (sy_gdt64_desc sy, 6); (sy_gdt64 sy, 128)].

(** A write that leaves them alone. *)
Definition apart (a n : Z) : Prop := Forall (fun r => disjoint_ranges a n r.1 r.2) image_ranges.

(** The tables are aligned, and everything is in the memory that they map. *)
Record symbols_ok : Prop := {
  so_ptl2 : sy_ptl2 sy mod 4096 = 0;
  so_ptl3 : sy_ptl3 sy mod 4096 = 0;
  so_ptl4 : sy_ptl4 sy mod 4096 = 0;
  so_ranges : Forall (fun r => 0 <= r.1 /\ r.1 + r.2 <= 2 ^ 32) image_ranges;
  so_returns : 0 <= sy_address sy EntryRet < 2 ^ 32 /\ 0 <= sy_address sy ApRet < 2 ^ 32 /\
    sy_address sy EntryRet <> sy_address sy ApRet;
}.

End Cstart.

(** ** The tables map the first 4 GiB to themselves *)

(** Arithmetic on parts of addresses. *)
Ltac parts :=
  change (2 ^ (9 * Z.of_nat 3 + 12)) with 549755813888 in *; change (2 ^ (9 * Z.of_nat 2 + 12)) with 1073741824 in *;
  change (2 ^ (9 * Z.of_nat 1 + 12)) with 2097152 in *; change (2 ^ 52) with 4503599627370496 in *;
  change (2 ^ 32) with 4294967296 in *; change (2 ^ 30) with 1073741824 in *; change (2 ^ 21) with 2097152 in *;
  change (2 ^ 12) with 4096 in *; Z.to_euclidean_division_equations; lia.

Section Proofs.

Context (sy : symbols) (cr4_bits : Z).
Hypothesis Hsy : symbols_ok sy.

Lemma ptl2_entry k :
  0 <= k < 2048 -> ptl2 !! Z.to_nat k = Some (0x1e7 + k * 2 ^ 21).
Proof.
  intros Hk. unfold ptl2. rewrite list_lookup_fmap, lookup_seq_lt by lia. cbn [fmap option_fmap option_map].
  rewrite Nat.add_0_l, Z2Nat.id, Z.shiftl_mul_pow2 by lia. rewrite Z.lor_comm.
  rewrite (lor_disjoint _ 0x1e7 21); [f_equal; lia|by rewrite Z.mod_mul|lia|lia].
Qed.

(** A 2 MiB entry. *)
Lemma big_entry k va :
  0 <= va < 2 ^ 32 -> k = va / 2 ^ 21 ->
  let e := 0x1e7 + k * 2 ^ 21 in
  present e = true /\ page_size_bit e = true /\ e mod 2 ^ 52 - e mod 2 ^ 21 + va mod 2 ^ 21 = va.
Proof.
  intros Hva -> e. subst e. change (2 ^ 21) with 2097152. change (2 ^ 52) with 4503599627370496.
  assert (0 <= va / 2097152 < 2048) by parts.
  set (k := va / 2097152) in *.
  assert (Hb : forall i, 0 <= i < 12 -> Z.testbit (487 + k * 2097152) i = Z.testbit 487 i).
  { intros i Hi. rewrite <- (Z.mod_pow2_bits_low _ 12) by lia. f_equal. parts. }
  unfold present, page_size_bit. rewrite !Hb by lia. repeat split. subst k. parts.
Qed.

Lemma image_bounds :
  (0 <= sy_ptl2 sy /\ sy_ptl2 sy + 16384 <= 2 ^ 32) /\ (0 <= sy_ptl3 sy /\ sy_ptl3 sy + 32 <= 2 ^ 32) /\
  (0 <= sy_ptl4 sy /\ sy_ptl4 sy + 8 <= 2 ^ 32) /\ (0 <= sy_pt_root sy /\ sy_pt_root sy + 4 <= 2 ^ 32) /\
  (0 <= sy_gdt64_desc sy /\ sy_gdt64_desc sy + 6 <= 2 ^ 32) /\ (0 <= sy_gdt64 sy /\ sy_gdt64 sy + 128 <= 2 ^ 32).
Proof.
  pose proof (so_ranges _ Hsy) as H. unfold image_ranges in H. rewrite !Forall_cons in H. cbn [fst snd] in H. tauto.
Qed.

Lemma identity_at m va :
  image_ok sy m -> 0 <= va < 2 ^ 32 -> translate m (sy_ptl4 sy) va = Ok (Some va).
Proof.
  intros Hi Hva.
  destruct image_bounds as (H2 & H3 & _).
  pose proof (so_ptl2 _ Hsy) as A2. pose proof (so_ptl3 _ Hsy) as A3.
  unfold translate. cbn [walk Nat.eqb Nat.leb].
  (* level 4 *)
  replace ((va / 2 ^ (9 * Z.of_nat 3 + 12)) mod 512) with 0 by parts.
  rewrite (words_at_lookup m _ _ 0 _ (io_ptl4 _ _ Hi) eq_refl : load64 m (sy_ptl4 sy + 8 * 0) = _). mret.
  destruct (entry_bits (sy_ptl3 sy)) as (-> & -> & ->); [done|lia|]. cbn [negb andb].
  (* level 3 *)
  set (i := (va / 2 ^ (9 * Z.of_nat 2 + 12)) mod 512).
  assert (Ei : i = va / 2 ^ 30 /\ 0 <= i < 4) by (subst i; split; parts). destruct Ei as [Ei Hi4].
  assert (Hl : ptl3 sy !! Z.to_nat i = Some (sy_ptl2 sy + 4096 * i + 7)).
  { assert (i = 0 \/ i = 1 \/ i = 2 \/ i = 3) as [E|[E|[E|E]]] by lia; rewrite E; apply (f_equal Some); lia. }
  pose proof (words_at_lookup m _ _ _ _ (io_ptl3 _ _ Hi) Hl) as He. rewrite Z2Nat.id in He by lia. rewrite He.
  clear He Hl.
  mret. destruct (entry_bits (sy_ptl2 sy + 4096 * i)) as (-> & -> & ->); [parts|lia|]. cbn [negb andb].
  (* level 2 *)
  pose proof (words_at_lookup m _ _ _ _ (io_ptl2 _ _ Hi) (ptl2_entry (va / 2 ^ 21) ltac:(parts))) as He.
  rewrite Z2Nat.id in He by parts.
  replace (sy_ptl2 sy + 4096 * i + 8 * ((va / 2 ^ (9 * Z.of_nat 1 + 12)) mod 512))
    with (sy_ptl2 sy + 8 * (va / 2 ^ 21)) by (rewrite Ei; parts).
  rewrite He. mret. destruct (big_entry (va / 2 ^ 21) va) as (-> & -> & Hv); [done..|]. cbn [negb andb].
  do 2 f_equal. exact Hv.
Qed.

(** ** Reads and writes *)

(** The image depends on its own memory only. *)
Lemma image_frame m m' :
  Forall (fun r => forall x, r.1 <= x < r.1 + r.2 -> m' !! x = m !! x) (image_ranges sy) -> image_ok sy m -> image_ok sy m'.
Proof.
  intros F [I1 I2 I3 I4 I5 I6 I7]. unfold image_ranges in F. rewrite !Forall_cons in F. cbn [fst snd] in F.
  destruct F as (F1 & F2 & F3 & F4 & F5 & F6 & _).
  assert (length ptl2 = 2048%nat) as L2 by (unfold ptl2; rewrite length_fmap, length_seq; done).
  split.
  - eapply words_at_frame; [|exact I1]. intros x Hx. rewrite L2 in Hx. apply F1. lia.
  - eapply words_at_frame; [|exact I2]. intros x Hx. cbn in Hx. apply F2. lia.
  - eapply words_at_frame; [|exact I3]. intros x Hx. cbn in Hx. apply F3. lia.
  - rewrite <- I4. apply load_le_frame. intros x Hx. apply F4. lia.
  - rewrite <- I5. apply load_le_frame. intros x Hx. apply F5. lia.
  - rewrite <- I6. apply load_le_frame. intros x Hx. apply F5. lia.
  - eapply words_at_frame; [|exact I7]. intros x Hx. cbn in Hx. apply F6. lia.
Qed.

(** A write apart from the image leaves it as it is. *)
Lemma image_write m a l :
  image_ok sy m -> apart sy a (Z.of_nat (length l)) -> image_ok sy (write_bytes m a l).
Proof.
  intros Hi Ha. eapply image_frame; [|exact Hi]. eapply Forall_impl; [exact Ha|]. intros r Hr x Hx.
  apply write_bytes_out. unfold disjoint_ranges in Hr. lia.
Qed.

(** Without paging, or with the tables of the image, addresses mean
    themselves. *)
Definition flat (c : x86) : Prop :=
  paging c = false \/ paging c = true /\ long_active c = true /\ cr3 c = sy_ptl4 sy.

Lemma linear_flat c m a : flat c -> image_ok sy m -> 0 <= a < 2 ^ 32 -> linear c m a = Ok a.
Proof.
  intros [Hp|(Hp & Hl & H3)] Hi Ha; unfold linear; rewrite Hp; [done|]. rewrite Hl, H3. by rewrite identity_at.
Qed.

Lemma lload_flat n c m a :
  flat c -> image_ok sy m -> 0 <= a -> a + Z.of_nat n <= 2 ^ 32 -> lload n c m a = load_le n m a.
Proof.
  intros Hf Hi. revert a. induction n as [|n IH]; intros a Ha Hn; [done|]. cbn [lload load_le].
  rewrite linear_flat by (done || lia). mret. destruct (load8 m a); [|done]. mret. by rewrite IH by lia.
Qed.

Lemma apart_sub a n b k : apart sy a n -> a <= b -> b + k <= a + n -> apart sy b k.
Proof. intros H Hb Hk. eapply Forall_impl; [exact H|]. intros r. unfold disjoint_ranges. lia. Qed.

Lemma lstore_flat n c m a v :
  flat c -> image_ok sy m -> 0 <= a -> a + Z.of_nat n <= 2 ^ 32 -> apart sy a (Z.of_nat n) ->
  mapped m a (Z.of_nat n) -> lstore n c m a v = Ok (write_bytes m a (le_bytes n v)).
Proof.
  intros Hf Hi Ha Hn Hap Hm. rewrite <- store_le_ok by done. revert m a v Hi Ha Hn Hap Hm.
  induction n as [|n IH]; intros m a v Hi Ha Hn Hap Hm; [done|]. cbn [lstore store_le].
  rewrite linear_flat by (done || lia). mret. rewrite store8_ok by (apply Hm; lia). mret. apply IH.
  - apply (image_write m a [u8 v]); [done|]. eapply apart_sub; [exact Hap|lia|cbn [length]; lia].
  - lia.
  - lia.
  - eapply apart_sub; [exact Hap|lia|lia].
  - apply mapped_insert. eapply mapped_sub; [exact Hm|lia|lia].
Qed.

(** ** Straight-line code *)

Fixpoint straight (c : x86) (m : mem) (sz : seg_size) (code : list ins) : res (x86 * mem) :=
  match code with
  | [] => Ok (c, m)
  | i :: rest =>
      if decide (code_size c = sz) then '(c, m) ← exec1 cr4_bits c m i; straight c m sz rest else Err Undef
  end.

Lemma straight_cons c m sz i rest c1 m1 r :
  code_size c = sz -> exec1 cr4_bits c m i = Ok (c1, m1) -> straight c1 m1 sz rest = r ->
  straight c m sz (i :: rest) = r.
Proof. intros Hs H1 H2. cbn [straight]. rewrite decide_True by done. rewrite H1. exact H2. Qed.

Lemma run_straight f c m sz code rest c1 m1 :
  straight c m sz code = Ok (c1, m1) ->
  run sy cr4_bits (length code + f) c m sz (code ++ rest) = run sy cr4_bits f c1 m1 sz rest.
Proof.
  revert c m. induction code as [|i code IH]; intros c m H; cbn [straight] in H; [by injection H as -> ->|].
  destruct (decide (code_size c = sz)) as [E|E]; [|done]. apply res_bind_ok in H as ([c2 m2] & H1 & H2).
  cbn [length app Nat.add run]. rewrite decide_True by done.
  destruct i; try discriminate H1; rewrite H1; mret; by apply IH.
Qed.

(** ** [prepare_64] *)

(** What the control registers must be for the writes to succeed: paging and
    long mode are off, and no bit is set that the processor refuses. *)
Record reset_ok (c : x86) : Prop := {
  ro_paging : paging c = false;
  ro_active : long_active c = false;
  ro_cr0 : 0 <= cr0 c < 2 ^ 32;
  ro_nw : bit (cr0 c) CR0_NW = true -> bit (cr0 c) CR0_CD = true;
  ro_cr4 : 0 <= cr4 c < 2 ^ 32 /\ Z.land (Z.setbit (cr4 c) CR4_PAE) (Z.lnot cr4_bits) = 0;
  ro_efer : 0 <= efer c < 2 ^ 32 /\ Z.land (efer c) (Z.lnot efer_bits) = 0;
}.

(** [c'] is [c] after the mode switch. *)
Record prepared (c c' : x86) : Prop := {
  pr_regs : rbx c' = rbx c /\ rsp c' = rsp c /\ rsi c' = rsi c /\ rdi c' = rdi c /\ eflags c' = eflags c;
  pr_segs : seg_cs c' = seg_cs c /\ seg_d c' = seg_d c /\ seg_l c' = seg_l c /\ sregs c' = sregs c;
  pr_gdtr : gdtr c' = (sy_gdt64 sy, 127);
  pr_cr3 : cr3 c' = sy_ptl4 sy;
  pr_paging : paging c' = true;
  pr_active : long_active c' = true;
  pr_modes : modes_ok c';
}.

Lemma code_size_32 c : seg_l c = false -> seg_d c = true -> code_size c = Size32.
Proof. intros Hl Hd. unfold code_size. by rewrite Hl, Hd, andb_false_r. Qed.

Lemma setbit_range v n k : 0 <= v < 2 ^ k -> 0 <= n < k -> 0 <= Z.setbit v n < 2 ^ k.
Proof.
  intros Hv Hn. assert (0 <= Z.setbit v n) by (rewrite Z.setbit_spec'; apply Z.lor_nonneg; lia). split; [done|].
  destruct (Z.eq_dec (Z.setbit v n) 0) as [->|Hz]; [lia|]. apply Z.log2_lt_pow2; [lia|].
  rewrite Z.setbit_spec', Z.log2_lor, Z.log2_pow2 by lia.
  apply Z.max_lub_lt; [|lia]. destruct (Z.eq_dec v 0) as [->|]; [cbn; lia|]. apply Z.log2_lt_pow2; lia.
Qed.

Lemma high_zero v k : 0 <= v < 2 ^ k -> 0 <= k -> Z.shiftr v k = 0.
Proof. intros Hv Hk. rewrite Z.shiftr_div_pow2 by done. by apply Z.div_small. Qed.

Lemma bit_set v n k : 0 <= n -> 0 <= k -> bit (Z.setbit v n) k = bit v k || (n =? k).
Proof. intros Hn Hk. unfold bit. rewrite Z.setbit_eqb by done. apply orb_comm. Qed.

(** The write of CR0 with PE and PG. *)
Lemma write_cr0_on c :
  0 <= cr0 c < 2 ^ 32 -> (bit (cr0 c) CR0_NW = true -> bit (cr0 c) CR0_CD = true) -> paging c = false ->
  bit (efer c) EFER_LME = true -> bit (cr4 c) CR4_PAE = true -> seg_l c = false ->
  write_cr0 c (Z.setbit (Z.setbit (cr0 c) 0) 31) =
    Some (set_crs (set_msrs c (<[MSR_EFER := put (efer c) EFER_LMA true]> (msrs c)))
      (Z.setbit (Z.setbit (Z.setbit (cr0 c) 0) 31) CR0_ET) (cr2 c) (cr3 c) (cr4 c) (cr8 c)).
Proof.
  intros H0 Hnw Hp He H4 Hl. unfold write_cr0. rewrite (high_zero _ 32) by (lia || (apply setbit_range; [apply setbit_range|]; lia)).
  rewrite !bit_set by done. rewrite He, H4, Hl, Hp. rewrite andb_false_r. cbn [Z.eqb negb andb orb]. rewrite !orb_true_r, !orb_false_r.
  cbn [Pos.eqb negb andb orb]. destruct (bit (cr0 c) CR0_NW); [rewrite Hnw by done|]; reflexivity.
Qed.

(** One instruction of straight-line code. *)
Ltac one := eapply straight_cons; [by apply code_size_32| |].

(** The tables and PAE. *)
Lemma prepare_tables c m :
  image_ok sy m -> reset_ok c -> seg_l c = false -> seg_d c = true ->
  exists a, straight c m Size32
    [Lgdt (sy_gdt64_desc sy); ReadCr4; Bts 5; WriteCr4; Load 4 RAX (sy_pt_root sy); WriteCr3] =
    Ok (set_gdtr (set_crs (set_reg c RAX a) (cr0 c) (cr2 c) (sy_ptl4 sy) (Z.setbit (cr4 c) CR4_PAE) (cr8 c))
          (sy_gdt64 sy, 127), m).
Proof.
  intros Hi Hr Hl Hd. pose proof (or_introl (ro_paging _ Hr) : flat c) as Hf. destruct (ro_cr4 _ Hr) as [Hc4 Hb4].
  destruct image_bounds as (_ & _ & Bp & Br & Bd & _).
  exists (sy_ptl4 sy).
  one. { cbn [exec1]. rewrite !lload_flat by (done || lia). rewrite (io_limit _ _ Hi : load_le 2 m _ = _). mret.
    rewrite (io_base _ _ Hi : load_le 4 m _ = _). reflexivity. }
  one. { reflexivity. }
  one. { reflexivity. }
  one. { cbn [exec1]. unfold write_cr4. xfields. unfold read_cr4. xfields. rewrite (u32_small (cr4 c)) by lia.
    rewrite (u32_small (cr4 c)) by lia. rewrite (u32_small (Z.setbit _ _)) by (apply (setbit_range _ 5 32); lia).
    change 5 with CR4_PAE. rewrite Hb4. unfold long_active, efer. xfields. fold (efer c). fold (long_active c).
    rewrite (ro_active _ Hr). reflexivity. }
  one. { cbn [exec1]. rewrite lload_flat by (done || lia). rewrite (io_root _ _ Hi : load_le 4 m _ = _). reflexivity. }
  one. { cbn [exec1]. unfold write_cr3. xfields. rewrite (u32_small (sy_ptl4 sy)) by lia.
    rewrite (high_zero _ 52) by (change (2 ^ 52) with (2 ^ 20 * 2 ^ 32); lia). reflexivity. }
  reflexivity.
Qed.

(** Long mode is enabled in EFER. *)
Lemma prepare_efer c m :
  paging c = false -> long_active c = false -> 0 <= efer c < 2 ^ 32 -> Z.land (efer c) (Z.lnot efer_bits) = 0 ->
  seg_l c = false -> seg_d c = true ->
  exists a b d, straight c m Size32 [MovI RCX 0xC0000080; Rdmsr; Bts 8; Wrmsr] =
    Ok (set_msrs (set_reg (set_reg (set_reg c RAX a) RCX b) RDX d)
          (<[MSR_EFER := put (Z.setbit (efer c) EFER_LME) EFER_LMA false]> (msrs c)), m).
Proof.
  intros Hp Hla He Hb Hl Hd. exists (Z.setbit (efer c) 8), 0xC0000080, 0.
  assert (Hr : rdmsr_ins (set_reg c RCX 0xC0000080) = set_reg (set_reg (set_reg c RCX 0xC0000080) RAX (efer c)) RDX 0).
  { unfold rdmsr_ins. xfields. change (u32 3221225600) with MSR_EFER. fold (efer c). rewrite (high_zero _ 32), u32_small by lia.
    reflexivity. }
  one. { reflexivity. }
  one. { cbn [exec1]. change (u32 3221225600) with 3221225600. rewrite Hr. reflexivity. }
  one. { reflexivity. }
  one. { cbn [exec1]. unfold wrmsr_ins. xfields. rewrite (u32_small (efer c)) by lia.
    rewrite (u32_small (Z.setbit _ _)) by (apply (setbit_range _ 8 32); lia).
    change (Z.shiftl (u32 0) 32) with 0. rewrite Z.lor_0_r. change (u32 3221225600 =? MSR_EFER) with true. cbn iota.
    assert (E : Z.land (Z.setbit (efer c) 8) (Z.lnot efer_bits) = 0).
    { rewrite Z.setbit_spec', Z.land_lor_distr_l, Hb. reflexivity. }
    rewrite E. change (paging (set_reg _ _ _)) with (paging c). change (long_active (set_reg _ _ _)) with (long_active c).
    rewrite Hp, Hla. reflexivity. }
  reflexivity.
Qed.

(** Paging is turned on. *)
Lemma prepare_paging c m :
  0 <= cr0 c < 2 ^ 32 -> (bit (cr0 c) CR0_NW = true -> bit (cr0 c) CR0_CD = true) -> paging c = false ->
  bit (efer c) EFER_LME = true -> bit (cr4 c) CR4_PAE = true -> seg_l c = false -> seg_d c = true ->
  exists a, straight c m Size32 [ReadCr0; Bts 0; Bts 31; WriteCr0] =
    Ok (set_crs (set_msrs (set_reg c RAX a) (<[MSR_EFER := put (efer c) EFER_LMA true]> (msrs c)))
          (Z.setbit (Z.setbit (Z.setbit (cr0 c) 0) 31) CR0_ET) (cr2 c) (cr3 c) (cr4 c) (cr8 c), m).
Proof.
  intros H0 Hnw Hp He H4 Hl Hd. eexists.
  one. { reflexivity. }
  one. { reflexivity. }
  one. { reflexivity. }
  one. { cbn [exec1]. unfold read_cr0. xfields. do 2 rewrite (u32_small (cr0 c)) by lia.
    rewrite (u32_small (Z.setbit (cr0 c) 0)) by (apply (setbit_range _ 0 32); lia).
    rewrite (u32_small (Z.setbit _ 31)) by (apply (setbit_range _ 31 32); [apply setbit_range|]; lia).
    match goal with |- context [write_cr0 ?c1 ?v] =>
      rewrite (write_cr0_on c1 H0 Hnw Hp He H4 Hl : write_cr0 c1 v = _) end. reflexivity. }
  reflexivity.
Qed.

Lemma straight_app c m sz l1 l2 c1 m1 :
  straight c m sz l1 = Ok (c1, m1) -> straight c m sz (l1 ++ l2) = straight c1 m1 sz l2.
Proof.
  revert c m. induction l1 as [|i l1 IH]; intros c m H; cbn [straight app] in *; [by injection H as -> ->|].
  destruct (decide (code_size c = sz)); [|done]. apply res_bind_ok in H as ([c2 m2] & -> & H). mret. by apply IH.
Qed.

Lemma prepare_run c m :
  image_ok sy m -> reset_ok c -> seg_l c = false -> seg_d c = true ->
  exists c', prepared c c' /\
    forall f, run sy cr4_bits (14 + f) c m Size32 (prepare_64 sy) = run sy cr4_bits f c' m Size32 [Ret].
Proof.
  intros Hi Hr Hl Hd. destruct (ro_efer _ Hr) as [He1 He2].
  destruct (prepare_tables c m Hi Hr Hl Hd) as (a1 & S1). set (c1 := set_gdtr _ _) in S1.
  destruct (prepare_efer c1 m (ro_paging _ Hr) (ro_active _ Hr) He1 He2 Hl Hd) as (a2 & b2 & d2 & S2).
  set (v := put _ _ _) in S2. set (c2 := set_msrs _ _) in S2.
  assert (Ev : efer c2 = v) by (unfold efer; subst c2; xfields; by rewrite lookup_insert_eq).
  destruct (prepare_paging c2 m (ro_cr0 _ Hr) (ro_nw _ Hr) (ro_paging _ Hr)) as (a3 & S3); [|..|done|done|].
  { rewrite Ev. subst v. rewrite bit_put_ne by done. apply Z.setbit_eq. done. }
  { subst c2 c1. xfields. by apply Z.setbit_eq. }
  set (w := put _ _ _) in S3. set (c3 := set_crs _ _ _ _ _ _) in S3.
  assert (Ew : efer c3 = w) by (unfold efer; subst c3; xfields; by rewrite lookup_insert_eq).
  assert (Hp : paging c3 = true) by (unfold paging; subst c3; xfields; rewrite !bit_set by done; by rewrite orb_true_r).
  assert (Ha : long_active c3 = true) by (unfold long_active; rewrite Ew; subst w; by apply bit_put).
  exists c3. split.
  - split; try done. split.
    + intros _. subst c3. xfields. rewrite !bit_set by done. by rewrite orb_true_r.
    + rewrite Ha, Hp, Ew. subst w. rewrite bit_put_ne, Ev by done. subst v. rewrite bit_put_ne by done.
      symmetry. by apply Z.setbit_eq.
    + intros _. subst c3 c2 c1. xfields. by apply Z.setbit_eq.
  - intros f.
    exact (run_straight f c m Size32 (take 14 (prepare_64 sy)) [Ret] c3 m
             (eq_trans (straight_app _ _ _ _ _ _ _ S1) (eq_trans (straight_app _ _ _ _ _ _ _ S2) S3))).
Qed.

(** ** Calls and jumps *)

(** Room for [n] bytes below the stack pointer. *)
Definition room (m : mem) (sp n : Z) : Prop := n <= sp < 2 ^ 32 /\ apart sy (sp - n) n /\ mapped m (sp - n) n.

Lemma push_flat sz c m v :
  flat c -> image_ok sy m -> sz <> Size16 -> room m (rsp c) (Z.of_nat (width sz)) ->
  push sz c m v = Ok (set_reg c RSP (rsp c - Z.of_nat (width sz)),
    write_bytes m (rsp c - Z.of_nat (width sz)) (le_bytes (width sz) v)).
Proof.
  intros Hf Hi Hz (Hr & Ha & Hm). unfold push.
  assert (Ec : cut sz (rsp c - Z.of_nat (width sz)) = rsp c - Z.of_nat (width sz)).
  { unfold cut. apply Z.mod_small. change (2 ^ 32) with 4294967296 in Hr. destruct sz; [done| |].
    - change (Z.of_nat (width Size32)) with 4 in *. lia.
    - change (Z.of_nat (width Size64)) with 8 in *. lia. }
  rewrite Ec, lstore_flat by (done || lia). reflexivity.
Qed.

Lemma write_load m a v : 0 <= v < 2 ^ 32 -> load_le 4 (write_bytes m a (le_bytes 4 v)) a = Ok v.
Proof. intros Hv. rewrite load_store_le_same. f_equal. by apply Z.mod_small. Qed.

(** Both callers of [prepare_64] come back and jump into 64-bit code. *)
Definition caller (ret target : label) (code : list ins) : Prop :=
  ret = EntryRet /\ target = Start64 /\ code = start64 sy \/
  ret = ApRet /\ target = ApStart64 /\ code = ap_start64.

(** [c'] is [c] in 64-bit code. *)
Record in64 (c c' : x86) : Prop := {
  i6_regs : rbx c' = rbx c /\ rsp c' = rsp c /\ rsi c' = rsi c /\ rdi c' = rdi c /\ eflags c' = eflags c;
  i6_sregs : sregs c' = sregs c;
  i6_cs : seg_cs c' = KERNEL_CS;
  i6_size : code_size c' = Size64;
  i6_paging : paging c' = true;
  i6_active : long_active c' = true;
  i6_cr3 : cr3 c' = sy_ptl4 sy;
  i6_modes : modes_ok c';
}.

Lemma in64_flat c c' : in64 c c' -> flat c'.
Proof. intros H. right. split; [apply H|]. split; apply H. Qed.

(** The jump through the second descriptor of [gdt64]. *)
Lemma jump64 c c' m :
  image_ok sy m -> prepared c c' -> exists c2, far_jump c' m 8 = Ok c2 /\ in64 c c2.
Proof.
  intros Hi Hp. destruct image_bounds as (_ & _ & _ & _ & _ & Bg).
  assert (Hf : flat c') by (right; split; [apply Hp|]; split; apply Hp).
  assert (Hw : load_le 8 m (sy_gdt64 sy + 8) = Ok 0x00af9b000000ffff).
  { exact (words_at_lookup m _ _ 1 _ (io_gdt _ _ Hi) eq_refl). }
  unfold far_jump, fetch. rewrite (pr_gdtr _ _ Hp). cbn [fst snd].
  change ((8 mod 8 =? 0) && (8 + 7 <=? 127)) with true. cbn iota.
  rewrite lload_flat by (done || lia). rewrite Hw. mret. cbv zeta.
  set (d := segdesc_of 0x00af9b000000ffff). vm_compute in d. subst d. cbn [sd_p sd_s sd_dpl].
  match goal with |- context [if ?b then Ok ?d else _] => change b with true; cbn iota; mret; set (dd := d) end.
  change (seg_code dd) with true. change (sd_rsv1 dd =? 0) with false. change (sd_db dd =? 0) with true.
  cbn [negb andb]. rewrite !andb_false_r. cbn [negb]. eexists. split; [reflexivity|].
  destruct Hp as [P1 P2 P3 P4 P5 P6 P7]. split; try done.
  - apply P2.
  - unfold code_size. change (long_active (set_code c' 8 false true)) with (long_active c'). rewrite P6. reflexivity.
  - by destruct P7.
Qed.

(** Every selector of [gdt64]. *)
Lemma fetch64 c m i w :
  image_ok sy m -> flat c -> gdtr c = (sy_gdt64 sy, 127) -> gdt64 !! i = Some w ->
  fetch c m (8 * Z.of_nat i) =
  let d := segdesc_of w in
  if (sd_p d =? 1) && (sd_s d =? 1) && (sd_dpl d =? 0) && (seg_base d =? 0) then Ok d else Err Fault.
Proof.
  intros Hi Hf Hg Hw. destruct image_bounds as (_ & _ & _ & _ & _ & Bg).
  assert (Hl : (i < 16)%nat) by (apply lookup_lt_Some in Hw; exact Hw).
  unfold fetch. rewrite Hg. cbn [fst snd]. rewrite (Z.mul_comm 8), Z.mod_mul by lia.
  rewrite (proj2 (Z.leb_le _ _)) by lia. cbn [andb]. change (0 =? 0) with true. cbn iota.
  rewrite lload_flat by (done || lia).
  pose proof (words_at_lookup m _ _ i _ (io_gdt _ _ Hi) Hw) as E. rewrite (Z.mul_comm (Z.of_nat i)).
  rewrite (E : load_le 8 m (sy_gdt64 sy + 8 * Z.of_nat i) = Ok w). reflexivity.
Qed.

Lemma fetch64_outside c m sel :
  gdtr c = (sy_gdt64 sy, 127) -> sel mod 8 <> 0 \/ 128 <= sel -> fetch c m sel = Err Fault.
Proof.
  intros Hg Hs. unfold fetch. rewrite Hg. cbn [fst snd]. destruct Hs as [Hs|Hs].
  - by rewrite (proj2 (Z.eqb_neq _ _) Hs).
  - rewrite (proj2 (Z.leb_gt _ _)) by lia. by rewrite andb_false_r.
Qed.

(** Evaluates the descriptor of a known word. *)
Ltac known_segment :=
  match goal with |- context [segdesc_of ?w] => let d := eval vm_compute in (segdesc_of w) in change (segdesc_of w) with d end;
  match goal with |- context [if ?b then Ok ?d else Err Fault] => let v := eval vm_compute in b in change b with v end;
  cbn iota; mret;
  first [reflexivity|
    match goal with |- context [seg_code ?d] => let v := eval vm_compute in (seg_code d) in change (seg_code d) with v end;
    cbn [andb sd_rsv1 sd_db]; first [reflexivity|
    change (1 =? 0) with false; change (0 =? 0) with true; cbn [negb andb]; rewrite ?andb_false_r, ?andb_true_r; reflexivity]].

Lemma far_jump64 c m sel :
  image_ok sy m -> flat c -> gdtr c = (sy_gdt64 sy, 127) -> 0 <= sel ->
  far_jump c m sel =
  match code_selector sel with
  | Some sz => Ok (set_code c sel (bool_decide (sz = Size32)) (bool_decide (sz = Size64)))
  | None => Err Fault
  end.
Proof.
  intros Hi Hf Hg H0. rewrite code_selector_cases. unfold far_jump.
  destruct (decide (sel mod 8 <> 0 \/ 128 <= sel)) as [Hout|Hin].
  - rewrite fetch64_outside by done. unfold KERNEL_CS, KERNEL_CS32, KERNEL_CS16.
    rewrite !(proj2 (Z.eqb_neq sel _)); [done|..]; intros ->; destruct Hout as [Hout|Hout]; (by apply Hout) || lia.
  - assert (Hsel : exists i, sel = 8 * Z.of_nat i /\ (i < 16)%nat).
    { exists (Z.to_nat (sel / 8)). Z.to_euclidean_division_equations. lia. }
    destruct Hsel as (i & -> & Hlt). destruct (lookup_lt_is_Some_2 gdt64 i Hlt) as [w Hw].
    rewrite (fetch64 c m i w Hi Hf Hg Hw). clear -Hw.
    do 16 (destruct i as [|i]; [apply (inj Some) in Hw; subst w; cbv zeta; known_segment|]). discriminate Hw.
Qed.

Lemma reset_ok_rsp c v : reset_ok c -> reset_ok (set_reg c RSP v).
Proof. by intros [H1 H2 H3 H4 H5 H6]. Qed.

(** Control transfers, one by one. *)
Lemma run_call f c m sz target ret rest c1 m1 :
  code_size c = sz -> push sz c m (sy_address sy ret) = Ok (c1, m1) ->
  run sy cr4_bits (S f) c m sz (Call target ret :: rest) = run_from sy cr4_bits f c1 m1 target.
Proof. intros Hs Hp. cbn [run]. rewrite decide_True by done. rewrite Hp. reflexivity. Qed.

Lemma run_ret f c m sz rest c1 a l :
  code_size c = sz -> pop sz c m = Ok (c1, a) -> return_to sy a = Some l ->
  run sy cr4_bits (S f) c m sz (Ret :: rest) = run_from sy cr4_bits f c1 m l.
Proof. intros Hs Hp Ha. cbn [run]. rewrite decide_True by done. rewrite Hp. mret. rewrite Ha. reflexivity. Qed.

Lemma run_ljmp f c m sz sel target rest c1 :
  code_size c = sz -> far_jump c m sel = Ok c1 ->
  run sy cr4_bits (S f) c m sz (Ljmp sel target :: rest) = run_from sy cr4_bits f c1 m target.
Proof. intros Hs Hp. cbn [run]. rewrite decide_True by done. rewrite Hp. reflexivity. Qed.

Lemma caller_return ret target code : caller ret target code -> return_to sy (sy_address sy ret) = Some ret.
Proof.
  destruct (so_returns _ Hsy) as (_ & _ & R). unfold return_to.
  intros [(-> & _ & _)|(-> & _ & _)]; [by rewrite Z.eqb_refl|].
  rewrite (proj2 (Z.eqb_neq _ _)) by congruence. by rewrite Z.eqb_refl.
Qed.

Lemma pop_flat c m v :
  flat c -> image_ok sy m -> 0 <= rsp c -> rsp c + 4 < 2 ^ 32 -> load_le 4 m (rsp c) = Ok v ->
  pop Size32 c m = Ok (set_reg c RSP (rsp c + 4), v).
Proof.
  intros Hf Hi H0 H1 Hv. unfold pop. change (width Size32) with 4%nat. rewrite lload_flat by (done || lia). rewrite Hv. mret.
  assert (Ec : cut Size32 (rsp c + Z.of_nat 4) = rsp c + 4) by (apply Z.mod_small; change (2 ^ 32) with 4294967296 in H1; cbn; lia).
  by rewrite Ec.
Qed.

Lemma prepared_rsp c v c1 : prepared (set_reg c RSP v) c1 -> prepared c (set_reg c1 RSP (rsp c)).
Proof.
  intros [(Q1 & Q1' & Q1'') Q2 Q3 Q4 Q5 Q6 Q7]. split; [|done..|by destruct Q7]. split; [exact Q1|]. split; [done|exact Q1''].
Qed.

(** The call of [prepare_64], its return and the jump. *)
Lemma through_prepare c m ret target code :
  caller ret target code -> image_ok sy m -> reset_ok c -> seg_l c = false -> seg_d c = true -> room m (rsp c) 4 ->
  exists c', in64 c c' /\
    forall f, run sy cr4_bits (S (14 + S (S f))) c m Size32 [Call Prepare64 ret] =
      run sy cr4_bits f c' (write_bytes m (rsp c - 4) (le_bytes 4 (sy_address sy ret))) Size64 code.
Proof.
  intros Hc Hi Hr Hl Hd Hm. destruct (so_returns _ Hsy) as (R1 & R2 & _).
  assert (Ha : 0 <= sy_address sy ret < 2 ^ 32) by (destruct Hc as [(-> & _ & _)|(-> & _ & _)]; done).
  pose proof (push_flat Size32 c m (sy_address sy ret) (or_introl (ro_paging _ Hr)) Hi ltac:(done) Hm) as Hpush.
  change (Z.of_nat (width Size32)) with 4 in Hpush. change (width Size32) with 4%nat in Hpush.
  pose proof (write_load m (rsp c - 4) _ Ha) as Hv. set (m1 := write_bytes _ _ _) in *.
  assert (Hi1 : image_ok sy m1) by (apply image_write; [done|]; rewrite length_le_bytes; apply Hm).
  clearbody m1.
  destruct (prepare_run (set_reg c RSP (rsp c - 4)) m1 Hi1 (reset_ok_rsp _ _ Hr) Hl Hd) as (c1 & P1 & Hrun).
  assert (Hf1 : flat c1) by (right; split; [apply P1|]; split; apply P1).
  assert (Esp : rsp c1 = rsp c - 4) by apply P1. destruct Hm as (Hm & _).
  pose proof (pop_flat c1 m1 (sy_address sy ret) Hf1 Hi1 ltac:(lia) ltac:(lia)) as Hpop.
  rewrite Esp in Hpop. specialize (Hpop Hv). replace (rsp c - 4 + 4) with (rsp c) in Hpop by lia.
  assert (Hs1 : code_size c1 = Size32) by (apply code_size_32; [rewrite <- Hl|rewrite <- Hd]; apply P1).
  pose proof (prepared_rsp _ _ _ P1) as P2.
  assert (Hs2 : code_size (set_reg c1 RSP (rsp c)) = Size32) by exact Hs1.
  destruct (jump64 _ _ m1 Hi1 P2) as (c2 & Hj & H64). exists c2. split; [done|]. intros f.
  rewrite (run_call _ _ _ _ _ _ _ _ _ (code_size_32 _ Hl Hd) Hpush). unfold run_from. cbn [block]. rewrite Hrun.
  rewrite (run_ret _ _ _ _ _ _ _ _ Hs1 Hpop (caller_return _ _ _ Hc)). unfold run_from.
  destruct Hc as [(-> & -> & ->)|(-> & -> & ->)]; cbn [block];
    [unfold entry_ret|unfold ap_ret]; rewrite (run_ljmp _ _ _ _ _ _ _ _ Hs2 Hj); reflexivity.
Qed.

(** A call of C code. *)
Lemma call64 f c c' m target ret :
  in64 c c' -> image_ok sy m -> block sy target = None -> room m (rsp c) 8 ->
  run sy cr4_bits (S f) c' m Size64 [Call target ret] =
    Ok (set_reg c' RSP (rsp c - 8), write_bytes m (rsp c - 8) (le_bytes 8 (sy_address sy ret)), Some target).
Proof.
  intros H6 Hi Hb Hm. assert (Es : rsp c' = rsp c) by apply H6. rewrite <- Es in Hm.
  pose proof (push_flat Size64 c' m (sy_address sy ret) (in64_flat _ _ H6) Hi ltac:(done) Hm) as Hpush.
  rewrite (run_call _ _ _ _ _ _ _ _ _ (i6_size _ _ H6) Hpush). unfold run_from. rewrite Hb, Es. reflexivity.
Qed.

(** ** From [entry] to [main] *)

(** The words that keep the boot loader's registers, and the stack. *)
Record start_ok (m : mem) : Prop := {
  st_info : bytes_at m (sy_mb_boot_info sy) (replicate 8 0);
  st_magic : bytes_at m (sy_mb_magic sy) (replicate 8 0);
  st_info_range : 0 <= sy_mb_boot_info sy /\ sy_mb_boot_info sy + 8 <= 2 ^ 32 /\ apart sy (sy_mb_boot_info sy) 8;
  st_magic_range : 0 <= sy_mb_magic sy /\ sy_mb_magic sy + 8 <= 2 ^ 32 /\ apart sy (sy_mb_magic sy) 8;
  st_stack : room m (sy_stacktop sy) 8;
  st_words : disjoint_ranges (sy_mb_boot_info sy) 8 (sy_mb_magic sy) 8;
  st_info_stack : disjoint_ranges (sy_mb_boot_info sy) 8 (sy_stacktop sy - 8) 8;
  st_magic_stack : disjoint_ranges (sy_mb_magic sy) 8 (sy_stacktop sy - 8) 8;
}.

(** The memory that the code of the boot processor writes. *)
Definition scratch (x : Z) : Prop :=
  sy_mb_boot_info sy <= x < sy_mb_boot_info sy + 8 \/ sy_mb_magic sy <= x < sy_mb_magic sy + 8 \/
  sy_stacktop sy - 8 <= x < sy_stacktop sy.

(** The low half of a quadword that was zero. *)
Lemma load64_low m a v :
  bytes_at m a (replicate 8 0) -> load_le 8 (write_bytes m a (le_bytes 4 v)) a = Ok (u32 v).
Proof.
  intros Hb. change (replicate 8 0) with (replicate 4 0 ++ replicate 4 0) in Hb.
  apply bytes_at_app in Hb as [_ Hb]. rewrite length_replicate in Hb.
  assert (H : bytes_at (write_bytes m a (le_bytes 4 v)) a (le_bytes 4 v ++ replicate 4 0)).
  { apply bytes_at_app. split; [apply write_bytes_at|]. rewrite length_le_bytes. eapply bytes_at_frame; [|exact Hb].
    intros x Hx. apply write_bytes_out. rewrite length_le_bytes. lia. }
  apply load_le_ok in H. rewrite length_app, length_le_bytes, length_replicate in H.
  change (4 + 4)%nat with 8%nat in H. rewrite H. f_equal. rewrite <- (le_value_bytes 4 v : _ = u32 v). cbn [le_bytes app replicate le_value]. lia.
Qed.

Lemma bytes_at_write_other m a l b k :
  disjoint_ranges a (Z.of_nat (length l)) b (Z.of_nat (length k)) -> bytes_at m a l -> bytes_at (write_bytes m b k) a l.
Proof. intros Hd H. eapply bytes_at_frame; [|exact H]. intros x Hx. apply write_bytes_out. unfold disjoint_ranges in Hd. lia. Qed.

Lemma in64_data c c1 r v : in64 c c1 -> r <> RSP -> in64 (set_reg c r v) (set_reg c1 r v).
Proof.
  intros [(E1 & E2 & E3 & E4 & E5) H2 H3 H4 H5 H6 H7 H8] Hr. destruct r; try done; (split; [done..|by destruct H8]).
Qed.

(** The 64-bit code before [main]. *)
Lemma start64_run f c c1 m i g :
  in64 c c1 -> image_ok sy m -> room m (rsp c) 8 ->
  0 <= sy_mb_boot_info sy /\ sy_mb_boot_info sy + 8 <= 2 ^ 32 -> load_le 8 m (sy_mb_boot_info sy) = Ok i ->
  0 <= sy_mb_magic sy /\ sy_mb_magic sy + 8 <= 2 ^ 32 -> load_le 8 m (sy_mb_magic sy) = Ok g ->
  exists c2, in64 (set_reg (set_reg (set_reg c RBX g) RDI i) RSI g) c2 /\
    run sy cr4_bits (4 + S f) c1 m Size64 (start64 sy) =
      Ok (set_reg c2 RSP (rsp c - 8), write_bytes m (rsp c - 8) (le_bytes 8 (sy_address sy MainRet)), Some Main).
Proof.
  intros H6 Hi Hr Hb1 Hl1 Hb2 Hl2. pose proof (in64_flat _ _ H6) as Hf.
  set (c2 := set_reg (set_reg (set_reg (set_reg c1 RBX i) RDI i) RBX g) RSI g).
  assert (H62 : in64 (set_reg (set_reg (set_reg c RBX g) RDI i) RSI g) c2).
  { apply in64_data; [|done]. apply (in64_data _ (set_reg c1 RBX g) RDI i); [|done]. by apply in64_data. }
  exists c2. split; [done|].
  assert (Hs : straight c1 m Size64 (take 4 (start64 sy)) = Ok (c2, m)).
  { pose proof (i6_size _ _ H6) as Hz.
    eapply straight_cons; [exact Hz| |]. { cbn [exec1]. rewrite lload_flat by (done || lia). rewrite Hl1. reflexivity. }
    eapply straight_cons; [exact Hz|reflexivity|].
    eapply straight_cons; [exact Hz| |]. { cbn [exec1]. rewrite lload_flat by (done || lia). rewrite Hl2. reflexivity. }
    eapply straight_cons; [exact Hz|reflexivity|]. reflexivity. }
  etransitivity; [exact (run_straight (S f) c1 m Size64 (take 4 (start64 sy)) [Call Main MainRet] c2 m Hs)|].
  exact (call64 f _ c2 m Main MainRet H62 Hi eq_refl Hr).
Qed.

(** The stores of [entry] and its stack. *)
Definition entry_mem (c : x86) (m : mem) : mem :=
  write_bytes (write_bytes m (sy_mb_boot_info sy) (le_bytes 4 (u32 (rbx c)))) (sy_mb_magic sy) (le_bytes 4 (u32 (rax c))).

Lemma mapped_write m b l a n : mapped m b (Z.of_nat (length l)) -> mapped m a n -> mapped (write_bytes m b l) a n.
Proof. intros Hb Ha. eapply same_dom_mapped; [by apply write_bytes_dom|done]. Qed.

Lemma entry_stores c m :
  image_ok sy m -> start_ok m -> reset_ok c -> seg_l c = false -> seg_d c = true ->
  straight c m Size32 (take 3 (entry sy)) = Ok (set_reg c RSP (sy_stacktop sy), entry_mem c m) /\
  image_ok sy (entry_mem c m) /\ room (entry_mem c m) (sy_stacktop sy) 8 /\
  load_le 8 (entry_mem c m) (sy_mb_boot_info sy) = Ok (u32 (rbx c)) /\
  load_le 8 (entry_mem c m) (sy_mb_magic sy) = Ok (u32 (rax c)).
Proof.
  intros Hi Hs Hr Hl Hd. destruct Hs as [S1 S2 (S3 & S3' & S3'') (S4 & S4' & S4'') (S5 & S5' & S5'') S6 S7 S8].
  pose proof (or_introl (ro_paging _ Hr) : flat c) as Hf. unfold disjoint_ranges in *.
  pose proof (bytes_at_mapped _ _ _ S1) as M1. pose proof (bytes_at_mapped _ _ _ S2) as M2.
  rewrite length_replicate in M1, M2.
  assert (N1 : mapped m (sy_mb_boot_info sy) (Z.of_nat 4)) by (eapply mapped_sub; [exact M1|lia|lia]).
  assert (A1 : apart sy (sy_mb_boot_info sy) (Z.of_nat 4)) by (eapply apart_sub; [exact S3''|lia|lia]).
  assert (A2 : apart sy (sy_mb_magic sy) (Z.of_nat 4)) by (eapply apart_sub; [exact S4''|lia|lia]).
  set (m1 := write_bytes m (sy_mb_boot_info sy) (le_bytes 4 (u32 (rbx c)))).
  assert (Hi1 : image_ok sy m1) by (apply image_write; [done|]; by rewrite length_le_bytes).
  assert (N2 : mapped m1 (sy_mb_magic sy) (Z.of_nat 4)).
  { apply mapped_write; [by rewrite length_le_bytes|]. eapply mapped_sub; [exact M2|lia|lia]. }
  assert (B2 : bytes_at m1 (sy_mb_magic sy) (replicate 8 0)).
  { apply bytes_at_write_other; [|done]. rewrite length_le_bytes, length_replicate. unfold disjoint_ranges. lia. }
  assert (Euu : forall x, u32 (u32 x) = u32 x) by (intros; mach).
  change (entry_mem c m) with (write_bytes m1 (sy_mb_magic sy) (le_bytes 4 (u32 (rax c)))).
  split; [|split; [|split; [|split]]].
  - one. { cbn [exec1]. rewrite lstore_flat by (done || lia). reflexivity. }
    one. { cbn [exec1]. rewrite lstore_flat by (done || lia). reflexivity. }
    one. { cbn [exec1]. rewrite u32_small by (change (2 ^ 32) with 4294967296 in S5; lia). reflexivity. }
    reflexivity.
  - apply image_write; [done|]. by rewrite length_le_bytes.
  - split; [done|]. split; [done|]. do 2 (apply mapped_write; [by rewrite length_le_bytes|]). done.
  - rewrite load_store_le_other by lia. unfold m1. by rewrite load64_low, Euu.
  - by rewrite load64_low, Euu.
Qed.

(** What C code relies on: 64-bit code in the kernel's segment, consistent
    modes, the return address on the stack, and the first 4 GiB mapped to
    themselves. *)
Record c_ready (c : x86) (m : mem) (ret : label) : Prop := {
  cy_size : code_size c = Size64;
  cy_cs : read_cs c = KERNEL_CS;
  cy_modes : modes_ok c;
  cy_paging : paging c = true;
  cy_return : load64 m (rsp c) = Ok (u64 (sy_address sy ret));
  cy_identity : forall va, 0 <= va < 2 ^ 32 -> translate m (cr3 c) va = Ok (Some va);
}.

Lemma in64_ready c c1 m sp ret :
  in64 c c1 -> image_ok sy m -> room m sp 8 ->
  c_ready (set_reg c1 RSP (sp - 8)) (write_bytes m (sp - 8) (le_bytes 8 (sy_address sy ret))) ret.
Proof.
  intros [H1 H2 H3 H4 H5 H6 H7 H8] Hi (_ & Hr & _). split.
  - exact H4.
  - unfold read_cs. xfields. by rewrite H3.
  - by destruct H8.
  - exact H5.
  - exact (load_store_le_same 8 m (sp - 8) (sy_address sy ret)).
  - intros va Hva. xfields. rewrite H7. apply identity_at; [|done]. apply image_write; [done|]. by rewrite length_le_bytes.
Qed.

Lemma room_sub m sp n k : room m sp n -> 0 <= k <= n -> room m sp k.
Proof.
  intros (H1 & H2 & H3) Hk. split; [lia|]. split; [eapply apart_sub; [exact H2|lia|lia]|eapply mapped_sub; [exact H3|lia|lia]].
Qed.

(** The stack after the call of [prepare_64] has returned. *)
Lemma room_write m sp v : room m sp 8 -> room (write_bytes m (sp - 4) (le_bytes 4 v)) sp 8.
Proof.
  intros (H1 & H2 & H3). split; [done|]. split; [done|]. apply mapped_write; [|done]. rewrite length_le_bytes.
  eapply mapped_sub; [exact H3|lia|lia].
Qed.

Lemma entry_run f c m :
  image_ok sy m -> start_ok m -> reset_ok c -> seg_l c = false -> seg_d c = true ->
  exists c' m', run_from sy cr4_bits (25 + f) c m Entry = Ok (c', m', Some Main) /\ c_ready c' m' MainRet /\
    rdi c' = u32 (rbx c) /\ rsi c' = u32 (rax c) /\ rsp c' = sy_stacktop sy - 8 /\
    forall x, ~ scratch x -> m' !! x = m !! x.
Proof.
  intros Hi Hs Hr Hl Hd. destruct (entry_stores c m Hi Hs Hr Hl Hd) as (E1 & Hi1 & Hr1 & L1 & L2).
  destruct Hs as [_ _ (B1 & B1' & _) (B2 & B2' & _) _ _ D1 D2]. unfold disjoint_ranges in D1, D2.
  set (m1 := entry_mem c m) in *. set (c1 := set_reg c RSP (sy_stacktop sy)) in *.
  destruct (through_prepare c1 m1 EntryRet Start64 (start64 sy) (or_introl (conj eq_refl (conj eq_refl eq_refl)))
              Hi1 (reset_ok_rsp _ _ Hr) Hl Hd (room_sub _ _ 8 4 Hr1 ltac:(lia))) as (c2 & H6 & Hrun).
  pose proof (room_write _ _ (sy_address sy EntryRet) Hr1) as Hr2.
  change (rsp c1) with (sy_stacktop sy) in Hrun.
  set (m2 := write_bytes m1 _ _) in *.
  assert (Hi2 : image_ok sy m2).
  { apply image_write; [done|]. rewrite length_le_bytes. apply (room_sub _ _ 8 4 Hr1). lia. }
  assert (L : forall a v, a + 8 <= sy_stacktop sy - 8 \/ sy_stacktop sy - 8 + 8 <= a -> load_le 8 m1 a = Ok v -> load_le 8 m2 a = Ok v).
  { intros a v Ha <-. apply load_store_le_other. lia. }
  destruct (start64_run f c1 c2 m2 _ _ H6 Hi2 Hr2 (conj B1 B1') (L _ _ D1 L1) (conj B2 B2') (L _ _ D2 L2)) as (c3 & H63 & Hrun3).
  eexists _, _. split.
  - unfold run_from. cbn [block].
    etransitivity; [exact (run_straight (22 + f) c m Size32 (take 3 (entry sy)) [Call Prepare64 EntryRet] c1 m1 E1)|].
    etransitivity; [exact (Hrun (5 + f)%nat)|]. exact Hrun3.
  - split; [by eapply in64_ready|]. xfields. destruct (i6_regs _ _ H63) as (_ & _ & Esi & Edi & _). rewrite Esi, Edi.
    split; [done|]. split; [done|]. split; [done|]. intros x Hx. unfold scratch in Hx.
    change (rsp c1) with (sy_stacktop sy). unfold m2, m1, entry_mem.
    rewrite !write_bytes_out by (rewrite length_le_bytes; lia). done.
Qed.

(** ** From the STARTUP to [mpenter] *)

(** What the entry code of the other processors finds: the descriptor table
    that its copy at address 0 names, and the word [smp_stacktop] with a stack
    below [top]. *)
Record ap_ok (m : mem) (top : Z) : Prop := {
  ao_limit : load16 m (sy_gdt32_descr sy) = Ok 23;
  ao_base : load32 m (sy_gdt32_descr sy + 2) = Ok (sy_gdt32 sy);
  ao_gdt : words_at m (sy_gdt32 sy) gdt32;
  ao_descr_range : 0 <= sy_gdt32_descr sy /\ sy_gdt32_descr sy + 6 <= 2 ^ 32;
  ao_gdt_range : 0 <= sy_gdt32 sy /\ sy_gdt32 sy + 24 <= 2 ^ 32;
  ao_top : load32 m (sy_smp_stacktop sy) = Ok top;
  ao_word : 0 <= sy_smp_stacktop sy /\ sy_smp_stacktop sy + 4 <= 2 ^ 32 /\ apart sy (sy_smp_stacktop sy) 4;
  ao_stack : room m top 8;
  ao_apart : disjoint_ranges (sy_smp_stacktop sy) 4 (top - 8) 8;
}.

(** PE is set, LMA stays clear. *)
Lemma protect c :
  reset_ok c -> seg_l c = false ->
  exists c', write_cr0 c (Z.lor (cr0 c) 1) = Some c' /\ reset_ok c' /\ rax c' = rax c /\ rsp c' = rsp c /\ seg_l c' = seg_l c /\
    seg_d c' = seg_d c /\ seg_cs c' = seg_cs c /\ sregs c' = sregs c /\ eflags c' = eflags c.
Proof.
  intros [R1 R2 R3 R4 R5 R6] Hl. rewrite <- (Z.setbit_spec' (cr0 c) 0 : _ = Z.lor (cr0 c) 1).
  assert (Hp : bit (Z.setbit (cr0 c) 0) CR0_PG = false) by (rewrite bit_set by done; rewrite orb_false_r; exact R1).
  unfold write_cr0. rewrite (high_zero _ 32) by (lia || (apply setbit_range; lia)). rewrite Hp, R2. cbn [Z.eqb negb andb].
  rewrite !bit_set by done. cbn [Z.eqb Pos.eqb]. rewrite !orb_false_r.
  assert (Hn : bit (cr0 c) CR0_NW && negb (bit (cr0 c) CR0_CD) = false).
  { destruct (bit (cr0 c) CR0_NW); [rewrite R4 by done|]; done. }
  rewrite Hn. eexists. split; [reflexivity|]. split; [|done].
  assert (Ee : put (efer c) EFER_LMA false = efer c).
  { unfold put. apply Z.bits_inj'. intros k Hk. rewrite Z.clearbit_eqb. destruct (Z.eqb_spec EFER_LMA k) as [<-|]; cbn [negb].
    - rewrite andb_false_r. symmetry. exact R2.
    - by rewrite andb_true_r. }
  rewrite Ee.
  assert (Es : efer (set_crs (set_msrs c (<[MSR_EFER:=efer c]> (msrs c))) (Z.setbit (Z.setbit (cr0 c) 0) CR0_ET) (cr2 c) (cr3 c) (cr4 c) (cr8 c)) = efer c).
  { unfold efer at 1. xfields. by rewrite lookup_insert_eq. }
  split.
  - unfold paging. xfields. rewrite !bit_set by done. rewrite !orb_false_r. exact R1.
  - exact (eq_trans (f_equal (fun v => bit v EFER_LMA) Es) R2).
  - xfields. apply setbit_range; [apply setbit_range; [done|lia]|unfold CR0_ET; lia].
  - xfields. rewrite !bit_set by done. rewrite !orb_false_r. exact R4.
  - exact R5.
  - exact (eq_ind_r (fun v => 0 <= v < 2 ^ 32 /\ Z.land v (Z.lnot efer_bits) = 0) R6 Es).
Qed.

(** A descriptor of [gdt32]. *)
Lemma fetch32 c m top sel w :
  image_ok sy m -> ap_ok m top -> paging c = false -> gdtr c = (sy_gdt32 sy, 23) ->
  (sel = 8 /\ w = 0x00cf9b000000ffff \/ sel = 16 /\ w = 0x00cf93000000ffff) ->
  fetch c m sel = Ok (segdesc_of w).
Proof.
  intros Hi Ha Hp Hg Hs. unfold fetch. rewrite Hg. cbn [fst snd]. destruct (ao_gdt_range _ _ Ha) as [B1 B2].
  pose proof (or_introl Hp : flat c) as Hf.
  destruct Hs as [[-> ->]|[-> ->]].
  - change ((8 mod 8 =? 0) && (8 + 7 <=? 23)) with true. cbn iota. rewrite lload_flat by (done || lia).
    rewrite (words_at_lookup m _ _ 1 _ (ao_gdt _ _ Ha) eq_refl : load_le 8 m (sy_gdt32 sy + 8) = _). reflexivity.
  - change ((16 mod 8 =? 0) && (16 + 7 <=? 23)) with true. cbn iota. rewrite lload_flat by (done || lia).
    rewrite (words_at_lookup m _ _ 2 _ (ao_gdt _ _ Ha) eq_refl : load_le 8 m (sy_gdt32 sy + 16) = _). reflexivity.
Qed.

Lemma load_seg_ok c m top i :
  image_ok sy m -> ap_ok m top -> paging c = false -> gdtr c = (sy_gdt32 sy, 23) ->
  load_seg c m i 16 = Ok (set_sregs c (<[i := 16]> (sregs c))).
Proof.
  intros Hi Ha Hp Hg. unfold load_seg. rewrite (fetch32 c m top 16 0x00cf93000000ffff) by tauto. reflexivity.
Qed.

Lemma code_size_16 c : seg_l c = false -> seg_d c = false -> code_size c = Size16.
Proof. intros Hl Hd. unfold code_size. by rewrite Hl, Hd, andb_false_r. Qed.

(** The 16-bit code. *)
Lemma sipi_run c m top :
  image_ok sy m -> ap_ok m top -> reset_ok c -> seg_l c = false -> seg_d c = false ->
  exists c', reset_ok c' /\ gdtr c' = (sy_gdt32 sy, 23) /\ seg_l c' = false /\ seg_d c' = true /\ sregs c' = sregs c /\
    eflags c' = eflags c /\
    forall f, run_from sy cr4_bits (5 + f) c m SipiEntry = run sy cr4_bits f c' m Size32 (ap_start32 sy).
Proof.
  intros Hi Ha Hr Hl Hd. destruct (ao_descr_range _ _ Ha) as [B1 B2]. pose proof (ro_cr0 _ Hr) as H0.
  destruct (protect (set_reg c RAX (Z.lor (cr0 c) 1))) as (c1 & W & R1 & E1 & E2 & E3 & E4 & E5 & E6 & E7).
  { by destruct Hr. }
  { done. }
  assert (Hf1 : flat c1) by (left; apply R1).
  set (c2 := set_gdtr c1 (sy_gdt32 sy, 23)).
  assert (Hj : far_jump c2 m 8 = Ok (set_code c2 8 true false)).
  { unfold far_jump. rewrite (fetch32 c2 m top 8 0x00cf9b000000ffff) by (done || apply R1 || tauto). mret.
    change (seg_code (segdesc_of 0x00cf9b000000ffff)) with true. change (sd_rsv1 (segdesc_of 0x00cf9b000000ffff) =? 0) with true.
    change (sd_db (segdesc_of 0x00cf9b000000ffff) =? 0) with false. cbn [negb andb]. rewrite andb_false_r. reflexivity. }
  assert (Hs : straight c m Size16 (take 4 (sipi_entry sy)) = Ok (c2, m)).
  { eapply straight_cons; [by apply code_size_16|reflexivity|].
    eapply straight_cons; [by apply code_size_16|reflexivity|].
    eapply straight_cons; [by apply code_size_16| |].
    { cbn [exec1]. unfold read_cr0. xfields. rewrite !(u32_small (cr0 c)) by lia.
      rewrite u32_small.
      - exact (f_equal (fun o => c ← fault o; Ok (c, m)) W).
      - rewrite <- (Z.setbit_spec' (cr0 c) 0 : _ = Z.lor (cr0 c) 1). apply (setbit_range _ 0 32); lia. }
    eapply straight_cons; [by apply code_size_16; [rewrite E3|rewrite E4]| |].
    { cbn [exec1]. rewrite !lload_flat by (done || lia). rewrite (ao_limit _ _ Ha : load_le 2 m _ = _). mret.
      rewrite (ao_base _ _ Ha : load_le 4 m _ = _). reflexivity. }
    reflexivity. }
  exists (set_code c2 8 true false). repeat (split; [done || by destruct R1|]). intros f. unfold run_from. cbn [block].
  etransitivity; [exact (run_straight (S f) c m Size16 (take 4 (sipi_entry sy)) [Ljmp 8 ApStart32] c2 m Hs)|].
  rewrite (run_ljmp f c2 m Size16 8 ApStart32 [] _ (code_size_16 c2 (eq_trans E3 Hl) (eq_trans E4 Hd)) Hj). reflexivity.
Qed.

(** The 32-bit code up to the call: the data segments, then the stack. *)
Lemma ap_start32_segs c m top :
  image_ok sy m -> ap_ok m top -> reset_ok c -> seg_l c = false -> seg_d c = true -> gdtr c = (sy_gdt32 sy, 23) ->
  length (sregs c) = 5%nat ->
  exists a, straight c m Size32 (take 6 (ap_start32 sy)) = Ok (set_sregs (set_reg c RAX a) (replicate 5 16), m).
Proof.
  intros Hi Ha Hr Hl Hd Hg Hn. destruct (sregs c) as [|s0 [|s1 [|s2 [|s3 [|s4 [|]]]]]] eqn:Es; try done.
  set (a := rax c - rax c mod 65536 + 16). exists a. assert (Eu : u16 a = 16) by (subst a; mach).
  assert (Hseg : forall l i, exec1 cr4_bits (set_sregs (set_reg c RAX a) l) m (MovSeg i) =
    Ok (set_sregs (set_reg c RAX a) (<[i := 16]> l), m)).
  { intros l i. cbn [exec1]. xfields. rewrite Eu. rewrite (load_seg_ok _ m top) by (done || apply Hr). reflexivity. }
  one. { reflexivity. }
  change (rax c - rax c mod 65536 + u16 16) with a.
  replace (set_reg c RAX a) with (set_sregs (set_reg c RAX a) [s0; s1; s2; s3; s4]) at 1.
  2: { rewrite <- Es. destruct c; reflexivity. }
  do 5 (one; [apply Hseg|]). reflexivity.
Qed.

Lemma ap_start32_stack c m top :
  image_ok sy m -> ap_ok m top -> reset_ok c -> seg_l c = false -> seg_d c = true ->
  let m' := write_bytes m (sy_smp_stacktop sy) (le_bytes 4 (u32 (top - 4096))) in
  straight c m Size32 [MovI RSP (-4096); Xadd RSP (sy_smp_stacktop sy)] = Ok (set_reg c RSP top, m') /\
  image_ok sy m' /\ room m' top 8 /\ load_le 4 m' (sy_smp_stacktop sy) = Ok (u32 (top - 4096)).
Proof.
  intros Hi Ha Hr Hl Hd m'. destruct (ao_word _ _ Ha) as (B1 & B2 & B3). destruct (ao_stack _ _ Ha) as (S1 & S2 & S3).
  pose proof (or_introl (ro_paging _ Hr) : flat c) as Hf.
  assert (Hm : mapped m (sy_smp_stacktop sy) (Z.of_nat 4)).
  { eapply load_le_mapped. exact (ao_top _ _ Ha). }
  split; [|split; [|split]].
  - one. { reflexivity. }
    one. { cbn [exec1]. rewrite !lload_flat by (done || lia). rewrite (ao_top _ _ Ha : load_le 4 m _ = _). mret.
      rewrite lstore_flat by (done || lia). reflexivity. }
    cbn [straight]. xfields. change (u32 (u32 (-4096))) with 4294963200.
    assert (E : u32 (top + 4294963200) = u32 (top - 4096)) by mach. rewrite E. reflexivity.
  - apply image_write; [done|]. by rewrite length_le_bytes.
  - split; [done|]. split; [done|]. apply mapped_write; [by rewrite length_le_bytes|done].
  - subst m'. apply write_load. change (2 ^ 32) with 4294967296. mach.
Qed.

Lemma ap_run f c m top :
  image_ok sy m -> ap_ok m top -> reset_ok c -> seg_l c = false -> seg_d c = false -> length (sregs c) = 5%nat ->
  exists c' m', run_from sy cr4_bits (31 + f) c m SipiEntry = Ok (c', m', Some Mpenter) /\ c_ready c' m' MpenterRet /\
    rsp c' = top - 8 /\ sregs c' = replicate 5 KERNEL_DS /\ eflags c' = eflags c /\
    load32 m' (sy_smp_stacktop sy) = Ok (u32 (top - 4096)) /\ same_dom m m' /\ image_ok sy m' /\ cr3 c' = sy_ptl4 sy /\
    forall x, ~ (sy_smp_stacktop sy <= x < sy_smp_stacktop sy + 4 \/ top - 8 <= x < top) -> m' !! x = m !! x.
Proof.
  intros Hi Ha Hr Hl Hd Hn.
  destruct (sipi_run c m top Hi Ha Hr Hl Hd) as (c1 & R1 & G1 & L1 & D1 & E1 & F1 & Hrun1). rewrite <- E1 in Hn.
  destruct (ap_start32_segs c1 m top Hi Ha R1 L1 D1 G1 Hn) as (a & Hs1). set (c2 := set_sregs _ _) in Hs1.
  assert (R2 : reset_ok c2) by (by destruct R1).
  destruct (ap_start32_stack c2 m top Hi Ha R2 L1 D1) as (Hs2 & Hi3 & Hm3 & Hw3).
  set (m3 := write_bytes m _ _) in *. set (c3 := set_reg c2 RSP top) in *.
  destruct (through_prepare c3 m3 ApRet ApStart64 ap_start64 (or_intror (conj eq_refl (conj eq_refl eq_refl)))
              Hi3 (reset_ok_rsp _ _ R2) L1 D1 (room_sub _ _ 8 4 Hm3 ltac:(lia))) as (c4 & H6 & Hrun4).
  change (rsp c3) with top in Hrun4. pose proof (room_write _ _ (sy_address sy ApRet) Hm3) as Hm4.
  pose proof (ao_apart _ _ Ha) as Hap. unfold disjoint_ranges in Hap.
  set (m4 := write_bytes m3 _ _) in *.
  assert (Hi4 : image_ok sy m4).
  { apply image_write; [done|]. rewrite length_le_bytes. apply (room_sub _ _ 8 4 Hm3). lia. }
  eexists _, _. split.
  - etransitivity; [exact (Hrun1 (26 + f)%nat)|].
    etransitivity; [exact (run_straight (18 + f) c1 m Size32 (take 8 (ap_start32 sy)) [Call Prepare64 ApRet] c3 m3
                             (eq_trans (straight_app _ _ _ _ _ _ _ Hs1) Hs2))|].
    etransitivity; [exact (Hrun4 (S f))|]. exact (call64 f c3 c4 m4 Mpenter MpenterRet H6 Hi4 eq_refl Hm4).
  - split; [by eapply in64_ready|]. split; [done|]. split; [exact (i6_sregs _ _ H6)|].
    split; [rewrite <- F1; apply H6|]. unfold load32. change (rsp c3) with top.
    split; [rewrite load_store_le_other by lia; unfold m4; rewrite load_store_le_other by lia; exact Hw3|].
    assert (Hw : mapped m (sy_smp_stacktop sy) (Z.of_nat 4)) by (eapply load_le_mapped; exact (ao_top _ _ Ha)).
    destruct Hm3 as (S1 & S2 & S3), Hm4 as (S4 & _ & S5). split; [|split].
    + etransitivity; [apply (write_bytes_dom m (sy_smp_stacktop sy) (le_bytes 4 (u32 (top - 4096)))); by rewrite length_le_bytes|].
      etransitivity; apply write_bytes_dom; rewrite length_le_bytes; [|exact S5].
      eapply mapped_sub; [exact S3|lia|lia].
    + apply image_write; [done|]. by rewrite length_le_bytes.
    + split; [apply H6|]. intros x Hx. unfold m4, m3. rewrite !write_bytes_out by (rewrite length_le_bytes; lia). done.
Qed.

End Proofs.

(** ** Claims *)

(** C4: the boot processor reaches [main]: started by the boot loader in
    32-bit protected mode without paging, with the image in place, the code
    from [entry] runs without a fault to the call of [main], which it enters
    in 64-bit mode, in the kernel's code segment, with consistent modes, the
    first 4 GiB mapped to themselves, the boot information's address and the
    magic number as its arguments, and its return address on top of
    [stacktop]; it has written nothing but the two words and that stack. *)
Theorem entry_reaches_main sy cr4_bits c m fuel :
  symbols_ok sy -> image_ok sy m -> start_ok sy m -> reset_ok cr4_bits c -> seg_l c = false -> seg_d c = true ->
  (25 <= fuel)%nat ->
  exists c' m', run_from sy cr4_bits fuel c m Entry = Ok (c', m', Some Main) /\ c_ready sy c' m' MainRet /\
    rdi c' = u32 (rbx c) /\ rsi c' = u32 (rax c) /\ rsp c' = sy_stacktop sy - 8 /\
    forall x, ~ scratch sy x -> m' !! x = m !! x.
Proof.
  intros Hsy Hi Hs Hr Hl Hd Hf. replace fuel with (25 + (fuel - 25))%nat by lia. by apply entry_run.
Qed.

(** The entry code implements the first step of a started processor: from
    the STARTUP in real mode, with [smp_stacktop] as the machine of the start
    sequence has it, it runs without a fault to the call of [mpenter] in 64-bit
    mode, the data segments loaded and the first 4 GiB mapped to themselves; the
    stack that it took and the word that it left are those of the step that
    [mpenter] makes there, and interrupts are as they were. *)
Theorem ap_entry_refines sy cr4_bits c m fuel tab boot_idt ecx st a answers :
  symbols_ok sy -> image_ok sy m -> ap_ok sy m (b_stacktop st) -> reset_ok cr4_bits c -> seg_l c = false ->
  seg_d c = false -> length (sregs c) = 5%nat -> (31 <= fuel)%nat -> b_aps st !! a = Some Entered ->
  exists c' m' st', run_from sy cr4_bits fuel c m SipiEntry = Ok (c', m', Some Mpenter) /\
    mpenter tab boot_idt ecx st a answers = Ok st' /\ b_aps st' !! a = Some (InMpenter (rsp c' + 8)) /\
    load32 m' (sy_smp_stacktop sy) = Ok (b_stacktop st') /\ c_ready sy c' m' MpenterRet /\
    sregs c' = replicate 5 KERNEL_DS /\ eflags c' = eflags c.
Proof.
  intros Hsy Hi Ha Hr Hl Hd Hn Hf He. replace fuel with (31 + (fuel - 31))%nat by lia.
  destruct (ap_run sy cr4_bits Hsy (fuel - 31) c m _ Hi Ha Hr Hl Hd Hn) as (c' & m' & H1 & H2 & H3 & H4 & H5 & H6 & _).
  exists c', m'. eexists. split; [exact H1|]. unfold mpenter. rewrite He. split; [reflexivity|].
  split; [|done]. cbn [b_aps set_stacktop set_ap]. rewrite lookup_insert_eq. do 2 f_equal. lia.
Qed.

(** C34: the selectors of desc.h in the table that the entry code loads: once
    the GDTR has it, a far jump in ring 0 succeeds exactly with the selectors
    that the comment of desc.h lists as present code segments of ring 0, and
    goes on in code of the size it says; every other selector faults, those of
    the not-present segment, of data, of ring 3 and of the spare entries among
    them, and the one of the task state segment that the comment has at 0x80. *)
Theorem far_jumps sy c m sel :
  symbols_ok sy -> image_ok sy m -> flat sy c -> long_active c = true -> gdtr c = (sy_gdt64 sy, 127) -> 0 <= sel < 65536 ->
  match code_selector sel with
  | Some sz => exists c', far_jump c m sel = Ok c' /\ code_size c' = sz /\ seg_cs c' = sel /\
      c' = set_code c sel (seg_d c') (seg_l c')
  | None => far_jump c m sel = Err Fault
  end /\ far_jump c m TSS_MAIN = Err Fault.
Proof.
  intros Hsy Hi Hf Hl Hg Hs. split; [|by rewrite (far_jump64 sy Hsy) by done].
  rewrite (far_jump64 sy Hsy) by (done || lia). destruct (code_selector sel) as [sz|]; [|done].
  eexists. split; [reflexivity|]. split; [|done]. unfold code_size. change (long_active (set_code _ _ _ _)) with (long_active c).
  rewrite Hl. by destruct sz.
Qed.

(** ** Witnesses *)

Lemma words_at_write m a ws :
  Forall word_ok ws -> words_at (write_bytes m a (concat (le_bytes 8 <$> ws))) a ws.
Proof.
  revert a. induction ws as [|w ws IH]; intros a Hw; [done|]. apply Forall_cons in Hw as [Hw1 Hw].
  rewrite fmap_cons. cbn [concat words_at]. rewrite write_bytes_app, length_le_bytes. split; [by apply load64_same|].
  eapply words_at_frame; [|by apply (IH (a + 8))]. intros x Hx. apply write64_out. lia.
Qed.

Lemma ptl2_words : Forall word_ok ptl2.
Proof.
  apply Forall_forall. intros w (i & -> & Hi)%list_elem_of_fmap. apply elem_of_seq in Hi.
  rewrite Z.shiftl_mul_pow2, Z.lor_comm by lia. rewrite (lor_disjoint _ 0x1e7 21); [|by rewrite Z.mod_mul|lia|lia].
  unfold word_ok. change (2 ^ 64) with 18446744073709551616. change (2 ^ 21) with 2097152. lia.
Qed.

Definition demo_symbols : symbols :=
  mkSymbols (fun l => match l with EntryRet => 0x100030 | MainRet => 0x100090 | ApRet => 0x1000f6 | MpenterRet => 0x100102
                      | ApStart32 => 0x1000d6 | _ => 0x100000 end)
    0x207008 0x207010 0x300000 0x10009c 0x207000 0x208000 0x20800a 0x18 0x1000be 0x200000 0x204000 0x205000.

(** The assembled bytes from [sipi_entry], at 0x1000a0, to [sipi_end]. *)
Definition demo_bytes : list Z :=
  [0x0f; 0x20; 0xc0; 0x66; 0x83; 0xc8; 0x01; 0x0f; 0x22; 0xc0; 0x66; 0x0f; 0x01; 0x16; 0x18; 0x00; 0x66; 0xea; 0xd6; 0x00; 0x10; 0x00; 0x08; 0x00] ++
  le_bytes 2 23 ++ le_bytes 4 0x1000be ++ concat (le_bytes 8 <$> gdt32).

(** Everything but the table of level 2. *)
Definition demo_small (top : Z) : mem :=
  foldl (fun m r => write_bytes m r.1 r.2) ∅
    [(0x204000, concat (le_bytes 8 <$> ptl3 demo_symbols)); (0x205000, concat (le_bytes 8 <$> ptl4 demo_symbols));
     (0x207000, le_bytes 8 0x205000); (0x207008, replicate 16 0); (0x208000, le_bytes 2 127 ++ le_bytes 8 0x20800a);
     (0x20800a, concat (le_bytes 8 <$> gdt64)); (0x2ffff8, replicate 8 0); (0x10009c, le_bytes 4 top);
     (0x1000a0, demo_bytes); (0, demo_bytes); (top - 8, replicate 8 0)].

Definition demo_image (top : Z) : mem := write_bytes (demo_small top) 0x200000 (concat (le_bytes 8 <$> ptl2)).

Lemma length_words ws : length (concat (le_bytes 8 <$> ws)) = (8 * length ws)%nat.
Proof.
  induction ws as [|w ws IH]; [done|]. rewrite fmap_cons. cbn [concat]. rewrite length_app, length_le_bytes, IH.
  cbn [length]. lia.
Qed.

Lemma demo_out top x : x < 0x200000 \/ 0x204000 <= x -> demo_image top !! x = demo_small top !! x.
Proof.
  intros Hx. assert (L : length ptl2 = 2048%nat) by (unfold ptl2; rewrite length_fmap, length_seq; done).
  unfold demo_image. apply write_bytes_out. rewrite length_words, L. lia.
Qed.

Lemma demo_words top a ws :
  a + 8 * Z.of_nat (length ws) <= 0x200000 \/ 0x204000 <= a -> words_at (demo_small top) a ws -> words_at (demo_image top) a ws.
Proof. intros Ha. apply words_at_frame. intros x Hx. apply demo_out. lia. Qed.

Lemma demo_load top n a v :
  a + Z.of_nat n <= 0x200000 \/ 0x204000 <= a -> load_le n (demo_small top) a = Ok v -> load_le n (demo_image top) a = Ok v.
Proof. intros Ha <-. apply load_le_frame. intros x Hx. apply demo_out. lia. Qed.

Lemma demo_mapped top a n : mapped (demo_small top) a n -> a + n <= 0x200000 \/ 0x204000 <= a -> mapped (demo_image top) a n.
Proof. intros H Ha x Hx. rewrite demo_out by lia. by apply H. Qed.

Lemma demo_symbols_ok : symbols_ok demo_symbols.
Proof. split; try done. repeat (apply Forall_cons; split; [cbn; lia|]). done. Qed.

Lemma demo_image_ok : image_ok demo_symbols (demo_image 0xa0000).
Proof.
  split.
  - change (sy_ptl2 demo_symbols) with 0x200000. unfold demo_image.
    exact (words_at_write (demo_small 0xa0000) 0x200000 ptl2 ptl2_words).
  - apply demo_words; [right; cbn; lia|]. repeat split; vm_compute; reflexivity.
  - apply demo_words; [right; cbn; lia|]. repeat split; vm_compute; reflexivity.
  - apply (demo_load _ 4); [right; cbn; lia|]. vm_compute. reflexivity.
  - apply (demo_load _ 2); [right; cbn; lia|]. vm_compute. reflexivity.
  - apply (demo_load _ 4); [right; cbn; lia|]. vm_compute. reflexivity.
  - apply demo_words; [right; cbn; lia|]. repeat split; vm_compute; reflexivity.
Qed.

Lemma demo_apart a n : a + n <= 0x200000 \/ 0x208090 <= a -> apart demo_symbols a n.
Proof. intros H. repeat (apply Forall_cons; split; [unfold disjoint_ranges; cbn; lia|]). done. Qed.

Lemma demo_start_ok : start_ok demo_symbols (demo_image 0xa0000).
Proof.
  assert (Hb : forall a, a = 0x207008 \/ a = 0x207010 -> bytes_at (demo_image 0xa0000) a (replicate 8 0)).
  { intros a Ha. eapply bytes_at_frame; [intros x Hx; apply demo_out; destruct Ha; cbn in Hx; lia|].
    apply bytes_at_b_spec. destruct Ha as [-> | ->]; vm_compute; reflexivity. }
  split.
  - apply Hb. by left.
  - apply Hb. by right.
  - cbn. split; [lia|]. split; [lia|]. unfold apart, image_ranges. repeat (apply Forall_cons; split; [unfold disjoint_ranges; cbn; lia|]). done.
  - cbn. split; [lia|]. split; [lia|]. unfold apart, image_ranges. repeat (apply Forall_cons; split; [unfold disjoint_ranges; cbn; lia|]). done.
  - split; [cbn; lia|]. split; [apply demo_apart; cbn; lia|].
    apply demo_mapped; [|cbn; lia]. apply mapped_b_spec. vm_compute. reflexivity.
  - unfold disjoint_ranges. cbn. lia.
  - unfold disjoint_ranges. cbn. lia.
  - unfold disjoint_ranges. cbn. lia.
Qed.

Lemma demo_ap_ok : ap_ok demo_symbols (demo_image 0xa0000) 0xa0000.
Proof.
  split.
  - apply (demo_load _ 2); [cbn; lia|]. vm_compute. reflexivity.
  - apply (demo_load _ 4); [cbn; lia|]. vm_compute. reflexivity.
  - apply demo_words; [cbn; lia|]. repeat split; vm_compute; reflexivity.
  - cbn. lia.
  - cbn. lia.
  - apply (demo_load _ 4); [cbn; lia|]. vm_compute. reflexivity.
  - cbn. split; [lia|]. split; [lia|]. apply demo_apart. lia.
  - split; [lia|]. split; [apply demo_apart; lia|].
    apply demo_mapped; [|lia]. apply mapped_b_spec. vm_compute. reflexivity.
  - unfold disjoint_ranges. cbn. lia.
Qed.

(** The boot processor as the boot loader leaves it, and a processor after
    INIT. *)
Definition demo_bsp : x86 := mkX86 0x2badb002 0x9500 0 0 0 0 0 17 0 0 0 0 2 ∅ 16 true false [24; 24; 24; 24; 24] (0, 0).
Definition demo_ap : x86 := mkX86 0 0 0 0 0 0 0 0x60000010 0 0 0 0 2 ∅ 0 false false [0; 0; 0; 0; 0] (0, 65535).

Lemma demo_reset : reset_ok 0x6f0 demo_bsp /\ reset_ok 0x6f0 demo_ap.
Proof. split; (split; [reflexivity|reflexivity|vm_compute; split; congruence|done|vm_compute; repeat split; congruence..]). Qed.

Lemma entry_reaches_main_witness :
  exists c' m', run_from demo_symbols 0x6f0 25 demo_bsp (demo_image 0xa0000) Entry = Ok (c', m', Some Main) /\
    rdi c' = 0x9500 /\ rsi c' = 0x2badb002 /\ rsp c' = 0x2ffff8 /\ code_size c' = Size64.
Proof.
  destruct (entry_reaches_main demo_symbols 0x6f0 demo_bsp (demo_image 0xa0000) 25 demo_symbols_ok demo_image_ok demo_start_ok
              (proj1 demo_reset) eq_refl eq_refl (le_n 25)) as (c' & m' & H1 & H2 & H3 & H4 & H5 & _).
  exists c', m'. split; [exact H1|]. split; [exact H3|]. split; [exact H4|]. split; [exact H5|]. exact (cy_size _ _ _ _ H2).
Defined.

(** The machine of the start sequence when processor 1 has been released. *)
Definition demo_boot_state : boot :=
  mkBoot (BWait 1) (replicate 64 0) {[1 := Entered]} ∅ 0xa0000 xapic_ops ∅ (mkSerial 0 0 (mkIo [] [])).

Lemma ap_entry_refines_witness :
  exists c' m' st', run_from demo_symbols 0x6f0 31 demo_ap (demo_image 0xa0000) SipiEntry = Ok (c', m', Some Mpenter) /\
    b_aps st' !! 1 = Some (InMpenter (rsp c' + 8)) /\ load32 m' 0x10009c = Ok (b_stacktop st').
Proof.
  destruct (ap_entry_refines demo_symbols 0x6f0 demo_ap (demo_image 0xa0000) 31 (mkMp (replicate 64 0) 2 0 0) 0 0 demo_boot_state 1 []
              demo_symbols_ok demo_image_ok demo_ap_ok (proj2 demo_reset) eq_refl eq_refl eq_refl (le_n 31) eq_refl)
    as (c' & m' & st' & H1 & _ & H3 & H4 & _).
  exists c', m', st'. split; [exact H1|]. split; [exact H3|exact H4].
Defined.

(** The boot processor in 64-bit mode. *)
Definition demo_long : x86 :=
  mkX86 0 0 0 0 0 0 0 0x80000011 0 0x205000 0x20 0 2 {[MSR_EFER := 0x500]} 8 false true [16; 16; 16; 16; 16] (sy_gdt64 demo_symbols, 127).

Lemma far_jumps_witness :
  (exists c', far_jump demo_long (demo_image 0xa0000) KERNEL_CS32 = Ok c' /\ code_size c' = Size32) /\
  far_jump demo_long (demo_image 0xa0000) USER_CS64 = Err Fault.
Proof.
  assert (Hf : flat demo_symbols demo_long) by (right; split; [reflexivity|]; split; reflexivity).
  split.
  - destruct (far_jumps demo_symbols demo_long (demo_image 0xa0000) KERNEL_CS32 demo_symbols_ok demo_image_ok Hf eq_refl eq_refl
      ltac:(unfold KERNEL_CS32; lia)) as [(c' & H1 & H2 & _) _]. exists c'. split; [exact H1|exact H2].
  - exact (proj1 (far_jumps demo_symbols demo_long (demo_image 0xa0000) USER_CS64 demo_symbols_ok demo_image_ok Hf eq_refl eq_refl
      ltac:(unfold USER_CS64; lia))).
Defined.
