(* ===== verification/Start.v ===== *)
(** * The start of the other processors, one instruction at a time

    Boot has a started processor take its stack in one step. Here it runs the
    entry code of cstart.S (Cstart) from the copy at address 0, one instruction
    at a time and interleaved with the boot processor and with the processors
    already up, on one memory that holds the code, the tables, the word
    [smp_stacktop] and the stacks. The claim is that this machine implements
    that of Boot. *)

From stdpp Require Import base gmap list numbers strings.
From Stdlib Require Import ZArith Lia.
From S2P Require Import Prelude Mem CString Printf Serial Stdio Heap PageTable Mp Desc Apic Boot Segment Cpu Cstart.

#[local] Open Scope Z_scope.

(** ** One instruction *)

(** Where a processor is in the code: before the instructions of a block, at
    a label that is C code, or after the last block. *)
Inductive point := Code (sz : seg_size) (code : list ins) | Outside (l : option label).

Section Step.

Context (sy : symbols) (cr4_bits : Z).

Definition point_of (l : label) : point :=
  match block sy l with Some (sz, code) => Code sz code | None => Outside (Some l) end.

Definition step1 (c : x86) (m : mem) (sz : seg_size) (code : list ins) : res (x86 * mem * point) :=
  match code with
  | [] => Ok (c, m, Outside None)
  | i :: rest =>
      if decide (code_size c = sz) then
        match i with
        | Call target ret => '(c, m) ← push sz c m (sy_address sy ret); Ok (c, m, point_of target)
        | Ret => '(c, a) ← pop sz c m; l ← of_option Undef (return_to sy a); Ok (c, m, point_of l)
        | Ljmp sel target => c ← far_jump c m sel; Ok (c, m, point_of target)
        | _ => '(c, m) ← exec1 cr4_bits c m i; Ok (c, m, Code sz rest)
        end
      else Err Undef
  end.

(** [run] is these steps. *)
Lemma run_step1 f c m sz code :
  run sy cr4_bits (S f) c m sz code =
  ('(c, m, p) ← step1 c m sz code;
   match p with Code sz code => run sy cr4_bits f c m sz code | Outside o => Ok (c, m, o) end).
Proof.
  destruct code as [|i rest]; [reflexivity|]. cbn [run step1]. destruct (decide (code_size c = sz)); [|reflexivity].
  assert (Hgo : forall (c : x86) (m : mem) l,
    match block sy l with Some (sz, code) => run sy cr4_bits f c m sz code | None => Ok (c, m, Some l) end =
    match point_of l with Code sz code => run sy cr4_bits f c m sz code | Outside o => Ok (c, m, o) end).
  { intros c1 m1 l. unfold point_of. by destruct (block sy l) as [[]|]. }
  destruct i; try (by destruct (exec1 cr4_bits c m _) as [[]|]).
  - destruct (push sz c m _) as [[]|]; [|reflexivity]. mret. apply Hgo.
  - destruct (pop sz c m) as [[? a]|]; [|reflexivity]. mret. destruct (of_option Undef _); [|reflexivity]. mret. apply Hgo.
  - destruct (far_jump c m sel); [|reflexivity]. mret. apply Hgo.
Qed.

(** A run that gets somewhere takes its next step. *)
Lemma run_next f c m sz code r :
  run sy cr4_bits f c m sz code = Ok r ->
  exists f' c1 m1 p, f = S f' /\ step1 c m sz code = Ok (c1, m1, p) /\
    match p with Code sz code => run sy cr4_bits f' c1 m1 sz code = Ok r | Outside o => (c1, m1, o) = r end.
Proof.
  destruct f as [|f']; [discriminate|]. rewrite run_step1. intros H. apply res_bind_ok in H as ([[c1 m1] p] & H1 & H2).
  exists f', c1, m1, p. split; [done|]. split; [done|]. destruct p; [done|]. by injection H2.
Qed.

End Step.

(** ** The machine *)

(** A started processor in the entry code, and with the registers with which
    it has called [mpenter]. *)
Inductive core := InEntry (c : x86) (sz : seg_size) (code : list ins) | InC (c : x86).

(** The state of Boot, with one memory: the word [smp_stacktop] is in
    [b_mem], and [b_stacktop] is not used. *)
Record sys := mkSys { y_boot : boot; y_cores : gmap Z core }.

(** [st] with another memory and another word. *)
Definition see (st : boot) (top : Z) (m : mem) : boot :=
  mkBoot (b_pc st) (b_started st) (b_aps st) (b_idtr st) top (b_ops st) m (b_ser st).

Section Sys.

(** As in Boot; [entry_at] is the address of [sipi_entry] in the image, [bytes]
    its assembled bytes up to [sipi_end], and [reset] the registers that a
    processor has after INIT and STARTUP. *)
Context (sy : symbols) (cr4_bits : Z) (reset : Z -> x86).
Context (entry_at : Z) (bytes : list Z) (tab : mpstate) (me boot_idt ecx : Z).

(** The processor to which a step of [startothers] has sent an INIT. *)
Definition initialised (st st' : boot) : option Z :=
  match b_pc st, b_pc st' with BTest _, BWait k => cpus tab !! k | _, _ => None end.

(** A released processor begins at address 0, where the code must be. *)
Definition sys_step (y : sys) (x : bchoice) : res sys :=
  let st := y_boot y in
  match x with
  | Bsp answers =>
      st' ← startothers entry_at (Z.of_nat (length bytes)) tab me st answers;
      Ok (mkSys st' (match initialised st st' with Some a => delete a (y_cores y) | None => y_cores y end))
  | Ap a answers =>
      if decide (b_aps st !! a = Some Entered) then
        match y_cores y !! a with
        | None =>
            if bytes_at_b (b_mem st) 0 bytes then
              Ok (mkSys st (<[a := InEntry (reset a) Size16 (sipi_entry sy)]> (y_cores y)))
            else Err Undef
        | Some (InEntry c sz code) =>
            '(c, m, p) ← step1 sy cr4_bits c (b_mem st) sz code;
            match p with
            | Code sz code => Ok (mkSys (see st (b_stacktop st) m) (<[a := InEntry c sz code]> (y_cores y)))
            | Outside (Some Mpenter) =>
                Ok (mkSys (see (set_ap st a (InMpenter (rsp c + 8)) (b_ser st)) (b_stacktop st) m) (<[a := InC c]> (y_cores y)))
            | Outside _ => Err Undef
            end
        | Some (InC _) => Err Undef
        end
      else
        st' ← mpenter tab boot_idt ecx st a answers;
        Ok (mkSys st' (y_cores y))
  end.

Fixpoint sys_run (y : sys) (xs : list bchoice) : res sys :=
  match xs with
  | [] => Ok y
  | x :: xs' => y' ← sys_step y x; sys_run y' xs'
  end.

Definition sys_start (m : mem) (ser : serial) : sys := mkSys (bstart tab me m ser) ∅.

End Sys.

(** ** Memories that differ in places *)

(** [m] and [m'] are the same but for the contents of [P]. *)
Definition alike (P : Z -> Prop) (m m' : mem) : Prop := same_dom m m' /\ forall x, ~ P x -> m' !! x = m !! x.

Section Alike.

Context (P : Z -> Prop).

#[global] Instance alike_equiv : Equivalence (alike P).
Proof.
  split.
  - intros m. by split.
  - intros m m' [Hd Hx]. split; [by symmetry|]. intros x H. by rewrite Hx.
  - intros m1 m2 m3 [D1 X1] [D2 X2]. split; [by etransitivity|]. intros x H. by rewrite X2, X1.
Qed.

Lemma alike_insert m m' a v : alike P m m' -> alike P (<[a := v]> m) (<[a := v]> m').
Proof.
  intros [Hd Hx]. split.
  - intros x. destruct (decide (x = a)) as [->|Hn]; [by rewrite !lookup_insert_eq|]. by rewrite !lookup_insert_ne.
  - intros x H. destruct (decide (x = a)) as [->|Hn]; [by rewrite !lookup_insert_eq|]. rewrite !lookup_insert_ne by done. by apply Hx.
Qed.

Lemma alike_store n m m' a v m1 :
  alike P m m' -> store_le n m a v = Ok m1 -> exists m1', store_le n m' a v = Ok m1' /\ alike P m1 m1'.
Proof.
  revert m m' a v. induction n as [|n IH]; intros m m' a v Ha H; cbn [store_le] in *; [injection H as <-; by exists m'|].
  apply res_bind_ok in H as (m2 & Hs & H). unfold store8 in *. destruct (m !! a) as [w|] eqn:E; [|done]. injection Hs as <-.
  destruct (proj1 (proj1 Ha a) (ex_intro _ w E)) as [w' E']. rewrite E'. mret. apply (IH _ _ _ _ (alike_insert _ _ a (u8 v) Ha) H).
Qed.

Lemma alike_memcpy n m m' a b m1 :
  alike P m m' -> (forall x, b <= x < b + Z.of_nat n -> ~ P x) -> memcpy_loop n m a b = Ok m1 ->
  exists m1', memcpy_loop n m' a b = Ok m1' /\ alike P m1 m1'.
Proof.
  revert m m' a b. induction n as [|n IH]; intros m m' a b Ha HP H; cbn [memcpy_loop] in *; [injection H as <-; by exists m'|].
  apply res_bind_ok in H as (v & Hl & H). apply res_bind_ok in H as (m2 & Hs & H).
  unfold load8, store8 in *. rewrite (proj2 Ha b) by (apply HP; lia). destruct (m !! b) as [w|]; [|done]. injection Hl as <-. mret.
  destruct (m !! a) as [u|] eqn:E; [|done]. injection Hs as <-.
  destruct (proj1 (proj1 Ha a) (ex_intro _ u E)) as [u' E']. rewrite E'. mret.
  apply (IH _ _ _ _ (alike_insert _ _ a (u8 w) Ha)); [|done]. intros x Hx. apply HP. lia.
Qed.

Lemma alike_lapicstartap m m' s lapic apicid addr m1 s1 :
  alike P m m' -> lapicstartap m s lapic apicid addr = Ok (m1, s1) ->
  exists m1', lapicstartap m' s lapic apicid addr = Ok (m1', s1) /\ alike P m1 m1'.
Proof.
  intros Ha H. unfold lapicstartap in *. apply res_bind_ok in H as (m2 & H1 & H). apply res_bind_ok in H as (m3 & H2 & H).
  destruct (alike_store 2 _ _ _ _ _ Ha H1) as (m2' & H1' & Ha2). destruct (alike_store 2 _ _ _ _ _ Ha2 H2) as (m3' & H2' & Ha3).
  unfold store16. rewrite H1'. mret. rewrite H2'. mret.
  repeat (let s2 := fresh "s" in let E := fresh "E" in apply res_bind_ok in H as (s2 & E & H); rewrite E; mret).
  injection H as <- <-. by exists m3'.
Qed.

End Alike.

(** Where the boot processor writes. *)
Lemma store_le_out n m a v m1 x :
  store_le n m a v = Ok m1 -> x < a \/ a + Z.of_nat n <= x -> m1 !! x = m !! x.
Proof.
  revert m a v. induction n as [|n IH]; intros m a v H Hx; cbn [store_le] in H; [by injection H as <-|].
  apply res_bind_ok in H as (m2 & Hs & H). rewrite (IH _ _ _ H) by lia. unfold store8 in Hs. destruct (m !! a); [|done].
  injection Hs as <-. apply lookup_insert_ne. lia.
Qed.

Lemma memcpy_loop_out n m a b m1 x :
  memcpy_loop n m a b = Ok m1 -> x < a \/ a + Z.of_nat n <= x -> m1 !! x = m !! x.
Proof.
  revert m a b. induction n as [|n IH]; intros m a b H Hx; cbn [memcpy_loop] in H; [by injection H as <-|].
  apply res_bind_ok in H as (v & _ & H). apply res_bind_ok in H as (m2 & Hs & H). rewrite (IH _ _ _ H) by lia.
  unfold store8 in Hs. destruct (m !! a); [|done]. injection Hs as <-. apply lookup_insert_ne. lia.
Qed.

Lemma lapicstartap_out m s lapic apicid addr m1 s1 x :
  lapicstartap m s lapic apicid addr = Ok (m1, s1) -> 1131 <= x -> m1 !! x = m !! x.
Proof.
  intros H Hx. unfold lapicstartap in H. apply res_bind_ok in H as (m2 & H1 & H). apply res_bind_ok in H as (m3 & H2 & H).
  repeat (apply res_bind_ok in H as (? & _ & H)). injection H as <- _. change warm_reset_vector with 1127 in *.
  by rewrite (store_le_out _ _ _ _ _ x H2), (store_le_out _ _ _ _ _ x H1) by lia.
Qed.

(** ** Steps that do not see the stacks *)

Section See.

Context (P : Z -> Prop) (entry_at size : Z) (tab : mpstate) (me boot_idt ecx : Z).
Hypothesis Hsize : 0 <= size <= 1127.
Hypothesis Hentry : forall x, entry_at <= x < entry_at + size -> ~ P x.

Lemma startothers_see st answers st' top m :
  startothers entry_at size tab me st answers = Ok st' -> alike P (b_mem st) m ->
  exists m', startothers entry_at size tab me (see st top m) answers = Ok (see st' top m') /\ alike P (b_mem st') m' /\
    forall x, 1131 <= x -> m' !! x = m !! x.
Proof.
  intros H Ha. unfold startothers, see in *. cbn [b_pc b_mem b_ser b_aps b_started].
  destruct (b_pc st) as [|k|k|]; [| | |discriminate].
  - unfold sipi_entry_mov in *. apply res_bind_ok in H as (m1 & Hm & [= <-]).
    assert (Hs : forall x, entry_at <= x < entry_at + Z.of_nat (Z.to_nat size) -> ~ P x) by (rewrite Z2Nat.id by lia; done).
    destruct (alike_memcpy P _ _ _ _ _ _ Ha Hs Hm) as (m' & Hm' & Ha').
    exists m'. rewrite Hm'. mret. split; [done|]. split; [done|]. intros x Hx. apply (memcpy_loop_out _ _ _ _ _ x Hm'). lia.
  - destruct (Z.of_nat k <? ncpu tab); [|injection H as <-; by exists m].
    apply res_bind_ok in H as ([ser i] & Hc & H). rewrite Hc. mret.
    destruct (Z.of_nat k =? i); [injection H as <-; by exists m|].
    apply res_bind_ok in H as (apicid & Hi & H). rewrite Hi. mret. apply res_bind_ok in H as ([m1 s1] & Hl & [= <-]).
    destruct (alike_lapicstartap P _ _ _ _ _ _ _ _ Ha Hl) as (m' & Hl' & Ha').
    exists m'. rewrite Hl'. mret. split; [done|]. split; [done|]. intros x Hx. by eapply lapicstartap_out.
  - apply res_bind_ok in H as (v & Hv & [= <-]). rewrite Hv. mret. by exists m.
Qed.

Lemma mpenter_see st a answers st' top m :
  mpenter tab boot_idt ecx st a answers = Ok st' -> b_aps st !! a <> Some Entered ->
  mpenter tab boot_idt ecx (see st top m) a answers = Ok (see st' top m) /\ b_stacktop st' = b_stacktop st /\ b_mem st' = b_mem st.
Proof.
  intros H Hn. unfold mpenter, see in *. cbn [b_aps b_ser b_ops]. destruct (b_aps st !! a) as [[| |sp|sp|sp|sp|sp]|] eqn:E; try done.
  - apply res_bind_ok in H as ([s1 i] & H1 & H). apply res_bind_ok in H as ([s2 j] & H2 & H).
    apply res_bind_ok in H as (s3 & H3 & H).
    rewrite H1, bind_ok, H2, bind_ok, H3, bind_ok. injection H as <-. split; [reflexivity|]. split; reflexivity.
  - cbn [set_idtr b_ser] in *. apply res_bind_ok in H as (s4 & H4 & H). rewrite H4, bind_ok. injection H as <-.
    split; [reflexivity|]. split; reflexivity.
  - apply res_bind_ok in H as ([s1 i] & H1 & H). rewrite H1, bind_ok. injection H as <-. split; [reflexivity|]. split; reflexivity.
  - apply res_bind_ok in H as ([[ops s1] r] & H1 & H). rewrite H1, bind_ok. injection H as <-. split; [reflexivity|]. split; reflexivity.
Qed.

End See.

Lemma see_see st top m top' m' : see (see st top m) top' m' = see st top' m'.
Proof. reflexivity. Qed.

Lemma see_self st : see st (b_stacktop st) (b_mem st) = st.
Proof. by destruct st. Qed.

(** ** The layout *)

(** Where the [k]-th stack taken begins: its two return addresses. *)
Definition slot (k : nat) : Z := smp_stacktop - 4096 * Z.of_nat k - 8.

Section Layout.

Context (sy : symbols) (entry_at : Z) (bytes : list Z).

(** What the entry code writes: the word and the stacks. *)
Definition stacks (x : Z) : Prop :=
  sy_smp_stacktop sy <= x < sy_smp_stacktop sy + 4 \/ exists k, (k < 64)%nat /\ slot k <= x < slot k + 8.

(** The assembled code: instructions, then [gdt32_descr] and [gdt32] up to
    [sipi_end]. *)
Record assembled : Prop := {
  as_bytes : exists code, Z.of_nat (length code) = sy_gdt32_descr sy /\
    bytes = code ++ le_bytes 2 23 ++ le_bytes 4 (sy_gdt32 sy) ++ concat (le_bytes 8 <$> gdt32);
  as_gdt : sy_gdt32 sy = entry_at + sy_gdt32_descr sy + 6;
  as_range : 0 <= entry_at /\ entry_at + Z.of_nat (length bytes) <= 2 ^ 32;
}.

(** The word and the stacks are in memory, and the tables, the entry code and
    the low memory that [startothers] writes are elsewhere. *)
Record stacks_ok (m : mem) : Prop := {
  sk_word : 1131 <= sy_smp_stacktop sy /\ sy_smp_stacktop sy + 4 <= 2 ^ 32 /\ apart sy (sy_smp_stacktop sy) 4;
  sk_entry : disjoint_ranges (sy_smp_stacktop sy) 4 entry_at (Z.of_nat (length bytes));
  sk_top : load32 m (sy_smp_stacktop sy) = Ok smp_stacktop;
  sk_slots : forall k, (k < 64)%nat ->
    apart sy (slot k) 8 /\ mapped m (slot k) 8 /\ disjoint_ranges (sy_smp_stacktop sy) 4 (slot k) 8 /\
    disjoint_ranges entry_at (Z.of_nat (length bytes)) (slot k) 8;
  sk_image : Forall (fun r => 1131 <= r.1) (image_ranges sy);
}.

Lemma bytes_words m a ws : Forall word_ok ws -> bytes_at m a (concat (le_bytes 8 <$> ws)) -> words_at m a ws.
Proof.
  revert a. induction ws as [|w ws IH]; intros a Hw H; [done|]. apply Forall_cons in Hw as [Hw1 Hw]. rewrite fmap_cons in H.
  cbn [concat] in H. apply bytes_at_app in H as [H1 H2]. rewrite length_le_bytes in H2. split; [|by apply IH].
  apply load_le_ok in H1. rewrite length_le_bytes, le_value_bytes in H1. unfold load64. rewrite H1. f_equal. by apply Z.mod_small.
Qed.

(** What the copy and the image say of the table. *)
Lemma assembled_gdt32 m :
  assembled -> bytes_at m 0 bytes -> bytes_at m entry_at bytes ->
  load16 m (sy_gdt32_descr sy) = Ok 23 /\ load32 m (sy_gdt32_descr sy + 2) = Ok (sy_gdt32 sy) /\ words_at m (sy_gdt32 sy) gdt32 /\
  (0 <= sy_gdt32_descr sy /\ sy_gdt32_descr sy + 6 <= 2 ^ 32) /\ (0 <= sy_gdt32 sy /\ sy_gdt32 sy + 24 <= 2 ^ 32).
Proof.
  intros [(code & Hl & Hb) Hg Hr] H0 He. rewrite Hb, !length_app, !length_le_bytes in Hr.
  change (length (concat (le_bytes 8 <$> gdt32))) with 24%nat in Hr.
  assert (Hv : 0 <= sy_gdt32 sy < 256 ^ Z.of_nat 4).
  { change (256 ^ Z.of_nat 4) with 4294967296. change (2 ^ 32) with 4294967296 in Hr. lia. }
  rewrite Hb in H0, He. rewrite !bytes_at_app, !length_le_bytes, Hl in H0, He.
  destruct H0 as (_ & H2 & H4 & _), He as (_ & _ & _ & H8). apply load_le_ok in H2, H4.
  rewrite length_le_bytes, le_value_bytes in H2, H4. rewrite (Z.mod_small (sy_gdt32 sy)) in H4 by exact Hv.
  split; [exact H2|]. split; [exact H4|]. split; [|lia].
  replace (sy_gdt32 sy) with (entry_at + sy_gdt32_descr sy + Z.of_nat 2 + Z.of_nat 4) by lia.
  apply bytes_words; [|exact H8]. repeat constructor; vm_compute; discriminate.
Qed.

(** Ranges that are not written. *)
Lemma stacks_entry m x : stacks_ok m -> entry_at <= x < entry_at + Z.of_nat (length bytes) -> ~ stacks x.
Proof.
  intros Hs Hx [Hw|(k & Hk & Hw)].
  - pose proof (sk_entry _ Hs) as H. unfold disjoint_ranges in H. lia.
  - destruct (sk_slots _ Hs k Hk) as (_ & _ & _ & H). unfold disjoint_ranges in H. lia.
Qed.

Lemma stacks_low m x : stacks_ok m -> x < 1131 -> ~ stacks x.
Proof.
  intros Hs Hx [Hw|(k & Hk & Hw)].
  - pose proof (sk_word _ Hs). lia.
  - unfold slot, smp_stacktop in Hw. lia.
Qed.

Lemma stacks_image m r x : stacks_ok m -> r ∈ image_ranges sy -> r.1 <= x < r.1 + r.2 -> ~ stacks x /\ 1131 <= x.
Proof.
  intros Hs Hr Hx. split.
  - intros [Hw|(k & Hk & Hw)].
    + destruct (sk_word _ Hs) as (_ & _ & Ha). unfold apart in Ha. rewrite Forall_forall in Ha. specialize (Ha r Hr). unfold disjoint_ranges in Ha. lia.
    + destruct (sk_slots _ Hs k Hk) as (Ha & _). unfold apart in Ha. rewrite Forall_forall in Ha. specialize (Ha r Hr). unfold disjoint_ranges in Ha. lia.
  - pose proof (sk_image _ Hs) as Hi. rewrite Forall_forall in Hi. specialize (Hi r Hr). cbn beta in Hi. lia.
Qed.

Lemma stacks_frame m m' : stacks_ok m -> (forall x, stacks x -> m' !! x = m !! x) -> stacks_ok m'.
Proof.
  intros [S1 S2 S3 S4 S5] Hf. split; try done.
  - rewrite <- S3. apply load_le_frame. intros x Hx. apply Hf. by left.
  - intros k Hk. destruct (S4 k Hk) as (A1 & A2 & A3 & A4). split; [done|]. split; [|done]. intros x Hx.
    rewrite Hf; [by apply A2|]. right. by exists k.
Qed.

End Layout.

(** ** The simulation *)

(** The stack of a processor that has left the entry code. *)
Definition stack_at (x : ap) : option Z :=
  match x with WaitSipi | Entered => None | InMpenter sp | Greeted sp | Enabled sp | Announced sp | Idling sp => Some sp end.

Section Sim.

Context (sy : symbols) (cr4_bits : Z) (reset : Z -> x86).
Context (entry_at : Z) (bytes : list Z) (tab : mpstate) (me boot_idt ecx : Z) (ids : list Z) (self : nat).
Context (m0 : mem) (ser0 : serial).
Hypothesis Hsy : symbols_ok sy.
Hypothesis Htab : table_ok tab me ids self.
Hypothesis Hent : entry_code entry_at bytes m0.
Hypothesis Has : assembled sy entry_at bytes.
Hypothesis Hi0 : image_ok sy m0.
Hypothesis Hsk : stacks_ok sy entry_at bytes m0.
Hypothesis Hreset : forall a, reset_ok cr4_bits (reset a) /\ seg_l (reset a) = false /\ seg_d (reset a) = false /\
  length (sregs (reset a)) = 5%nat.

Local Abbreviation inv := (binv entry_at bytes boot_idt ids self m0 ser0).
Local Abbreviation abs_step := (bstep entry_at (Z.of_nat (length bytes)) tab me boot_idt ecx).
Local Abbreviation con_step := (sys_step sy cr4_bits reset entry_at bytes tab me boot_idt ecx).
Local Abbreviation con_run := (sys_run sy cr4_bits reset entry_at bytes tab me boot_idt ecx).
Local Abbreviation word := (sy_smp_stacktop sy).

Lemma step_inv st x st' : inv st -> bchoice_ok x -> abs_step st x = Ok st' -> inv st'.
Proof.
  intros Hi Hx Hs. destruct Htab as [H1 H2 H3 H4 H5 H6].
  eapply (brun_inv entry_at bytes tab me boot_idt ecx ids self m0 ser0 H1 H2 H3 H4 H5 H6 (proj1 Hent) [x] st st' Hi);
    [by repeat constructor|]. cbn [brun]. by rewrite Hs.
Qed.

(** What a step of [startothers] does to the processors. *)
Lemma startothers_aps st answers st' :
  inv st -> (7 <= length answers)%nat -> startothers entry_at (Z.of_nat (length bytes)) tab me st answers = Ok st' ->
  b_stacktop st' = b_stacktop st /\
  (initialised tab st st' = None /\ b_aps st' = b_aps st \/
   exists a, initialised tab st st' = Some a /\ b_aps st !! a = Some WaitSipi /\ b_aps st' = <[a := Entered]> (b_aps st)).
Proof.
  intros Hi Ha Hs. destruct Htab as [H1 H2 H3 H4 H5 H6]. destruct (b_pc st) as [|k|k|] eqn:Ek.
  - unfold startothers in Hs. rewrite Ek in Hs. apply res_bind_ok in Hs as (m1 & _ & [= <-]). unfold initialised. rewrite Ek.
    split; [done|]. by left.
  - destruct (decide (k < length ids)%nat) as [Hk|Hk].
    + destruct (decide (k = self)) as [->|Hne].
      * unfold startothers in Hs. rewrite Ek, (proj2 (Z.ltb_lt _ _)) in Hs by (rewrite <- (ncpu_ids tab ids H1 H2 H3) in Hk; lia).
        rewrite (mycpu_index tab ids H1 H2 H3 H4 _ self me H6) in Hs. mret_in Hs. rewrite Z.eqb_refl in Hs. injection Hs as <-.
        unfold initialised. rewrite Ek. split; [done|]. by left.
      * destruct (lookup_lt_is_Some_2 ids k Hk) as [a Hka].
        destruct (startothers_starts entry_at bytes tab me boot_idt ids self m0 ser0 H1 H2 H3 H4 H5 H6 (proj1 Hent) st k a answers Hi Ek Hne Hka Ha)
          as (m1 & Hs' & _). rewrite Hs' in Hs. injection Hs as <-. split; [done|]. right. exists a.
        pose proof (binv_pc _ _ _ _ _ _ _ _ Hi) as Hpc. unfold at_pc in Hpc. rewrite Ek in Hpc. destruct Hpc as (_ & _ & Hab & _).
        unfold initialised. rewrite Ek. cbn [set_bsp b_pc]. rewrite (ids_cpus tab ids H3 k a Hka). split; [done|].
        split; [by apply (Hab k a)|done].
    + unfold startothers in Hs. rewrite Ek, (proj2 (Z.ltb_ge _ _)) in Hs by (rewrite <- (ncpu_ids tab ids H1 H2 H3) in Hk; lia).
      injection Hs as <-. unfold initialised. rewrite Ek. split; [done|]. by left.
  - unfold startothers in Hs. rewrite Ek in Hs. apply res_bind_ok in Hs as (v & _ & [= <-]). unfold initialised. rewrite Ek.
    split; [done|]. by left.
  - unfold startothers in Hs. by rewrite Ek in Hs.
Qed.

(** The concrete memory between two runs of the entry code: [m] is the memory
    of Boot with the word and the stacks filled in, and the processors that
    have called [mpenter] are ready for C, each on its own stack. *)
Record quiet (st : boot) (m : mem) (cs : gmap Z core) : Prop := {
  q_mem : alike (stacks sy) (b_mem st) m;
  q_word : load32 m word = Ok (b_stacktop st);
  q_c : forall a c, cs !! a = Some (InC c) ->
    c_ready sy c m MpenterRet /\ cr3 c = sy_ptl4 sy /\ 1131 <= rsp c /\ exists x, b_aps st !! a = Some x /\ stack_at x = Some (rsp c + 8);
  q_up : forall a x sp, b_aps st !! a = Some x -> stack_at x = Some sp -> exists c, cs !! a = Some (InC c);
}.

(** The registers and the memory when the entry code calls [mpenter] on the
    stack below [top]. *)
Record entered (m : mem) (top : Z) (c' : x86) (m' : mem) : Prop := {
  en_ready : c_ready sy c' m' MpenterRet;
  en_cr3 : cr3 c' = sy_ptl4 sy;
  en_rsp : rsp c' = top - 8;
  en_word : load32 m' word = Ok (u32 (top - 4096));
  en_dom : same_dom m m';
  en_image : image_ok sy m';
  en_frame : forall x, ~ (word <= x < word + 4 \/ top - 8 <= x < top) -> m' !! x = m !! x;
}.

Lemma quiet_image st m cs : inv st -> quiet st m cs -> image_ok sy m.
Proof.
  intros Hi Hq. apply (image_frame sy m0); [|done]. apply Forall_forall. intros r Hr x Hx.
  destruct (stacks_image _ _ _ _ _ _ Hsk Hr Hx) as [H1 H2].
  rewrite (proj2 (q_mem _ _ _ Hq) x H1). apply (proj2 (binv_kept _ _ _ _ _ _ _ _ Hi)). lia.
Qed.

Lemma quiet_bytes st m cs :
  inv st -> quiet st m cs -> b_pc st <> BMove -> bytes_at m 0 bytes /\ bytes_at m entry_at bytes.
Proof.
  intros Hi Hq Hpc. destruct (binv_mem _ _ _ _ _ _ _ _ Hi) as [_ Hc _ Hcopy]. destruct Hent as [(_ & Hl & _) _].
  change warm_reset_vector with 1127 in Hl. split.
  - eapply bytes_at_frame; [|by apply Hcopy]. intros x Hx. apply (q_mem _ _ _ Hq). eapply stacks_low; [exact Hsk|lia].
  - eapply bytes_at_frame; [|exact Hc]. intros x Hx. apply (q_mem _ _ _ Hq). eapply stacks_entry; [exact Hsk|lia].
Qed.

(** Where the stack pointer is when a processor is in the entry code. *)
Lemma entered_top st a :
  inv st -> b_aps st !! a = Some Entered ->
  exists k, b_pc st = BWait k /\ k <> self /\ ids !! k = Some a /\ b_started st !! k = Some 0 /\
    b_stacktop st = slot (rank self k) + 8 /\ (rank self k < 64)%nat.
Proof.
  intros Hi He. destruct Htab as [H1 H2 H3 H4 H5 H6].
  destruct (booting_coming entry_at bytes tab boot_idt ids self m0 ser0 H1 st a _ Hi He eq_refl) as (k & Ek & Hne & Hk & Hc).
  exists k. split; [done|]. split; [done|]. split; [done|].
  destruct Hc as [H0 _ Ht _|? Hx _ _|? Hx _ _|? Hx _ _|(_ & (y & Hy & Hu) & _) _ _]; [|congruence..|].
  - split; [done|]. split; [rewrite Ht; unfold stack_of, slot; lia|].
    pose proof (lookup_lt_Some _ _ _ Hk). pose proof (ids_short tab ids H1 H2 H3 k H). unfold rank. destruct (self <? k)%nat; lia.
  - destruct Hu as [-> | ->]; congruence.
Qed.

(** The stacks of the processors that are up are above it. *)
Lemma up_stack st a b x sp :
  inv st -> b_aps st !! a = Some Entered -> b_aps st !! b = Some x -> stack_at x = Some sp ->
  b_stacktop st + 4096 <= sp /\ exists k, (k < 64)%nat /\ sp = slot k + 8.
Proof.
  intros Hi He Hx Hsp. destruct (entered_top st a Hi He) as (k & Ek & Hne & Hk & _ & Ht & _). destruct Htab as [H1 H2 H3 H4 H5 H6].
  destruct (binv_dom _ _ _ _ _ _ _ _ Hi b x Hx) as (j & Hj & Hb).
  pose proof (binv_pc _ _ _ _ _ _ _ _ Hi) as Hpc. unfold at_pc in Hpc. rewrite Ek in Hpc. destruct Hpc as (_ & a' & _ & Hbe & Hab & _).
  pose proof (lookup_lt_Some _ _ _ Hb) as Hlt. pose proof (ids_short tab ids H1 H2 H3 j Hlt).
  destruct (Nat.lt_trichotomy j k) as [Hjk|[->|Hjk]].
  - destruct (Hbe j b Hjk Hj Hb) as (_ & (y & Hy & Hu) & _). rewrite Hx in Hy. injection Hy as <-.
    assert (sp = stack_of self j) as -> by (destruct Hu as [-> | ->]; by injection Hsp).
    unfold stack_of, slot, rank in *. split.
    + rewrite Ht. destruct (Nat.ltb_spec self k), (Nat.ltb_spec self j); lia.
    + exists (if (self <? j)%nat then j - 1 else j)%nat. destruct (Nat.ltb_spec self j); lia.
  - rewrite Hk in Hb. injection Hb as <-. rewrite He in Hx. injection Hx as <-. discriminate Hsp.
  - destruct (Hab j b Hjk Hj Hb) as (_ & Hw). rewrite Hx in Hw. injection Hw as ->. discriminate Hsp.
Qed.

Lemma c_ready_frame c m m' :
  c_ready sy c m MpenterRet -> cr3 c = sy_ptl4 sy -> image_ok sy m' ->
  (forall x, rsp c <= x < rsp c + 8 -> m' !! x = m !! x) -> c_ready sy c m' MpenterRet.
Proof.
  intros [H1 H2 H3 H4 H5 _] Hc Hi Hf. split; try done.
  - unfold load64. by rewrite (load_le_frame 8 m m' (rsp c) Hf).
  - intros va Hva. rewrite Hc. by apply identity_at.
Qed.

Lemma run_from_sipi f c m : run_from sy cr4_bits f c m SipiEntry = run sy cr4_bits f c m Size16 (sipi_entry sy).
Proof. reflexivity. Qed.

(** A run of the entry code, from its first instruction. *)
Lemma quiet_enters st m cs a :
  inv st -> quiet st m cs -> b_aps st !! a = Some Entered ->
  bytes_at m 0 bytes /\ exists f c' m', run sy cr4_bits f (reset a) m Size16 (sipi_entry sy) = Ok (c', m', Some Mpenter) /\
    entered m (b_stacktop st) c' m'.
Proof.
  intros Hi Hq He. destruct (entered_top st a Hi He) as (k & Ek & _ & _ & _ & Ht & Hk).
  destruct (quiet_bytes st m cs Hi Hq) as [B0 B1]; [by rewrite Ek|]. split; [done|].
  destruct (assembled_gdt32 _ _ _ m Has B0 B1) as (G1 & G2 & G3 & G4 & G5).
  destruct (sk_slots _ _ _ _ Hsk _ Hk) as (S1 & S2 & S3 & _).
  assert (Hmap : mapped m (slot (rank self k)) 8).
  { eapply same_dom_mapped; [apply (q_mem _ _ _ Hq)|]. eapply same_dom_mapped; [apply (binv_kept _ _ _ _ _ _ _ _ Hi)|done]. }
  destruct (Hreset a) as (R1 & R2 & R3 & R4).
  assert (Hap : ap_ok sy m (b_stacktop st)).
  { split; try done; [by apply (q_word _ _ _ Hq)| | |].
    - destruct (sk_word _ _ _ _ Hsk) as (W1 & W2 & W3). split; [lia|done].
    - rewrite Ht. unfold room. replace (slot (rank self k) + 8 - 8) with (slot (rank self k)) by lia. split; [|done].
      change (2 ^ 32) with 4294967296. unfold slot, smp_stacktop in *. lia.
    - rewrite Ht. by replace (slot (rank self k) + 8 - 8) with (slot (rank self k)) by lia. }
  destruct (ap_run sy cr4_bits Hsy 0 (reset a) m _ (quiet_image _ _ _ Hi Hq) Hap R1 R2 R3 R4)
    as (c' & m' & E1 & E2 & E3 & E4 & E5 & E6 & E7 & E8 & E9 & E10).
  rewrite run_from_sipi in E1. exists (31 + 0)%nat, c', m'. split; [exact E1|]. split; assumption.
Qed.

(** The end of the run: the step of Boot. *)
Lemma quiet_entered st m cs a c' m' :
  inv st -> quiet st m cs -> b_aps st !! a = Some Entered -> entered m (b_stacktop st) c' m' ->
  quiet (set_stacktop (set_ap st a (InMpenter (b_stacktop st)) (b_ser st)) (u32 (b_stacktop st - 4096))) m' (<[a := InC c']> cs).
Proof.
  intros Hi Hq He [N1 N2 N3 N4 N5 N6 N7]. destruct (entered_top st a Hi He) as (k & _ & _ & _ & _ & Ht & Hk). split.
  - cbn [set_stacktop set_ap b_mem]. transitivity m; [apply Hq|]. split; [done|]. intros x Hx. apply N7. intros [H|H]; apply Hx; [by left|].
    right. exists (rank self k). split; [done|lia].
  - done.
  - intros b c Hb. cbn [set_stacktop set_ap b_aps]. destruct (decide (b = a)) as [->|Hn].
    + rewrite lookup_insert_eq in Hb. injection Hb as <-. split; [exact N1|]. split; [exact N2|].
      split; [rewrite N3, Ht; unfold slot, smp_stacktop in *; lia|]. rewrite lookup_insert_eq. eexists.
      split; [reflexivity|]. cbn [stack_at]. f_equal. lia.
    + rewrite lookup_insert_ne in Hb by done. rewrite lookup_insert_ne by done.
      destruct (q_c _ _ _ Hq b c Hb) as (C1 & C2 & C0 & x & C3 & C4). split; [|by eauto].
      destruct (up_stack st a b x _ Hi He C3 C4) as (U1 & j & U2 & U3). destruct (sk_slots _ _ _ _ Hsk j U2) as (_ & _ & S3 & _).
      unfold disjoint_ranges in S3. apply (c_ready_frame c m); [done|done|done|]. intros y Hy. apply N7. lia.
  - intros b x sp. cbn [set_stacktop set_ap b_aps]. destruct (decide (b = a)) as [->|Hn].
    + rewrite !lookup_insert_eq. by eauto.
    + rewrite !lookup_insert_ne by done. apply Hq.
Qed.

(** A step of the boot processor. *)
Lemma quiet_bsp st m cs answers st' top :
  inv st -> quiet st m cs -> (7 <= length answers)%nat ->
  startothers entry_at (Z.of_nat (length bytes)) tab me st answers = Ok st' ->
  exists m', startothers entry_at (Z.of_nat (length bytes)) tab me (see st top m) answers = Ok (see st' top m') /\
    quiet st' m' (match initialised tab st st' with Some a => delete a cs | None => cs end).
Proof.
  intros Hi Hq Ha Hs. pose proof (step_inv st (Bsp answers) st' Hi Ha Hs) as Hi'. destruct Hent as [(_ & Hl & _) _].
  change warm_reset_vector with 1127 in Hl.
  destruct (startothers_see (stacks sy) entry_at (Z.of_nat (length bytes)) tab me ltac:(lia)
    (fun x => stacks_entry _ _ _ _ x Hsk) st answers st' top m Hs (q_mem _ _ _ Hq)) as (m' & Hs' & Ha' & Hf).
  exists m'. split; [done|]. destruct (startothers_aps st answers st' Hi Ha Hs) as [Htop Haps].
  assert (Hno : forall a c, initialised tab st st' = Some a -> cs !! a <> Some (InC c)).
  { intros a c Hin Hc. destruct (q_c _ _ _ Hq a c Hc) as (_ & _ & _ & x & Hx & Hsp).
    destruct Haps as [[? _]|(a' & E & Hw & _)]; [congruence|]. rewrite E in Hin. injection Hin as ->.
    rewrite Hw in Hx. injection Hx as <-. discriminate Hsp. }
  set (cs' := match initialised tab st st' with Some a => delete a cs | None => cs end).
  assert (Hcs : forall a c, cs' !! a = Some (InC c) <-> cs !! a = Some (InC c)).
  { intros a c. unfold cs'. destruct (initialised tab st st') as [a'|] eqn:E; [|done].
    destruct (decide (a = a')) as [->|Hn]; [|by rewrite lookup_delete_ne]. rewrite lookup_delete_eq. split; [done|].
    intros H. destruct (Hno a' c eq_refl H). }
  assert (Hup : forall a x sp, stack_at x = Some sp -> b_aps st' !! a = Some x <-> b_aps st !! a = Some x).
  { intros a x sp Hsp. destruct Haps as [[_ ->]|(a' & _ & Hw & ->)]; [done|].
    destruct (decide (a = a')) as [->|Hn]; [|by rewrite lookup_insert_ne]. rewrite lookup_insert_eq, Hw. split; intros [= <-]; discriminate. }
  assert (Him : image_ok sy m').
  { apply (image_frame sy m); [|exact (quiet_image _ _ _ Hi Hq)]. apply Forall_forall. intros r Hr x Hx. apply Hf.
    apply (stacks_image _ _ _ _ _ _ Hsk Hr Hx). }
  split; [done| | |].
  - rewrite Htop, <- (q_word _ _ _ Hq). apply load_le_frame. intros x Hx. apply Hf. destruct (sk_word _ _ _ _ Hsk). lia.
  - intros a c Hc. apply Hcs in Hc. destruct (q_c _ _ _ Hq a c Hc) as (C1 & C2 & C0 & x & C3 & C4).
    split; [|split; [done|]; split; [done|]; exists x; split; [by eapply Hup|done]].
    apply (c_ready_frame c m); [exact C1|exact C2|exact Him|]. intros y Hy. apply Hf. lia.
  - intros a x sp Hx Hsp. apply (Hup a x sp Hsp) in Hx. destruct (q_up _ _ _ Hq a x sp Hx Hsp) as [c Hc]. exists c. by apply Hcs.
Qed.

(** A step of [mpenter]. *)
Lemma mpenter_aps st a answers st' :
  mpenter tab boot_idt ecx st a answers = Ok st' -> b_aps st !! a <> Some Entered ->
  exists x x', b_aps st !! a = Some x /\ b_aps st' = <[a := x']> (b_aps st) /\ stack_at x' = stack_at x /\ x' <> Entered.
Proof.
  intros H Hn. unfold mpenter in H. destruct (b_aps st !! a) as [[| |sp|sp|sp|sp|sp]|] eqn:E; try discriminate; [done|..].
  - apply res_bind_ok in H as ([s1 i] & _ & H). apply res_bind_ok in H as ([s2 j] & _ & H).
    apply res_bind_ok in H as (s3 & _ & H). injection H as <-. by eexists _, _.
  - apply res_bind_ok in H as (s4 & _ & H). injection H as <-. by eexists _, _.
  - apply res_bind_ok in H as ([s1 i] & _ & H). injection H as <-. by eexists _, _.
  - apply res_bind_ok in H as ([[ops s1] r] & _ & H). injection H as <-. by eexists _, _.
Qed.

Lemma quiet_ap st m cs a answers st' :
  quiet st m cs -> mpenter tab boot_idt ecx st a answers = Ok st' -> b_aps st !! a <> Some Entered -> quiet st' m cs.
Proof.
  intros [Q1 Q2 Q3 Q4] H Hn. destruct (mpenter_see tab boot_idt ecx st a answers st' 0 m H Hn) as (_ & Et & Em).
  destruct (mpenter_aps st a answers st' H Hn) as (x & x' & Hx & Ha & Hsp & _). split.
  - by rewrite Em.
  - by rewrite Et.
  - intros b c Hb. destruct (Q3 b c Hb) as (C1 & C2 & C3 & y & C4 & C5). split; [exact C1|]. split; [exact C2|]. split; [exact C3|].
    rewrite Ha. destruct (decide (b = a)) as [->|Hne].
    + exists x'. rewrite lookup_insert_eq. split; [done|]. rewrite Hx in C4. injection C4 as <-. by rewrite Hsp.
    + exists y. by rewrite lookup_insert_ne.
  - intros b y sp. rewrite Ha. destruct (decide (b = a)) as [->|Hne].
    + rewrite lookup_insert_eq. intros [= <-]. rewrite Hsp. by apply Q4.
    + rewrite lookup_insert_ne by done. by apply Q4.
Qed.

(** *** The relation *)

Definition no_entry (cs : gmap Z core) (a : option Z) : Prop :=
  forall b c sz code, cs !! b = Some (InEntry c sz code) -> a = Some b.

(** Between runs of the entry code, and during one: the rest of the run ends
    where the step of Boot does. *)
Inductive sim (y : sys) (st : boot) : Prop :=
  | sim_quiet :
      y_boot y = see st (b_stacktop (y_boot y)) (b_mem (y_boot y)) -> quiet st (b_mem (y_boot y)) (y_cores y) ->
      no_entry (y_cores y) None -> sim y st
  | sim_entry m a c sz code f c' m' :
      y_boot y = see st (b_stacktop (y_boot y)) (b_mem (y_boot y)) -> quiet st m (y_cores y) ->
      y_cores y !! a = Some (InEntry c sz code) -> no_entry (y_cores y) (Some a) -> b_aps st !! a = Some Entered ->
      run sy cr4_bits f c (b_mem (y_boot y)) sz code = Ok (c', m', Some Mpenter) -> entered m (b_stacktop st) c' m' ->
      sim y st.

Lemma sim_view y st : sim y st -> y_boot y = see st (b_stacktop (y_boot y)) (b_mem (y_boot y)).
Proof. by intros [|]. Qed.

(** A core in the entry code does not change what is quiet. *)
Lemma quiet_core st m cs a x :
  quiet st m cs -> b_aps st !! a = Some Entered -> (forall c, x <> InC c) -> quiet st m (<[a := x]> cs).
Proof.
  intros [Q1 Q2 Q3 Q4] He Hx. split; [done|done| |].
  - intros b c. destruct (decide (b = a)) as [->|Hn]; [rewrite lookup_insert_eq; by intros [= ->]; destruct (Hx c)|].
    rewrite lookup_insert_ne by done. apply Q3.
  - intros b y sp Hb Hsp. destruct (decide (b = a)) as [->|Hn]; [rewrite He in Hb; injection Hb as <-; discriminate Hsp|].
    rewrite lookup_insert_ne by done. by eapply Q4.
Qed.

Lemma no_entry_insert cs a o x : no_entry cs o -> (o = None \/ o = Some a) -> no_entry (<[a := x]> cs) (Some a).
Proof.
  intros Hn Ho b c sz code. destruct (decide (b = a)) as [->|Hne]; [done|]. rewrite lookup_insert_ne by done. intros H.
  pose proof (Hn _ _ _ _ H). destruct Ho; congruence.
Qed.

Lemma no_entry_done cs a c o : no_entry cs o -> (o = None \/ o = Some a) -> no_entry (<[a := InC c]> cs) None.
Proof.
  intros Hn Ho b c' sz code. destruct (decide (b = a)) as [->|Hne]; [by rewrite lookup_insert_eq|]. rewrite lookup_insert_ne by done.
  intros H. pose proof (Hn _ _ _ _ H). destruct Ho; congruence.
Qed.

(** No second processor is in the entry code. *)
Lemma entered_unique st a b : inv st -> b_aps st !! a = Some Entered -> b_aps st !! b = Some Entered -> a = b.
Proof.
  intros Hi Ha Hb. destruct (entered_top st a Hi Ha) as (k & E1 & _ & I1 & _). destruct (entered_top st b Hi Hb) as (k' & E2 & _ & I2 & _).
  rewrite E1 in E2. injection E2 as <-. congruence.
Qed.

(** *** Every step is a step of Boot, or none *)

Lemma startothers_waits st k answers :
  b_pc st = BWait k -> b_started st !! k = Some 0 -> startothers entry_at (Z.of_nat (length bytes)) tab me st answers = Ok st.
Proof. intros Ek H0. unfold startothers. rewrite Ek, H0. cbn [of_option]. mret. cbn [Z.eqb]. unfold set_bsp. rewrite <- Ek. by destruct st. Qed.

Lemma sim_bsp y st answers y' :
  inv st -> sim y st -> (7 <= length answers)%nat -> con_step y (Bsp answers) = Ok y' ->
  exists st', abs_step st (Bsp answers) = Ok st' /\ sim y' st'.
Proof.
  intros Hi Hs Ha H. cbn [sys_step bstep] in *. apply res_bind_ok in H as (b & Hb & H). injection H as <-.
  destruct Hs as [V Q N|m a c sz code f c' m' V Q Hc N He Hr Hn].
  - set (top := b_stacktop (y_boot y)) in *. set (m := b_mem (y_boot y)) in *. rewrite V in Hb.
    destruct Hent as [(_ & Hl & _) _]. change warm_reset_vector with 1127 in Hl.
    destruct (startothers_see (stacks sy) entry_at (Z.of_nat (length bytes)) tab me ltac:(lia) (fun x => stacks_entry _ _ _ _ x Hsk)
      (see st top m) answers b (b_stacktop st) (b_mem st) Hb (symmetry (q_mem _ _ _ Q))) as (m1 & Hst & _).
    rewrite see_see, see_self in Hst. exists (see b (b_stacktop st) m1). split; [done|].
    destruct (quiet_bsp st m (y_cores y) answers _ top Hi Q Ha Hst) as (m2 & Hb2 & Q2). rewrite Hb in Hb2. injection Hb2 as ->.
    rewrite V. apply sim_quiet; cbn [y_boot y_cores].
    + reflexivity.
    + exact Q2.
    + intros b' c sz code. destruct (initialised _ _ _); [|apply N]. intros [_ H]%lookup_delete_Some. exact (N _ _ _ _ H).
  - destruct (entered_top st a Hi He) as (k & Ek & _ & _ & H0 & _). rewrite (startothers_waits (y_boot y) k) in Hb.
    + injection Hb as <-. exists st. split; [by apply (startothers_waits st k)|].
      assert (initialised tab (y_boot y) (y_boot y) = None) as ->.
      { unfold initialised. rewrite V. cbn [see b_pc]. by rewrite Ek. }
      by eapply (sim_entry _ st m a c sz code f c' m').
    + rewrite V. done.
    + rewrite V. done.
Qed.

(** The processor in the entry code goes on. *)
Lemma entry_goes_on y st m a c sz code f c' m' answers :
  inv st -> y_boot y = see st (b_stacktop (y_boot y)) (b_mem (y_boot y)) -> quiet st m (y_cores y) ->
  y_cores y !! a = Some (InEntry c sz code) -> no_entry (y_cores y) (Some a) -> b_aps st !! a = Some Entered ->
  run sy cr4_bits f c (b_mem (y_boot y)) sz code = Ok (c', m', Some Mpenter) -> entered m (b_stacktop st) c' m' ->
  exists y' f', f = S f' /\ con_step y (Ap a answers) = Ok y' /\
    ((exists c1 sz1 code1, y_boot y' = see st (b_stacktop (y_boot y')) (b_mem (y_boot y')) /\ quiet st m (y_cores y') /\
        y_cores y' !! a = Some (InEntry c1 sz1 code1) /\ no_entry (y_cores y') (Some a) /\
        run sy cr4_bits f' c1 (b_mem (y_boot y')) sz1 code1 = Ok (c', m', Some Mpenter)) \/
     exists st', abs_step st (Ap a answers) = Ok st' /\ y_boot y' = see st' (b_stacktop (y_boot y')) (b_mem (y_boot y')) /\
       quiet st' (b_mem (y_boot y')) (y_cores y') /\ no_entry (y_cores y') None).
Proof.
  intros Hi V Q Hc N He Hr Hn. destruct (run_next _ _ _ _ _ _ _ _ Hr) as (f' & c1 & m1 & p & Hf & H1 & Hp).
  assert (He' : b_aps (y_boot y) !! a = Some Entered) by (rewrite V; exact He).
  cbn [sys_step]. rewrite decide_True by exact He'. rewrite Hc, H1. mret. destruct p as [sz1 code1|o].
  - eexists _, f'. split; [done|]. split; [reflexivity|]. left. exists c1, sz1, code1. cbn [y_boot y_cores see b_mem].
    split; [rewrite V; reflexivity|]. split; [by apply quiet_core|]. split; [apply lookup_insert_eq|].
    split; [by eapply no_entry_insert; [|right]|exact Hp].
  - injection Hp as -> -> ->. eexists _, f'. split; [done|]. split; [reflexivity|]. right. cbn [bstep]. unfold mpenter. rewrite He.
    eexists. split; [reflexivity|]. cbn [y_boot y_cores see b_mem b_stacktop]. split; [|split].
    + rewrite V, (en_rsp _ _ _ _ Hn). replace (b_stacktop st - 8 + 8) with (b_stacktop st) by lia. reflexivity.
    + by apply (quiet_entered st m).
    + eapply no_entry_done; [exact N|by right].
Qed.

(** A released processor begins. *)
Lemma entry_begins y st a answers :
  inv st -> y_boot y = see st (b_stacktop (y_boot y)) (b_mem (y_boot y)) -> quiet st (b_mem (y_boot y)) (y_cores y) ->
  no_entry (y_cores y) None -> b_aps st !! a = Some Entered ->
  exists y' c sz code f c' m', con_step y (Ap a answers) = Ok y' /\
    y_boot y' = see st (b_stacktop (y_boot y')) (b_mem (y_boot y')) /\ quiet st (b_mem (y_boot y)) (y_cores y') /\
    y_cores y' !! a = Some (InEntry c sz code) /\ no_entry (y_cores y') (Some a) /\
    run sy cr4_bits f c (b_mem (y_boot y')) sz code = Ok (c', m', Some Mpenter) /\ entered (b_mem (y_boot y)) (b_stacktop st) c' m'.
Proof.
  intros Hi V Q N He. assert (He' : b_aps (y_boot y) !! a = Some Entered) by (rewrite V; exact He).
  assert (Hc : y_cores y !! a = None).
  { destruct (y_cores y !! a) as [[c sz code|c]|] eqn:E; [by specialize (N _ _ _ _ E)| |done].
    destruct (q_c _ _ _ Q a c E) as (_ & _ & _ & x & Hx & Hsp). rewrite He in Hx. injection Hx as <-. discriminate Hsp. }
  destruct (quiet_enters st _ _ a Hi Q He) as (Hb & f & c' & m' & Hr & Hn).
  cbn [sys_step]. rewrite decide_True by exact He'. rewrite Hc, (proj2 (bytes_at_b_spec _ _ _) Hb).
  eexists _, (reset a), Size16, (sipi_entry sy), f, c', m'. split; [reflexivity|]. cbn [y_boot y_cores].
  split; [exact V|]. split; [by apply quiet_core|]. split; [apply lookup_insert_eq|].
  split; [eapply no_entry_insert; [exact N|by left]|]. split; [exact Hr|exact Hn].
Qed.

(** A processor in C goes on; the memory stays. *)
Lemma c_goes_on y st a answers y' :
  y_boot y = see st (b_stacktop (y_boot y)) (b_mem (y_boot y)) -> b_aps st !! a <> Some Entered ->
  con_step y (Ap a answers) = Ok y' ->
  exists st', abs_step st (Ap a answers) = Ok st' /\ y_boot y' = see st' (b_stacktop (y_boot y')) (b_mem (y_boot y')) /\
    b_mem (y_boot y') = b_mem (y_boot y) /\ y_cores y' = y_cores y /\ b_stacktop st' = b_stacktop st.
Proof.
  intros V Hn H. assert (Hn' : b_aps (y_boot y) !! a <> Some Entered) by (rewrite V; exact Hn).
  cbn [sys_step] in H. rewrite decide_False in H by exact Hn'. apply res_bind_ok in H as (b & Hb & H). injection H as <-.
  destruct (mpenter_see tab boot_idt ecx (y_boot y) a answers b (b_stacktop st) (b_mem st) Hb Hn') as (Hs & Et & Em).
  assert (see (y_boot y) (b_stacktop st) (b_mem st) = st) as E by (rewrite V, see_see; apply see_self). rewrite E in Hs.
  exists (see b (b_stacktop st) (b_mem st)). cbn [bstep y_boot y_cores]. split; [exact Hs|]. split; [rewrite see_see; symmetry; apply see_self|].
  split; [exact Em|]. split; reflexivity.
Qed.

Lemma sim_ap y st a answers y' :
  inv st -> sim y st -> con_step y (Ap a answers) = Ok y' ->
  exists st', (st' = st \/ abs_step st (Ap a answers) = Ok st') /\ sim y' st'.
Proof.
  intros Hi Hs H. destruct (decide (b_aps st !! a = Some Entered)) as [He|Hn].
  - destruct Hs as [V Q N|m a0 c sz code f c' m' V Q Hc N He0 Hr Hent'].
    + destruct (entry_begins y st a answers Hi V Q N He) as (y1 & c & sz & code & f & c' & m' & H1 & V1 & Q1 & C1 & N1 & R1 & E1).
      rewrite H1 in H. injection H as <-. exists st. split; [by left|]. by eapply sim_entry.
    + assert (a0 = a) as -> by by eapply entered_unique.
      destruct (entry_goes_on y st m a c sz code f c' m' answers Hi V Q Hc N He Hr Hent') as (y1 & f' & _ & H1 & H2).
      rewrite H1 in H. injection H as <-. destruct H2 as [(c1 & sz1 & code1 & V1 & Q1 & C1 & N1 & R1)|(st' & A1 & V1 & Q1 & N1)].
      * exists st. split; [by left|]. by eapply sim_entry.
      * exists st'. split; [by right|]. by apply sim_quiet.
  - destruct (c_goes_on y st a answers y' (sim_view _ _ Hs) Hn H) as (st' & A1 & V1 & M1 & C1 & T1).
    exists st'. split; [by right|]. cbn [bstep] in A1.
    destruct Hs as [V Q N|m a0 c sz code f c' m' V Q Hc N He0 Hr Hent'].
    + apply sim_quiet; [exact V1|rewrite M1, C1; by eapply quiet_ap|by rewrite C1].
    + destruct (mpenter_aps st a answers st' A1 Hn) as (x & x' & _ & Ha & _).
      eapply (sim_entry y' st' m a0 c sz code f c' m'); [exact V1|rewrite C1; by eapply quiet_ap|by rewrite C1|by rewrite C1| |by rewrite M1|by rewrite T1].
      rewrite Ha, lookup_insert_ne; [done|]. intros ->. by apply Hn.
Qed.

Lemma sim_run ys : forall y st y',
  inv st -> sim y st -> Forall bchoice_ok ys -> con_run y ys = Ok y' ->
  exists xs st', Forall bchoice_ok xs /\ brun entry_at (Z.of_nat (length bytes)) tab me boot_idt ecx st xs = Ok st' /\ inv st' /\ sim y' st'.
Proof.
  induction ys as [|y1 ys IH]; intros y st y' Hi Hs Hok H; cbn [sys_run] in H; [injection H as <-; by exists [], st|].
  apply Forall_cons in Hok as [Hx Hok]. apply res_bind_ok in H as (y2 & H1 & H).
  assert (exists st1, (st1 = st \/ abs_step st y1 = Ok st1) /\ sim y2 st1) as (st1 & [->|A] & S1).
  { destruct y1 as [answers|a answers]; [|by eapply sim_ap]. destruct (sim_bsp y st answers y2 Hi Hs Hx H1) as (st1 & A & S1).
    exists st1. split; [by right|done]. }
  - by eapply IH.
  - pose proof (step_inv _ _ _ Hi Hx A) as Hi1. destruct (IH y2 st1 y' Hi1 S1 Hok H) as (xs & st' & Hxs & Hr & Hi' & S').
    exists (y1 :: xs), st'. split; [by constructor|]. split; [|done]. cbn [brun]. by rewrite A.
Qed.

(** *** Every step of Boot is some steps *)

Definition rest (y : sys) (st : boot) : Prop :=
  y_boot y = see st (b_stacktop (y_boot y)) (b_mem (y_boot y)) /\ quiet st (b_mem (y_boot y)) (y_cores y) /\ no_entry (y_cores y) None.

Definition leads (y y' : sys) : Prop := exists ys, Forall bchoice_ok ys /\ con_run y ys = Ok y'.

Lemma con_run_app y xs ys : con_run y (xs ++ ys) = (y' ← con_run y xs; con_run y' ys).
Proof. revert y. induction xs as [|x xs IH]; intros y; [done|]. cbn [sys_run app]. destruct (con_step y x); mret; [apply IH|done]. Qed.

#[local] Instance leads_preorder : PreOrder leads.
Proof.
  split.
  - intros y. by exists [].
  - intros y1 y2 y3 (xs & Ox & Rx) (ys & Oy & Ry). exists (xs ++ ys). split; [by apply Forall_app|]. by rewrite con_run_app, Rx.
Qed.

Lemma leads_step y x y' : bchoice_ok x -> con_step y x = Ok y' -> leads y y'.
Proof. intros Hx Hs. exists [x]. split; [by repeat constructor|]. cbn [sys_run]. by rewrite Hs. Qed.

(** The entry code ends. *)
Lemma entry_ends f : forall y st m a c sz code c' m',
  inv st -> y_boot y = see st (b_stacktop (y_boot y)) (b_mem (y_boot y)) -> quiet st m (y_cores y) ->
  y_cores y !! a = Some (InEntry c sz code) -> no_entry (y_cores y) (Some a) -> b_aps st !! a = Some Entered ->
  run sy cr4_bits f c (b_mem (y_boot y)) sz code = Ok (c', m', Some Mpenter) -> entered m (b_stacktop st) c' m' ->
  exists y' st', leads y y' /\ abs_step st (Ap a []) = Ok st' /\ rest y' st'.
Proof.
  induction f as [|f IH]; intros y st m a c sz code c' m' Hi V Q Hc N He Hr Hn; [discriminate Hr|].
  destruct (entry_goes_on y st m a c sz code (S f) c' m' [] Hi V Q Hc N He Hr Hn) as (y1 & f' & [= <-] & H1 & H2).
  assert (L1 : leads y y1) by (by apply (leads_step _ (Ap a []))).
  destruct H2 as [(c1 & sz1 & code1 & V1 & Q1 & C1 & N1 & R1)|(st' & A1 & V1 & Q1 & N1)].
  - destruct (IH y1 st m a c1 sz1 code1 c' m' Hi V1 Q1 C1 N1 He R1 Hn) as (y' & st' & L & A & R).
    exists y', st'. split; [by etransitivity|done].
  - exists y1, st'. split; [done|]. split; [done|]. by split.
Qed.

Lemma lift_step y st x st' :
  inv st -> rest y st -> bchoice_ok x -> abs_step st x = Ok st' -> exists y', leads y y' /\ rest y' st'.
Proof.
  intros Hi (V & Q & N) Hx A. destruct x as [answers|a answers]; cbn [bstep] in A.
  - destruct (quiet_bsp st _ _ answers st' (b_stacktop (y_boot y)) Hi Q Hx A) as (m' & Hs & Q'). rewrite <- V in Hs.
    eexists. split.
    + apply (leads_step _ (Bsp answers) _ Hx). cbn [sys_step]. rewrite Hs. mret. reflexivity.
    + assert (initialised tab (y_boot y) (see st' (b_stacktop (y_boot y)) m') = initialised tab st st') as -> by (rewrite V; reflexivity).
      split; [reflexivity|]. split; [exact Q'|]. intros b c sz code. cbn [y_cores].
      destruct (initialised _ _ _); [|apply N]. intros [_ H]%lookup_delete_Some. exact (N _ _ _ _ H).
  - destruct (decide (b_aps st !! a = Some Entered)) as [He|Hn].
    + destruct (entry_begins y st a [] Hi V Q N He) as (y1 & c & sz & code & f & c' & m' & H1 & V1 & Q1 & C1 & N1 & R1 & E1).
      destruct (entry_ends f y1 st _ a c sz code c' m' Hi V1 Q1 C1 N1 He R1 E1) as (y' & st1 & L & A1 & R).
      cbn [bstep] in A1. unfold mpenter in A, A1. rewrite He in A, A1. rewrite A in A1. injection A1 as <-.
      exists y'. split; [|done]. etransitivity; [|exact L]. by apply (leads_step _ (Ap a [])).
    + assert (Hn' : b_aps (y_boot y) !! a <> Some Entered) by (rewrite V; exact Hn).
      destruct (mpenter_see tab boot_idt ecx st a answers st' (b_stacktop (y_boot y)) (b_mem (y_boot y)) A Hn) as (Hs & _ & _).
      rewrite <- V in Hs. eexists. split.
      * apply (leads_step _ (Ap a answers)); [done|]. cbn [sys_step]. rewrite decide_False by exact Hn'. rewrite Hs. mret. reflexivity.
      * split; [reflexivity|]. split; [by eapply quiet_ap|done].
Qed.

Lemma lift_run xs : forall y st st',
  inv st -> rest y st -> Forall bchoice_ok xs -> brun entry_at (Z.of_nat (length bytes)) tab me boot_idt ecx st xs = Ok st' ->
  exists y', leads y y' /\ rest y' st'.
Proof.
  induction xs as [|x xs IH]; intros y st st' Hi R Hok H; cbn [brun] in H; [injection H as <-; by exists y|].
  apply Forall_cons in Hok as [Hx Hok]. apply res_bind_ok in H as (st1 & A & H).
  destruct (lift_step y st x st1 Hi R Hx A) as (y1 & L1 & R1).
  destruct (IH y1 st1 st' (step_inv _ _ _ Hi Hx A) R1 Hok H) as (y' & L & R'). exists y'. split; [by etransitivity|done].
Qed.

(** *** From the start *)

Lemma sys_start_rest : rest (sys_start tab me m0 ser0) (bstart tab me m0 ser0).
Proof.
  assert (Hw : forall a x, b_aps (bstart tab me m0 ser0) !! a = Some x -> x = WaitSipi).
  { intros a x Hx. unfold bstart in Hx. cbn [b_aps] in Hx. apply elem_of_list_to_map_2, list_elem_of_fmap in Hx as (b & [= _ ->] & _). done. }
  split; [reflexivity|]. split; [|by intros b c sz code H]. split.
  - reflexivity.
  - apply Hsk.
  - by intros a c Hc.
  - intros a x sp Hx Hsp. rewrite (Hw _ _ Hx) in Hsp. discriminate Hsp.
Qed.

Lemma bstart_binv : inv (bstart tab me m0 ser0).
Proof. by apply (brun_binv entry_at bytes tab me boot_idt ecx ids self m0 ser0 [] _ Htab Hent (Forall_nil_2 _)). Qed.

(** The processors can always bring the start to its end. *)
Lemma sim_ends y st : inv st -> sim y st -> exists y', leads y y' /\ b_pc (y_boot y') = BEnd.
Proof.
  intros Hi Hs. assert (exists y1 st1, leads y y1 /\ inv st1 /\ rest y1 st1) as (y1 & st1 & L1 & Hi1 & R1).
  { destruct Hs as [V Q N|m a c sz code f c' m' V Q Hc N He Hr Hn]; [by exists y, st|].
    destruct (entry_ends f y st m a c sz code c' m' Hi V Q Hc N He Hr Hn) as (y' & st' & L & A & R).
    exists y', st'. split; [done|]. split; [by eapply (step_inv st (Ap a []))|done]. }
  destruct Htab as [H1 H2 H3 H4 H5 H6].
  destruct (boot_ends_anywhere entry_at bytes tab me boot_idt ecx ids self m0 ser0 H1 H2 H3 H4 H5 H6 (proj1 Hent) st1 Hi1)
    as (st2 & (xs & Hok & Hr) & Hend).
  destruct (lift_run xs y1 st1 st2 Hi1 R1 Hok Hr) as (y2 & L2 & V2 & _). exists y2. split; [by etransitivity|]. rewrite V2. exact Hend.
Qed.

(** The entry code does not fault. *)
Lemma entry_steps y st a answers :
  inv st -> sim y st -> b_aps (y_boot y) !! a = Some Entered -> exists y', con_step y (Ap a answers) = Ok y'.
Proof.
  intros Hi Hs He'. pose proof (sim_view _ _ Hs) as V0. assert (He : b_aps st !! a = Some Entered) by (rewrite V0 in He'; exact He').
  destruct Hs as [V Q N|m a0 c sz code f c' m' V Q Hc N He0 Hr Hn].
  - destruct (entry_begins y st a answers Hi V Q N He) as (y1 & _ & _ & _ & _ & _ & _ & H1 & _). by exists y1.
  - assert (a0 = a) as -> by by eapply entered_unique.
    destruct (entry_goes_on y st m a c sz code f c' m' answers Hi V Q Hc N He Hr Hn) as (y1 & f' & _ & H1 & _). by exists y1.
Qed.

End Sim.

(** ** Claims *)

(** The image and the memory from which the other processors can be started,
    and the registers they have after INIT and STARTUP. *)
Record startable (sy : symbols) (cr4_bits : Z) (reset : Z -> x86) (entry_at : Z) (bytes : list Z) (m : mem) : Prop := {
  sb_symbols : symbols_ok sy;
  sb_image : image_ok sy m;
  sb_entry : entry_code entry_at bytes m;
  sb_assembled : assembled sy entry_at bytes;
  sb_stacks : stacks_ok sy entry_at bytes m;
  sb_reset : forall a, reset_ok cr4_bits (reset a) /\ seg_l (reset a) = false /\ seg_d (reset a) = false /\
    length (sregs (reset a)) = 5%nat;
}.

(** Runs of the machine are runs of Boot. *)
Lemma sys_run_sim sy cr4_bits reset entry_at bytes tab me boot_idt ecx ids self m ser ys y :
  startable sy cr4_bits reset entry_at bytes m -> table_ok tab me ids self -> Forall bchoice_ok ys ->
  sys_run sy cr4_bits reset entry_at bytes tab me boot_idt ecx (sys_start tab me m ser) ys = Ok y ->
  exists xs st, Forall bchoice_ok xs /\
    brun entry_at (Z.of_nat (length bytes)) tab me boot_idt ecx (bstart tab me m ser) xs = Ok st /\
    binv entry_at bytes boot_idt ids self m ser st /\ sim sy cr4_bits y st.
Proof.
  intros [H1 H2 H3 H4 H5 H6] Htab Hok Hrun.
  eapply (sim_run sy cr4_bits reset entry_at bytes tab me boot_idt ecx ids self m ser H1 Htab H3 H4 H2 H5 H6 ys); [| |exact Hok|exact Hrun].
  - by eapply bstart_binv.
  - destruct (sys_start_rest sy entry_at bytes tab me m ser H5) as (R1 & R2 & R3). by apply sim_quiet.
Qed.

(** C5: the entry code implements the step with which a started processor
    takes its stack, in every interleaving of its instructions with the boot
    processor and the processors already up: a run of the machine that executes
    [sipi_entry], [ap_start32] and [prepare_64] one instruction at a time is a
    run of the start sequence, with the same table, messages and registers and,
    while no processor is in the entry code, the same memory but for the word
    [smp_stacktop] and the stacks; no instruction faults; every processor that
    has called [mpenter] is in 64-bit mode on the identity mapping with its
    return address on its own stack; and the start can always be brought to its
    end. *)
Theorem start_refines sy cr4_bits reset entry_at bytes tab me boot_idt ecx ids self m ser ys y :
  startable sy cr4_bits reset entry_at bytes m -> table_ok tab me ids self -> Forall bchoice_ok ys ->
  sys_run sy cr4_bits reset entry_at bytes tab me boot_idt ecx (sys_start tab me m ser) ys = Ok y ->
  (exists xs st, Forall bchoice_ok xs /\
     brun entry_at (Z.of_nat (length bytes)) tab me boot_idt ecx (bstart tab me m ser) xs = Ok st /\
     y_boot y = see st (b_stacktop (y_boot y)) (b_mem (y_boot y)) /\
     (no_entry (y_cores y) None -> alike (stacks sy) (b_mem st) (b_mem (y_boot y)) /\
        load32 (b_mem (y_boot y)) (sy_smp_stacktop sy) = Ok (b_stacktop st) /\
        forall a x sp, b_aps st !! a = Some x -> stack_at x = Some sp ->
          exists c, y_cores y !! a = Some (InC c) /\ c_ready sy c (b_mem (y_boot y)) MpenterRet /\ rsp c = sp - 8)) /\
  (forall a answers, b_aps (y_boot y) !! a = Some Entered ->
     exists y', sys_step sy cr4_bits reset entry_at bytes tab me boot_idt ecx y (Ap a answers) = Ok y') /\
  exists zs y', Forall bchoice_ok zs /\
    sys_run sy cr4_bits reset entry_at bytes tab me boot_idt ecx y zs = Ok y' /\ b_pc (y_boot y') = BEnd.
Proof.
  intros Hst Htab Hok Hrun. destruct (sys_run_sim _ _ _ _ _ _ _ _ _ _ _ _ _ _ _ Hst Htab Hok Hrun) as (xs & st & Hxs & Hr & Hi & Hs).
  destruct Hst as [H1 H2 H3 H4 H5 H6]. split; [|split].
  - exists xs, st. split; [done|]. split; [done|]. split; [exact (sim_view _ _ _ _ Hs)|]. intros Hno.
    destruct Hs as [V Q N|m1 a c sz code f c' m' V Q Hc]; [|by specialize (Hno _ _ _ _ Hc)].
    split; [apply Q|]. split; [apply Q|]. intros a x sp Hx Hsp. destruct (q_up _ _ _ _ Q a x sp Hx Hsp) as [c Hc].
    destruct (q_c _ _ _ _ Q a c Hc) as (C1 & _ & _ & x' & Hx' & Hsp'). rewrite Hx in Hx'. injection Hx' as <-. rewrite Hsp in Hsp'.
    exists c. split; [exact Hc|]. split; [exact C1|]. injection Hsp' as ->. lia.
  - intros a answers. by eapply (entry_steps sy cr4_bits reset entry_at bytes tab me boot_idt ecx ids self m ser).
  - destruct (sim_ends sy cr4_bits reset entry_at bytes tab me boot_idt ecx ids self m ser H1 Htab H3 H4 H2 H5 H6 y st Hi Hs)
      as (y' & (zs & Hzs & Hz) & Hend). by exists zs, y'.
Qed.

(** ** Witnesses *)

(** The image of Cstart, with the low memory and the stacks. *)
Definition demo_around : mem :=
  write_bytes ∅ 0 (replicate (Z.to_nat 1200) 0) ∪ write_bytes ∅ 397304 (replicate (Z.to_nat 258056) 0).
Definition demo_whole : mem := Cstart.demo_image 0xa0000 ∪ demo_around.

Lemma demo_whole_low : mapped demo_whole 0 1200.
Proof.
  apply union_mapped. intros x Hx. unfold demo_around. rewrite lookup_union. apply union_is_Some. left.
  by apply (replicate_mapped 0 1200).
Qed.

Lemma demo_whole_stacks : mapped demo_whole 397304 258056.
Proof. do 2 apply union_mapped. by apply replicate_mapped. Qed.

Lemma demo_whole_bytes a : a = 0x1000a0 -> bytes_at demo_whole a demo_bytes.
Proof.
  intros ->. apply (bytes_at_weaken (Cstart.demo_image 0xa0000)); [apply map_union_subseteq_l|].
  eapply bytes_at_frame; [intros x Hx; apply demo_out; change (Z.of_nat (length demo_bytes)) with 54 in Hx; lia|].
  apply bytes_at_b_spec. vm_compute. reflexivity.
Qed.

Lemma demo_assembled : assembled demo_symbols 0x1000a0 demo_bytes.
Proof.
  split; [|reflexivity|by vm_compute]. eexists. split; [|unfold demo_bytes; reflexivity]. reflexivity.
Qed.

Lemma demo_slot k : (k < 64)%nat -> 397304 <= slot k /\ slot k + 8 <= 655360.
Proof. unfold slot, smp_stacktop. lia. Qed.

Lemma demo_stacks_ok m :
  load32 m 0x10009c = Ok smp_stacktop -> mapped m 397304 258056 -> stacks_ok demo_symbols 0x1000a0 demo_bytes m.
Proof.
  intros Hw Hm. split.
  - split; [vm_compute; discriminate|]. split; [vm_compute; discriminate|]. apply demo_apart. cbn. lia.
  - left. vm_compute. discriminate.
  - exact Hw.
  - intros k Hk. pose proof (demo_slot k Hk). split; [apply demo_apart; lia|]. split; [eapply mapped_sub; [exact Hm|lia|lia]|].
    unfold disjoint_ranges. change (Z.of_nat (length demo_bytes)) with 54. cbn [demo_symbols sy_smp_stacktop]. lia.
  - repeat (apply Forall_cons; split; [cbn; lia|]). done.
Qed.

Lemma demo_aps : reset_ok 0x6f0 demo_ap /\ seg_l demo_ap = false /\ seg_d demo_ap = false /\ length (sregs demo_ap) = 5%nat.
Proof. split; [apply demo_reset|]. done. Qed.

Lemma image_mono sy (m m' : mem) : m ⊆ m' -> image_ok sy m -> image_ok sy m'.
Proof.
  intros Hs [I1 I2 I3 I4 I5 I6 I7].
  assert (Hl : forall n a v, load_le n m a = Ok v -> load_le n m' a = Ok v) by (intros n a v; by apply load_mono).
  assert (Hw : forall ws a, words_at m a ws -> words_at m' a ws).
  { intros ws. induction ws as [|w ws IH]; intros a; [done|]. cbn [words_at]. intros [H1 H2]. split; [by apply (Hl 8%nat)|by apply IH]. }
  split; first [by apply Hw|by apply (Hl 4%nat)|by apply (Hl 2%nat)].
Qed.

Lemma demo_startable : startable demo_symbols 0x6f0 (fun _ => demo_ap) 0x1000a0 demo_bytes demo_whole.
Proof.
  split.
  - exact demo_symbols_ok.
  - eapply image_mono; [apply map_union_subseteq_l|exact demo_image_ok].
  - split; [split; [by_eval|by vm_compute]|]. split.
    + eapply mapped_sub; [exact demo_whole_low|by vm_compute|by vm_compute].
    + by apply demo_whole_bytes.
    + eapply mapped_sub; [exact demo_whole_low|by vm_compute|by vm_compute].
    + done.
  - exact demo_assembled.
  - apply demo_stacks_ok; [|exact demo_whole_stacks].
    apply (load_mono 4 (Cstart.demo_image 0xa0000)); [apply map_union_subseteq_l|].
    apply (demo_load _ 4); [cbn; lia|]. vm_compute. reflexivity.
  - intros a. exact demo_aps.
Qed.

Definition demo_pair : mpstate := mkMp ([0; 1] ++ replicate 62 0) 2 0 4276092928.

Lemma demo_pair_ok : table_ok demo_pair 0 [0; 1] 0.
Proof. split; [reflexivity|by vm_compute|reflexivity|by_eval|by_eval|reflexivity]. Qed.

Lemma start_refines_witness :
  exists zs y', sys_run demo_symbols 0x6f0 (fun _ => demo_ap) 0x1000a0 demo_bytes demo_pair 0 4096 0
    (sys_start demo_pair 0 demo_whole (mkSerial 0 0 (mkIo [] []))) zs = Ok y' /\ b_pc (y_boot y') = BEnd.
Proof.
  destruct (start_refines demo_symbols 0x6f0 (fun _ => demo_ap) 0x1000a0 demo_bytes demo_pair 0 4096 0 [0; 1] 0 demo_whole
    (mkSerial 0 0 (mkIo [] [])) [] _ demo_startable demo_pair_ok (Forall_nil_2 _) eq_refl) as (_ & _ & zs & y' & _ & Hz & Hend).
  exists zs, y'. split; [exact Hz|exact Hend].
Defined.
