(* ===== verification/Host.v ===== *)
(** * host/host.c: the program that times the guest

    The host program reads the guest's serial output on its standard input,
    waits for the line that announces the benchmarks, and for every benchmark
    reads its name and iteration count and the time between two marks. The
    standard input is a list of bytes that ends, the time stamp counter a list
    of readings, the standard output the text printed so far. What the program
    uses of the C library ([getline], [fgetc], [fscanf], [printf]) follows its
    documentation; a left-justified conversion of [printf] is [pad_right]. *)

From stdpp Require Import base gmap list numbers strings.
From Stdlib Require Import ZArith Lia.
From S2P Require Import Prelude Mem CString Printf Stdio Tsc.

#[local] Open Scope Z_scope.

Record hio := mkHio {
  h_in : list Z;
  h_tsc : list Z;
  h_out : list Z;
}.

Definition with_in (s : hio) (l : list Z) : hio := mkHio l (h_tsc s) (h_out s).
Definition print (s : hio) (t : list Z) : hio := mkHio (h_in s) (h_tsc s) (h_out s ++ t).

(** ** The C library *)

(** The characters [isspace] accepts. *)
Definition is_space (c : Z) : bool := (c =? 32) || ((9 <=? c) && (c <=? 13)).

Fixpoint skip_space (l : list Z) : list Z :=
  match l with
  | c :: l' => if is_space c then skip_space l' else l
  | [] => []
  end.

(** The longest prefix of characters that [f] accepts, and the rest. *)
Fixpoint span (f : Z -> bool) (l : list Z) : list Z * list Z :=
  match l with
  | c :: l' => if f c then let '(t, r) := span f l' in (c :: t, r) else ([], l)
  | [] => ([], [])
  end.

(** [getline]: up to and with the next newline; nothing at the end of the
    input. *)
Definition getline (l : list Z) : option (list Z * list Z) :=
  match l with
  | [] => None
  | _ => let '(t, r) := span (fun c => negb (c =? LF)) l in
         match r with
         | nl :: r' => Some (t ++ [nl], r')
         | [] => Some (t, [])
         end
  end.

(** [fgetc], -1 at the end of the input. *)
Definition fgetc (l : list Z) : Z * list Z :=
  match l with
  | c :: l' => (c, l')
  | [] => (-1, [])
  end.

(** The C string that starts a buffer. *)
Definition until_nul (l : list Z) : list Z := (span (fun c => negb (c =? 0)) l).1.

(** A conversion of [fscanf]: the value, or that it failed, and the rest. *)
Definition scan_s (l : list Z) : option (list Z) * list Z :=
  let '(t, r) := span (fun c => negb (is_space c)) (skip_space l) in
  (match t with [] => None | _ => Some t end, r).

Definition digitb (c : Z) : bool := (48 <=? c) && (c <=? 57).

(** [%lld]; a number out of range is cut to the nearest [long long]. *)
Definition scan_lld (l : list Z) : option Z * list Z :=
  let l := skip_space l in
  let '(neg, l) := match l with
                   | c :: l' => if c =? 45 then (true, l') else if c =? 43 then (false, l') else (false, l)
                   | [] => (false, l)
                   end in
  let '(t, r) := span digitb l in
  match t with
  | [] => (None, r)
  | _ => let v := digits_val 0 t in
         (Some (Z.max (-9223372036854775808) (Z.min 9223372036854775807 (if neg : bool then - v else v))), r)
  end.

(** ** host.c *)

Definition STR_BENCHMARK_BEGIN : list Z := bytes_of_string "[BENCHMARKS BEGIN]" ++ [CR; LF].
Definition STR_BENCHMARK_END : list Z := bytes_of_string "[BENCHMARKS END]" ++ [CR; LF].

(** The loop of [read_start]: every round takes at least a byte of the input. *)
Fixpoint start_loop (fuel : nat) (s : hio) (str : list Z) : res (hio * Z) :=
  match fuel with
  | O => Err Fuel
  | S f =>
      match getline (h_in s) with
      | None => Ok (s, 1)
      | Some (l, r) =>
          let s := with_in s r in
          if bool_decide (until_nul l = str) then Ok (print s str, 0) else start_loop f s str
      end
  end.

Definition read_start (s : hio) (str : list Z) : res (hio * Z) :=
  start_loop (S (length (h_in s))) s str.

(** One character, 0 when it is not one of those the switch lists. *)
Definition read_symbol (s : hio) : hio * Z :=
  let '(c, r) := fgetc (h_in s) in
  (with_in s r, if (c =? chr "[") || (c =? chr "{") || (c =? chr "*") then c else 0).

Definition read_time_start_char (s : hio) : hio * Z :=
  let '(c, r) := fgetc (h_in s) in
  (with_in s r, if (c =? chr "[") || (c =? chr "{") then c else 0).

(** At the end of the input [fgetc] returns EOF for ever. *)
Fixpoint end_loop (l : list Z) (target : Z) : res (list Z) :=
  match l with
  | [] => Err Hang
  | c :: l' => if c =? target then Ok l' else end_loop l' target
  end.

Definition read_time_end_char (s : hio) (target : Z) : res (hio * Z) :=
  r ← end_loop (h_in s) target; Ok (with_in s r, target).

(** The two arrays have 128 bytes; [%s] does not stop at their end. *)
Definition read_benchmark (s : hio) : res (hio * Z) :=
  let '(category, r) := scan_s (h_in s) in
  match category with
  | None => Ok (with_in s r, 1)
  | Some category =>
      if (128 <=? length category)%nat then Err Undef
      else
        let '(benchmark, r) := scan_s r in
        match benchmark with
        | None => Ok (with_in s r, 1)
        | Some benchmark =>
            if (128 <=? length benchmark)%nat then Err Undef
            else
              let '(iterations, r) := scan_lld r in
              match iterations with
              | None => Ok (with_in s r, 1)
              | Some iterations =>
                  let s := with_in s (skip_space r) in
                  Ok (print s (pad_right 15 category ++ pad_right 20 benchmark ++
                               pad_right 15 (num_text (u64 iterations) 10)), 0)
              end
        end
  end.

(** [output] is what the command prints, if [popen] can run it: the first 512
    bytes of it go to a static buffer, which is zero behind them. Without a
    zero in the buffer [%s] runs past its end. *)
Definition do_command (s : hio) (output : option (list Z)) : res hio :=
  match output with
  | None => Ok s
  | Some out =>
      let text := until_nul (take 512 out) in
      if (512 <=? length text)%nat then Err Undef
      else Ok (print s (bytes_of_string "PIN:" ++ text ++ [LF]))
  end.

(** [before] and [after] read the counter; [main] puts the halves together. *)
Definition read_tsc (s : hio) : res (hio * Z) :=
  match h_tsc s with
  | v :: t => Ok (mkHio (h_in s) t (h_out s), cycles (tsc_high v) (tsc_low v))
  | [] => Err Fuel
  end.

(** The readings of a pair of marks, when the first mark is there. A variable
    that was never set holds nothing. *)
Definition timed (s : hio) (open close : Z) (vars : option (Z * Z)) : res (hio * option (Z * Z)) :=
  let '(s, c) := read_time_start_char s in
  if c =? open then
    '(s, t0) ← read_tsc s;
    '(s, _) ← read_time_end_char s close;
    '(s, t1) ← read_tsc s;
    Ok (s, Some (t0, t1))
  else Ok (s, vars).

(** The numbers [main] prints for a benchmark. *)
Definition report (s : hio) (control kernel : option (Z * Z)) : res hio :=
  '(start, end_) ← of_option Undef control;
  '(start1, end1) ← of_option Undef kernel;
  let time_control := u64 (end_ - start) in
  let time_kernel := u64 (end1 - start1) in
  Ok (print s (pad_right 15 (num_text time_control 10) ++ pad_right 15 (num_text time_kernel 10) ++
               dec_text (s64 (time_kernel - time_control)) ++ [CR; LF])).

(** [while(!read_benchmark())]: every round takes a byte of the input. *)
Fixpoint main_loop (fuel : nat) (s : hio) (control kernel : option (Z * Z)) : res hio :=
  match fuel with
  | O => Err Fuel
  | S f =>
      '(s, r) ← read_benchmark s;
      if r =? 0 then
        '(s, control) ← timed s (chr "{") (chr "}") control;
        '(s, kernel) ← timed s (chr "[") (chr "]") kernel;
        s ← report s control kernel;
        main_loop f s control kernel
      else Ok s
  end.

Definition table_header : list Z :=
  pad_right 15 (bytes_of_string "category") ++ pad_right 20 (bytes_of_string "benchmark") ++
  pad_right 15 (bytes_of_string "iterations") ++ pad_right 15 (bytes_of_string "control-time") ++
  pad_right 15 (bytes_of_string "kernel-time") ++ bytes_of_string "cycles" ++ [CR; LF].

(** [pin] is the output of the pinning script. *)
Definition host_main (s : hio) (pin : option (list Z)) : res hio :=
  '(s, r) ← read_start s (bytes_of_string "*" ++ [CR; LF]);
  s ← (if r =? 0 then do_command s pin else Ok s);
  '(s, r) ← read_start s STR_BENCHMARK_BEGIN;
  s ← (if r =? 0 then main_loop (S (length (h_in s))) (print s table_header) None None else Ok s);
  '(s, _) ← read_start s STR_BENCHMARK_END;
  Ok s.
