(* ===== verification/Harness.v ===== *)
(** * harness/harness.c: running the benchmarks

    [harness_main] asks the host to pin the processors, waits, and runs every
    benchmark of the table between marks that the host times; in the build with
    __BARE_METAL it reads the time stamp counter itself. The functions of a
    benchmark act on a machine [M] with a serial line; the benchmarks
    themselves are in Bench. *)

From stdpp Require Import base gmap list numbers strings.
From Stdlib Require Import ZArith Lia.
From S2P Require Import Prelude Mem CString Printf Serial Stdio Tsc.

#[local] Open Scope Z_scope.

(** What a machine offers the harness: [emit] is what [printf] does with a
    formatted text, on the line or on the console, and [rdtsc] reads the time
    stamp counter. [text] is all that was printed, [readings] what the counter
    will read. *)
Class Machine (M : Type) := {
  emit : M -> list Z -> M;
  rdtsc : M -> res (M * Z);
  text : M -> list Z;
  readings : M -> list Z;
  emit_text : forall m t, text (emit m t) = text m ++ t;
  emit_readings : forall m t, readings (emit m t) = readings m;
  rdtsc_next : forall m v r, readings m = v :: r ->
    exists m', rdtsc m = Ok (m', v) /\ readings m' = r /\ text m' = text m;
  rdtsc_none : forall m, readings m = [] -> rdtsc m = Err Fuel;
}.

(** [benchmark_t]; [init] may be null. *)
Record benchmark_t (M : Type) := mkBench {
  b_name : list Z;
  b_category : list Z;
  b_init : option (M -> res M);
  b_benchmark : M -> res M;
  b_control : M -> res M;
  b_cleanup : M -> res M;
  b_iterations : Z;
}.

Arguments mkBench {M}.
Arguments b_name {M}.
Arguments b_category {M}.
Arguments b_init {M}.
Arguments b_benchmark {M}.
Arguments b_control {M}.
Arguments b_cleanup {M}.
Arguments b_iterations {M}.

Definition STR_BENCHMARK_BEGIN : list Z := bytes_of_string "[BENCHMARKS BEGIN]" ++ [CR; LF].
Definition STR_BENCHMARK_END : list Z := bytes_of_string "[BENCHMARKS END]" ++ [CR; LF].

Section Harness.

Context `{Machine M}.

(** [printf]: what fits its buffer is emitted. *)
Definition mprintf (strs : Z -> option (list Z)) (m : M) (fmt va : list Z) : res M :=
  t ← format strs fmt va; Ok (emit m (take 1999 t)).

(** Two string arguments, at the addresses 1 and 2. *)
Definition two_strs (a b : list Z) (x : Z) : option (list Z) :=
  if x =? 1 then Some a else if x =? 2 then Some b else None.

(** [currentcycles]: the constraint "=A" names RAX alone in 64-bit code, so the
    result is the low half of the counter. *)
Definition currentcycles (m : M) : res (M * Z) := '(m, v) ← rdtsc m; Ok (m, u32 v).

Section Config.

Context (bare_metal : bool).

(** A mark for the host, or a reading of the counter, of which [start] and its
    like are the halves put together. *)
Definition mark (m : M) (text : list Z) : res (M * Z) :=
  if bare_metal then '(m, v) ← rdtsc m; Ok (m, cycles (tsc_high v) (tsc_low v))
  else m ← mprintf no_strs m text []; Ok (m, 0).

Definition harness_execute (m : M) (b : benchmark_t M) : res M :=
  m ← mprintf (two_strs (b_category b) (b_name b)) m (bytes_of_string "%-15s%-15s") [1; 2];
  m ← (match b_init b with Some f => f m | None => Ok m end);
  m ← mprintf no_strs m (bytes_of_string "%-10ld") [b_iterations b];
  '(m, start) ← mark m (bytes_of_string "{");
  m ← b_control b m;
  '(m, end_) ← mark m (bytes_of_string "}");
  '(m, start1) ← mark m (bytes_of_string "[");
  m ← b_benchmark b m;
  '(m, end1) ← mark m (bytes_of_string "]" ++ [CR; LF]);
  m ← b_cleanup b m;
  if bare_metal then
    let time_control := u64 (end_ - start) in
    let time_kernel := u64 (end1 - start1) in
    m ← mprintf no_strs m (bytes_of_string "%-15lu") [time_control];
    m ← mprintf no_strs m (bytes_of_string "%-15lu") [time_kernel];
    mprintf no_strs m (line "%ld") [u64 (time_kernel - time_control)]
  else Ok m.

(** [while(cycles2 - cycles1 < 60000000000) cycles2 = currentcycles();] *)
Fixpoint wait_loop (fuel : nat) (m : M) (cycles1 cycles2 : Z) : res M :=
  if u64 (cycles2 - cycles1) <? 60000000000 then
    match fuel with
    | O => Err Fuel
    | S f => '(m, c) ← currentcycles m; wait_loop f m cycles1 c
    end
  else Ok m.

Definition wait_for_pin (fuel : nat) (m : M) : res M :=
  if bare_metal then Ok m
  else '(m, c) ← currentcycles m; wait_loop fuel m c c.

Fixpoint run_all (m : M) (bs : list (benchmark_t M)) : res M :=
  match bs with
  | [] => Ok m
  | b :: bs' => m ← harness_execute m b; run_all m bs'
  end.

(** [bs] is the section the linker collects the benchmarks in; [fuel] bounds
    the readings of the counter in the wait. *)
Definition harness_main (fuel : nat) (m : M) (bs : list (benchmark_t M)) : res M :=
  m ← mprintf no_strs m (bytes_of_string "*" ++ [CR; LF]) [];
  m ← wait_for_pin fuel m;
  m ← mprintf (fun x => if x =? 1 then Some (bytes_of_string "category")
                        else if x =? 2 then Some (bytes_of_string "name")
                        else if x =? 3 then Some (bytes_of_string "iteration") else None)
        m (bytes_of_string "%-15s%-15s%-10s" ++ [CR; LF]) [1; 2; 3];
  m ← mprintf no_strs m STR_BENCHMARK_BEGIN [];
  m ← run_all m bs;
  m ← mprintf no_strs m STR_BENCHMARK_END [];
  mprintf no_strs m STR_BENCHMARK_END [].

End Config.

(** ** What is printed *)

(** The line of a benchmark: [oi], [oc], [ob] and [ol] are what its four
    functions print. *)
Definition row (category name : list Z) (iterations : Z) (oi oc ob ol : list Z) : list Z :=
  pad_right 15 category ++ pad_right 15 name ++ oi ++ pad_right 10 (dec_text iterations) ++
  [chr "{"] ++ oc ++ [chr "}"] ++ [chr "["] ++ ob ++ [chr "]"; CR; LF] ++ ol.

Definition preamble : list Z :=
  bytes_of_string "*" ++ [CR; LF] ++ pad_right 15 (bytes_of_string "category") ++
  pad_right 15 (bytes_of_string "name") ++ pad_right 10 (bytes_of_string "iteration") ++ [CR; LF] ++
  STR_BENCHMARK_BEGIN.

Definition transcript (rows : list (list Z)) : list Z :=
  preamble ++ concat rows ++ STR_BENCHMARK_END ++ STR_BENCHMARK_END.

Lemma mprintf_text m strs fmt va t :
  format strs fmt va = Ok t -> (length t <= 1999)%nat -> mprintf strs m fmt va = Ok (emit m t).
Proof. intros Hf Hl. unfold mprintf. rewrite Hf. mret. by rewrite take_ge. Qed.

(** A text without directives. *)
Lemma mprintf_plain m t :
  Forall (fun c => c <> chr "%") t -> (length t <= 1999)%nat -> mprintf no_strs m t [] = Ok (emit m t).
Proof.
  intros Ht Hl. apply mprintf_text; [|done]. rewrite <- (app_nil_r t), format_plain by done.
  change (format no_strs [] []) with (Ok (A := list Z) []). mret. by rewrite !app_nil_r.
Qed.

(** *** Directives with a width *)

Lemma format_go_cons strs f l skip mode va :
  format_go strs (f :: l) skip mode va =
  match skip, mode with
  | S k, _ => format_go strs l k mode va
  | O, None =>
      if f =? chr "%" then format_go strs l O (Some (0, props0)) va
      else out ← format_go strs l O None va; Ok (f :: out)
  | O, Some (nlong, props) =>
      if f =? chr "#" then format_go strs l O (Some (nlong, mkProps (pad props) (npad props) true)) va
      else if f =? chr "0" then
        num ← atol_text l;
        format_go strs l (fmtnum_len l) (Some (nlong, mkProps 48 (s32 num) (alternate props))) va
      else if ((chr "1" <=? f) && (f <=? chr "9")) || (f =? chr "-") then
        num ← atol_text (f :: l);
        format_go strs l (fmtnum_len (f :: l) - 1)
          (Some (nlong, mkProps (pad props) (s32 num) (alternate props))) va
      else if f =? chr "l" then format_go strs l O (Some (nlong + 1, props)) va
      else if (f =? chr "t") || (f =? chr "z") then format_go strs l O (Some (1, props)) va
      else '(t, va) ← conv_text strs f nlong props va; out ← format_go strs l O None va; Ok (t ++ out)
  end.
Proof. reflexivity. Qed.

(** After a percent sign, a minus and two digits, the width is set. *)
Lemma format_width strs d1 d2 c l va :
  48 <= d1 <= 57 -> 48 <= d2 <= 57 -> c < 48 \/ 57 < c ->
  format strs (37 :: 45 :: d1 :: d2 :: c :: l) va =
  format_go strs (c :: l) O (Some (0, mkProps 32 (- (10 * (d1 - 48) + (d2 - 48))) false)) va.
Proof.
  intros H1 H2 Hc. unfold format. rewrite format_go_cons. ctests. rewrite format_go_cons. ctests.
  assert (Ha : atol_text (45 :: d1 :: d2 :: c :: l) = Ok (- (10 * (d1 - 48) + (d2 - 48)))).
  { unfold atol_text. change (skip_blanks (45 :: d1 :: d2 :: c :: l)) with (45 :: d1 :: d2 :: c :: l).
    change (45 =? 45) with true. cbn [read_digits].
    rewrite (proj2 (Z.ltb_ge d1 48)), (proj2 (Z.ltb_ge 57 d1)), (proj2 (Z.ltb_ge d2 48)), (proj2 (Z.ltb_ge 57 d2)) by lia.
    cbn [orb]. rewrite (long_chk_ok (0 * 10)) by lia. mret. rewrite (long_chk_ok (_ + (d1 - 48))) by lia. mret.
    rewrite (long_chk_ok (_ * 10)) by lia. mret. rewrite (long_chk_ok (_ + (d2 - 48))) by lia. mret.
    assert (Hor : (c <? 48) || (57 <? c) = true).
    { destruct Hc; [rewrite (proj2 (Z.ltb_lt c 48)) by lia|rewrite (proj2 (Z.ltb_lt 57 c)) by lia]; [done|apply orb_true_r]. }
    rewrite Hor. mret. rewrite long_chk_ok by lia. f_equal. lia. }
  rewrite Ha. mret. cbn [fmtnum_len count_digits]. change (45 =? 45) with true. cbn iota.
  rewrite (proj2 (Z.leb_le 48 d1)), (proj2 (Z.leb_le d1 57)), (proj2 (Z.leb_le 48 d2)), (proj2 (Z.leb_le d2 57)) by lia.
  assert (Hand : (48 <=? c) && (c <=? 57) = false).
  { destruct Hc; [rewrite (proj2 (Z.leb_gt 48 c)) by lia|rewrite (proj2 (Z.leb_gt c 57)) by lia]; [done|apply andb_false_r]. }
  rewrite Hand. cbn [andb Nat.sub]. rewrite format_go_cons, format_go_cons. cbn [props0 pad alternate].
  by rewrite s32_small by lia.
Qed.

Lemma conv_s strs w x body l va :
  strs (u64 x) = Some body ->
  format_go strs (chr "s" :: l) O (Some (0, mkProps 32 (- Z.of_nat w) false)) (x :: va) =
  (out ← format strs l va; Ok (pad_right w body ++ out)).
Proof.
  intros Hs. rewrite format_go_cons. ctests. unfold conv_text. ctests. cbn [va_arg]. mret.
  rewrite Hs. cbn [of_option]. mret. by rewrite pad_text_right.
Qed.

Lemma conv_ld strs w x l va :
  -9223372036854775808 < x <= 9223372036854775807 ->
  format_go strs (chr "l" :: chr "d" :: l) O (Some (0, mkProps 32 (- Z.of_nat w) false)) (x :: va) =
  (out ← format strs l va; Ok (pad_right w (dec_text x) ++ out)).
Proof.
  intros Hx. rewrite format_go_cons. ctests. rewrite format_go_cons. ctests. unfold conv_text. ctests. cbn [va_arg]. mret.
  change (va_signed (0 + 1) x) with (s64 x). replace (s64 x) with x by mach. unfold int_text.
  rewrite (proj2 (Z.eqb_neq x _)) by lia. mret. by rewrite pad_text_right.
Qed.

Lemma format_names a b :
  format (two_strs a b) (bytes_of_string "%-15s%-15s") [1; 2] = Ok (pad_right 15 a ++ pad_right 15 b).
Proof.
  change (bytes_of_string "%-15s%-15s") with (37 :: 45 :: 49 :: 53 :: 115 :: 37 :: 45 :: 49 :: 53 :: 115 :: []).
  rewrite format_width by lia. change (- (10 * (49 - 48) + (53 - 48))) with (- Z.of_nat 15).
  rewrite (conv_s _ 15 1 a) by done. rewrite format_width by lia.
  change (- (10 * (49 - 48) + (53 - 48))) with (- Z.of_nat 15). rewrite (conv_s _ 15 2 b) by done.
  change (format (two_strs a b) [] []) with (Ok (A := list Z) []). mret. by rewrite app_nil_r.
Qed.

Lemma format_count n :
  -9223372036854775808 < n <= 9223372036854775807 ->
  format no_strs (bytes_of_string "%-10ld") [n] = Ok (pad_right 10 (dec_text n)).
Proof.
  intros Hn. change (bytes_of_string "%-10ld") with (37 :: 45 :: 49 :: 48 :: 108 :: 100 :: []).
  rewrite format_width by lia. change (- (10 * (49 - 48) + (48 - 48))) with (- Z.of_nat 10).
  rewrite (conv_ld _ 10) by done. change (format no_strs [] []) with (Ok (A := list Z) []). mret. by rewrite app_nil_r.
Qed.

(** ** The wait for the host *)

Lemma wait_test c1 c2 : (u64 (u32 c2 - u32 c1) <? 60000000000) = (u32 c1 <=? u32 c2).
Proof.
  assert (0 <= u32 c1 < 4294967296 /\ 0 <= u32 c2 < 4294967296) as [H1 H2] by mach.
  destruct (Z.leb_spec (u32 c1) (u32 c2)).
  - rewrite u64_small by lia. apply Z.ltb_lt. lia.
  - apply Z.ltb_ge. unfold u64. rewrite <- (Z.mod_add _ 1), Z.mod_small by lia. lia.
Qed.

(** [c] is the first reading, [x] the last. *)
Lemma wait_loop_iff fuel : forall m c x,
  (exists m', wait_loop fuel m (u32 c) (u32 x) = Ok m') <->
  u32 x < u32 c \/ (exists mid w rest, readings m = mid ++ w :: rest /\
    Forall (fun v => u32 c <= u32 v) mid /\ u32 w < u32 c /\ (length mid < fuel)%nat) /\ u32 c <= u32 x.
Proof.
  induction fuel as [|fuel IH]; intros m c x; cbn [wait_loop]; rewrite wait_test;
    destruct (Z.leb_spec (u32 c) (u32 x)) as [Hx|Hx].
  - split; [by intros [m' ?]|]. intros [?|[(mid & w & rest & _ & _ & _ & ?) _]]; lia.
  - split; [by left|]. by exists m.
  - unfold currentcycles. destruct (readings m) as [|v rs] eqn:Hr.
    + rewrite (rdtsc_none _ Hr). split; [by intros [m' ?]|].
      intros [?|[(mid & w & rest & Hm & _) _]]; [lia|]. by destruct mid.
    + destruct (rdtsc_next _ _ _ Hr) as (m1 & -> & Hr1 & _). mret. rewrite IH, Hr1. split.
      * intros [Hv|[(mid & w & rest & -> & Hm & Hw & Hl) Hv]]; right; (split; [|done]).
        -- exists [], v, rs. repeat split; [constructor|done|simpl; lia].
        -- exists (v :: mid), w, rest. repeat split; [by constructor|done|simpl; lia].
      * intros [?|[(mid & w & rest & Hm & Hf & Hw & Hl) _]]; [lia|]. destruct mid as [|y mid]; injection Hm as -> ->.
        -- by left.
        -- apply Forall_cons in Hf as [Hy Hf]. right. split; [|done]. exists mid, w, rest.
           repeat split; try done. simpl in Hl. lia.
  - split; [by left|]. by exists m.
Qed.

(** A run of the wait keeps the text and an invariant that readings keep. *)
Lemma wait_reaches (inv : M -> Prop) fuel m c rs :
  (forall m m' v, inv m -> rdtsc m = Ok (m', v) -> inv m') -> inv m -> readings m = c :: rs ->
  (exists mid w rest, rs = mid ++ w :: rest /\ Forall (fun v => u32 c <= u32 v) mid /\ u32 w < u32 c /\ (length mid < fuel)%nat) ->
  exists m', wait_for_pin false fuel m = Ok m' /\ inv m' /\ text m' = text m.
Proof.
  intros Hrd Hm Hr Hw.
  assert (Hloop : forall f m x m', inv m -> wait_loop f m (u32 c) x = Ok m' -> inv m' /\ text m' = text m).
  { induction f as [|f IH]; intros m2 x m' Hm2; cbn [wait_loop]; destruct (_ <? _); try done;
      try (by intros [= <-]).
    unfold currentcycles. destruct (readings m2) as [|v r] eqn:Hr2; [by rewrite (rdtsc_none _ Hr2)|].
    destruct (rdtsc_next _ _ _ Hr2) as (m3 & H3 & _ & T3). rewrite H3. mret. intros Hrun.
    destruct (IH m3 _ m' (Hrd _ _ _ Hm2 H3) Hrun) as [I T]. by rewrite T, T3. }
  unfold wait_for_pin, currentcycles. destruct (rdtsc_next _ _ _ Hr) as (m1 & H1 & Hr1 & T1). rewrite H1. mret.
  destruct (proj2 (wait_loop_iff fuel m1 c c)) as [m' Hm']; [right; rewrite Hr1; split; [done|lia]|].
  exists m'. split; [done|]. destruct (Hloop _ _ _ _ (Hrd _ _ _ Hm H1) Hm') as [I T]. by rewrite T, T1.
Qed.

(** ** One benchmark *)

(** Printing keeps [P]. *)
Definition stable (P : M -> Prop) : Prop := forall m t, P m -> P (emit m t).

(** From [P], the function returns with [Q] and prints [o]. *)
Definition behaves (P : M -> Prop) (f : M -> res M) (o : list Z) (Q : M -> Prop) : Prop :=
  forall m, P m -> exists m', f m = Ok m' /\ Q m' /\ text m' = text m ++ o.

Definition init_behaves (P : M -> Prop) (f : option (M -> res M)) (o : list Z) (Q : M -> Prop) : Prop :=
  match f with Some f => behaves P f o Q | None => o = [] /\ forall m, P m -> Q m end.

(** From [P], the benchmark [b] runs to [Q] and its line is [r]: its functions
    run in the order of [harness_execute], each from what the one before
    left. *)
Definition runs_as (P : M -> Prop) (b : benchmark_t M) (r : list Z) (Q : M -> Prop) : Prop :=
  (length (b_category b) <= 900)%nat /\ (length (b_name b) <= 900)%nat /\
  -9223372036854775808 < b_iterations b <= 9223372036854775807 /\
  exists R1 R2 R3 oi oc ob ol,
    (stable R1 /\ stable R2 /\ stable R3) /\
    init_behaves P (b_init b) oi R1 /\ behaves R1 (b_control b) oc R2 /\
    behaves R2 (b_benchmark b) ob R3 /\ behaves R3 (b_cleanup b) ol Q /\
    r = row (b_category b) (b_name b) (b_iterations b) oi oc ob ol.

(** The benchmarks of a table, each from what the one before left. *)
Inductive table_runs : (M -> Prop) -> list (benchmark_t M) -> list (list Z) -> (M -> Prop) -> Prop :=
  | table_end P : table_runs P [] [] P
  | table_next P b r Q bs rows R :
      runs_as P b r Q -> stable Q -> table_runs Q bs rows R -> table_runs P (b :: bs) (r :: rows) R.

Lemma length_pad_right w t : length (pad_right w t) = Nat.max w (length t).
Proof. unfold pad_right. rewrite length_app, length_replicate. lia. Qed.

Lemma mark_text m t :
  Forall (fun c => c <> chr "%") t -> (length t <= 1999)%nat -> mark false m t = Ok (emit m t, 0).
Proof. intros Ht Hl. unfold mark. by rewrite mprintf_plain. Qed.

Lemma execute_row P Q b r m :
  stable P -> runs_as P b r Q -> P m ->
  exists m', harness_execute false m b = Ok m' /\ Q m' /\ text m' = text m ++ r.
Proof.
  intros SP (Hc & Hn & Hit & R1 & R2 & R3 & oi & oc & ob & ol & (S1 & S2 & S3) & Bi & Bc & Bb & Bl & ->) Hm.
  unfold harness_execute.
  rewrite (mprintf_text _ _ _ _ _ (format_names _ _)) by (rewrite length_app, !length_pad_right; lia). mret.
  set (names := pad_right 15 (b_category b) ++ pad_right 15 (b_name b)).
  assert (Hinit : exists m1, match b_init b with Some f => f (emit m names) | None => Ok (emit m names) end = Ok m1 /\
      R1 m1 /\ text m1 = text m ++ names ++ oi).
  { destruct (b_init b) as [f|]; cbn [init_behaves] in Bi.
    - destruct (Bi _ (SP _ names Hm)) as (m1 & H1 & H2 & H3).
      exists m1. split; [done|]. split; [done|]. by rewrite H3, emit_text, <- app_assoc.
    - destruct Bi as [-> Bi]. eexists. split; [done|]. split; [by apply Bi, SP|]. by rewrite emit_text, app_nil_r. }
  destruct Hinit as (m1 & -> & I1 & T1). mret.
  rewrite (mprintf_text _ _ _ _ _ (format_count _ Hit))
    by (rewrite length_pad_right; pose proof (length_dec_text _ Hit); lia). mret.
  rewrite mark_text by (simpl; lia || by repeat constructor). mret.
  destruct (Bc (emit (emit m1 (pad_right 10 (dec_text (b_iterations b)))) (bytes_of_string "{"))) as (m2 & -> & I2 & T2);
    [by apply S1, S1|]. mret.
  rewrite mark_text by (simpl; lia || by repeat constructor). mret.
  rewrite mark_text by (simpl; lia || by repeat constructor). mret.
  destruct (Bb (emit (emit m2 (bytes_of_string "}")) (bytes_of_string "["))) as (m3 & -> & I3 & T3);
    [by apply S2, S2|]. mret.
  rewrite mark_text by (simpl; lia || by repeat constructor). mret.
  destruct (Bl (emit m3 (bytes_of_string "]" ++ [CR; LF]))) as (m4 & -> & I4 & T4); [by apply S3|]. mret.
  exists m4. split; [done|]. split; [done|].
  rewrite T4, emit_text, T3, !emit_text, T2, !emit_text, T1. unfold row, names. by rewrite <- !app_assoc.
Qed.

Lemma run_all_rows P bs rows Q :
  table_runs P bs rows Q -> stable P -> forall m, P m ->
  exists m', run_all false m bs = Ok m' /\ Q m' /\ text m' = text m ++ concat rows.
Proof.
  induction 1 as [P|P b r Q bs rows R Hb HQ Hbs IH]; intros SP m Hm; cbn [run_all concat].
  - exists m. by rewrite app_nil_r.
  - destruct (execute_row P Q b r m SP Hb Hm) as (m1 & -> & I1 & T1). mret.
    destruct (IH HQ m1 I1) as (m2 & -> & I2 & T2). exists m2. by rewrite T2, T1, app_assoc.
Qed.

End Harness.

Lemma harness_run `{Machine M} (P Q : M -> Prop) fuel (m : M) bs rows c mid w rest :
  stable P -> (forall m m' v, P m -> rdtsc m = Ok (m', v) -> P m') -> stable Q ->
  table_runs P bs rows Q -> P m ->
  readings m = c :: mid ++ w :: rest -> Forall (fun v => u32 c <= u32 v) mid -> u32 w < u32 c ->
  (length mid < fuel)%nat ->
  exists m', harness_main false fuel m bs = Ok m' /\ Q m' /\ text m' = text m ++ transcript rows.
Proof.
  intros SP Hrd SQ Hbs Hm Hr Hmid Hw Hf. unfold harness_main.
  rewrite mprintf_plain by (simpl; lia || by repeat constructor). mret.
  destruct (wait_reaches P fuel (emit m (bytes_of_string "*" ++ [CR; LF])) c (mid ++ w :: rest) Hrd)
    as (m1 & -> & I1 & T1); [by apply SP|by rewrite emit_readings|by exists mid, w, rest|]. mret.
  erewrite mprintf_text; [|vm_compute; reflexivity|simpl; lia]. mret.
  rewrite mprintf_plain by (simpl; lia || by repeat constructor). mret.
  match goal with |- context [run_all false ?x bs] => destruct (run_all_rows P bs rows Q Hbs SP x) as (m2 & -> & I2 & T2) end;
    [by apply SP, SP|]. mret.
  rewrite mprintf_plain by (simpl; lia || by repeat constructor). mret.
  rewrite mprintf_plain by (simpl; lia || by repeat constructor).
  eexists. split; [done|]. split; [by apply SQ, SQ|]. rewrite !emit_text, T2, !emit_text, T1, emit_text. unfold transcript, preamble.
  rewrite <- !app_assoc. done.
Qed.

(** ** Claims *)

(** C30: the wait of [harness_main] does not last the 60 billion cycles it
    compares with: [currentcycles] returns the low half of the counter, so the
    loop ends exactly at the first reading whose low half is below that of the
    first one, that is when the low half wraps, and never before. *)
Theorem wait_ends_at_wrap `{Machine M} fuel (m : M) c rs :
  readings m = c :: rs ->
  (exists m', wait_for_pin false fuel m = Ok m') <->
  (exists mid w rest, rs = mid ++ w :: rest /\ Forall (fun v => u32 c <= u32 v) mid /\
     u32 w < u32 c /\ (length mid < fuel)%nat).
Proof.
  intros Hr. unfold wait_for_pin, currentcycles.
  destruct (rdtsc_next _ _ _ Hr) as (m1 & -> & Hr1 & _). mret. rewrite wait_loop_iff, Hr1.
  split; [intros [?|[Hw _]]; [lia|done]|]. intros Hw. right. split; [done|lia].
Qed.

(** In the default build [harness_main] prints the announcement, the
    preamble, one line per benchmark in the order of the table, and the end
    mark twice, if each benchmark's functions return and print what they are
    said to; the line holds the padded names, the count, and what the control
    and the benchmark print between the marks the host times. *)
Theorem harness_transcript `{Machine M} (P Q : M -> Prop) fuel (m : M) bs rows c mid w rest :
  stable P -> (forall m m' v, P m -> rdtsc m = Ok (m', v) -> P m') -> stable Q ->
  table_runs P bs rows Q -> P m ->
  readings m = c :: mid ++ w :: rest -> Forall (fun v => u32 c <= u32 v) mid -> u32 w < u32 c ->
  (length mid < fuel)%nat ->
  exists m', harness_main false fuel m bs = Ok m' /\ Q m' /\ text m' = text m ++ transcript rows.
Proof. apply harness_run. Qed.

(** ** Witnesses *)

(** The plainest machine: what was printed, and what the counter will read. *)
Record console_log := mkLog { cl_text : list Z; cl_tsc : list Z }.

#[export] Instance log_machine : Machine console_log.
Proof.
  refine {|
    emit m t := mkLog (cl_text m ++ t) (cl_tsc m);
    rdtsc m := match cl_tsc m with v :: r => Ok (mkLog (cl_text m) r, v) | [] => Err Fuel end;
    text := cl_text;
    readings := cl_tsc;
  |}.
  - done.
  - done.
  - intros m v r ->. by eexists.
  - by intros m ->.
Defined.

Definition demo_print (t : list Z) (m : console_log) : res console_log := Ok (emit m t).

Definition demo_bench : benchmark_t console_log :=
  mkBench (bytes_of_string "print") (bytes_of_string "io") (Some (demo_print [])) (demo_print (replicate 26 97))
    (demo_print []) (demo_print []) 1000.

(** The counter wraps at the fourth reading. *)
Definition demo_log : console_log := mkLog [] [4294967000; 4294967100; 4294967295; 8589934592 + 44].

Lemma wait_ends_at_wrap_witness :
  (exists m', wait_for_pin false 3 demo_log = Ok m') <->
  (exists mid w rest, [4294967100; 4294967295; 8589934592 + 44] = mid ++ w :: rest /\
     Forall (fun v => u32 4294967000 <= u32 v) mid /\ u32 w < u32 4294967000 /\ (length mid < 3)%nat).
Proof. exact (wait_ends_at_wrap 3 demo_log 4294967000 [4294967100; 4294967295; 8589934592 + 44] eq_refl). Defined.

Lemma demo_runs :
  runs_as (fun _ => True) demo_bench
    (row (bytes_of_string "io") (bytes_of_string "print") 1000 [] [] (replicate 26 97) []) (fun _ => True).
Proof.
  assert (Hp : forall t, behaves (fun _ => True) (demo_print t) t (fun _ => True)) by (intros t m _; by eexists).
  split; [simpl; lia|]. split; [simpl; lia|]. split; [simpl; lia|].
  exists (fun _ => True), (fun _ => True), (fun _ => True), [], [], (replicate 26 97), [].
  split; [done|]. split; [apply Hp|]. split; [apply Hp|]. split; [apply Hp|]. split; [apply Hp|]. reflexivity.
Qed.

Lemma demo_table :
  table_runs (fun _ => True) [demo_bench]
    [row (bytes_of_string "io") (bytes_of_string "print") 1000 [] [] (replicate 26 97) []] (fun _ => True).
Proof. eapply table_next; [exact demo_runs|done|constructor]. Qed.

Lemma harness_transcript_witness :
  exists m', harness_main false 3 demo_log [demo_bench] = Ok m' /\ True /\
    text m' = text demo_log ++ transcript [row (bytes_of_string "io") (bytes_of_string "print") 1000 [] [] (replicate 26 97) []].
Proof.
  apply (harness_transcript (fun _ => True) (fun _ => True) 3 demo_log [demo_bench] _ 4294967000 [4294967100; 4294967295]
    (8589934592 + 44) []).
  - intros m t _. exact I.
  - intros m m' v _ _. exact I.
  - intros m t _. exact I.
  - exact demo_table.
  - exact I.
  - reflexivity.
  - repeat constructor; vm_compute; discriminate.
  - vm_compute. reflexivity.
  - simpl. lia.
Defined.
