(* ===== verification/Protocol.v ===== *)
(** * The two sides together: harness/harness.c and host/host.c

    The harness writes lines, the host reads them. The lemmas follow the host
    over the transcript of the harness; the theorem runs [harness_main] and
    hands its output to the host's [main]. *)

From stdpp Require Import base gmap list numbers strings.
From Stdlib Require Import ZArith Lia.
From S2P Require Import Prelude Mem CString Printf Stdio Tsc Harness Host.

#[local] Open Scope Z_scope.

(** ** Reading *)

Lemma span_stop f t c r : Forall (fun x => f x = true) t -> f c = false -> span f (t ++ c :: r) = (t, c :: r).
Proof.
  intros Ht Hc. induction Ht as [|x t Hx Ht IH]; cbn [app span]; [by rewrite Hc|]. by rewrite Hx, IH.
Qed.

Lemma span_all f t : Forall (fun x => f x = true) t -> span f t = (t, []).
Proof. intros Ht. induction Ht as [|x t Hx Ht IH]; cbn [span]; [done|]. by rewrite Hx, IH. Qed.

Lemma skip_space_over ws l : Forall (fun c => is_space c = true) ws -> skip_space (ws ++ l) = skip_space l.
Proof. intros Hw. induction Hw as [|c ws Hc Hw IH]; [done|]. cbn [app skip_space]. by rewrite Hc. Qed.

Lemma skip_space_here c l : is_space c = false -> skip_space (c :: l) = c :: l.
Proof. intros Hc. cbn [skip_space]. by rewrite Hc. Qed.

(** Blank, and a character that is not. *)
Definition blank (l : list Z) : Prop := Forall (fun c => is_space c = true) l.

(** A word: what [%s] reads. *)
Definition word_text (t : list Z) : Prop := t <> [] /\ Forall (fun c => is_space c = false) t.

Lemma blank_spaces n : blank (replicate n 32).
Proof. apply Forall_replicate. reflexivity. Qed.

Lemma scan_word ws t n l :
  blank ws -> word_text t -> (length t < n)%nat ->
  exists ws', scan_s (ws ++ pad_right n t ++ l) = (Some t, ws' ++ l) /\ blank ws'.
Proof.
  intros Hw [Hne Ht] Hn. exists (replicate (n - length t) 32). split; [|apply blank_spaces].
  unfold scan_s. rewrite skip_space_over by done.
  destruct t as [|c t]; [done|]. pose proof (Forall_inv Ht) as Hc. unfold pad_right. cbn [app].
  rewrite skip_space_here by done.
  destruct (n - length (c :: t))%nat as [|k] eqn:Hk; [simpl in *; lia|]. cbn [replicate app].
  replace (c :: (t ++ 32 :: replicate k 32) ++ l) with ((c :: t) ++ 32 :: (replicate k 32 ++ l))
    by (cbn [app]; by rewrite <- app_assoc).
  rewrite span_stop; [done| |reflexivity]. eapply Forall_impl; [exact Ht|]. intros x Hx. simpl in Hx. by rewrite Hx.
Qed.

Lemma scan_count ws n k l :
  blank ws -> 0 <= n <= 9223372036854775807 ->
  exists ws', scan_lld (ws ++ pad_right k (dec_text n) ++ chr "{" :: l) = (Some n, ws' ++ chr "{" :: l) /\ blank ws'.
Proof.
  intros Hw Hn. destruct (num_text_decimal n) as (Hv & Hd & Hne & _); [lia|].
  unfold dec_text. rewrite (proj2 (Z.ltb_ge n 0)), Z.abs_eq by lia. cbn [app].
  set (D := num_text n 10) in *. set (ws' := replicate (k - length D) 32).
  exists ws'. split; [|apply blank_spaces]. unfold scan_lld. rewrite skip_space_over by done.
  unfold pad_right. fold ws'. rewrite <- app_assoc.
  assert (HD : Forall (fun x => digitb x = true) D).
  { eapply Forall_impl; [exact Hd|]. intros x Hx. unfold is_digit in Hx. unfold digitb.
    by rewrite (proj2 (Z.leb_le 48 x)), (proj2 (Z.leb_le x 57)) by lia. }
  assert (Hstop : exists c r, ws' ++ chr "{" :: l = c :: r /\ digitb c = false).
  { unfold ws'. destruct (k - length D)%nat; eexists _, _; (split; [reflexivity|reflexivity]). }
  destruct Hstop as (c & r & Hr & Hc). rewrite Hr.
  assert (Hspan : span digitb (D ++ c :: r) = (D, c :: r)) by by apply span_stop.
  destruct D as [|d D]; [done|]. pose proof (Forall_inv Hd) as Hd1. unfold is_digit in Hd1. cbn [app] in *.
  rewrite skip_space_here.
  - rewrite (proj2 (Z.eqb_neq d 45)), (proj2 (Z.eqb_neq d 43)), Hspan by lia. rewrite Hv. do 2 f_equal. lia.
  - unfold is_space. rewrite (proj2 (Z.eqb_neq d 32)), (proj2 (Z.leb_gt d 13)) by lia. apply andb_false_r.
Qed.

Lemma getline_line t r : Forall (fun c => c <> LF) t -> getline (t ++ LF :: r) = Some (t ++ [LF], r).
Proof.
  intros Ht. unfold getline.
  assert (Hs : span (fun c => negb (c =? LF)) (t ++ LF :: r) = (t, LF :: r)).
  { apply span_stop; [|reflexivity]. eapply Forall_impl; [exact Ht|]. intros x Hx. simpl.
    by rewrite (proj2 (Z.eqb_neq _ _) Hx). }
  destruct (t ++ LF :: r) eqn:E; [by destruct t|]. by rewrite Hs.
Qed.

Lemma until_nul_text t : Forall (fun c => c <> 0) t -> until_nul t = t.
Proof.
  intros Ht. unfold until_nul. rewrite span_all; [done|]. eapply Forall_impl; [exact Ht|].
  intros x Hx. simpl. by rewrite (proj2 (Z.eqb_neq _ _) Hx).
Qed.

(** A line of plain characters. *)
Definition plain_line (t : list Z) : Prop := Forall (fun c => c <> LF /\ c <> 0) t.

Lemma start_here f t r tsc out :
  plain_line t -> start_loop (S f) (mkHio ((t ++ [LF]) ++ r) tsc out) (t ++ [LF]) = Ok (mkHio r tsc (out ++ t ++ [LF]), 0).
Proof.
  intros Ht. apply Forall_and in Ht as [Hl Hz]. cbn [start_loop h_in]. rewrite <- app_assoc. cbn [app].
  rewrite getline_line by done. unfold with_in, print. cbn [h_tsc h_out h_in].
  rewrite until_nul_text by (apply Forall_app; split; [done|by repeat constructor]).
  by rewrite bool_decide_true.
Qed.

Lemma start_skip f t r tsc out str :
  plain_line t -> t ++ [LF] <> str ->
  start_loop (S f) (mkHio ((t ++ [LF]) ++ r) tsc out) str = start_loop f (mkHio r tsc out) str.
Proof.
  intros Ht Hne. apply Forall_and in Ht as [Hl Hz]. cbn [start_loop h_in]. rewrite <- app_assoc. cbn [app].
  rewrite getline_line by done. unfold with_in, print. cbn [h_tsc h_out h_in].
  rewrite until_nul_text by (apply Forall_app; split; [done|by repeat constructor]).
  by rewrite bool_decide_false.
Qed.

(** Lines that [read_start] passes over on its way to [t]. *)
Definition lines (l : list (list Z)) : list Z := concat ((fun h => h ++ [LF]) <$> l).
Definition passed (t : list Z) (l : list (list Z)) : Prop := Forall (fun h => plain_line h /\ h <> t) l.

Lemma lines_app l1 l2 : lines (l1 ++ l2) = lines l1 ++ lines l2.
Proof. unfold lines. by rewrite fmap_app, concat_app. Qed.

Lemma read_lines l t r tsc out :
  passed t l -> plain_line t ->
  read_start (mkHio (lines l ++ (t ++ [LF]) ++ r) tsc out) (t ++ [LF]) = Ok (mkHio r tsc (out ++ t ++ [LF]), 0).
Proof.
  intros Hl Ht. unfold read_start. cbn [h_in].
  assert (Hf : (length l <= length (lines l ++ (t ++ [LF]) ++ r))%nat).
  { rewrite length_app. clear Hl. induction l as [|h l IH]; [simpl; lia|]. unfold lines in *. cbn [fmap list_fmap concat length].
    rewrite !length_app in *. cbn [length] in *. lia. }
  revert Hf. generalize (length (lines l ++ (t ++ [LF]) ++ r)). induction Hl as [|h l [Hh Hne] Hl IH]; intros f Hf.
  - by apply start_here.
  - destruct f as [|f]; [simpl in Hf; lia|]. cbn [lines fmap list_fmap concat]. rewrite <- app_assoc.
    rewrite start_skip; [apply IH; simpl in Hf; lia|done|]. by intros [= ?]%(inj (.++ [LF])).
Qed.

Lemma read_here t r tsc out :
  plain_line t -> read_start (mkHio ((t ++ [LF]) ++ r) tsc out) (t ++ [LF]) = Ok (mkHio r tsc (out ++ t ++ [LF]), 0).
Proof. apply (read_lines []). constructor. Qed.

Lemma end_loop_finds t target r : target ∉ t -> end_loop (t ++ target :: r) target = Ok r.
Proof.
  intros Hn. induction t as [|c t IH]; cbn [app end_loop]; [by rewrite Z.eqb_refl|].
  rewrite not_elem_of_cons in Hn. destruct Hn as [Hc Hn]. rewrite (proj2 (Z.eqb_neq c target)) by congruence. by apply IH.
Qed.

(** The time between two marks. *)
Lemma timed_marks open close t r tsc t0 t1 out vars :
  (open = chr "[" \/ open = chr "{") -> close ∉ t ->
  timed (mkHio (open :: t ++ close :: r) (t0 :: t1 :: tsc) out) open close vars =
  Ok (mkHio r tsc out, Some (u64 t0, u64 t1)).
Proof.
  intros Ho Hc. unfold timed, read_time_start_char, fgetc. cbn [h_in]. unfold with_in. cbn [h_tsc h_out].
  assert (Hor : (open =? chr "[") || (open =? chr "{") = true).
  { destruct Ho as [-> | ->]; reflexivity. }
  rewrite Hor, Z.eqb_refl. unfold read_tsc. cbn [h_tsc h_in h_out]. mret.
  unfold read_time_end_char. cbn [h_in]. rewrite end_loop_finds by done. mret. unfold with_in. cbn [h_tsc h_out h_in].
  mret. by rewrite !cycles_halves.
Qed.

(** ** A benchmark's line *)

(** What a benchmark contributes: its names, its count and what its control
    and kernel print; its other functions print nothing. *)
Record brow := mkRow {
  r_category : list Z;
  r_name : list Z;
  r_count : Z;
  r_control : list Z;
  r_kernel : list Z;
}.

Definition brow_text (r : brow) : list Z :=
  row (r_category r) (r_name r) (r_count r) [] (r_control r) (r_kernel r) [].

(** The names are words shorter than their columns, and the marks the host
    looks for are not in what it times. *)
Record brow_ok (r : brow) : Prop := mkRowOk {
  row_category : word_text (r_category r) /\ (length (r_category r) < 15)%nat;
  row_name : word_text (r_name r) /\ (length (r_name r) < 15)%nat;
  row_count : 0 <= r_count r <= 9223372036854775807;
  row_control : chr "}" ∉ r_control r;
  row_kernel : chr "]" ∉ r_kernel r;
}.

(** The four readings of the counter for a benchmark. *)
Record times := mkTimes { t_start : Z; t_end : Z; t_start1 : Z; t_end1 : Z }.

Definition tsc_of (t : times) : list Z := [t_start t; t_end t; t_start1 t; t_end1 t].

(** The host's line. *)
Definition host_row (r : brow) (t : times) : list Z :=
  let control := u64 (u64 (t_end t) - u64 (t_start t)) in
  let kernel := u64 (u64 (t_end1 t) - u64 (t_start1 t)) in
  pad_right 15 (r_category r) ++ pad_right 20 (r_name r) ++ pad_right 15 (num_text (r_count r) 10) ++
  pad_right 15 (num_text control 10) ++ pad_right 15 (num_text kernel 10) ++
  dec_text (s64 (kernel - control)) ++ [CR; LF].

Lemma read_benchmark_row ws r l tsc out :
  blank ws -> brow_ok r ->
  read_benchmark (mkHio (ws ++ brow_text r ++ l) tsc out) =
  Ok (mkHio (chr "{" :: r_control r ++ [chr "}"] ++ [chr "["] ++ r_kernel r ++ [chr "]"; CR; LF] ++ l) tsc
        (out ++ pad_right 15 (r_category r) ++ pad_right 20 (r_name r) ++ pad_right 15 (num_text (r_count r) 10)), 0).
Proof.
  intros Hw [[Wc Lc] [Wn Ln] Hc _ _]. unfold brow_text, row. rewrite <- !app_assoc. cbn [app].
  unfold read_benchmark. cbn [h_in].
  match goal with |- context [scan_s (ws ++ pad_right 15 (r_category r) ++ ?x)] =>
    destruct (scan_word ws (r_category r) 15 x Hw Wc Lc) as (w1 & -> & B1) end.
  rewrite (proj2 (Nat.leb_gt _ _)) by lia.
  match goal with |- context [scan_s (w1 ++ pad_right 15 (r_name r) ++ ?x)] =>
    destruct (scan_word w1 (r_name r) 15 x B1 Wn Ln) as (w2 & -> & B2) end.
  rewrite (proj2 (Nat.leb_gt _ _)) by lia.
  match goal with |- context [scan_lld (w2 ++ pad_right 10 (dec_text (r_count r)) ++ _ :: ?x)] =>
    destruct (scan_count w2 (r_count r) 10 x B2 Hc) as (w3 & -> & B3) end.
  unfold with_in, print. cbn [h_in h_tsc h_out]. rewrite skip_space_over, skip_space_here by done.
  by rewrite u64_small by lia.
Qed.

Lemma main_loop_row f ws r t l tsc out c k :
  blank ws -> brow_ok r ->
  main_loop (S f) (mkHio (ws ++ brow_text r ++ l) (tsc_of t ++ tsc) out) c k =
  main_loop f (mkHio (CR :: LF :: l) tsc (out ++ host_row r t))
    (Some (u64 (t_start t), u64 (t_end t))) (Some (u64 (t_start1 t), u64 (t_end1 t))).
Proof.
  intros Hw Hr. cbn [main_loop]. rewrite read_benchmark_row by done. mret. change (0 =? 0) with true. cbn iota.
  unfold tsc_of. cbn [app]. rewrite timed_marks by (auto || apply Hr). mret.
  rewrite timed_marks by (auto || apply Hr). mret.
  unfold report. cbn [of_option]. mret. unfold print, host_row. cbn [h_in h_tsc h_out]. by rewrite <- !app_assoc.
Qed.

(** After the last line: the first end mark is no benchmark. *)
Lemma main_loop_end f ws tsc out c k :
  blank ws ->
  main_loop (S f) (mkHio (ws ++ Harness.STR_BENCHMARK_END ++ Harness.STR_BENCHMARK_END) tsc out) c k =
  Ok (mkHio Harness.STR_BENCHMARK_END tsc out).
Proof.
  intros Hw. cbn [main_loop].
  assert (Hs : skip_space (ws ++ Harness.STR_BENCHMARK_END ++ Harness.STR_BENCHMARK_END) =
    Harness.STR_BENCHMARK_END ++ Harness.STR_BENCHMARK_END) by (rewrite skip_space_over by done; reflexivity).
  unfold read_benchmark, scan_s at 1. cbn [h_in]. rewrite Hs. reflexivity.
Qed.

Lemma main_loop_rows rts : forall f ws tsc out c k,
  blank ws -> Forall (fun rt => brow_ok rt.1) rts -> (length rts < f)%nat ->
  main_loop f (mkHio (ws ++ concat ((fun rt => brow_text rt.1) <$> rts) ++
      Harness.STR_BENCHMARK_END ++ Harness.STR_BENCHMARK_END)
      (concat ((fun rt => tsc_of rt.2) <$> rts) ++ tsc) out) c k =
  Ok (mkHio Harness.STR_BENCHMARK_END tsc (out ++ concat ((fun rt => host_row rt.1 rt.2) <$> rts))).
Proof.
  induction rts as [|[r t] rts IH]; intros [|f] ws tsc out c k Hw Hok Hf; try (simpl in Hf; lia);
    cbn [fmap list_fmap concat fst snd].
  - rewrite app_nil_r. by apply main_loop_end.
  - apply Forall_cons in Hok as [Hr Hok]. rewrite <- !app_assoc. rewrite (main_loop_row f ws r t) by done.
    change (CR :: LF :: ?l) with ([CR; LF] ++ l).
    rewrite (IH f [CR; LF]); [by rewrite <- app_assoc|by repeat constructor|done|simpl in Hf; lia].
Qed.

(** ** The host over a whole transcript *)

Definition pin_ok (pin : option (list Z)) : Prop :=
  match pin with Some out => (length (until_nul (take 512 out)) < 512)%nat | None => True end.

Definition pin_text (pin : option (list Z)) : list Z :=
  match pin with Some out => bytes_of_string "PIN:" ++ until_nul (take 512 out) ++ [LF] | None => [] end.

(** All that the host prints. *)
Definition host_output (pin : option (list Z)) (rts : list (brow * times)) : list Z :=
  bytes_of_string "*" ++ [CR; LF] ++ pin_text pin ++ Host.STR_BENCHMARK_BEGIN ++ table_header ++
  concat ((fun rt => host_row rt.1 rt.2) <$> rts) ++ Host.STR_BENCHMARK_END.

Lemma do_command_text i tsc o pin :
  pin_ok pin -> do_command (mkHio i tsc o) pin = Ok (mkHio i tsc (o ++ pin_text pin)).
Proof.
  unfold pin_ok, do_command, pin_text. destruct pin as [out|]; intros Hp.
  - by rewrite (proj2 (Nat.leb_gt _ _)).
  - by rewrite app_nil_r.
Qed.

Lemma concat_rows_length rts :
  (length rts <= length (concat ((fun rt : brow * times => brow_text rt.1) <$> rts)))%nat.
Proof.
  induction rts as [|[r t] rts IH]; [done|]. cbn [fmap list_fmap concat fst length].
  assert (Hl : (1 <= length (brow_text r))%nat).
  { unfold brow_text, row. rewrite !length_app, length_pad_right. lia. }
  rewrite length_app. apply (Nat.add_le_mono 1 _ _ _ Hl IH).
Qed.

(** The mark that asks for the pinning, as a line. *)
Definition pin_line : list Z := [chr "*"; CR].

Lemma host_main_transcript lead rts pin :
  passed pin_line lead -> Forall (fun rt => brow_ok rt.1) rts -> pin_ok pin ->
  host_main (mkHio (lines lead ++ transcript ((fun rt => brow_text rt.1) <$> rts)) (concat ((fun rt => tsc_of rt.2) <$> rts)) []) pin =
  Ok (mkHio [] [] (host_output pin rts)).
Proof.
  intros Hlead Hok Hp. unfold host_main, transcript, preamble.
  set (body := concat ((fun rt => brow_text rt.1) <$> rts)).
  set (head := pad_right 15 (bytes_of_string "category") ++ pad_right 15 (bytes_of_string "name") ++
    pad_right 10 (bytes_of_string "iteration") ++ [CR]).
  set (tail := body ++ Harness.STR_BENCHMARK_END ++ Harness.STR_BENCHMARK_END).
  set (begin := bytes_of_string "[BENCHMARKS BEGIN]" ++ [CR]).
  match goal with |- context [mkHio ?x _ _] =>
    replace x with (lines lead ++ (pin_line ++ [LF]) ++ lines [head] ++ (begin ++ [LF]) ++ tail)
      by (unfold head, begin, pin_line, lines; cbn [fmap list_fmap concat]; by rewrite <- !app_assoc) end.
  change (bytes_of_string "*" ++ [CR; LF]) with (pin_line ++ [LF]).
  change Host.STR_BENCHMARK_BEGIN with (begin ++ [LF]).
  rewrite read_lines; [|done|by_eval]. mret. change (0 =? 0) with true. cbn iota.
  rewrite do_command_text by done. mret.
  rewrite read_lines; [|apply Forall_singleton; split; [by_eval|by vm_compute]|by_eval]. mret. change (0 =? 0) with true. cbn iota.
  unfold print. cbn [h_in h_tsc h_out].
  unfold tail, body. rewrite <- (app_nil_l (concat ((fun rt => brow_text rt.1) <$> rts) ++ _)).
  rewrite <- (app_nil_r (concat ((fun rt => tsc_of rt.2) <$> rts))).
  rewrite main_loop_rows; [|constructor|done|].
  - mret. change Host.STR_BENCHMARK_END with ((bytes_of_string "[BENCHMARKS END]" ++ [CR]) ++ [LF]).
    change Harness.STR_BENCHMARK_END with (((bytes_of_string "[BENCHMARKS END]" ++ [CR]) ++ [LF]) ++ []).
    rewrite read_here by by_eval. mret. unfold host_output. do 2 f_equal. cbn [app].
    unfold begin. rewrite <- !app_assoc. reflexivity.
  - apply Nat.lt_succ_r. etransitivity; [apply concat_rows_length|]. rewrite app_nil_l, length_app. apply Nat.le_add_r.
Qed.

(** ** Claims *)

(** C9: what the harness prints, the host reads back: for every benchmark of
    the table the host prints one line, in order, with its category, its name
    and its count, and the times between the marks around its control and its
    kernel, and it stops at the end mark with the whole output read. Lines
    printed before the harness starts are passed over. The benchmarks'
    functions must return and print no mark themselves. *)
Theorem host_reads_harness `{Machine M} (P Q : M -> Prop) fuel (m : M) bs lead rts pin c mid w rest :
  stable P -> (forall m m' v, P m -> rdtsc m = Ok (m', v) -> P m') -> stable Q ->
  table_runs P bs ((fun rt => brow_text rt.1) <$> rts) Q -> Forall (fun rt => brow_ok rt.1) rts ->
  P m -> text m = lines lead -> passed pin_line lead -> readings m = c :: mid ++ w :: rest ->
  Forall (fun v => u32 c <= u32 v) mid -> u32 w < u32 c -> (length mid < fuel)%nat -> pin_ok pin ->
  exists m', harness_main false fuel m bs = Ok m' /\
    host_main (mkHio (text m') (concat ((fun rt => tsc_of rt.2) <$> rts)) []) pin =
    Ok (mkHio [] [] (host_output pin rts)).
Proof.
  intros SP Hrd SQ Hbs Hok Hm Ht Hlead Hr Hmid Hw Hf Hp.
  destruct (harness_run P Q fuel m bs ((fun rt => brow_text rt.1) <$> rts) c mid w rest)
    as (m' & Hrun & _ & Htext); try done.
  exists m'. split; [done|]. rewrite Htext, Ht. by apply host_main_transcript.
Qed.

(** ** Witnesses *)

Definition demo_row : brow := mkRow (bytes_of_string "io") (bytes_of_string "print") 1000 [] (replicate 26 97).
Definition demo_times : times := mkTimes 100 150 200 1250.

Lemma demo_row_ok : brow_ok demo_row.
Proof.
  split; [split; [split; [done|by_eval]|simpl; lia]|split; [split; [done|by_eval]|simpl; lia]|simpl; lia| |]; by_eval.
Qed.

Lemma host_reads_harness_witness :
  exists m', harness_main false 3 demo_log [demo_bench] = Ok m' /\
    host_main (mkHio (text m') [100; 150; 200; 1250] []) (Some (bytes_of_string "pin 7")) =
    Ok (mkHio [] [] (host_output (Some (bytes_of_string "pin 7")) [(demo_row, demo_times)])).
Proof.
  apply (host_reads_harness (fun _ => True) (fun _ => True) 3 demo_log [demo_bench] [] [(demo_row, demo_times)]
    (Some (bytes_of_string "pin 7")) 4294967000 [4294967100; 4294967295] (8589934592 + 44) []).
  - intros m t _. exact I.
  - intros m m' v _ _. exact I.
  - intros m t _. exact I.
  - exact demo_table.
  - constructor; [exact demo_row_ok|constructor].
  - exact I.
  - reflexivity.
  - constructor.
  - reflexivity.
  - repeat constructor; vm_compute; discriminate.
  - vm_compute. reflexivity.
  - simpl. lia.
  - vm_compute. lia.
Defined.
