(* ===== verification/BareMetal.v ===== *)
(** * The build with __BARE_METAL: the harness's own timing

    In this build [harness_main] does not wait for the host, and each benchmark
    is timed by the harness itself: [harness_execute] reads the time stamp
    counter around the control loop and around the kernel and prints the two
    times and their difference after the cleanup. The line's numbers are the
    ones that the host program prints of the default build for the same
    readings. *)

From stdpp Require Import base gmap list numbers strings.
From Stdlib Require Import ZArith Lia.
From S2P Require Import Prelude Mem CString Printf Serial Stdio Tsc Harness Host Protocol.

#[local] Open Scope Z_scope.

(** ** The numbers *)

Definition control_time (t : times) : Z := u64 (u64 (t_end t) - u64 (t_start t)).
Definition kernel_time (t : times) : Z := u64 (u64 (t_end1 t) - u64 (t_start1 t)).

Definition times_text (t : times) : list Z :=
  pad_right 15 (num_text (control_time t) 10) ++ pad_right 15 (num_text (kernel_time t) 10) ++
  dec_text (s64 (kernel_time t - control_time t)).

(** [printf] cannot print the least difference. *)
Definition times_ok (t : times) : Prop := s64 (kernel_time t - control_time t) <> -9223372036854775808.

(** The line of a benchmark. *)
Definition bare_row (category name : list Z) (iterations : Z) (oi oc ob ol : list Z) (t : times) : list Z :=
  pad_right 15 category ++ pad_right 15 name ++ oi ++ pad_right 10 (dec_text iterations) ++ oc ++ ob ++ ol ++
  times_text t ++ [LF].

Lemma u64_u64 x : u64 (u64 x) = u64 x.
Proof. mach. Qed.

Lemma s64_u64 x : s64 (u64 x) = s64 x.
Proof. mach. Qed.

Lemma format_time x :
  format no_strs (bytes_of_string "%-15lu") [x] = Ok (pad_right 15 (num_text (u64 x) 10)).
Proof.
  change (bytes_of_string "%-15lu") with (37 :: 45 :: 49 :: 53 :: 108 :: 117 :: []).
  rewrite format_width by lia. change (- (10 * (49 - 48) + (53 - 48))) with (- Z.of_nat 15).
  rewrite format_go_cons. ctests. rewrite format_go_cons. ctests. unfold conv_text. ctests. cbn [va_arg]. mret.
  change (va_unsigned (0 + 1) x) with (u64 x). unfold uns_text. cbn [alternate andb]. rewrite pad_text_right.
  change (format_go no_strs [] 0 None []) with (Ok (A := list Z) []). mret. by rewrite app_nil_r.
Qed.

Lemma format_difference x :
  s64 x <> -9223372036854775808 -> format no_strs (line "%ld") [x] = Ok (dec_text (s64 x) ++ [LF]).
Proof.
  intros Hx. change (line "%ld") with (37 :: 108 :: 100 :: [LF]). unfold format. rewrite format_go_cons. ctests.
  rewrite format_go_cons. ctests. rewrite format_go_cons. ctests. unfold conv_text. ctests. cbn [va_arg]. mret.
  change (va_signed (0 + 1) x) with (s64 x). unfold int_text. rewrite (proj2 (Z.eqb_neq _ _) Hx). mret.
  unfold pad_text. cbn [props0 npad]. rewrite !Z2Nat.nonpos by lia. cbn [replicate app].
  change (format_go no_strs [LF] 0 None []) with (Ok (A := list Z) [LF]). mret. unfold dec_text. by rewrite app_nil_r.
Qed.

Section BareMetal.

Context `{Machine M}.

(** Printing and reading the counter keep [R]. *)
Definition keeps (R : M -> Prop) : Prop := stable R /\ forall m m' v, R m -> rdtsc m = Ok (m', v) -> R m'.

(** As [behaves], and the function does not read the counter. *)
Definition untimed (P : M -> Prop) (f : M -> res M) (o : list Z) (Q : M -> Prop) : Prop :=
  forall m, P m -> exists m', f m = Ok m' /\ Q m' /\ text m' = text m ++ o /\ readings m' = readings m.

Definition init_untimed (P : M -> Prop) (f : option (M -> res M)) (o : list Z) (Q : M -> Prop) : Prop :=
  match f with Some f => untimed P f o Q | None => o = [] /\ forall m, P m -> Q m end.

(** From [P] the benchmark runs to [Q] and prints [oi], [oc], [ob] and [ol]. *)
Definition bare_runs (P : M -> Prop) (b : benchmark_t M) (oi oc ob ol : list Z) (Q : M -> Prop) : Prop :=
  (length (b_category b) <= 900)%nat /\ (length (b_name b) <= 900)%nat /\
  -9223372036854775808 < b_iterations b <= 9223372036854775807 /\
  exists R1 R2 R3,
    (keeps R1 /\ keeps R2 /\ keeps R3) /\
    init_untimed P (b_init b) oi R1 /\ untimed R1 (b_control b) oc R2 /\
    untimed R2 (b_benchmark b) ob R3 /\ untimed R3 (b_cleanup b) ol Q.

(** A table, with the readings of each of its benchmarks. *)
Inductive bare_table : (M -> Prop) -> list (benchmark_t M) -> list times -> list (list Z) -> (M -> Prop) -> Prop :=
  | bare_end P : bare_table P [] [] [] P
  | bare_next P b oi oc ob ol Q bs t ts rows R :
      bare_runs P b oi oc ob ol Q -> keeps Q -> times_ok t -> bare_table Q bs ts rows R ->
      bare_table P (b :: bs) (t :: ts) (bare_row (b_category b) (b_name b) (b_iterations b) oi oc ob ol t :: rows) R.

Lemma mark_reads R m t v r :
  keeps R -> R m -> readings m = v :: r ->
  exists m', mark true m t = Ok (m', u64 v) /\ R m' /\ readings m' = r /\ text m' = text m.
Proof.
  intros [_ HR] Hm Hv. unfold mark. destruct (rdtsc_next _ _ _ Hv) as (m' & E & H1 & H2). exists m'.
  split; [rewrite E; mret; by rewrite cycles_halves|]. split; [by eapply HR|]. done.
Qed.

Lemma init_run P f o R m :
  init_untimed P f o R -> P m ->
  exists m1, match f with Some f => f m | None => Ok m end = Ok m1 /\ R m1 /\ text m1 = text m ++ o /\ readings m1 = readings m.
Proof.
  intros Hi Hm. destruct f as [f|]; cbn [init_untimed] in Hi; [exact (Hi m Hm)|]. destruct Hi as [-> Hi].
  exists m. rewrite app_nil_r. auto.
Qed.

(** The numbers after the cleanup. *)
Lemma print_times Q m t :
  keeps Q -> Q m -> times_ok t ->
  exists m', (m ← mprintf no_strs m (bytes_of_string "%-15lu") [control_time t];
              m ← mprintf no_strs m (bytes_of_string "%-15lu") [kernel_time t];
              mprintf no_strs m (line "%ld") [u64 (kernel_time t - control_time t)]) = Ok m' /\
    Q m' /\ text m' = text m ++ times_text t ++ [LF] /\ readings m' = readings m.
Proof.
  intros [SQ _] Hm Ht.
  assert (Hl : forall x, (length (pad_right 15 (num_text (u64 x) 10)) <= 1999)%nat).
  { intros x. rewrite length_pad_right. destruct (num_text_decimal (u64 x)) as (_ & _ & _ & Hx); [mach|]. lia. }
  rewrite (mprintf_text _ _ _ _ _ (format_time _)) by apply Hl. mret.
  rewrite (mprintf_text _ _ _ _ _ (format_time _)) by apply Hl. mret.
  assert (Hd : s64 (u64 (kernel_time t - control_time t)) <> -9223372036854775808) by (by rewrite s64_u64).
  assert (Hr : -9223372036854775808 < s64 (u64 (kernel_time t - control_time t)) <= 9223372036854775807) by mach.
  rewrite (mprintf_text _ _ _ _ _ (format_difference _ Hd)) by (rewrite length_app; pose proof (length_dec_text _ Hr); simpl; lia).
  eexists. split; [reflexivity|]. split; [by apply SQ, SQ, SQ|]. split; [|by rewrite !emit_readings].
  rewrite !emit_text, s64_u64. unfold times_text. unfold control_time, kernel_time. rewrite !u64_u64, <- !app_assoc. done.
Qed.

Lemma bare_execute P Q b oi oc ob ol t rest m :
  keeps P -> keeps Q -> bare_runs P b oi oc ob ol Q -> times_ok t -> P m -> readings m = tsc_of t ++ rest ->
  exists m', harness_execute true m b = Ok m' /\ Q m' /\ readings m' = rest /\
    text m' = text m ++ bare_row (b_category b) (b_name b) (b_iterations b) oi oc ob ol t.
Proof.
  intros [SP KP] KQ (Hc & Hn & Hit & R1 & R2 & R3 & (K1 & K2 & K3) & Bi & Bc & Bb & Bl) Ht Hm Hr.
  unfold harness_execute.
  rewrite (mprintf_text _ _ _ _ _ (format_names _ _)) by (rewrite length_app, !length_pad_right; lia). mret.
  set (names := pad_right 15 (b_category b) ++ pad_right 15 (b_name b)).
  destruct (init_run _ _ _ _ _ Bi (SP m names Hm)) as (m1 & -> & I1 & T1 & V1). mret.
  rewrite (mprintf_text _ _ _ _ _ (format_count _ Hit))
    by (rewrite length_pad_right; pose proof (length_dec_text _ Hit); lia). mret.
  set (count := pad_right 10 (dec_text (b_iterations b))).
  rewrite emit_readings, Hr in V1. destruct t as [t0 t1 t2 t3]. cbn [tsc_of t_start t_end t_start1 t_end1 app] in V1.
  destruct (mark_reads R1 (emit m1 count) (bytes_of_string "{") t0 (t1 :: t2 :: t3 :: rest) K1) as (m2 & -> & I2 & V2 & T2);
    [by apply K1|by rewrite emit_readings|]. mret.
  destruct (Bc m2 I2) as (m3 & -> & I3 & T3 & V3). mret. rewrite V2 in V3.
  destruct (mark_reads R2 m3 (bytes_of_string "}") _ _ K2 I3 V3) as (m4 & -> & I4 & V4 & T4). mret.
  destruct (mark_reads R2 m4 (bytes_of_string "[") _ _ K2 I4 V4) as (m5 & -> & I5 & V5 & T5). mret.
  destruct (Bb m5 I5) as (m6 & -> & I6 & T6 & V6). mret. rewrite V5 in V6.
  destruct (mark_reads R3 m6 (bytes_of_string "]" ++ [CR; LF]) _ _ K3 I6 V6) as (m7 & -> & I7 & V7 & T7). mret.
  destruct (Bl m7 I7) as (m8 & -> & I8 & T8 & V8). mret. rewrite V7 in V8.
  destruct (print_times Q m8 (mkTimes t0 t1 t2 t3) KQ I8 Ht) as (m9 & E9 & I9 & T9 & V9).
  exists m9. split; [exact E9|]. split; [done|]. split; [by rewrite V9, V8|].
  rewrite T9, T8, T7, T6, T5, T4, T3, T2, emit_text, T1, emit_text. unfold bare_row, names, count. by rewrite <- !app_assoc.
Qed.

Lemma bare_run_all P bs ts rows Q :
  bare_table P bs ts rows Q -> keeps P -> forall m rest, P m -> readings m = concat (tsc_of <$> ts) ++ rest ->
  exists m', run_all true m bs = Ok m' /\ Q m' /\ keeps Q /\ readings m' = rest /\ text m' = text m ++ concat rows.
Proof.
  induction 1 as [P|P b oi oc ob ol Q bs t ts rows R Hb KQ Ht Hbs IH]; intros KP m rest Hm Hr; cbn [run_all concat].
  - exists m. rewrite app_nil_r. auto.
  - rewrite fmap_cons in Hr. cbn [concat] in Hr. rewrite <- app_assoc in Hr.
    destruct (bare_execute P Q b oi oc ob ol t _ m KP KQ Hb Ht Hm Hr) as (m1 & -> & I1 & V1 & T1). mret.
    destruct (IH KQ m1 rest I1 V1) as (m2 & -> & I2 & K2 & V2 & T2). exists m2. rewrite T2, T1, app_assoc. auto.
Qed.

End BareMetal.

(** The host's line of a benchmark, with the same numbers. *)
Definition host_line (r : brow) (t : times) : list Z :=
  pad_right 15 (r_category r) ++ pad_right 20 (r_name r) ++ pad_right 15 (num_text (r_count r) 10) ++ times_text t ++ [CR; LF].

Lemma host_rows_lines rs ts :
  concat ((fun rt : brow * times => host_row rt.1 rt.2) <$> zip rs ts) = concat (zip_with host_line rs ts).
Proof.
  revert ts. induction rs as [|r rs IH]; intros [|t ts]; try done. cbn [zip zip_with fmap list_fmap concat fst snd].
  f_equal; [|apply IH]. unfold host_row, host_line, times_text, control_time, kernel_time. cbv zeta. by rewrite <- !app_assoc.
Qed.

(** The harness in this build. *)
Lemma bare_run `{Machine M} (P Q : M -> Prop) fuel (m : M) bs ts rows rest :
  keeps P -> bare_table P bs ts rows Q -> P m -> readings m = concat (tsc_of <$> ts) ++ rest ->
  exists m', harness_main true fuel m bs = Ok m' /\ Q m' /\ text m' = text m ++ transcript rows /\ readings m' = rest.
Proof.
  intros KP Hbs Hm Hr. unfold harness_main. rewrite mprintf_plain by (simpl; lia || by repeat constructor). mret.
  cbn [wait_for_pin]. mret. erewrite mprintf_text; [|vm_compute; reflexivity|simpl; lia]. mret.
  rewrite mprintf_plain by (simpl; lia || by repeat constructor). mret.
  match goal with |- context [run_all true ?x bs] =>
    destruct (bare_run_all P bs ts rows Q Hbs KP x rest) as (m2 & -> & I2 & KQ & V2 & T2) end;
    [by do 3 apply KP|by rewrite !emit_readings|]. mret.
  rewrite mprintf_plain by (simpl; lia || by repeat constructor). mret.
  rewrite mprintf_plain by (simpl; lia || by repeat constructor).
  eexists. split; [done|]. split; [by do 2 apply KQ|]. rewrite !emit_readings, !emit_text, T2, !emit_text.
  split; [|done]. unfold transcript, preamble. rewrite <- !app_assoc. done.
Qed.

(** ** Claims *)

(** C10: on bare metal the harness reports what the host reports of the default
    build: for one table of benchmarks, whose functions return and do not read
    the counter or print a mark, and the same readings of the counter around
    its control loops and kernels, [harness_main] of the build for bare metal
    prints for each benchmark its names, its count and its times; and the host
    program, on what [harness_main] of the default build prints, prints for each
    its names, its count and the same three numbers in the same text. *)
Theorem bare_transcript `{Machine M} (P Q P' Q' : M -> Prop) fuel (m m2 : M) bs rs ts rows rest lead pin c mid w rest2 :
  keeps P -> bare_table P bs ts rows Q -> P m -> readings m = concat (tsc_of <$> ts) ++ rest ->
  keeps P' -> stable Q' -> table_runs P' bs (brow_text <$> rs) Q' -> Forall brow_ok rs -> length rs = length ts ->
  P' m2 -> text m2 = lines lead -> passed pin_line lead -> readings m2 = c :: mid ++ w :: rest2 ->
  Forall (fun v => u32 c <= u32 v) mid -> u32 w < u32 c -> (length mid < fuel)%nat -> pin_ok pin ->
  (exists m', harness_main true fuel m bs = Ok m' /\ Q m' /\ text m' = text m ++ transcript rows /\ readings m' = rest) /\
  exists m', harness_main false fuel m2 bs = Ok m' /\
    host_main (mkHio (text m') (concat (tsc_of <$> ts)) []) pin =
    Ok (mkHio [] [] (bytes_of_string "*" ++ [CR; LF] ++ pin_text pin ++ Host.STR_BENCHMARK_BEGIN ++ table_header ++
                     concat (zip_with host_line rs ts) ++ Host.STR_BENCHMARK_END)).
Proof.
  intros KP Hbs Hm Hr [SP' KP'] SQ' Hbs' Hok Hlen Hm2 Ht Hlead Hr2 Hmid Hw Hf Hp. split; [by eapply bare_run|].
  destruct (harness_run P' Q' fuel m2 bs (brow_text <$> rs) c mid w rest2) as (m' & Hrun & _ & Htext); try done.
  exists m'. split; [done|]. rewrite Htext, Ht, <- host_rows_lines. set (rts := zip rs ts).
  assert (Hrs : brow_text <$> rs = (fun rt => brow_text rt.1) <$> rts).
  { rewrite <- (fst_zip rs ts) at 1 by lia. by rewrite <- list_fmap_compose. }
  assert (Hts : tsc_of <$> ts = (fun rt => tsc_of rt.2) <$> rts).
  { rewrite <- (snd_zip rs ts) at 1 by lia. by rewrite <- list_fmap_compose. }
  rewrite Hrs, Hts. apply (host_main_transcript lead rts pin Hlead); [|exact Hp].
  unfold rts. apply Forall_forall. intros rt Hin. rewrite Forall_forall in Hok. apply Hok. destruct rt as [r t].
  by apply elem_of_zip_l in Hin.
Qed.

(** ** Witnesses *)

Definition demo_clock : console_log := mkLog [] [100; 130; 1000; 1530].

Lemma demo_bare :
  bare_table (fun _ => True) [demo_bench] [mkTimes 100 130 1000 1530]
    [bare_row (bytes_of_string "io") (bytes_of_string "print") 1000 [] [] (replicate 26 97) [] (mkTimes 100 130 1000 1530)]
    (fun _ => True).
Proof.
  assert (Hp : forall t, untimed (fun _ => True) (demo_print t) t (fun _ => True)) by (intros t m _; by eexists).
  assert (Hk : keeps (M := console_log) (fun _ => True)) by done.
  eapply (bare_next _ demo_bench); [|exact Hk|by vm_compute|constructor].
  split; [simpl; lia|]. split; [simpl; lia|]. split; [simpl; lia|].
  exists (fun _ => True), (fun _ => True), (fun _ => True). split; [done|]. split; [apply Hp|]. split; [apply Hp|].
  split; [apply Hp|apply Hp].
Qed.

Lemma bare_transcript_witness :
  exists m' m2', harness_main true 3 demo_clock [demo_bench] = Ok m' /\
    text m' = transcript [bare_row (bytes_of_string "io") (bytes_of_string "print") 1000 [] [] (replicate 26 97) []
                            (mkTimes 100 130 1000 1530)] /\
    harness_main false 3 demo_log [demo_bench] = Ok m2' /\
    host_main (mkHio (text m2') [100; 130; 1000; 1530] []) None =
    Ok (mkHio [] [] (bytes_of_string "*" ++ [CR; LF] ++ Host.STR_BENCHMARK_BEGIN ++ table_header ++
                     host_line demo_row (mkTimes 100 130 1000 1530) ++ Host.STR_BENCHMARK_END)).
Proof.
  destruct (bare_transcript (fun _ => True) (fun _ => True) (fun _ => True) (fun _ => True) 3 demo_clock demo_log [demo_bench]
    [demo_row] [mkTimes 100 130 1000 1530] _ [] [] None 4294967000 [4294967100; 4294967295] (8589934592 + 44) []
    (conj (fun _ _ _ => I) (fun _ _ _ _ _ => I)) demo_bare I eq_refl (conj (fun _ _ _ => I) (fun _ _ _ _ _ => I))
    (fun _ _ _ => I) demo_table) as [(m' & H1 & _ & H3 & _) (m2' & H4 & H5)].
  - constructor; [exact demo_row_ok|constructor].
  - reflexivity.
  - exact I.
  - reflexivity.
  - constructor.
  - reflexivity.
  - repeat constructor; vm_compute; discriminate.
  - vm_compute. reflexivity.
  - simpl. lia.
  - exact I.
  - exists m', m2'. split; [exact H1|]. split; [exact H3|]. split; [exact H4|]. exact H5.
Defined.
