(* ===== verification/Bench.v ===== *)
(** * benchmark/*.c: the benchmarks

    Each file defines a [benchmark_t] of four functions on the machine: the
    memory with its page tables and serial line (PageTable), the IDT (Desc),
    the calls between processors (Smp), and the globals of the benchmark files
    (a global of one name in several files is one variable). What the
    benchmarks measure is recorded in a trace, one entry per instruction or
    call. The table is the one benchmark/Makefile links; hypercall.c and
    idt_test.c are in the sources but not in its list.

    An access of the kernel's own C code is to memory directly, since every
    mapping the kernel runs under is the identity where it has memory;
    accesses that a benchmark is about go through the page tables. *)

From stdpp Require Import base gmap list numbers strings.
From Stdlib Require Import ZArith Lia.
From S2P Require Import Prelude Mem CString Printf Serial Stdio Heap PageTable Mp Desc Apic Smp Ipi Harness.

#[local] Open Scope Z_scope.
#[local] Existing Instance OnCpu.pc_eq_dec.

(** include/benchmark.h and include/ioram.h *)
Definition IDLE : Z := 1.
Definition LGDT : Z := 100000.
Definition SET_CR3 : Z := 100000.
Definition SGDT : Z := 100000.
Definition SIDT : Z := 100000.
Definition SMSW : Z := 100000.
Definition PUSHF_POPF : Z := 100000.
Definition IPI : Z := 100.
Definition HYPERCALL : Z := 1000.
Definition COLD_ACCESS : Z := 100000.
Definition HOT_ACCESS : Z := 100000.
Definition IN_SERIAL_PORT : Z := 1000.
Definition OUT_SERIAL_PORT : Z := 1000.
Definition PRINTF : Z := 1000.
Definition IORAM_BASE_PHYS : Z := 4278190080.

(** ** The machine *)

(** What a trace records. *)
Inductive op :=
  | OVmcall (nr : Z)
  | OVmmcall (nr : Z)
  | OLgdt (addr : Z)
  | OSgdt (addr : Z)
  | OSidt (addr : Z)
  | OSmsw
  | OPushf
  | OPopf
  | OCr3 (v : Z)
  | OLoad (addr : Z)
  | OIn (port : Z)
  | OOut (port value : Z)
  | OOuts (port : Z) (bytes : nat)
  | OIpi (dest : Z)
  | OUd2.

#[export] Instance op_eq_dec : EqDecision op.
Proof. solve_decision. Defined.

Record machine := mkMachine {
  p_heap : heap;
  p_idt : idt_state;
  p_smp : OnCpu.smp;
  p_tsc : list Z;
  p_cr0 : Z;
  p_gdtr : list Z;
  g_mem : Z;
  g_cr3 : Z;
  g_ptr : Z;
  g_address : Z;
  g_lcr : Z;
  g_len : Z;
  g_msw : Z;
  g_msw_orig : Z;
  p_trace : list op;
}.

Definition with_heap (m : machine) (h : heap) : machine :=
  mkMachine h (p_idt m) (p_smp m) (p_tsc m) (p_cr0 m) (p_gdtr m) (g_mem m) (g_cr3 m) (g_ptr m)
    (g_address m) (g_lcr m) (g_len m) (g_msw m) (g_msw_orig m) (p_trace m).
Definition with_idt (m : machine) (i : idt_state) : machine :=
  mkMachine (p_heap m) i (p_smp m) (p_tsc m) (p_cr0 m) (p_gdtr m) (g_mem m) (g_cr3 m) (g_ptr m)
    (g_address m) (g_lcr m) (g_len m) (g_msw m) (g_msw_orig m) (p_trace m).
Definition with_smp (m : machine) (s : OnCpu.smp) : machine :=
  mkMachine (p_heap m) (p_idt m) s (p_tsc m) (p_cr0 m) (p_gdtr m) (g_mem m) (g_cr3 m) (g_ptr m)
    (g_address m) (g_lcr m) (g_len m) (g_msw m) (g_msw_orig m) (p_trace m).
Definition with_tsc (m : machine) (t : list Z) : machine :=
  mkMachine (p_heap m) (p_idt m) (p_smp m) t (p_cr0 m) (p_gdtr m) (g_mem m) (g_cr3 m) (g_ptr m)
    (g_address m) (g_lcr m) (g_len m) (g_msw m) (g_msw_orig m) (p_trace m).
Definition with_gdtr (m : machine) (g : list Z) : machine :=
  mkMachine (p_heap m) (p_idt m) (p_smp m) (p_tsc m) (p_cr0 m) g (g_mem m) (g_cr3 m) (g_ptr m)
    (g_address m) (g_lcr m) (g_len m) (g_msw m) (g_msw_orig m) (p_trace m).
Definition set_g_mem (m : machine) (v : Z) : machine :=
  mkMachine (p_heap m) (p_idt m) (p_smp m) (p_tsc m) (p_cr0 m) (p_gdtr m) v (g_cr3 m) (g_ptr m)
    (g_address m) (g_lcr m) (g_len m) (g_msw m) (g_msw_orig m) (p_trace m).
Definition set_g_cr3 (m : machine) (v : Z) : machine :=
  mkMachine (p_heap m) (p_idt m) (p_smp m) (p_tsc m) (p_cr0 m) (p_gdtr m) (g_mem m) v (g_ptr m)
    (g_address m) (g_lcr m) (g_len m) (g_msw m) (g_msw_orig m) (p_trace m).
Definition set_g_ptr (m : machine) (v : Z) : machine :=
  mkMachine (p_heap m) (p_idt m) (p_smp m) (p_tsc m) (p_cr0 m) (p_gdtr m) (g_mem m) (g_cr3 m) v
    (g_address m) (g_lcr m) (g_len m) (g_msw m) (g_msw_orig m) (p_trace m).
Definition set_g_address (m : machine) (v : Z) : machine :=
  mkMachine (p_heap m) (p_idt m) (p_smp m) (p_tsc m) (p_cr0 m) (p_gdtr m) (g_mem m) (g_cr3 m) (g_ptr m)
    v (g_lcr m) (g_len m) (g_msw m) (g_msw_orig m) (p_trace m).
Definition set_g_lcr (m : machine) (v : Z) : machine :=
  mkMachine (p_heap m) (p_idt m) (p_smp m) (p_tsc m) (p_cr0 m) (p_gdtr m) (g_mem m) (g_cr3 m) (g_ptr m)
    (g_address m) v (g_len m) (g_msw m) (g_msw_orig m) (p_trace m).
Definition set_g_len (m : machine) (v : Z) : machine :=
  mkMachine (p_heap m) (p_idt m) (p_smp m) (p_tsc m) (p_cr0 m) (p_gdtr m) (g_mem m) (g_cr3 m) (g_ptr m)
    (g_address m) (g_lcr m) v (g_msw m) (g_msw_orig m) (p_trace m).
Definition set_g_msw (m : machine) (v orig : Z) : machine :=
  mkMachine (p_heap m) (p_idt m) (p_smp m) (p_tsc m) (p_cr0 m) (p_gdtr m) (g_mem m) (g_cr3 m) (g_ptr m)
    (g_address m) (g_lcr m) (g_len m) v orig (p_trace m).
Definition traced (m : machine) (o : op) : machine :=
  mkMachine (p_heap m) (p_idt m) (p_smp m) (p_tsc m) (p_cr0 m) (p_gdtr m) (g_mem m) (g_cr3 m) (g_ptr m)
    (g_address m) (g_lcr m) (g_len m) (g_msw m) (g_msw_orig m) (p_trace m ++ [o]).

(** Computes the fields of an updated machine. *)
Ltac mfields :=
  cbn [with_heap with_idt with_smp with_tsc with_gdtr set_g_mem set_g_cr3 set_g_ptr set_g_address set_g_lcr
       set_g_len set_g_msw traced p_heap p_idt p_smp p_tsc p_cr0 p_gdtr g_mem g_cr3 g_ptr g_address g_lcr
       g_len g_msw g_msw_orig p_trace].

(** The ports, through the serial line's log. *)
Definition ports (m : machine) : io := ser_io (hser (p_heap m)).
Definition with_ports (m : machine) (i : io) : machine :=
  with_heap m (set_ser (p_heap m) (with_io (hser (p_heap m)) i)).

(** The harness prints with [printf] and reads the counter. *)
#[export] Instance bench_machine : Machine machine.
Proof.
  refine {|
    emit m t := with_heap m (set_ser (p_heap m) (send (hser (p_heap m)) t));
    rdtsc m := match p_tsc m with v :: r => Ok (with_tsc m r, v) | [] => Err Fuel end;
    text m := sent (io_log (ports m));
    readings := p_tsc;
  |}.
  - intros m t. apply sent_send.
  - done.
  - intros m v r ->. by eexists.
  - by intros m ->.
Defined.

(** [for(i = 0; i < n; i++) body] *)
Fixpoint for_loop {A} (n : nat) (body : A -> res A) (a : A) : res A :=
  match n with
  | O => Ok a
  | S n' => a ← body a; for_loop n' body a
  end.
Definition for_ {A} (n : Z) (body : A -> res A) : A -> res A := for_loop (Z.to_nat n) body.

(** An empty body, and [asm volatile(" ")]. *)
Definition nothing (m : machine) : res machine := Ok m.

(** What the linker, the boot code and the compiler fixed, and how the other
    processors run: the IDT, the code segment and the entry stubs; the array
    [a] of print.c; the processors; the register that an output-only operand
    of an asm names, by the position in the trace; which processors take
    interrupts, and the steps that processors take during a call of
    [__on_cpu]. *)
Record image := mkImage {
  im_boot_idt : Z;
  im_cs : Z;
  im_stub : Z -> Z;
  im_ipi_entry : Z;
  im_a : Z;
  im_tab : mpstate;
  im_ops : apic_ops;
  im_reg : nat -> Z;
  im_iflag : Z -> bool;
  im_sched : OnCpu.smp -> list OnCpu.choice;
}.

Section Bench.

Context (im : image).

(** ** Instructions *)

(** A byte access through the page tables; [None] is a page fault. *)
Definition vaddr (m : machine) (va : Z) : res Z :=
  t ← translate (hmem (p_heap m)) (cr3_reg (p_heap m)) va; of_option Fault t.

(** [( *(volatile uint8_t * )addr)]: memory that is not there reads as ones,
    and the value is not used. *)
Definition touch (addr : Z) (m : machine) : res machine :=
  _ ← vaddr m addr; Ok (traced m (OLoad addr)).

Fixpoint vstore (m : machine) (va : Z) (bs : list Z) : res machine :=
  match bs with
  | [] => Ok m
  | b :: bs' =>
      pa ← vaddr m va;
      mm ← store8 (hmem (p_heap m)) pa b;
      vstore (with_heap m (set_mem (p_heap m) mm)) (va + 1) bs'
  end.

Fixpoint vload (n : nat) (m : machine) (va : Z) : res (list Z) :=
  match n with
  | O => Ok []
  | S n' =>
      pa ← vaddr m va;
      b ← load8 (hmem (p_heap m)) pa;
      bs ← vload n' m (va + 1);
      Ok (b :: bs)
  end.

Definition read_cr3 (m : machine) : Z := cr3_reg (p_heap m).
Definition read_cr0 (m : machine) : Z := p_cr0 m.
Definition write_cr3 (v : Z) (m : machine) : res machine :=
  Ok (traced (with_heap m (set_cr3s (p_heap m) (start_cr3 (p_heap m)) v)) (OCr3 v)).

(** The limit and the base as [sgdt] and [sidt] store them. *)
Definition idtr_bytes (m : machine) : list Z :=
  le_bytes 2 (idtr (p_idt m)).2 ++ le_bytes 8 (idtr (p_idt m)).1.

(** [asm volatile("sgdt (%[mem])" : [mem]"=r"(mem) : : "memory")]: [mem] is
    only an output, so the address is what the register happened to hold, and
    [mem] gets that value. *)
Definition store_via_output (bytes : list Z) (o : Z -> op) (m : machine) : res machine :=
  let r := im_reg im (length (p_trace m)) in
  m ← vstore m r bytes;
  Ok (traced (set_g_mem m r) (o r)).

Definition sgdt (m : machine) : res machine := store_via_output (p_gdtr m) OSgdt m.
Definition sidt (m : machine) : res machine := store_via_output (idtr_bytes m) OSidt m.
Definition lgdt (m : machine) : res machine :=
  g ← vload 10 m (g_mem m); Ok (traced (with_gdtr m g) (OLgdt (g_mem m))).

(** [vmcall] and [vmmcall] with the number in RAX; the result is not used. *)
Definition kvm_hypercall0_intel (nr : Z) (m : machine) : res machine := Ok (traced m (OVmcall nr)).
Definition kvm_hypercall0_amd (nr : Z) (m : machine) : res machine := Ok (traced m (OVmmcall nr)).

(** ** Calls of the other components *)

(** [setup_mmu] writes CR3, and so does [switch_to_start_cr3]. *)
Definition call_setup_mmu (end_of_memory : Z) (m : machine) : res machine :=
  '(h, cr3) ← setup_mmu (p_heap m) end_of_memory; Ok (traced (with_heap m h) (OCr3 cr3)).

Definition call_switch_to_start_cr3 (m : machine) : res machine :=
  Ok (traced (with_heap m (switch_to_start_cr3 (p_heap m))) (OCr3 (start_cr3 (p_heap m)))).

Definition call_install_page (phys virt : Z) (m : machine) : res machine :=
  '(h, _) ← install_page (p_heap m) (read_cr3 m) phys virt; Ok (with_heap m h).

Definition call_smp_init (m : machine) : res machine :=
  '(mm, i) ← smp_init (im_boot_idt im) (im_cs im) (im_stub im) (im_ipi_entry im) (hmem (p_heap m)) (p_idt m);
  Ok (with_idt (with_heap m (set_mem (p_heap m) mm)) i).

Definition call_setup_idt (m : machine) : res machine :=
  '(mm, i) ← setup_idt (im_boot_idt im) (im_cs im) (im_stub im) (hmem (p_heap m)) (p_idt m);
  Ok (with_idt (with_heap m (set_mem (p_heap m) mm)) i).

(** [on_cpu]: the call starts, and the processors run until it returns. *)
Definition enter_call (st : OnCpu.smp) (d : Z) : OnCpu.smp :=
  OnCpu.mkSmp (OnCpu.ipi_lock st) (OnCpu.ipi_done st) [(d, OnCpu.PLock)] (OnCpu.irr st) (OnCpu.running st)
    (OnCpu.events st).

Definition on_cpu (cpu : Z) (m : machine) : res machine :=
  d ← OnCpu.on_cpu_dest (im_tab im) cpu;
  let st := enter_call (p_smp m) d in
  st' ← of_option Fuel (OnCpu.run (im_ops im) (im_iflag im) st (im_sched im st));
  if decide (OnCpu.callers st' = [(d, OnCpu.PRet)]) then Ok (traced (with_smp m st') (OIpi d)) else Err Fuel.

Definition bench_inb (port : Z) (m : machine) : res (Z * machine) :=
  '(v, i) ← inb (ports m) port; Ok (v, traced (with_ports m i) (OIn port)).

Definition bench_outb (v port : Z) (m : machine) : res machine :=
  Ok (traced (with_ports m (outb (ports m) v port)) (OOut port v)).

Definition bench_outbs (buf len port : Z) (m : machine) : res machine :=
  i ← outbs (Z.to_nat len) (hmem (p_heap m)) (ports m) buf port;
  Ok (traced (with_ports m i) (OOuts port (Z.to_nat len))).

(** [pushf; popf], ten times. *)
Definition test_pushf_popf (m : machine) : res machine :=
  for_loop 10 (fun m => Ok (traced (traced m OPushf) OPopf)) m.

(** ** The benchmarks *)

Definition bench_hypercall : benchmark_t machine :=
  let kernel := for_ HYPERCALL (kvm_hypercall0_intel (u32 (-1))) in
  let control := for_ HYPERCALL nothing in
  mkBench (bytes_of_string "hypercall") (bytes_of_string "exception") (Some nothing) kernel control nothing HYPERCALL.

Definition bench_idle : benchmark_t machine :=
  let kernel := for_ IDLE nothing in
  let control := for_ IDLE nothing in
  mkBench (bytes_of_string "idle") (bytes_of_string "idle") (Some nothing) kernel control nothing IDLE.

Definition bench_in : benchmark_t machine :=
  let kernel := for_ IN_SERIAL_PORT (fun m => '(_, m) ← bench_inb (1016 + 3) m; Ok m) in
  let control := for_ IN_SERIAL_PORT nothing in
  mkBench (bytes_of_string "in-serial") (bytes_of_string "io") (Some nothing) kernel control nothing IN_SERIAL_PORT.

Definition bench_ipi : benchmark_t machine :=
  let init := fun m => m ← call_smp_init m; call_setup_mmu (Z.shiftl 1 32) m in
  let kernel := for_ IPI (on_cpu 1) in
  let control := for_ IPI nothing in
  mkBench (bytes_of_string "ipi") (bytes_of_string "exception") (Some init) kernel control
    call_switch_to_start_cr3 IPI.

(** The pages at [mem] that sgdt.c, sidt.c and lgdt.c map. *)
Definition map_ioram (m : machine) : res machine :=
  m ← call_setup_mmu (Z.shiftl 1 32) m;
  '(h, v) ← alloc_vpages (p_heap m) 2;
  let m := set_g_mem (with_heap m h) v in
  m ← call_install_page IORAM_BASE_PHYS (g_mem m) m;
  call_install_page IORAM_BASE_PHYS (u64 (g_mem m + 4096)) m.

Definition bench_lgdt : benchmark_t machine :=
  let init := fun m => m ← map_ioram m; sgdt m in
  let kernel := for_ LGDT lgdt in
  let control := for_ LGDT nothing in
  mkBench (bytes_of_string "lgdt") (bytes_of_string "privileged") (Some init) kernel control
    call_switch_to_start_cr3 LGDT.

(** [ptr += 1; ptr = ptr % (1 << 30);] *)
Definition next_ptr (m : machine) : machine := set_g_ptr m (u64 (g_ptr m + 1) mod Z.shiftl 1 30).

Definition bench_memory_cold : benchmark_t machine :=
  let kernel := fun m =>
    for_ COLD_ACCESS (fun m => m ← touch (u64 (g_ptr m * 4096)) m; Ok (next_ptr m)) (set_g_ptr m 16384) in
  let control := fun m =>
    for_ COLD_ACCESS (fun m => Ok (next_ptr m)) (set_g_ptr (set_g_ptr m 0) 16384) in
  mkBench (bytes_of_string "cold-access") (bytes_of_string "memory") (Some (call_setup_mmu (Z.shiftl 1 33)))
    kernel control call_switch_to_start_cr3 COLD_ACCESS.

(** [address += 0x1000; address = address % (1 << 30);] *)
Definition next_address (m : machine) : machine :=
  set_g_address m (u64 (g_address m + 4096) mod Z.shiftl 1 30).

Definition hot_loop : machine -> res machine :=
  for_ HOT_ACCESS (fun m => m ← touch (g_address m) m; Ok (next_address m)).

Definition bench_memory_hot : benchmark_t machine :=
  let init := fun m => m ← call_setup_mmu (Z.shiftl 1 32) m; hot_loop (set_g_address m 1048576) in
  let kernel := fun m => hot_loop (set_g_address m 1048576) in
  let control := fun m => for_ HOT_ACCESS (fun m => Ok (next_address m)) (set_g_address m 0) in
  mkBench (bytes_of_string "hot-access") (bytes_of_string "memory") (Some init) kernel control
    call_switch_to_start_cr3 HOT_ACCESS.

Definition bench_memory_pt : benchmark_t machine :=
  mkBench (bytes_of_string "set-pt") (bytes_of_string "memory") (Some nothing) (call_setup_mmu (Z.shiftl 1 32))
    nothing call_switch_to_start_cr3 1.

Definition bench_out : benchmark_t machine :=
  let init := fun m => '(v, m) ← bench_inb (1016 + 3) m; Ok (set_g_lcr m v) in
  let kernel := for_ OUT_SERIAL_PORT (fun m => bench_outb (g_lcr m) (1016 + 3) m) in
  let control := for_ OUT_SERIAL_PORT nothing in
  mkBench (bytes_of_string "out-serial") (bytes_of_string "io") (Some init) kernel control nothing OUT_SERIAL_PORT.

Definition bench_print : benchmark_t machine :=
  let init := fun m => l ← strlen (hmem (p_heap m)) (im_a im); Ok (set_g_len m l) in
  let kernel := for_ PRINTF (fun m => bench_outbs (im_a im) (g_len m) 1016 m) in
  let control := for_ PRINTF nothing in
  mkBench (bytes_of_string "print") (bytes_of_string "io") (Some init) kernel control nothing PRINTF.

Definition bench_pushf_popf : benchmark_t machine :=
  let kernel := for_ PUSHF_POPF test_pushf_popf in
  let control := for_ PUSHF_POPF nothing in
  mkBench (bytes_of_string "pushf-popf") (bytes_of_string "critical") (Some nothing) kernel control nothing
    (PUSHF_POPF * 10).

Definition bench_set_cr3 : benchmark_t machine :=
  let init := fun m => m ← call_setup_mmu (Z.shiftl 1 32) m; Ok (set_g_cr3 m (read_cr3 m)) in
  let kernel := for_ SET_CR3 (fun m => write_cr3 (g_cr3 m) m) in
  let control := for_ SET_CR3 nothing in
  mkBench (bytes_of_string "set-cr3") (bytes_of_string "privileged") (Some init) kernel control
    call_switch_to_start_cr3 SET_CR3.

Definition bench_sgdt : benchmark_t machine :=
  let kernel := for_ SGDT sgdt in
  let control := for_ SGDT nothing in
  mkBench (bytes_of_string "sgdt") (bytes_of_string "critical") (Some map_ioram) kernel control
    call_switch_to_start_cr3 SGDT.

Definition bench_sidt : benchmark_t machine :=
  let kernel := for_ SIDT sidt in
  let control := for_ SIDT nothing in
  mkBench (bytes_of_string "sidt") (bytes_of_string "critical") (Some map_ioram) kernel control
    call_switch_to_start_cr3 SIDT.

(** Ten [smsw]s to one register, whose low half goes to [msw]. *)
Definition bench_smsw : benchmark_t machine :=
  let init := fun m => Ok (set_g_msw m (g_msw m) (u16 (read_cr0 m))) in
  let ten := for_loop 10 (fun m => Ok (traced m OSmsw)) in
  let kernel := for_ SMSW (fun m => m ← ten m; Ok (set_g_msw m (u16 (p_cr0 m)) (g_msw_orig m))) in
  let control := for_ SMSW nothing in
  mkBench (bytes_of_string "smsw") (bytes_of_string "critical") (Some init) kernel control nothing (SMSW * 10).

(** The table in the order of benchmark/Makefile. *)
Definition benchmarks : list (benchmark_t machine) :=
  [bench_idle; bench_sgdt; bench_sidt; bench_smsw; bench_pushf_popf; bench_lgdt; bench_set_cr3; bench_ipi;
   bench_memory_cold; bench_memory_hot; bench_memory_pt; bench_in; bench_out; bench_print].

(** ** idt_test.c *)

(** Where an instruction that may fault is: the registers at it, its label
    [1:], and what the report of an unhandled fault reads. *)
Record try_site := mkSite {
  ts_cpu : cpu;
  ts_catch : Z;
  ts_start : Z;
  ts_end : Z;
  ts_gs : Z;
  ts_other : Z -> mem -> Z -> res mem;
  ts_clobbered : reg -> Z;
  ts_crs : list Z;
}.

(** ASM_TRY: [movl $0, %gs:4], then the instruction, which raises [v]. *)
Definition asm_try (s : try_site) (v err : Z) (m : machine) : res (machine * bool * Z) :=
  mm ← store32 (hmem (p_heap m)) (ts_gs s + 4) 0;
  '(mm, c) ← run_exception (ts_start s) (ts_end s) (ts_gs s) (ts_other s) (hser (p_heap m)) (ts_crs s)
               (exception_handlers (p_idt m)) (ts_clobbered s) mm (ts_cpu s) v err;
  if rip c =? ts_catch s then
    rf ← exception_rflags_rf (ts_gs s) mm;
    r ← exception_vector (ts_gs s) mm;
    Ok (with_heap m (set_mem (p_heap m) mm), rf, r)
  else Err Undef.

Definition test_ud2 (s : try_site) (m : machine) : res (machine * bool * Z) := asm_try s 6 0 (traced m OUd2).
Definition test_gp (s : try_site) (m : machine) : res (machine * bool * Z) := asm_try s 13 0 m.

Definition bench_ud2 (s : try_site) : benchmark_t machine :=
  let kernel := fun m => m ← call_setup_idt m; '(m, _, _) ← test_ud2 s m; Ok m in
  mkBench (bytes_of_string "ud2") (bytes_of_string "exception") (Some nothing) kernel nothing nothing 1.

End Bench.

(** ** The fault of idt_test.c *)

Lemma load32_second m a e : load32 m a = Ok e -> exists b, load8 m (a + 1) = Ok b.
Proof.
  unfold load32. cbn [load_le]. intros H. apply res_bind_ok in H as (b0 & _ & H). apply res_bind_ok in H as (v & H & _).
  apply res_bind_ok in H as (b1 & H & _). by exists b1.
Qed.

(** [test_ud2] catches its fault: when the exception table lists the
    [ud2] with the label behind it and the handler of vector 6 is the one
    [setup_idt] installs, the instruction faults once, execution goes on at
    the label and [exception_vector] returns 6. *)
Theorem ud2_caught s m recs i a :
  cpu_ok (ts_cpu s) -> mapped (hmem (p_heap m)) (frame_addr (ts_cpu s)) 184 ->
  exception_handlers (p_idt m) !! 6%nat = Some Hcheck_table ->
  fault_env (hmem (p_heap m)) (ts_cpu s) (ts_start s) (ts_end s) (ts_gs s) recs ->
  list_find (fun r => r.1 = rip (ts_cpu s)) recs = Some (i, (a, ts_catch s)) ->
  exists m' rf, test_ud2 s m = Ok (m', rf, 6) /\ p_trace m' = p_trace m ++ [OUd2].
Proof.
  intros Hc Hm Hh [F1 F2 F3 F4 F5 F6 F7] Hfind. unfold test_ud2, asm_try. mfields.
  destruct (store_le_spec 4 (hmem (p_heap m)) (ts_gs s + 4) 0 F4) as (mm & Es & _ & Hd & Hout).
  unfold store32. rewrite Es. mret. unfold disjoint_ranges in F7.
  destruct (fault_run (ts_start s) (ts_end s) (ts_gs s) (ts_other s) (hser (p_heap m)) (ts_crs s)
    (exception_handlers (p_idt m)) (ts_clobbered s) mm (ts_cpu s) 6 0 recs i a (ts_catch s))
    as (m2 & c' & E & Hsame & Hv & H32); [done|unfold word_ok; lia|lia|by rewrite <- Hd|done| |done|].
  - split; try done; [|by rewrite <- Hd]. eapply words_at_frame; [|exact F1]. intros x Hx.
    rewrite length_table_words in Hx. apply Hout. lia.
  - rewrite E. mret. rewrite (same_rip _ _ Hsame). cbn [set_rip rip]. rewrite Z.eqb_refl.
    destruct (load32_second _ _ _ H32) as [b Hb]. replace (ts_gs s + 4 + 1) with (ts_gs s + 5) in Hb by lia.
    unfold exception_rflags_rf. rewrite Hb. mret. rewrite Hv. mret. eexists _, _. split; [done|]. done.
Qed.

(** ** Witnesses *)

(** The stack, the table and the registers of Desc's examples. *)
Lemma ud2_caught_witness :
  exists m' rf, test_ud2 (mkSite demo_cpu 5100 3000 3032 256 (fun _ m _ => Ok m) (fun _ => 0) [])
    (mkMachine (demo_heap demo_stack) (mkIdt true (replicate 256 Hcheck_table) (0, 0)) (OnCpu.mkSmp 0 0 [] ∅ ∅ []) [] 0 []
       0 0 0 0 0 0 0 0 []) = Ok (m', rf, 6) /\ p_trace m' = [] ++ [OUd2].
Proof.
  apply (ud2_caught (mkSite demo_cpu 5100 3000 3032 256 (fun _ m _ => Ok m) (fun _ => 0) [])
    (mkMachine (demo_heap demo_stack) (mkIdt true (replicate 256 Hcheck_table) (0, 0)) (OnCpu.mkSmp 0 0 [] ∅ ∅ []) [] 0 []
       0 0 0 0 0 0 0 0 []) demo_recs 1 5000).
  - exact demo_cpu_ok.
  - by_eval.
  - reflexivity.
  - apply demo_env; [by_eval|repeat split|reflexivity|simpl; lia].
  - reflexivity.
Defined.
