(* ===== verification/Suite.v ===== *)
(** * The benchmarks under the harness

    Every benchmark of the table runs to its end from a machine with enough
    free pages, and leaves a machine on which the next one runs: the state
    between benchmarks is [ready], with what is left of the pages and of the
    answers of the ports as indices. From it the harness's transcript of the
    whole table, what each kernel executes, and what the host makes of it. *)

From stdpp Require Import base gmap list numbers strings.
From Stdlib Require Import ZArith Lia.
From S2P Require Import Prelude Mem CString Printf Serial Stdio Heap PageTable Mp Desc Apic Smp Ipi Harness.
From S2P Require Import Bench Host Protocol.

#[local] Open Scope Z_scope.
#[local] Existing Instance OnCpu.pc_eq_dec.

(** ** Functions of a benchmark *)

(** From [P] the function returns with [Q], prints [o], and what it adds to
    the trace satisfies [tr]. *)
Definition does (P : machine -> Prop) (f : machine -> res machine) (o : list Z) (tr : list op -> Prop)
    (Q : machine -> Prop) : Prop :=
  forall m, P m -> exists m' t, f m = Ok m' /\ Q m' /\ text m' = text m ++ o /\
    p_trace m' = p_trace m ++ t /\ tr t.

Lemma does_behaves P f o tr Q : does P f o tr Q -> behaves P f o Q.
Proof. intros H m Hm. destruct (H m Hm) as (m' & t & E & HQ & T & _). by exists m'. Qed.

Lemma does_nothing P : does P nothing [] (fun t => t = []) P.
Proof. intros m Hm. exists m, []. by rewrite !app_nil_r. Qed.

Lemma does_bind P f o1 tr1 Q g o2 tr2 R :
  does P f o1 tr1 Q -> does Q g o2 tr2 R ->
  does P (fun m => m ← f m; g m) (o1 ++ o2) (fun t => exists t1 t2, t = t1 ++ t2 /\ tr1 t1 /\ tr2 t2) R.
Proof.
  intros H1 H2 m Hm. destruct (H1 m Hm) as (m1 & t1 & -> & HQ & T1 & R1 & C1). mret.
  destruct (H2 m1 HQ) as (m2 & t2 & -> & HR & T2 & R2 & C2). exists m2, (t1 ++ t2).
  split; [done|]. split; [done|]. rewrite T2, T1, R2, R1, <- !app_assoc.
  split; [done|]. split; [done|]. by exists t1, t2.
Qed.

Lemma does_weaken P P' f o (tr tr' : list op -> Prop) Q Q' :
  does P f o tr Q -> (forall m, P' m -> P m) -> (forall t, tr t -> tr' t) -> (forall m, Q m -> Q' m) ->
  does P' f o tr' Q'.
Proof.
  intros H HP Ht HQ m Hm. destruct (H m (HP m Hm)) as (m' & t & E & HQ' & T & R & C). exists m', t. by eauto 10.
Qed.

(** A loop: [R i] holds before the round [i], and [acc i] of the trace so far. *)
Lemma does_loop n R body o (acc : nat -> list op -> Prop) :
  acc O [] ->
  (forall i m t0, (i < n)%nat -> R i m -> acc i t0 -> exists m' t, body m = Ok m' /\ R (S i) m' /\
     text m' = text m ++ o /\ p_trace m' = p_trace m ++ t /\ acc (S i) (t0 ++ t)) ->
  does (R O) (for_loop n body) (concat (replicate n o)) (acc n) (R n).
Proof.
  intros H0 Hstep.
  assert (Hgen : forall k i m t0, (i + k = n)%nat -> R i m -> acc i t0 ->
    exists m' t, for_loop k body m = Ok m' /\ R n m' /\ text m' = text m ++ concat (replicate k o) /\
      p_trace m' = p_trace m ++ t /\ acc n (t0 ++ t)).
  { induction k as [|k IH]; intros i m t0 Hi Hm Hacc; cbn [for_loop replicate concat].
    - exists m, []. rewrite Nat.add_0_r in Hi. subst i. by rewrite !app_nil_r.
    - destruct (Hstep i m t0 ltac:(lia) Hm Hacc) as (m1 & t1 & -> & H1 & T1 & R1 & A1). mret.
      destruct (IH (S i) m1 (t0 ++ t1) ltac:(lia) H1 A1) as (m2 & t2 & -> & H2 & T2 & R2 & A2).
      exists m2, (t1 ++ t2). rewrite T2, T1, R2, R1, <- !app_assoc. rewrite <- app_assoc in A2. done. }
  intros m Hm. destruct (Hgen n O m [] eq_refl Hm H0) as (m' & t & H). by exists m', t.
Qed.

(** How many operations of a kind a trace has. *)
Definition counts (sel : op -> bool) (c : Z) (t : list op) : Prop := Z.of_nat (length (filter (fun o => sel o = true) t)) = c.

Lemma counts_app sel c1 c2 t1 t2 : counts sel c1 t1 -> counts sel c2 t2 -> counts sel (c1 + c2) (t1 ++ t2).
Proof. unfold counts. rewrite filter_app, length_app. lia. Qed.

(** A loop whose body keeps [R] and executes [c] operations of the kind. *)
Lemma does_for n R body o sel c :
  0 <= n -> does R body o (counts sel c) R ->
  does R (for_ n body) (concat (replicate (Z.to_nat n) o)) (counts sel (c * n)) R.
Proof.
  intros Hn Hb. unfold for_. pose proof (does_loop (Z.to_nat n) (fun _ => R) body o
    (fun i t => counts sel (c * Z.of_nat i) t)) as H. cbn beta in H. rewrite Z2Nat.id in H by done.
  apply H; [by unfold counts; cbn; lia|]. intros i m t0 _ Hm Ht.
  destruct (Hb m Hm) as (m' & t & E & HQ & T & R' & C). exists m', t. repeat (split; [done|]).
  replace (c * Z.of_nat (S i)) with (c * Z.of_nat i + c) by lia. by apply counts_app.
Qed.

Lemma concat_nils {A} n : concat (replicate n ([] : list A)) = [].
Proof. by induction n. Qed.

Lemma does_quiet_loop n P : does P (for_ n nothing) [] (fun t => t = []) P.
Proof.
  unfold for_. pose proof (does_loop (Z.to_nat n) (fun _ => P) nothing [] (fun _ t => t = [])) as H.
  rewrite concat_nils in H. apply H; [done|]. intros i m t0 _ Hm ->. exists m, []. by rewrite !app_nil_r.
Qed.

(** ** The state between benchmarks *)

Definition letters : list Z := replicate 26 97.

Section Suite.

(** Kernel image below [low], heap above. *)
Context (im : image) (low : Z).

Definition in_heap (p : Z) : Prop := low <= p < 2 ^ 32.

(** Where the image's data are: the array of print.c, the IDT, and the
    addresses that the registers of [sgdt] and [sidt] happen to hold. The source
    does not say what these are; a run of the table is sure to go well only if
    they are memory that nothing else uses, which is assumed here. *)
Record layout : Prop := {
  la_low : low <= 2 ^ 32;
  la_a : 0 <= im_a im /\ im_a im + 27 <= low;
  la_idt : 0 <= im_boot_idt im /\ im_boot_idt im + 4096 <= low;
  la_a_idt : disjoint_ranges (im_a im) 27 (im_boot_idt im) 4096;
  la_reg : forall j, 0 <= im_reg im j /\ im_reg im j + 10 <= low;
  la_reg_a : forall j, disjoint_ranges (im_reg im j) 10 (im_a im) 27;
  la_reg_idt : forall j, disjoint_ranges (im_reg im j) 10 (im_boot_idt im) 4096;
}.

(** Virtual pages are handed out downwards from the top of the address space;
    every benchmark that takes two of them also takes pages for tables, so
    they stay far above the memory while [n] pages are left. *)
Definition vtop (h : heap) : Z := if vfree_top h =? 0 then 2 ^ 64 else vfree_top h.
Definition room (n : Z) (h : heap) : Prop :=
  2 ^ 64 - 2 ^ 40 + 8192 * n <= vtop h <= 2 ^ 64 /\ vtop h mod 4096 = 0 /\ 0 <= vfree_top h.

Definition pages (n : Z) (h : heap) : Prop :=
  room n h /\ exists l, free_pages (hmem h) (freelist h) l /\ Forall in_heap l /\ n <= Z.of_nat (length l).

(** The current tables map the memory below [last] to itself. *)
Definition mmu_pages (last n : Z) (h : heap) : Prop :=
  room n h /\ exists tabs l, mmu_ok h (cr3_reg h) tabs l /\ within in_heap tabs l /\ n <= Z.of_nat (length l) /\
    forall va, 0 <= va < last -> translate (hmem h) (cr3_reg h) va = Ok (Some va).

(** The rest of the machine, with [k] answers of the ports left. *)
Record base (k : Z) (m : machine) : Prop := {
  ba_inputs : k <= Z.of_nat (length (io_in (ports m)));
  ba_a : cstr (hmem (p_heap m)) (im_a im) letters;
  ba_idt : mapped (hmem (p_heap m)) (im_boot_idt im) 4096;
  ba_handlers : idt_initialized (p_idt m) = false -> length (exception_handlers (p_idt m)) = 256%nat;
  ba_reg : forall j, mapped (hmem (p_heap m)) (im_reg im j) 10;
  ba_lock : hlock (p_heap m) = 0;
  ba_gdtr : length (p_gdtr m) = 10%nat /\ Forall (fun b => 0 <= b < 256) (p_gdtr m);
  ba_smp : OnCpu.ipi_lock (p_smp m) = 0 /\ OnCpu.quiet (p_smp m);
}.

Definition ready (n k : Z) (m : machine) : Prop := pages n (p_heap m) /\ base k m.
Definition mapped_to (last n k : Z) (m : machine) : Prop := mmu_pages last n (p_heap m) /\ base k m.

(** Printing, the counter and the globals do not matter. *)
Definition same_base (m m' : machine) : Prop :=
  hmem (p_heap m') = hmem (p_heap m) /\ hlock (p_heap m') = hlock (p_heap m) /\ io_in (ports m') = io_in (ports m) /\
  p_idt m' = p_idt m /\ p_smp m' = p_smp m /\ p_gdtr m' = p_gdtr m.

Definition same_core (m m' : machine) : Prop :=
  same_base m m' /\ freelist (p_heap m') = freelist (p_heap m) /\ cr3_reg (p_heap m') = cr3_reg (p_heap m) /\
  vfree_top (p_heap m') = vfree_top (p_heap m).

Lemma base_same k m m' : same_base m m' -> base k m -> base k m'.
Proof.
  intros (E1 & E3 & E6 & E7 & E8 & E9) [H1 H2 H3 H4 H5 H6 H7 H8].
  split; rewrite ?E1, ?E3, ?E6, ?E7, ?E8, ?E9; done.
Qed.

Lemma ready_core n k m m' : same_core m m' -> ready n k m -> ready n k m'.
Proof.
  intros ((E1 & E) & E2 & E3 & E4) [H1 H2]. split; [|by eapply base_same]. unfold pages, room, vtop. by rewrite E1, E2, E4.
Qed.

Lemma mapped_core last n k m m' : same_core m m' -> mapped_to last n k m -> mapped_to last n k m'.
Proof.
  intros ((E1 & E) & E2 & E5 & E4) [H1 H2]. split; [|by eapply base_same]. destruct H1 as (Hr & tabs & l & [T F A] & H).
  split; [unfold room, vtop; by rewrite E4|]. exists tabs, l. rewrite E1, E5. split; [|done]. split; rewrite ?E1, ?E2; done.
Qed.

Lemma ready_stable n k : stable (ready n k).
Proof. intros m t. by apply ready_core. Qed.

Lemma mapped_stable last n k : stable (mapped_to last n k).
Proof. intros m t. by apply mapped_core. Qed.

(** Fewer pages and fewer answers are left. *)
Lemma base_mono k k' m : k' <= k -> base k m -> base k' m.
Proof. intros Hk [H1 H2 H3 H4 H5 H6 H7 H8]. split; try done. lia. Qed.

(** ** The operations *)

Definition cost (last : Z) : Z := 1 + tables_for (last / 4096).

Lemma cost_pos last : 0 <= last -> 1 <= cost last.
Proof.
  intros Hl. unfold cost, tables_for. pose proof (Z.div_pos last 4096 Hl ltac:(lia)) as H.
  assert (forall d, 0 < d -> 0 <= (last / 4096 + (d - 1)) / d) as Hd by (intros d Hd; apply Z.div_pos; lia).
  pose proof (Hd 512 ltac:(lia)). pose proof (Hd (2 ^ 18) ltac:(lia)). pose proof (Hd (2 ^ 27) ltac:(lia)).
  change (512 - 1) with 511 in *. lia.
Qed.

Lemma room_less n n' h : n' <= n -> room n h -> room n' h.
Proof. unfold room. lia. Qed.

Definition is_cr3 (o : op) : bool := match o with OCr3 _ => true | _ => false end.

(** What a change inside tables leaves below the heap. *)
Lemma tables_high m m' tabs l x :
  only_tables m m' tabs -> within in_heap tabs l -> x < low -> m' !! x = m !! x.
Proof.
  intros Ho [Hw _] Hx. apply Ho. intros key t Ht. specialize (Hw key t Ht). unfold in_heap in Hw. lia.
Qed.

(** Fewer than four tables are missing for any page. *)
Lemma missing_bound tabs v : (missing tabs v <= 3)%nat.
Proof. unfold missing, missing_keys. etransitivity; [apply length_filter|]. reflexivity. Qed.

Lemma install_page_high h cr3 tabs l phys virt :
  mmu_ok h cr3 tabs l -> within in_heap tabs l -> phys mod 4096 = 0 -> 0 <= phys < 2 ^ 52 ->
  3 <= Z.of_nat (length l) ->
  exists m' f slot tabs' l', install_page h cr3 phys virt = Ok (set_free (set_mem h m') f, slot) /\
    mmu_ok (set_free (set_mem h m') f) cr3 tabs' l' /\ within in_heap tabs' l' /\
    Z.of_nat (length l) - 3 <= Z.of_nat (length l') /\ same_dom (hmem h) m' /\
    (forall x, x < low -> m' !! x = hmem h !! x) /\
    (forall va, 0 <= va < 2 ^ 48 -> va / 4096 <> virt mod 2 ^ 48 / 4096 -> translate m' cr3 va = translate (hmem h) cr3 va) /\
    translate m' cr3 virt = Ok (Some (phys + virt mod 4096)).
Proof.
  intros Hok HW Hpa Hpr Hl. rewrite <- install_page_wraps.
  assert (Hv : 0 <= virt mod 2 ^ 48 < 2 ^ 48) by (apply Z.mod_pos_bound; lia).
  pose proof (missing_bound tabs (virt mod 2 ^ 48 / 4096)) as Hm.
  destruct (install_page_ok h cr3 tabs l phys (virt mod 2 ^ 48)) as (m' & f & slot & E & Hok' & Hleaf & Hd & Ho);
    [done|done|done|done|lia|].
  pose proof (grow_path_within in_heap _ _ (virt mod 2 ^ 48 / 4096) HW) as HW'.
  pose proof (proj2 (grow_keys (path_keys (virt mod 2 ^ 48 / 4096)) tabs l (NoDup_path _) ltac:(fold (missing tabs (virt mod 2 ^ 48 / 4096)); lia))) as Hlen.
  eexists m', f, slot, _, _. split; [exact E|]. split; [exact Hok'|]. split; [exact HW'|].
  split; [unfold grow_path; unfold missing in Hm; lia|]. split; [done|]. split.
  - intros x Hx. by eapply tables_high.
  - pose proof (mmu_tree _ _ _ _ Hok') as Ht'. hfields. split.
    + intros va Hva Hne. rewrite (translate_leaf m' cr3 _ va Ht' Hva), (translate_leaf (hmem h) cr3 tabs va) by (done || apply Hok).
      by rewrite Hleaf, (proj2 (Z.eqb_neq _ _)).
    + rewrite <- translate_wraps, (translate_leaf m' cr3 _ _ Ht' Hv), Hleaf, Z.eqb_refl. mret. unfold entry_target.
      destruct (entry_bits phys Hpa Hpr) as (-> & _ & ->). do 3 f_equal. change (2 ^ 48) with (2 ^ 36 * 4096).
      rewrite Z.rem_mul_r by lia. Z.to_euclidean_division_equations. lia.
Qed.

Lemma alloc_vpages_room n h :
  room n h -> 0 < n -> hlock h = 0 ->
  exists v, alloc_vpages h 2 = Ok (set_vfree h v 0, v) /\ room (n - 1) (set_vfree h v 0) /\
    2 ^ 64 - 2 ^ 40 <= v <= 2 ^ 64 - 8192 /\ v mod 4096 = 0.
Proof.
  intros ((Hlo & Hhi) & Ha & H0) Hn Hl. unfold alloc_vpages, spin_lock. rewrite Hl. change (0 =? 0) with true. mret. hfields.
  change (u64 (PAGE_SIZE * 2)) with 8192. unfold spin_unlock.
  assert (Hv : u64 (vfree_top h - 8192) = vtop h - 8192).
  { clear Ha. revert Hlo Hhi. unfold vtop. destruct (Z.eqb_spec (vfree_top h) 0) as [->|Hne]; [reflexivity|].
    intros. apply u64_small. lia. }
  eexists. rewrite Hv. split; [done|]. unfold room.
  assert (Ht : vtop (set_vfree h (vtop h - 8192) 0) = vtop h - 8192).
  { unfold vtop at 1. hfields. by rewrite (proj2 (Z.eqb_neq _ 0)) by lia. }
  assert (Hm : (vtop h - 8192) mod 4096 = 0) by (clear -Ha; Z.to_euclidean_division_equations; lia).
  rewrite Ht. hfields. split; [split; [lia|split; [exact Hm|lia]]|split; [lia|exact Hm]].
Qed.

(** What the operations on the heap leave alone. *)
Record moved (m m' : machine) : Prop := {
  mv_dom : same_dom (hmem (p_heap m)) (hmem (p_heap m'));
  mv_low : forall x, x < low -> hmem (p_heap m') !! x = hmem (p_heap m) !! x;
  mv_lock : hlock (p_heap m') = hlock (p_heap m);
  mv_ser : hser (p_heap m') = hser (p_heap m);
  mv_rest : p_idt m' = p_idt m /\ p_smp m' = p_smp m /\ p_gdtr m' = p_gdtr m;
}.

Lemma moved_trans m1 m2 m3 : moved m1 m2 -> moved m2 m3 -> moved m1 m3.
Proof.
  intros [A1 A2 A3 A4 (A5 & A6 & A7)] [B1 B2 B3 B4 (B5 & B6 & B7)]. split; [by rewrite A1| |congruence..|by split_and!; congruence].
  intros x Hx. by rewrite B2, A2.
Qed.

Lemma setup_moves last n m :
  0 < last <= 2 ^ 48 -> last mod 4096 = 0 -> 0 <= n -> pages (cost last + n) (p_heap m) ->
  exists m' cr3, call_setup_mmu last m = Ok m' /\ mmu_pages last n (p_heap m') /\ moved m m' /\
    vfree_top (p_heap m') = vfree_top (p_heap m) /\ p_trace m' = p_trace m ++ [OCr3 cr3].
Proof.
  intros Hlast Ha Hn (Hr & l & Hf & HP & Hl). unfold cost in Hl.
  assert (Hz : (last =? 0) = false) by (apply Z.eqb_neq; lia).
  destruct (setup_mmu_run (p_heap m) l last) as (m' & f & cr3 & tabs & l' & E & Hok & Hlen & Ho & Hd & HW & Ht);
    rewrite ?Hz in *; [done|lia|lia|].
  specialize (HW in_heap HP). unfold call_setup_mmu. rewrite E. mret. eexists _, cr3. split; [done|]. split; [|split; [|done]].
  - split; [eapply (room_less (cost last + n)); [pose proof (cost_pos last ltac:(lia)); lia|exact Hr]|].
    exists tabs, l'. mfields. hfields. split; [done|]. split; [done|]. split; [lia|].
    intros va Hva. rewrite Ht by lia. destruct (Z.ltb_spec (va / 4096) (last / 4096)) as [|Hge]; [done|].
    exfalso. Z.to_euclidean_division_equations. lia.
  - split; try done. intros x Hx. by eapply tables_high.
Qed.

(** [install_page] for a page at the top of the address space. *)
Lemma ioram_moves n m virt :
  mmu_pages (2 ^ 32) (3 + n) (p_heap m) -> 2 ^ 64 - 2 ^ 40 <= virt < 2 ^ 64 -> virt mod 4096 = 0 -> 0 <= n ->
  exists h, call_install_page IORAM_BASE_PHYS virt m = Ok (with_heap m h) /\ mmu_pages (2 ^ 32) n h /\ moved m (with_heap m h) /\
    translate (hmem h) (cr3_reg h) virt = Ok (Some IORAM_BASE_PHYS) /\
    forall va, 0 <= va < 2 ^ 64 -> va mod 2 ^ 48 / 4096 <> virt mod 2 ^ 48 / 4096 ->
      translate (hmem h) (cr3_reg h) va = translate (hmem (p_heap m)) (cr3_reg (p_heap m)) va.
Proof.
  intros (Hr & tabs & l & Hok & HW & Hl & Hid) Hv Ha Hn. unfold call_install_page, read_cr3.
  destruct (install_page_high (p_heap m) (cr3_reg (p_heap m)) tabs l IORAM_BASE_PHYS virt Hok HW)
    as (m' & f & slot & tabs' & l' & E & Hok' & HW' & Hl' & Hd & Hlow & Ht & Hnew); [done|by vm_compute|lia|].
  rewrite E. mret. eexists. split; [done|]. mfields. hfields. split; [|split; [|split]].
  - split; [apply (room_less (3 + n)); [lia|exact Hr]|]. exists tabs', l'. hfields. split; [done|].
    split; [done|]. split; [lia|]. intros va Hva. rewrite Ht; [by apply Hid|lia|].
    change (2 ^ 64 - 2 ^ 40) with (65535 * 2 ^ 48 + (2 ^ 48 - 2 ^ 40)) in Hv.
    change (2 ^ 64) with (65536 * 2 ^ 48) in Hv. change (2 ^ 32) with (1048576 * 4096) in Hva.
    clear Ha. Z.to_euclidean_division_equations. lia.
  - by split.
  - rewrite Hnew, Ha. done.
  - intros va Hva Hne. rewrite <- (translate_wraps m'), <- (translate_wraps (hmem (p_heap m))).
    apply Ht; [apply Z.mod_pos_bound; lia|exact Hne].
Qed.

Definition ioram_cost : Z := cost (2 ^ 32) + 7.

(** The benchmarks' [init] with its two pages. *)
Lemma map_ioram_moves n m :
  0 <= n -> pages (ioram_cost + n) (p_heap m) -> hlock (p_heap m) = 0 ->
  exists m' cr3, map_ioram m = Ok m' /\ mmu_pages (2 ^ 32) n (p_heap m') /\ moved m m' /\ p_trace m' = p_trace m ++ [OCr3 cr3] /\
    2 ^ 32 <= g_mem m' /\ vaddr m' (g_mem m') = Ok IORAM_BASE_PHYS /\ vaddr m' (g_mem m' + 4096) = Ok IORAM_BASE_PHYS.
Proof.
  intros Hn Hm Hk. unfold map_ioram.
  destruct (setup_moves (2 ^ 32) (7 + n) m ltac:(lia) eq_refl ltac:(lia)) as (m1 & cr3 & E & Hp & M1 & _ & T1).
  { unfold ioram_cost in Hm. by replace (cost (2 ^ 32) + (7 + n)) with (cost (2 ^ 32) + 7 + n) by lia. }
  change (Z.shiftl 1 32) with (2 ^ 32). rewrite E. mret. destruct Hp as (Hr & Hp). pose proof (mv_lock _ _ M1) as Hk1. rewrite Hk in Hk1.
  destruct (alloc_vpages_room _ _ Hr ltac:(lia) Hk1) as (v & -> & Hr' & Hv & Hva). mret.
  set (m2 := set_g_mem (with_heap m1 (set_vfree (p_heap m1) v 0)) v).
  assert (M2 : moved m1 m2) by (by split; mfields; hfields).
  assert (H2 : mmu_pages (2 ^ 32) (3 + (3 + n)) (p_heap m2)).
  { split; [by replace (3 + (3 + n)) with (7 + n - 1) by lia|]. destruct Hp as (tabs & l & [A B C] & HW & Hl & Hid).
    exists tabs, l. split; [by split|]. split; [done|]. split; [lia|done]. }
  change (g_mem m2) with v.
  destruct (ioram_moves (3 + n) m2 v H2 ltac:(lia) Hva ltac:(lia)) as (h3 & -> & H3 & M3 & V3 & _). mret.
  change (g_mem (with_heap m2 h3)) with v. rewrite u64_small by lia.
  destruct (ioram_moves n (with_heap m2 h3) (v + 4096) H3 ltac:(lia)) as (h4 & -> & H4 & M4 & V4 & K4); [|lia|].
  { clear -Hva. Z.to_euclidean_division_equations. lia. }
  eexists _, cr3. split; [done|]. split; [exact H4|].
  split; [exact (moved_trans _ _ _ (moved_trans _ _ _ (moved_trans _ _ _ M1 M2) M3) M4)|]. split; [exact T1|].
  unfold vaddr. change (g_mem (with_heap (with_heap m2 h3) h4)) with v. mfields. rewrite V4, K4; [|lia|].
  - change (p_heap (with_heap m2 h3)) with h3. rewrite V3. mret. split; [lia|by split].
  - clear -Hv Hva. change (2 ^ 64 - 2 ^ 40) with (65535 * 2 ^ 48 + (2 ^ 48 - 2 ^ 40)) in Hv.
    change (2 ^ 64) with (65536 * 2 ^ 48) in Hv. change (2 ^ 48) with 281474976710656 in *. change (2 ^ 40) with 1099511627776 in *.
    Z.to_euclidean_division_equations. lia.
Qed.

(** *** In the suite *)

Hypothesis Hlay : layout.


(** A change of memory outside the array. *)
Lemma base_mem k m mm :
  base k m -> same_dom (hmem (p_heap m)) mm ->
  (forall x, im_a im <= x < im_a im + 27 -> mm !! x = hmem (p_heap m) !! x) ->
  base k (with_heap m (set_mem (p_heap m) mm)).
Proof.
  intros [H1 H2 H3 H4 H5 H6 H7 H8] Hd Ha. split; mfields; hfields; try done.
  - eapply cstr_frame; [exact H2|]. intros x Hx. apply Ha. unfold letters in Hx. cbn [length replicate] in Hx. lia.
  - by rewrite <- Hd.
  - intros j. by rewrite <- Hd.
Qed.

(** What the heap's operations leave of the rest. *)
Lemma moved_base k m m' : moved m m' -> base k m -> base k m'.
Proof.
  intros [H1 H2 H3 H4 (H5 & H6 & H7)] Hb.
  eapply base_same; [|apply (base_mem k m (hmem (p_heap m')) Hb H1); intros x Hx; apply H2; destruct Hlay; lia].
  unfold same_base, ports. mfields. hfields. by rewrite H4.
Qed.

Lemma moved_text m m' : moved m m' -> text m' = text m.
Proof. intros Hm. cbn. unfold ports. by rewrite (mv_ser _ _ Hm). Qed.

Lemma does_setup_mmu last n k :
  0 < last <= 2 ^ 48 -> last mod 4096 = 0 -> 0 <= n ->
  does (ready (cost last + n) k) (call_setup_mmu last) [] (counts is_cr3 1) (mapped_to last n k).
Proof.
  intros Hlast Ha Hn m [Hp Hb]. destruct (setup_moves last n m Hlast Ha Hn Hp) as (m' & cr3 & E & Hm & M & _ & T).
  exists m', [OCr3 cr3]. split; [done|]. split; [split; [done|by eapply moved_base]|]. by rewrite app_nil_r, (moved_text _ _ M).
Qed.

Lemma does_switch last n k :
  does (mapped_to last n k) call_switch_to_start_cr3 [] (counts is_cr3 1) (ready n k).
Proof.
  intros m [(Hr & tabs & l & [_ Hf _] & [_ HP] & Hl & _) Hb]. eexists _, [OCr3 _]. split; [done|].
  split; [|by rewrite app_nil_r]. split; [split; [exact Hr|by exists l]|]. by eapply base_same; [|exact Hb].
Qed.

Lemma does_map_ioram n k :
  0 <= n -> does (ready (ioram_cost + n) k) map_ioram [] (fun _ => True) (mapped_to (2 ^ 32) n k).
Proof.
  intros Hn m [Hp Hb]. destruct (map_ioram_moves n m Hn Hp (ba_lock _ _ Hb)) as (m' & cr3 & E & Hm & M & T & _).
  exists m', [OCr3 cr3]. split; [done|]. split; [split; [done|by eapply moved_base]|]. by rewrite app_nil_r, (moved_text _ _ M).
Qed.

(** A store below the heap and outside the array. *)
Lemma store_low last n k m mm x b :
  last <= 2 ^ 48 -> mapped_to last n k m -> store8 (hmem (p_heap m)) x b = Ok mm -> x < low ->
  x < im_a im \/ im_a im + 27 <= x -> mapped_to last n k (with_heap m (set_mem (p_heap m) mm)).
Proof.
  intros H48 [(Hr & tabs & l & Hok & HW & Hl & Hid) Hb] Hs Hx Ha.
  assert (Hd : is_Some (hmem (p_heap m) !! x)) by (unfold store8 in Hs; by destruct (_ !! x)).
  apply store8_inv in Hs. assert (Hfar : forall y, y <> x -> mm !! y = hmem (p_heap m) !! y).
  { intros y Hy. subst mm. by rewrite lookup_insert_ne. }
  assert (Hsd : same_dom (hmem (p_heap m)) mm) by (subst mm; by apply same_dom_insert).
  destruct (mmu_ok_frame (p_heap m) mm (cr3_reg (p_heap m)) tabs l in_heap Hok HW Hsd) as [Hok' Ht].
  { intros p y Hp Hy. apply Hfar. unfold in_heap in Hp. lia. }
  split; [split; [exact Hr|]|].
  - exists tabs, l. mfields. hfields. split; [done|]. split; [done|]. split; [done|]. intros va Hva.
    rewrite Ht by lia. by apply Hid.
  - apply base_mem; [done|done|]. intros y Hy. apply Hfar. lia.
Qed.

Lemma vaddr_identity last n k m va : mapped_to last n k m -> 0 <= va < last -> vaddr m va = Ok va.
Proof. intros [(_ & tabs & l & _ & _ & _ & Hid) _] Hva. unfold vaddr. by rewrite Hid. Qed.

Lemma vstore_ok last n k bs : last <= 2 ^ 48 -> low <= last -> forall m va,
  mapped_to last n k m -> 0 <= va -> va + Z.of_nat (length bs) <= low ->
  disjoint_ranges va (Z.of_nat (length bs)) (im_a im) 27 -> mapped (hmem (p_heap m)) va (Z.of_nat (length bs)) ->
  Forall (fun b => 0 <= b < 256) bs ->
  exists mm, vstore m va bs = Ok (with_heap m (set_mem (p_heap m) mm)) /\
    mapped_to last n k (with_heap m (set_mem (p_heap m) mm)) /\ bytes_at mm va bs /\
    forall x, x < va -> mm !! x = hmem (p_heap m) !! x.
Proof.
  intros H48 Hlow. unfold disjoint_ranges.
  induction bs as [|b bs IH]; intros m va Hm H0 Hva Hdis Hmap Hby; cbn [vstore length] in *.
  - exists (hmem (p_heap m)). assert (Hid : with_heap m (set_mem (p_heap m) (hmem (p_heap m))) = m)
      by (destruct m as [[] ]; done). rewrite Hid. split; [done|]. split; [done|]. split; [apply bytes_at_nil|done].
  - rewrite (vaddr_identity last n k) by (done || lia). mret.
    apply Forall_cons in Hby as [Hb Hby].
    assert (Hx : is_Some (hmem (p_heap m) !! va)) by (apply Hmap; lia).
    pose proof (store8_ok _ _ b Hx) as Hs. rewrite Hs. mret.
    set (m1 := with_heap m (set_mem (p_heap m) (<[va := u8 b]> (hmem (p_heap m))))).
    destruct (IH m1 (va + 1)) as (mm & E & H1 & Hbytes & Hbelow); try lia.
    + eapply store_low; [done|done|exact Hs|lia|lia].
    + intros x Hx1. unfold m1. mfields. hfields. rewrite lookup_insert_is_Some'. right. apply Hmap. lia.
    + done.
    + exists mm. split; [exact E|]. split; [exact H1|]. split.
      * apply bytes_at_cons. split; [|done]. rewrite Hbelow by lia. unfold m1. mfields. hfields.
        rewrite lookup_insert_eq. f_equal. by apply Z.mod_small.
      * intros x Hx1. rewrite Hbelow by lia. unfold m1. mfields. hfields. by rewrite lookup_insert_ne by lia.
Qed.

(** The GDTR as [sgdt] left it at [mem]. *)
Definition saved (m : machine) : Prop :=
  bytes_at (hmem (p_heap m)) (g_mem m) (p_gdtr m) /\ 0 <= g_mem m /\ g_mem m + 10 <= low.

Lemma store_via_output_ok last n k m bs o :
  last <= 2 ^ 48 -> low <= last -> mapped_to last n k m -> length bs = 10%nat -> Forall (fun b => 0 <= b < 256) bs ->
  exists m', store_via_output im bs o m = Ok m' /\ mapped_to last n k m' /\ text m' = text m /\
    p_trace m' = p_trace m ++ [o (g_mem m')] /\ p_gdtr m' = p_gdtr m /\
    bytes_at (hmem (p_heap m')) (g_mem m') bs /\ 0 <= g_mem m' /\ g_mem m' + 10 <= low.
Proof.
  intros H48 Hlow Hm Hlen Hby. unfold store_via_output. set (j := length (p_trace m)).
  pose proof (la_reg Hlay j) as Hreg. pose proof (la_reg_a Hlay j) as Hda.
  destruct (vstore_ok last n k bs H48 Hlow m (im_reg im j)) as (mm & E & H1 & Hb & _);
    rewrite ?Hlen; [done|lia|lia|exact Hda|apply Hm|done|].
  rewrite E. mret. eexists. split; [done|]. split; [by eapply mapped_core; [|exact H1]|]. mfields. hfields. done.
Qed.

Definition is_sgdt (o : op) : bool := match o with OSgdt _ => true | _ => false end.
Definition is_sidt (o : op) : bool := match o with OSidt _ => true | _ => false end.
Definition is_lgdt (o : op) : bool := match o with OLgdt _ => true | _ => false end.

Lemma does_sgdt n k :
  does (mapped_to (2 ^ 32) n k) (sgdt im) [] (counts is_sgdt 1) (fun m => mapped_to (2 ^ 32) n k m /\ saved m).
Proof.
  intros m Hm. destruct (ba_gdtr _ _ (proj2 Hm)) as [Hl Hb].
  destruct (store_via_output_ok (2 ^ 32) n k m (p_gdtr m) OSgdt ltac:(lia) (la_low Hlay) Hm Hl Hb)
    as (m' & E & H1 & T & R & G & S1 & S2 & S3).
  eexists m', _. split; [exact E|]. split; [split; [done|]; unfold saved; by rewrite G|].
  rewrite app_nil_r. split; [done|]. split; [exact R|done].
Qed.

Lemma does_sidt n k :
  does (mapped_to (2 ^ 32) n k) (sidt im) [] (counts is_sidt 1) (mapped_to (2 ^ 32) n k).
Proof.
  intros m Hm. assert (Hl : length (idtr_bytes m) = 10%nat)
    by (unfold idtr_bytes; by rewrite length_app, !length_le_bytes).
  destruct (store_via_output_ok (2 ^ 32) n k m (idtr_bytes m) OSidt ltac:(lia) (la_low Hlay) Hm Hl)
    as (m' & E & H1 & T & R & _).
  { unfold idtr_bytes. apply Forall_app. split; apply le_bytes_range. }
  eexists m', _. split; [exact E|]. split; [done|]. rewrite app_nil_r. split; [done|]. split; [exact R|done].
Qed.

Lemma vload_ok last n k m bs : low <= last -> mapped_to last n k m -> forall va,
  bytes_at (hmem (p_heap m)) va bs -> 0 <= va -> va + Z.of_nat (length bs) <= low ->
  vload (length bs) m va = Ok bs.
Proof.
  intros Hlow Hm. induction bs as [|b bs IH]; intros va Hb H0 Hva; cbn [vload length] in *; [done|].
  apply bytes_at_cons in Hb as [Hb1 Hb2]. rewrite (vaddr_identity last n k) by (done || lia). mret.
  rewrite (load8_ok _ _ _ Hb1). mret. by rewrite IH by (done || lia).
Qed.

(** [lgdt] loads what [sgdt] saved. *)
Lemma lgdt_same n k m :
  mapped_to (2 ^ 32) n k m -> saved m -> lgdt m = Ok (traced (with_gdtr m (p_gdtr m)) (OLgdt (g_mem m))).
Proof.
  intros Hm (Hb & H0 & Hlow). unfold lgdt. destruct (ba_gdtr _ _ (proj2 Hm)) as [Hl _].
  rewrite <- Hl, (vload_ok (2 ^ 32) n k m (p_gdtr m) (la_low Hlay) Hm) by (done || lia). done.
Qed.

Lemma does_lgdt n k :
  does (fun m => mapped_to (2 ^ 32) n k m /\ saved m) lgdt [] (counts is_lgdt 1)
    (fun m => mapped_to (2 ^ 32) n k m /\ saved m).
Proof.
  intros m [Hm Hs]. rewrite (lgdt_same n k) by done. eexists _, [_]. split; [done|].
  split; [split; [by eapply mapped_core; [|exact Hm]|exact Hs]|]. by rewrite app_nil_r.
Qed.

(** ** Memory accesses *)

Definition is_load (o : op) : bool := match o with OLoad _ => true | _ => false end.

Lemma touch_ok last n k m va :
  mapped_to last n k m -> 0 <= va < last -> touch va m = Ok (traced m (OLoad va)).
Proof. intros Hm Hva. unfold touch. by rewrite (vaddr_identity last n k). Qed.

(** [c] loads of the addresses [f 0], [f 1], ... *)
Definition loads (f : nat -> Z) (c : nat) (t : list op) : Prop := t = (fun i => OLoad (f i)) <$> seq 0 c.

Lemma loads_count f c t : loads f c t -> counts is_load (Z.of_nat c) t.
Proof.
  unfold loads, counts. intros ->. f_equal. rewrite <- (length_seq c 0) at 2. generalize (seq 0 c).
  intros l. induction l as [|x l IH]; [done|]. rewrite fmap_cons, filter_cons_True by done. simpl. by rewrite IH.
Qed.

(** A loop of loads, of [f i] in the round [i]. *)
Lemma does_loads last n k c f (inv : nat -> machine -> Prop) body :
  (forall i, (i < c)%nat -> 0 <= f i < last) ->
  (forall i m, (i < c)%nat -> inv i m -> touch (f i) m = Ok (traced m (OLoad (f i))) ->
     exists m', body m = Ok m' /\ inv (S i) m' /\ same_core m m' /\ text m' = text m /\
       p_trace m' = p_trace m ++ [OLoad (f i)]) ->
  does (fun m => mapped_to last n k m /\ inv O m) (for_loop c body) [] (loads f c)
    (fun m => mapped_to last n k m /\ inv c m).
Proof.
  intros Hf Hb. pose proof (does_loop c (fun i m => mapped_to last n k m /\ inv i m) body [] (loads f)) as H.
  rewrite concat_nils in H. apply H; [done|]. intros i m t0 Hi [Hm Hinv] ->.
  destruct (Hb i m Hi Hinv (touch_ok last n k m (f i) Hm (Hf i Hi))) as (m' & E & I' & C' & T' & R').
  exists m', [OLoad (f i)]. split; [done|].
  split; [split; [by eapply mapped_core|done]|]. rewrite app_nil_r. split; [done|]. split; [done|].
  unfold loads. by rewrite seq_S, fmap_app.
Qed.

(** The cold kernel reads one byte of each page from the 16384th on. *)
Definition cold_addr (i : nat) : Z := 4096 * (16384 + Z.of_nat i).

Lemma does_cold n k :
  does (mapped_to (2 ^ 33) n k) (b_benchmark bench_memory_cold) [] (loads cold_addr (Z.to_nat COLD_ACCESS))
    (mapped_to (2 ^ 33) n k).
Proof.
  intros m Hm.
  assert (Hb : forall i m, (i < Z.to_nat COLD_ACCESS)%nat -> g_ptr m = 16384 + Z.of_nat i ->
    u64 (g_ptr m * 4096) = cold_addr i /\ u64 (g_ptr m + 1) mod Z.shiftl 1 30 = 16384 + Z.of_nat (S i)).
  { intros i m' Hi ->. unfold COLD_ACCESS in Hi. unfold cold_addr. change (Z.shiftl 1 30) with 1073741824.
    rewrite !u64_small by lia. rewrite Z.mod_small by lia. lia. }
  destruct (does_loads (2 ^ 33) n k (Z.to_nat COLD_ACCESS) cold_addr (fun i m => g_ptr m = 16384 + Z.of_nat i)
    (fun m => m ← touch (u64 (g_ptr m * 4096)) m; Ok (next_ptr m))) with (m := set_g_ptr m 16384)
    as (m' & t & E & [H1 _] & H2).
  - intros i Hi. unfold COLD_ACCESS in Hi. unfold cold_addr. lia.
  - intros i m0 Hi Hp Ht. destruct (Hb i m0 Hi Hp) as [-> Hn]. rewrite Ht. mret. eexists. split; [done|].
    split; [exact Hn|]. done.
  - split; [|done]. by eapply mapped_core; [|exact Hm].
  - exists m', t. split; [exact E|]. split; [done|]. exact H2.
Qed.

(** The hot loop reads one byte of each page from 1 MiB on. *)
Definition hot_addr (i : nat) : Z := 1048576 + 4096 * Z.of_nat i.

Lemma does_hot n k :
  does (mapped_to (2 ^ 32) n k) (fun m => hot_loop (set_g_address m 1048576)) []
    (loads hot_addr (Z.to_nat HOT_ACCESS)) (mapped_to (2 ^ 32) n k).
Proof.
  intros m Hm.
  assert (Hb : forall i m, (i < Z.to_nat HOT_ACCESS)%nat -> g_address m = hot_addr i ->
    u64 (g_address m + 4096) mod Z.shiftl 1 30 = hot_addr (S i)).
  { intros i m' Hi ->. unfold HOT_ACCESS in Hi. unfold hot_addr. change (Z.shiftl 1 30) with 1073741824.
    rewrite u64_small by lia. rewrite Z.mod_small by lia. lia. }
  destruct (does_loads (2 ^ 32) n k (Z.to_nat HOT_ACCESS) hot_addr (fun i m => g_address m = hot_addr i)
    (fun m => m ← touch (g_address m) m; Ok (next_address m))) with (m := set_g_address m 1048576)
    as (m' & t & E & [H1 _] & H2).
  - intros i Hi. unfold HOT_ACCESS in Hi. unfold hot_addr. lia.
  - intros i m0 Hi Hp Ht. pose proof (Hb i m0 Hi Hp) as Hn. rewrite Hp, Ht. mret. eexists. split; [done|].
    split; [exact Hn|]. done.
  - split; [|done]. by eapply mapped_core; [|exact Hm].
  - exists m', t. split; [exact E|]. split; [done|]. exact H2.
Qed.

(** A loop that only advances a global. *)
Lemma does_advance P (f : machine -> machine) c :
  (forall m, P m -> P (f m) /\ text (f m) = text m /\ p_trace (f m) = p_trace m) ->
  does P (for_ c (fun m => Ok (f m))) [] (fun t => t = []) P.
Proof.
  intros Hf. unfold for_. pose proof (does_loop (Z.to_nat c) (fun _ => P) (fun m => Ok (f m)) [] (fun _ t => t = [])) as H.
  rewrite concat_nils in H. apply H; [done|]. intros i m t0 _ Hm ->. destruct (Hf m Hm) as (H1 & T & R).
  exists (f m), []. by rewrite !app_nil_r, T, R.
Qed.

(** ** Interrupts and ports *)

Section Processors.

(** [dest] is the processor with the index 1, and the APIC answers as
    [apic_ready] says. *)
Context (apic_ready : list Z -> Prop) (limit dest : Z).

(** What [smp_init] and [on_cpu] need: the entry stubs, the processor with
    index 1, an APIC that sends, and processors that let a call return: of the
    schedules of a call, one in which it does, as there is from every state
    when the target has its interrupts enabled. *)
Record processors : Prop := {
  pr_stub : forall v, v ∈ fault_vectors -> word_ok (im_stub im v) /\ im_stub im v <> 0;
  pr_cs : 0 <= im_cs im < 65536;
  pr_entry : word_ok (im_ipi_entry im);
  pr_dest : OnCpu.on_cpu_dest (im_tab im) 1 = Ok dest;
  pr_sender : IcrSender (im_ops im) apic_ready limit;
  pr_limit : 0 <= dest < limit;
  pr_return : forall st, OnCpu.callers st = [(dest, OnCpu.PLock)] -> OnCpu.ipi_lock st = 0 -> OnCpu.quiet st ->
    Forall (OnCpu.choice_ok apic_ready) (im_sched im st) /\
    exists st', OnCpu.run (im_ops im) (im_iflag im) st (im_sched im st) = Some st' /\
      OnCpu.callers st' = [(dest, OnCpu.PRet)];
}.

Hypothesis Hproc : processors.

(** [smp_init] changes memory only inside the IDT, whether or not the IDT was
    set up before. *)
Lemma smp_init_run mm st :
  mapped mm (im_boot_idt im) 4096 ->
  (idt_initialized st = false -> length (exception_handlers st) = 256%nat) ->
  exists mm' st', smp_init (im_boot_idt im) (im_cs im) (im_stub im) (im_ipi_entry im) mm st = Ok (mm', st') /\
    same_dom mm mm' /\ idt_initialized st' = true /\
    agree_outside (im_boot_idt im) (im_boot_idt im + 4096) mm mm'.
Proof.
  intros Hm Hl. set (b := im_boot_idt im) in *.
  assert (H1 : exists m1 st1, setup_idt b (im_cs im) (im_stub im) mm st = Ok (m1, st1) /\ same_dom mm m1 /\
    idt_initialized st1 = true /\ agree_outside b (b + 4096) mm m1).
  { destruct (idt_initialized st) eqn:Hi.
    - exists mm, st. unfold setup_idt. by rewrite Hi.
    - destruct (setup_idt_run mm b (im_cs im) (im_stub im) st (pr_stub Hproc) (pr_cs Hproc) Hm Hi (Hl eq_refl))
        as (m1 & st1 & E & _ & A & _ & _ & _ & D & I). exists m1, st1. split; [done|]. split; [done|]. split; [done|].
      intros x Hx. apply A. intros v Hv. unfold fault_vectors in Hv. rewrite !elem_of_cons, elem_of_nil in Hv. lia. }
  destruct H1 as (m1 & st1 & E1 & D1 & I1 & A1). unfold smp_init. rewrite E1. mret.
  destruct (set_idt_entry_ok m1 b (im_cs im) OnCpu.IPI_VECTOR (im_ipi_entry im) 0) as (m2 & E2 & _ & D2 & A2).
  { change OnCpu.IPI_VECTOR with 32. rewrite <- D1. eapply mapped_sub; [exact Hm| |]; lia. }
  { apply Hproc. }
  { apply Hproc. }
  rewrite E2. mret. exists m2, st1. split; [done|]. split; [by rewrite D1|]. split; [done|].
  intros x Hx. rewrite A2, A1 by (change OnCpu.IPI_VECTOR with 32; lia). done.
Qed.

Lemma does_smp_init n k : does (ready n k) (call_smp_init im) [] (fun t => t = []) (ready n k).
Proof.
  intros m [(Hr & l & (Hl & Hnd & Hok) & HP & Hn) Hb]. pose proof (la_idt Hlay) as Hidt.
  destruct (smp_init_run (hmem (p_heap m)) (p_idt m) (ba_idt _ _ Hb) (ba_handlers _ _ Hb)) as (mm & st & E & D & I & A).
  unfold call_smp_init. rewrite E. mret. eexists _, []. split; [done|]. split; [|by rewrite !app_nil_r]. split.
  - split; [exact Hr|]. exists l. split; [|done]. rewrite Forall_forall in HP. split; [|split; [done|]]; mfields; hfields.
    + eapply linked_frame; [|exact Hl]. intros p Hp. apply load64_frame. intros x Hx. apply A.
      specialize (HP p Hp). unfold in_heap in HP. lia.
    + eapply Forall_impl; [exact Hok|]. intros p. by apply page_ok_dom.
  - assert (Ha : forall x, im_a im <= x < im_a im + 27 -> mm !! x = hmem (p_heap m) !! x).
    { intros x Hx. apply A. pose proof (la_a_idt Hlay) as Hd. unfold disjoint_ranges in Hd. lia. }
    destruct (base_mem k m mm Hb D Ha) as [H1 H2 H3 H4 H5 H6 H7 H8]. split; try done.
    mfields. by rewrite I.
Qed.

Definition is_ipi (o : op) : bool := match o with OIpi _ => true | _ => false end.

(** The invariant of the calls at the end of a run with one call that has
    returned. *)
Lemma returned_rest st a d :
  OnCpu.inv st a -> OnCpu.callers st = [(d, OnCpu.PRet)] -> OnCpu.ipi_lock st = 0 /\ OnCpu.quiet st.
Proof.
  intros Hinv Hc. assert (Hno : forall i e p, OnCpu.holder st i e p -> p <> OnCpu.PRet -> False).
  { intros i e p (_ & Hi & _) Hp. rewrite Hc in Hi. destruct i as [|[]]; try done. by injection Hi as _ <-. }
  destruct Hinv as [Hl _ Hq|i e Hh|i e Hh|i e Hh|i e Hh|i e Hh|i e Hh]; [done|by destruct (Hno _ _ _ Hh)..].
Qed.

Lemma does_on_cpu last n k :
  does (mapped_to last n k) (on_cpu im 1) [] (counts is_ipi 1) (mapped_to last n k).
Proof.
  intros m [Hp Hb]. unfold on_cpu. rewrite (pr_dest Hproc). mret.
  set (st := enter_call (p_smp m) dest). destruct (ba_smp _ _ Hb) as [Hlock [Hirr Hset]].
  destruct (pr_return Hproc st eq_refl Hlock) as (Hok & st' & E & Hc); [by split|]. rewrite E. cbn [of_option]. mret.
  rewrite decide_True by done. eexists _, [OIpi dest]. split; [done|]. split; [|by rewrite app_nil_r]. split.
  - exact Hp.
  - assert (Hinv : OnCpu.inv st OnCpu.Idle).
    { apply OnCpu.inv_free; [done| |by split]. intros i d p Hi. destruct i as [|[]]; try done.
      injection Hi as _ <-. by left. }
    destruct (@OnCpu.run_simulates _ _ _ (im_iflag im) (pr_sender Hproc) (im_sched im st) st OnCpu.Idle st' Hinv)
      as [(evs & a & _ & _ & Hinv') _]; [|done|done|].
    { apply Forall_singleton. apply Hproc. }
    destruct Hb as [H1 H2 H3 H4 H5 H6 H7 H8]. split; try done. by eapply returned_rest.
Qed.

End Processors.

Definition is_in (o : op) : bool := match o with OIn _ => true | _ => false end.
Definition is_out (o : op) : bool := match o with OOut _ _ => true | _ => false end.
Definition is_outs (o : op) : bool := match o with OOuts _ _ => true | _ => false end.

Lemma bench_inb_ok n k m port :
  ready n (1 + k) m -> 0 <= k -> exists v m', bench_inb port m = Ok (v, m') /\ ready n k m' /\ text m' = text m /\
    p_trace m' = p_trace m ++ [OIn port].
Proof.
  intros [Hp Hb] Hk. pose proof (ba_inputs _ _ Hb) as Hin. unfold bench_inb, inb, port_in.
  destruct (io_in (ports m)) as [|v rest] eqn:Ei; [simpl in Hin; lia|]. mret. eexists _, _. split; [done|].
  split; [|split; [|done]].
  - split; [exact Hp|]. destruct Hb as [H1 H2 H3 H4 H5 H6 H7 H8]. split; try done.
    change (k <= Z.of_nat (length rest)). rewrite Ei in H1. cbn [length] in H1. lia.
  - change (sent (io_log (ports m) ++ [EvIn 1 (u16 port) (u8 v)]) = text m). rewrite sent_app. cbn. apply app_nil_r.
Qed.

Lemma does_in n k :
  0 <= k -> does (ready n (IN_SERIAL_PORT + k)) (b_benchmark bench_in) [] (counts is_in IN_SERIAL_PORT) (ready n k).
Proof.
  intros Hk. pose proof (does_loop (Z.to_nat IN_SERIAL_PORT)
    (fun i => ready n (IN_SERIAL_PORT - Z.of_nat i + k)) (fun m => '(_, m) ← bench_inb (1016 + 3) m; Ok m) []
    (fun i => counts is_in (Z.of_nat i))) as H.
  rewrite concat_nils, Z2Nat.id in H by (by vm_compute).
  eapply does_weaken; [apply H; [done|]| |done|]; cbn beta; [|intros m; by rewrite Z.sub_0_r|intros m; by rewrite Z.sub_diag].
  intros i m t0 Hi Hm Ht. unfold IN_SERIAL_PORT in *.
  destruct (bench_inb_ok n (1000 - Z.of_nat (S i) + k) m (1016 + 3)) as (v & m' & E & H1 & T & R).
  { replace (1 + (1000 - Z.of_nat (S i) + k)) with (1000 - Z.of_nat i + k) by lia. done. }
  { lia. }
  rewrite E. exists m', [OIn (1016 + 3)]. split; [done|]. split; [done|]. rewrite app_nil_r. split; [done|].
  split; [done|]. replace (Z.of_nat (S i)) with (Z.of_nat i + 1) by lia. by apply counts_app.
Qed.

Lemma does_out n k :
  does (ready n k) (fun m => bench_outb (g_lcr m) (1016 + 3) m) [] (counts is_out 1) (ready n k).
Proof.
  intros m Hm. eexists _, [OOut _ _]. split; [done|]. split; [by eapply ready_core; [|exact Hm]|].
  split; [|done]. change (sent (io_log (ports m) ++ [EvOut 1 1019 (u8 (g_lcr m))]) = text m ++ []).
  by rewrite sent_app.
Qed.

(** The state of the print benchmark after its [init]. *)
Definition measured_len (n k : Z) (m : machine) : Prop := ready n k m /\ g_len m = 26.

Lemma does_outs n k :
  does (measured_len n k) (fun m => bench_outbs (im_a im) (g_len m) 1016 m) letters (counts is_outs 1)
    (measured_len n k).
Proof.
  intros m [Hm Hl]. pose proof (ba_a _ _ (proj2 Hm)) as Ha. unfold bench_outbs. rewrite Hl.
  change (Z.to_nat 26) with (length letters). change 1016 with serial_iobase.
  rewrite outbs_sends; [|by apply (bytes_at_app _ _ letters [0]), Ha|by_eval]. mret. eexists _, [OOuts _ _]. split; [done|].
  split; [split; [by eapply ready_core; [|exact Hm]|done]|]. split; [|done].
  change (sent (io_log (ports m) ++ (EvOut 1 serial_iobase <$> letters)) = text m ++ letters).
  by rewrite sent_app, sent_outs.
Qed.

Lemma does_len n k :
  does (ready n k) (fun m => l ← strlen (hmem (p_heap m)) (im_a im); Ok (set_g_len m l)) [] (fun t => t = [])
    (measured_len n k).
Proof.
  intros m Hm. rewrite (strlen_spec _ _ letters) by apply Hm. mret. eexists _, []. split; [done|].
  split; [split; [by eapply ready_core; [|exact Hm]|done]|]. by rewrite !app_nil_r.
Qed.

(** ** The table *)

#[local] Opaque for_.

(** What a benchmark needs and does: pages, answers of the ports, the text its
    kernel prints, and how many operations of which kind the kernel executes. *)
Record spec := mkSpec {
  s_bench : benchmark_t machine;
  s_pages : Z;
  s_inputs : Z;
  s_prints : list Z;
  s_kind : op -> bool;
  s_count : Z;
}.

Definition spec_ok (s : spec) : Prop :=
  let b := s_bench s in
  (length (b_category b) <= 900)%nat /\ (length (b_name b) <= 900)%nat /\
  -9223372036854775808 < b_iterations b <= 9223372036854775807 /\ 0 <= s_pages s /\ 0 <= s_inputs s /\
  forall n k, 0 <= n -> 0 <= k -> exists init R1 R2 R3, b_init b = Some init /\
    (stable R1 /\ stable R2 /\ stable R3) /\
    does (ready (s_pages s + n) (s_inputs s + k)) init [] (fun _ => True) R1 /\
    does R1 (b_control b) [] (fun t => t = []) R2 /\
    does R2 (b_benchmark b) (s_prints s) (counts (s_kind s) (s_count s)) R3 /\
    does R3 (b_cleanup b) [] (fun _ => True) (ready n k).

Definition spec_row (s : spec) : list Z :=
  row (b_category (s_bench s)) (b_name (s_bench s)) (b_iterations (s_bench s)) [] [] (s_prints s) [].

Lemma spec_runs s n k :
  spec_ok s -> 0 <= n -> 0 <= k -> runs_as (ready (s_pages s + n) (s_inputs s + k)) (s_bench s) (spec_row s) (ready n k).
Proof.
  intros (H1 & H2 & H3 & _ & _ & H) Hn Hk. destruct (H n k Hn Hk) as (init & R1 & R2 & R3 & E & S & Hi & Hc & Hb & Hl).
  split; [done|]. split; [done|]. split; [done|]. exists R1, R2, R3, [], [], (s_prints s), []. split; [done|].
  rewrite E. cbn [init_behaves]. by eauto 10 using does_behaves.
Qed.

Definition total (f : spec -> Z) (l : list spec) : Z := foldr Z.add 0 (f <$> l).

Lemma table_of_specs l n k :
  Forall spec_ok l -> 0 <= n -> 0 <= k ->
  table_runs (ready (total s_pages l + n) (total s_inputs l + k)) (s_bench <$> l) (spec_row <$> l) (ready n k).
Proof.
  intros Hl Hn Hk. assert (Hpos : 0 <= total s_pages l /\ 0 <= total s_inputs l).
  { clear -Hl. induction Hl as [|s l (_ & _ & _ & Hp & Hi & _) Hl IH]; unfold total in *; cbn; lia. }
  induction Hl as [|s l Hs Hl IH]; cbn [fmap list_fmap].
  - apply table_end.
  - assert (0 <= total s_pages l /\ 0 <= total s_inputs l).
    { clear -Hl. induction Hl as [|s l (_ & _ & _ & Hp & Hi & _) Hl IH]; unfold total in *; cbn; lia. }
    change (total s_pages (s :: l)) with (s_pages s + total s_pages l).
    change (total s_inputs (s :: l)) with (s_inputs s + total s_inputs l). rewrite <- !Z.add_assoc.
    eapply table_next; [apply spec_runs; [done|lia|lia]|apply ready_stable|by apply IH].
Qed.

(** Any operation at all. *)
Definition any (o : op) : bool := true.
Definition is_smsw (o : op) : bool := match o with OSmsw => true | _ => false end.
Definition is_popf (o : op) : bool := match o with OPopf => true | _ => false end.

Definition spec_idle : spec := mkSpec bench_idle 0 0 [] any 0.
Definition spec_sgdt : spec := mkSpec (bench_sgdt im) ioram_cost 0 [] is_sgdt 100000.
Definition spec_sidt : spec := mkSpec (bench_sidt im) ioram_cost 0 [] is_sidt 100000.
Definition spec_smsw : spec := mkSpec bench_smsw 0 0 [] is_smsw 1000000.
Definition spec_pushf_popf : spec := mkSpec bench_pushf_popf 0 0 [] is_popf 1000000.
Definition spec_lgdt : spec := mkSpec (bench_lgdt im) ioram_cost 0 [] is_lgdt 100000.
Definition spec_set_cr3 : spec := mkSpec bench_set_cr3 (cost (2 ^ 32)) 0 [] is_cr3 100000.
Definition spec_ipi : spec := mkSpec (bench_ipi im) (cost (2 ^ 32)) 0 [] is_ipi 100.
Definition spec_cold : spec := mkSpec bench_memory_cold (cost (2 ^ 33)) 0 [] is_load 100000.
Definition spec_hot : spec := mkSpec bench_memory_hot (cost (2 ^ 32)) 0 [] is_load 100000.
Definition spec_pt : spec := mkSpec bench_memory_pt (cost (2 ^ 32)) 0 [] is_cr3 1.
Definition spec_in : spec := mkSpec bench_in 0 1000 [] is_in 1000.
Definition spec_out : spec := mkSpec bench_out 0 1 [] is_out 1000.
Definition spec_print : spec :=
  mkSpec (bench_print im) 0 0 (concat (replicate (Z.to_nat PRINTF) letters)) is_outs 1000.

(** In the order of the table. *)
Definition suite : list spec :=
  [spec_idle; spec_sgdt; spec_sidt; spec_smsw; spec_pushf_popf; spec_lgdt; spec_set_cr3; spec_ipi; spec_cold;
   spec_hot; spec_pt; spec_in; spec_out; spec_print].

Lemma cost_nonneg last : 0 <= last -> 0 <= cost last.
Proof. intros H. pose proof (cost_pos last H). lia. Qed.

Lemma does_any P f o tr Q : does P f o tr Q -> does P f o (fun _ => True) Q.
Proof. intros H. by eapply does_weaken. Qed.

(** The names and numbers of a benchmark by evaluation, then its functions,
    with the states between them. *)
Ltac spec_by init r1 r2 r3 :=
  split; [simpl; lia|]; split; [simpl; lia|]; split; [by_eval|]; split; [by_eval|]; split; [by_eval|];
  intros n k Hn Hk; eexists init, (r1 n k), (r2 n k), (r3 n k); split; [reflexivity|];
  split;
  [split; [|split]; first [apply ready_stable|apply mapped_stable|idtac]|
   split; [eapply does_any; try apply does_nothing|
   split; [try apply does_quiet_loop|
   split; [|eapply does_any; first [apply does_switch|apply does_nothing|idtac]]]]].

Lemma does_silent P f (tr : list op -> Prop) Q : does P f [] (fun t => t = []) Q -> tr [] -> does P f [] tr Q.
Proof. intros H Ht. eapply does_weaken; [exact H|done| |done]. by intros t ->. Qed.

Lemma does_count P n body o sel c total Q :
  0 <= n -> total = c * n -> does P body o (counts sel c) P -> (forall m, P m -> Q m) ->
  does P (for_ n body) (concat (replicate (Z.to_nat n) o)) (counts sel total) Q.
Proof. intros Hn -> Hb HQ. eapply does_weaken; [by apply does_for|done|done|done]. Qed.

Lemma does_count_silent P n body sel c total Q :
  0 <= n -> total = c * n -> does P body [] (counts sel c) P -> (forall m, P m -> Q m) ->
  does P (for_ n body) [] (counts sel total) Q.
Proof. intros. rewrite <- (concat_nils (Z.to_nat n)). by eapply does_count. Qed.

Lemma idle_ok : spec_ok spec_idle.
Proof. spec_by nothing ready ready ready. by apply does_silent; [apply does_quiet_loop|]. Qed.

Lemma sgdt_ok : spec_ok spec_sgdt.
Proof.
  spec_by map_ioram (mapped_to (2 ^ 32)) (mapped_to (2 ^ 32)) (mapped_to (2 ^ 32)).
  - apply does_map_ioram. done.
  - eapply (does_count_silent _ _ _ _ 1); [done|reflexivity| |done]. eapply does_weaken; [apply does_sgdt|done|done|by intros m []].
Qed.

Lemma sidt_ok : spec_ok spec_sidt.
Proof.
  spec_by map_ioram (mapped_to (2 ^ 32)) (mapped_to (2 ^ 32)) (mapped_to (2 ^ 32)).
  - apply does_map_ioram. done.
  - eapply (does_count_silent _ _ _ _ 1); [done|reflexivity|apply does_sidt|done].
Qed.

Definition with_saved (n k : Z) (m : machine) : Prop := mapped_to (2 ^ 32) n k m /\ saved m.

Lemma with_saved_stable n k : stable (with_saved n k).
Proof. intros m t [H1 H2]. split; [by apply mapped_stable|done]. Qed.

Lemma lgdt_ok : spec_ok spec_lgdt.
Proof.
  spec_by (fun m => m ← map_ioram m; sgdt im m) with_saved with_saved with_saved; try apply with_saved_stable.
  - eapply (does_bind _ _ []); [by apply does_map_ioram|apply does_sgdt].
  - eapply (does_count_silent _ _ _ _ 1); [done|reflexivity|apply does_lgdt|done].
  - eapply does_weaken; [apply does_switch|by intros m []|done|done].
Qed.

Lemma smsw_ok : spec_ok spec_smsw.
Proof.
  spec_by (fun m => Ok (set_g_msw m (g_msw m) (u16 (read_cr0 m)))) ready ready ready.
  - intros m Hm. eexists _, []. split; [done|]. split; [by eapply ready_core; [|exact Hm]|]. rewrite !app_nil_r.
    split; [done|]. split; [done|]. exact (eq_refl : [] = []).
  - eapply (does_count_silent _ _ _ _ 10); [done|reflexivity| |done]. intros m Hm. eexists _, (replicate 10 OSmsw).
    split; [done|]. split; [by eapply ready_core; [|exact Hm]|]. rewrite app_nil_r. split; [done|]. split; [|done].
    cbn [replicate]. mfields. by rewrite <- !app_assoc.
Qed.

Lemma pushf_popf_ok : spec_ok spec_pushf_popf.
Proof.
  spec_by nothing ready ready ready.
  eapply (does_count_silent _ _ _ _ 10); [done|reflexivity| |done]. intros m Hm.
  eexists _, (concat (replicate 10 [OPushf; OPopf])). split; [done|]. split; [by eapply ready_core; [|exact Hm]|].
  rewrite app_nil_r. split; [done|]. split; [|done]. cbn [concat replicate]. mfields. by rewrite <- !app_assoc.
Qed.

Lemma set_cr3_ok : spec_ok spec_set_cr3.
Proof.
  pose (same := fun n k m => mapped_to (2 ^ 32) n k m /\ g_cr3 m = cr3_reg (p_heap m)).
  assert (Hs : forall n k, stable (same n k)).
  { intros n k m t [H1 H2]. split; [by apply mapped_stable|done]. }
  spec_by (fun m => m ← call_setup_mmu (Z.shiftl 1 32) m; Ok (set_g_cr3 m (read_cr3 m))) same same same; try apply Hs.
  - eapply (does_bind _ _ []); [by apply (does_setup_mmu (2 ^ 32)); [| |done]|]. intros m Hm. eexists _, [].
    split; [done|]. split; [split; [by eapply mapped_core; [|exact Hm]|done]|]. rewrite !app_nil_r. split; [done|].
    split; [done|]. exact (eq_refl : [] = []).
  - eapply (does_count_silent _ _ _ _ 1); [done|reflexivity| |done]. intros m [Hm Hc]. eexists _, [_]. split; [done|].
    split; [split; [|done]|by rewrite app_nil_r]. eapply mapped_core; [|exact Hm]. by repeat split.
  - eapply does_weaken; [apply does_switch|by intros m []|done|done].
Qed.

Lemma ipi_ok apic_ready limit dest : processors apic_ready limit dest -> spec_ok spec_ipi.
Proof.
  intros Hproc. spec_by (fun m => m ← call_smp_init im m; call_setup_mmu (Z.shiftl 1 32) m)
    (mapped_to (2 ^ 32)) (mapped_to (2 ^ 32)) (mapped_to (2 ^ 32)).
  - eapply (does_bind _ _ []); [by eapply does_smp_init|by apply (does_setup_mmu (2 ^ 32))].
  - eapply (does_count_silent _ _ _ _ 1); [done|reflexivity|by eapply does_on_cpu|done].
Qed.

(** A global is set first. *)
Lemma does_after P f o tr Q (g : machine -> machine) :
  does P f o tr Q -> (forall m, P m -> P (g m) /\ text (g m) = text m /\ p_trace (g m) = p_trace m) ->
  does P (fun m => f (g m)) o tr Q.
Proof.
  intros Hf Hg m Hm. destruct (Hg m Hm) as (H1 & T1 & R1). destruct (Hf (g m) H1) as (m' & t & H).
  rewrite T1, R1 in H. by exists m', t.
Qed.

Lemma does_stepping last n k c (g h : machine -> machine) :
  (forall m, same_core m (g m) /\ text (g m) = text m /\ p_trace (g m) = p_trace m) ->
  (forall m, same_core m (h m) /\ text (h m) = text m /\ p_trace (h m) = p_trace m) ->
  does (mapped_to last n k) (fun m => for_ c (fun m => Ok (h m)) (g m)) [] (fun t => t = []) (mapped_to last n k).
Proof.
  intros Hg Hh. apply (does_after _ (for_ c (fun m => Ok (h m)))); [apply does_advance|]; intros m Hm;
    [destruct (Hh m) as (C & T & R)|destruct (Hg m) as (C & T & R)]; split; try done; by eapply mapped_core.
Qed.

Lemma cold_ok : spec_ok spec_cold.
Proof.
  spec_by (call_setup_mmu (Z.shiftl 1 33)) (mapped_to (2 ^ 33)) (mapped_to (2 ^ 33)) (mapped_to (2 ^ 33)).
  - by apply (does_setup_mmu (2 ^ 33)).
  - by apply (does_stepping _ _ _ _ (fun m => set_g_ptr (set_g_ptr m 0) 16384)).
  - eapply does_weaken; [apply does_cold|done| |done]. intros t Ht. apply loads_count in Ht.
    rewrite Z2Nat.id in Ht by (by vm_compute). exact Ht.
Qed.

Lemma hot_ok : spec_ok spec_hot.
Proof.
  spec_by (fun m => m ← call_setup_mmu (Z.shiftl 1 32) m; hot_loop (set_g_address m 1048576))
    (mapped_to (2 ^ 32)) (mapped_to (2 ^ 32)) (mapped_to (2 ^ 32)).
  - eapply (does_bind _ _ []); [by apply (does_setup_mmu (2 ^ 32))|apply does_hot].
  - by apply (does_stepping _ _ _ _ (fun m => set_g_address m 0)).
  - eapply does_weaken; [apply does_hot|done| |done]. intros t Ht. apply loads_count in Ht.
    rewrite Z2Nat.id in Ht by (by vm_compute). exact Ht.
Qed.

Lemma pt_ok : spec_ok spec_pt.
Proof.
  spec_by nothing (fun n k => ready (cost (2 ^ 32) + n) k) (fun n k => ready (cost (2 ^ 32) + n) k)
    (mapped_to (2 ^ 32)).
  - apply does_nothing.
  - by apply (does_setup_mmu (2 ^ 32)).
Qed.

Lemma in_ok : spec_ok spec_in.
Proof.
  spec_by nothing (fun n k => ready n (1000 + k)) (fun n k => ready n (1000 + k)) ready.
  by apply does_in.
Qed.

Lemma out_ok : spec_ok spec_out.
Proof.
  spec_by (fun m => '(v, m) ← bench_inb (1016 + 3) m; Ok (set_g_lcr m v)) ready ready ready.
  - intros m Hm. destruct (bench_inb_ok n k m (1016 + 3)) as (v & m' & E & H & T & R); [done|done|]. rewrite E. mret.
    eexists _, [_]. split; [done|]. split; [by eapply ready_core; [|exact H]|]. rewrite app_nil_r. split; [exact T|].
    split; [exact R|]. exact (eq_refl : [OIn _] = [OIn _]).
  - eapply (does_count_silent _ _ _ _ 1); [done|reflexivity|apply does_out|done].
Qed.

Lemma measured_stable n k : stable (measured_len n k).
Proof. intros m t [H1 H2]. split; [by apply ready_stable|done]. Qed.

Lemma print_ok : spec_ok spec_print.
Proof.
  spec_by (fun m => l ← strlen (hmem (p_heap m)) (im_a im); Ok (set_g_len m l)) measured_len measured_len ready;
    try apply measured_stable.
  - apply does_len.
  - eapply (does_count _ _ _ _ _ 1); [done|reflexivity|apply does_outs|by intros m []].
Qed.

Lemma suite_ok apic_ready limit dest : processors apic_ready limit dest -> Forall spec_ok suite.
Proof.
  intros Hproc. unfold suite.
  refine (Forall_cons_2 _ _ _ idle_ok (Forall_cons_2 _ _ _ sgdt_ok (Forall_cons_2 _ _ _ sidt_ok (Forall_cons_2 _ _
    _ smsw_ok (Forall_cons_2 _ _ _ pushf_popf_ok (Forall_cons_2 _ _ _ lgdt_ok (Forall_cons_2 _ _ _ set_cr3_ok
    (Forall_cons_2 _ _ _ (ipi_ok _ _ _ Hproc) (Forall_cons_2 _ _ _ cold_ok (Forall_cons_2 _ _ _ hot_ok
    (Forall_cons_2 _ _ _ pt_ok (Forall_cons_2 _ _ _ in_ok (Forall_cons_2 _ _ _ out_ok (Forall_cons_2 _ _ _
    print_ok (Forall_nil_2 _))))))))))))))).
Qed.

(** What the whole table takes. *)
Definition suite_pages : Z := 18505.
Definition suite_inputs : Z := 1001.

Lemma suite_table apic_ready limit dest n k :
  processors apic_ready limit dest -> 0 <= n -> 0 <= k ->
  table_runs (ready (suite_pages + n) (suite_inputs + k)) (benchmarks im) (spec_row <$> suite) (ready n k).
Proof. intros Hproc Hn Hk. exact (table_of_specs suite n k (suite_ok _ _ _ Hproc) Hn Hk). Qed.

End Suite.

(** ** The lgdt benchmark, wherever its register points *)

(** A store through the page tables that does not hit them. *)
Lemma vstore_at tabs bs : forall m va pa,
  pt_tree (hmem (p_heap m)) (cr3_reg (p_heap m)) tabs ->
  (forall i, 0 <= i < Z.of_nat (length bs) -> vaddr m (va + i) = Ok (pa + i)) ->
  mapped (hmem (p_heap m)) pa (Z.of_nat (length bs)) ->
  (forall key t, tabs !! key = Some t -> disjoint_ranges pa (Z.of_nat (length bs)) t 4096) ->
  Forall (fun b => 0 <= b < 256) bs ->
  exists mm, vstore m va bs = Ok (with_heap m (set_mem (p_heap m) mm)) /\ pt_tree mm (cr3_reg (p_heap m)) tabs /\
    (forall x, translate mm (cr3_reg (p_heap m)) x = translate (hmem (p_heap m)) (cr3_reg (p_heap m)) x) /\
    bytes_at mm pa bs /\ forall x, x < pa -> mm !! x = hmem (p_heap m) !! x.
Proof.
  unfold disjoint_ranges. induction bs as [|b bs IH]; intros m va pa Ht Hva Hmap Hd Hby; cbn [vstore length] in *.
  - exists (hmem (p_heap m)). assert (Hid : with_heap m (set_mem (p_heap m) (hmem (p_heap m))) = m)
      by (destruct m as [[] ]; done). rewrite Hid. by split_and!; try apply bytes_at_nil.
  - pose proof (Hva 0 ltac:(lia)) as H0. rewrite !Z.add_0_r in H0. rewrite H0. mret. apply Forall_cons in Hby as [Hb Hby].
    assert (Hx : is_Some (hmem (p_heap m) !! pa)) by (apply Hmap; lia).
    rewrite (store8_ok _ _ b Hx). mret. set (m1 := with_heap m (set_mem (p_heap m) (<[pa := u8 b]> (hmem (p_heap m))))).
    destruct (translate_frame (hmem (p_heap m)) (hmem (p_heap m1)) _ tabs Ht) as [Ht1 Htr].
    { by apply same_dom_insert. }
    { intros key t x Hk Hxt. unfold m1. mfields. hfields. apply lookup_insert_ne. specialize (Hd _ _ Hk). lia. }
    destruct (IH m1 (va + 1) (pa + 1)) as (mm & E & H1 & H2 & H3 & H4).
    + exact Ht1.
    + intros i Hi. rewrite <- !Z.add_assoc. unfold vaddr. change (cr3_reg (p_heap m1)) with (cr3_reg (p_heap m)).
      rewrite Htr. apply Hva. lia.
    + intros x Hx1. unfold m1. mfields. hfields. rewrite lookup_insert_is_Some'. right. apply Hmap. lia.
    + intros key t Hk. specialize (Hd _ _ Hk). lia.
    + exact Hby.
    + exists mm. split; [exact E|]. split; [exact H1|]. split; [intros x; rewrite H2; apply Htr|]. split.
      * apply bytes_at_cons. split; [|done]. rewrite H4 by lia. unfold m1. mfields. hfields.
        rewrite lookup_insert_eq. f_equal. by apply Z.mod_small.
      * intros x Hx1. rewrite H4 by lia. unfold m1. mfields. hfields. by rewrite lookup_insert_ne by lia.
Qed.

Lemma vload_at m bs : forall va pa,
  (forall i, 0 <= i < Z.of_nat (length bs) -> vaddr m (va + i) = Ok (pa + i)) -> bytes_at (hmem (p_heap m)) pa bs ->
  vload (length bs) m va = Ok bs.
Proof.
  induction bs as [|b bs IH]; intros va pa Hva Hb; cbn [vload length] in *; [done|].
  apply bytes_at_cons in Hb as [Hb1 Hb2]. pose proof (Hva 0 ltac:(lia)) as H0. rewrite !Z.add_0_r in H0. rewrite H0. mret.
  rewrite (load8_ok _ _ _ Hb1). mret. rewrite (IH (va + 1) (pa + 1)); [done| |done].
  intros i Hi. rewrite <- !Z.add_assoc. apply Hva. lia.
Qed.

(** The loads of the kernel, when the saved register is at [mem]. *)
Lemma lgdt_loop n : forall m pa,
  (forall i, 0 <= i < 10 -> vaddr m (g_mem m + i) = Ok (pa + i)) -> bytes_at (hmem (p_heap m)) pa (p_gdtr m) ->
  length (p_gdtr m) = 10%nat ->
  exists m', for_loop n lgdt m = Ok m' /\ p_trace m' = p_trace m ++ replicate n (OLgdt (g_mem m)) /\ p_gdtr m' = p_gdtr m.
Proof.
  induction n as [|n IH]; intros m pa Hva Hb Hl; cbn [for_loop replicate].
  - exists m. by rewrite app_nil_r.
  - assert (E : lgdt m = Ok (traced (with_gdtr m (p_gdtr m)) (OLgdt (g_mem m)))).
    { unfold lgdt. rewrite <- Hl at 1. rewrite (vload_at m (p_gdtr m) (g_mem m) pa); [done| |done]. by rewrite Hl. }
    rewrite E. mret. destruct (IH (traced (with_gdtr m (p_gdtr m)) (OLgdt (g_mem m))) pa Hva Hb Hl) as (m' & E' & T & G).
    exists m'. split; [exact E'|]. split; [|exact G]. rewrite T. mfields. by rewrite <- app_assoc.
Qed.

(** ** Claims *)

Lemma rdtsc_ready im low n k m m' v : ready im low n k m -> rdtsc m = Ok (m', v) -> ready im low n k m'.
Proof.
  intros Hm E. cbn in E. destruct (p_tsc m) as [|x r]; [done|]. injection E as <- _.
  by eapply ready_core; [|exact Hm].
Qed.

(** The lines as the host reads them. *)
Definition spec_brow (s : spec) : brow :=
  mkRow (b_category (s_bench s)) (b_name (s_bench s)) (b_iterations (s_bench s)) [] (s_prints s).

Lemma suite_rows_ok im : Forall (fun s => brow_ok (spec_brow s)) (suite im).
Proof.
  assert (Hp : forall n, chr "]" ∉ concat (replicate n letters)).
  { induction n as [|n IH]; cbn [replicate concat]; [apply not_elem_of_nil|]. apply not_elem_of_app. split; [by_eval|done]. }
  unfold suite. repeat (apply Forall_cons; split); try apply Forall_nil_2.
  all: split; [split; [split; [done|by_eval]|simpl; lia]|split; [split; [done|by_eval]|simpl; lia]|by_eval|
    apply not_elem_of_nil|first [apply not_elem_of_nil|apply Hp]].
Qed.

(** The host on the transcript of the table. *)
Lemma host_reads_suite im lead pin ts :
  passed pin_line lead -> pin_ok pin -> length ts = 14%nat ->
  host_main (mkHio (lines lead ++ transcript (spec_row <$> suite im)) (concat (tsc_of <$> ts)) []) pin =
  Ok (mkHio [] [] (host_output pin (zip (spec_brow <$> suite im) ts))).
Proof.
  intros Hlead Hp Hts. set (rts := zip (spec_brow <$> suite im) ts).
  assert (Hlen : length ts = length (spec_brow <$> suite im)) by done.
  assert (Hfst : rts.*1 = spec_brow <$> suite im) by (apply fst_zip; lia).
  assert (Hsnd : rts.*2 = ts) by (apply snd_zip; lia).
  assert (Hrows : spec_row <$> suite im = (fun rt => brow_text rt.1) <$> rts).
  { transitivity (brow_text <$> rts.*1); [by rewrite Hfst, <- list_fmap_compose|by rewrite <- list_fmap_compose]. }
  assert (Htsc : tsc_of <$> ts = (fun rt => tsc_of rt.2) <$> rts).
  { transitivity (tsc_of <$> rts.*2); [by rewrite Hsnd|by rewrite <- list_fmap_compose]. }
  rewrite Hrows, Htsc. apply host_main_transcript; [done| |done].
  apply (Forall_fmap fst brow_ok). rewrite Hfst. apply Forall_fmap, suite_rows_ok.
Qed.

(** The harness on the table. *)
Lemma suite_run im low apic_ready limit dest fuel m n k c mid w rest :
  layout im low -> processors im apic_ready limit dest ->
  ready im low (suite_pages + n) (suite_inputs + k) m -> 0 <= n -> 0 <= k ->
  readings m = c :: mid ++ w :: rest -> Forall (fun v => u32 c <= u32 v) mid -> u32 w < u32 c ->
  (length mid < fuel)%nat ->
  exists m', harness_main false fuel m (benchmarks im) = Ok m' /\ ready im low n k m' /\
    text m' = text m ++ transcript (spec_row <$> suite im).
Proof.
  intros Hlay Hproc Hm Hn Hk Hr Hmid Hw Hf.
  apply (harness_run (ready im low (suite_pages + n) (suite_inputs + k)) (ready im low n k) fuel m _ _ c mid w rest);
    try done.
  - apply ready_stable.
  - apply rdtsc_ready.
  - apply ready_stable.
  - by apply (suite_table im low Hlay apic_ready limit dest).
Qed.

(** The whole table runs: from a machine with 18505 free pages, 1001
    answers of the ports and a second processor that takes interrupts,
    [harness_main] on the benchmarks of the Makefile returns and prints the
    line of each of the fourteen benchmarks, the print benchmark's letters
    between its marks and nothing between the others'; what it does not need
    of pages and answers is left. *)
Theorem suite_transcript im low apic_ready limit dest fuel m n k c mid w rest :
  layout im low -> processors im apic_ready limit dest ->
  ready im low (suite_pages + n) (suite_inputs + k) m -> 0 <= n -> 0 <= k ->
  readings m = c :: mid ++ w :: rest -> Forall (fun v => u32 c <= u32 v) mid -> u32 w < u32 c ->
  (length mid < fuel)%nat ->
  exists m', harness_main false fuel m (benchmarks im) = Ok m' /\ ready im low n k m' /\
    text m' = text m ++ transcript (spec_row <$> suite im).
Proof.
  intros. by eapply suite_run.
Qed.

(** From the first line to the report: with the same needs, what the
    harness prints for the fourteen benchmarks is what the host reads: for
    readings [ts] of its own counter the host prints fourteen lines with the
    categories, names and counts of the benchmarks and the times between the
    marks, in order, and ends with the whole output read. *)
Theorem hyperbench_report im low apic_ready limit dest fuel m lead pin ts c mid w rest :
  layout im low -> processors im apic_ready limit dest -> ready im low suite_pages suite_inputs m ->
  text m = lines lead -> passed pin_line lead ->
  readings m = c :: mid ++ w :: rest -> Forall (fun v => u32 c <= u32 v) mid -> u32 w < u32 c ->
  (length mid < fuel)%nat -> pin_ok pin -> length ts = 14%nat ->
  exists m', harness_main false fuel m (benchmarks im) = Ok m' /\
    host_main (mkHio (text m') (concat (tsc_of <$> ts)) []) pin =
    Ok (mkHio [] [] (host_output pin (zip (spec_brow <$> suite im) ts))).
Proof.
  intros Hlay Hproc Hm Ht Hlead Hr Hmid Hw Hf Hp Hts.
  destruct (suite_run im low apic_ready limit dest fuel m 0 0 c mid w rest) as (m' & E & _ & T); try done.
  exists m'. split; [done|]. rewrite T, Ht. by apply host_reads_suite.
Qed.

(** C6: what is measured: for each benchmark of the table, from a machine with
    the pages and answers it needs and processors that let the calls of the IPI
    benchmark return, the four functions return; the control loop adds nothing
    to the trace, and the kernel executes exactly as many of the measured
    instructions, accesses or calls as the iteration count that is reported.
    The idle benchmark, which reports one iteration, executes none. *)
Theorem kernels_measure im low apic_ready limit dest s m :
  layout im low -> processors im apic_ready limit dest -> s ∈ suite im ->
  ready im low (s_pages s) (s_inputs s) m ->
  exists init m1 m2 m3 m4 t, b_init (s_bench s) = Some init /\ init m = Ok m1 /\
    b_control (s_bench s) m1 = Ok m2 /\ b_benchmark (s_bench s) m2 = Ok m3 /\ b_cleanup (s_bench s) m3 = Ok m4 /\
    p_trace m2 = p_trace m1 /\ p_trace m3 = p_trace m2 ++ t /\
    if decide (b_name (s_bench s) = bytes_of_string "idle") then t = []
    else Z.of_nat (length (filter (fun o => s_kind s o = true) t)) = b_iterations (s_bench s).
Proof.
  intros Hlay Hproc Hs Hm.
  assert (Hok : spec_ok im low s).
  { pose proof (suite_ok im low Hlay apic_ready limit dest Hproc) as Hall. rewrite Forall_forall in Hall. by apply Hall. }
  destruct Hok as (_ & _ & _ & _ & _ & Hok).
  destruct (Hok 0 0 ltac:(lia) ltac:(lia)) as (init & R1 & R2 & R3 & Ei & _ & Hi & Hct & Hk & Hcl).
  rewrite !Z.add_0_r in Hi. destruct (Hi m Hm) as (m1 & t1 & E1 & H1 & _).
  destruct (Hct m1 H1) as (m2 & t2 & E2 & H2 & _ & R & ->). rewrite app_nil_r in R.
  destruct (Hk m2 H2) as (m3 & t3 & E3 & H3 & _ & T3 & C3). destruct (Hcl m3 H3) as (m4 & t4 & E4 & _).
  exists init, m1, m2, m3, m4, t3. do 7 (split; [done|]). revert C3. clear -Hs. unfold counts.
  cut (Forall (fun s => Z.of_nat (length (filter (fun o => s_kind s o = true) t3)) = s_count s ->
    if decide (b_name (s_bench s) = bytes_of_string "idle") then t3 = []
    else Z.of_nat (length (filter (fun o => s_kind s o = true) t3)) = b_iterations (s_bench s)) (suite im));
    [rewrite Forall_forall; intros H; exact (H s Hs)|]. repeat (apply Forall_cons; split); [|done..|by constructor].
  rewrite decide_True by reflexivity. cbn [s_kind spec_idle s_count]. intros Hl.
  destruct t3 as [|o t3]; [done|]. rewrite filter_cons_True in Hl by reflexivity. cbn [length] in Hl. lia.
Qed.

(** C24: the cold accesses are cold: after [init] has mapped 8 GiB, the kernel
    reads one byte of each of 100000 consecutive pages from 64 MiB on, no
    page twice, and no access faults. *)
Theorem cold_access_pages im low n k m :
  layout im low -> 0 <= n -> ready im low (cost (2 ^ 33) + n) k m ->
  exists init m1 m2 t, b_init bench_memory_cold = Some init /\ init m = Ok m1 /\
    b_benchmark bench_memory_cold m1 = Ok m2 /\ p_trace m2 = p_trace m1 ++ t /\
    t = (fun i => OLoad (4096 * (16384 + Z.of_nat i))) <$> seq 0 (Z.to_nat COLD_ACCESS) /\ NoDup t.
Proof.
  intros Hlay Hn Hm. eexists.
  destruct (does_setup_mmu im low Hlay (2 ^ 33) n k ltac:(lia) eq_refl Hn m Hm) as (m1 & t1 & E1 & H1 & _).
  destruct (does_cold im low n k m1 H1) as (m2 & t2 & E2 & _ & _ & T2 & L2). unfold loads, cold_addr in L2.
  exists m1, m2, t2. split; [reflexivity|]. split; [exact E1|]. split; [exact E2|]. split; [exact T2|].
  split; [exact L2|]. rewrite L2. apply NoDup_fmap_2; [|apply NoDup_seq]. intros i j [= Hij]. lia.
Qed.

(** The hot accesses are hot: the kernel reads the same 100000 addresses
    in the same order as the loop that [init] ends with, one byte of each
    page from 1 MiB on, no page twice. *)
Theorem hot_access_pages im low n k m :
  layout im low -> 0 <= n -> ready im low (cost (2 ^ 32) + n) k m ->
  exists init m1 m2 cr3 t, b_init bench_memory_hot = Some init /\ init m = Ok m1 /\
    b_benchmark bench_memory_hot m1 = Ok m2 /\ p_trace m1 = p_trace m ++ OCr3 cr3 :: t /\
    p_trace m2 = p_trace m1 ++ t /\
    t = (fun i => OLoad (1048576 + 4096 * Z.of_nat i)) <$> seq 0 (Z.to_nat HOT_ACCESS) /\ NoDup t.
Proof.
  intros Hlay Hn Hm.
  assert (H0 : exists cr3 m0, call_setup_mmu (2 ^ 32) m = Ok m0 /\ mapped_to im low (2 ^ 32) n k m0 /\
    p_trace m0 = p_trace m ++ [OCr3 cr3]).
  { destruct (does_setup_mmu im low Hlay (2 ^ 32) n k ltac:(lia) eq_refl Hn m Hm) as (m0 & t & E & H & _ & T & C).
    unfold call_setup_mmu in *. destruct (setup_mmu (p_heap m) (2 ^ 32)) as [[h cr3]|]; [|done]. mret_in E.
    injection E as <-. by exists cr3, (traced (with_heap m h) (OCr3 cr3)). }
  destruct H0 as (cr3 & m0 & E0 & H0 & T0).
  destruct (does_hot im low n k m0 H0) as (m1 & t1 & E1 & H1 & _ & T1 & L1).
  destruct (does_hot im low n k m1 H1) as (m2 & t2 & E2 & _ & _ & T2 & L2).
  assert (t2 = t1) as -> by (unfold loads in *; congruence). unfold loads, hot_addr in L1.
  eexists _, m1, m2, cr3, t1. split; [reflexivity|]. split.
  { change (Z.shiftl 1 32) with (2 ^ 32). rewrite E0. exact E1. }
  split; [exact E2|]. split; [by rewrite T1, T0, <- app_assoc|]. split; [exact T2|]. split; [exact L1|].
  rewrite L1. apply NoDup_fmap_2; [|apply NoDup_seq]. intros i j [= Hij]. lia.
Qed.


(** ** Witnesses *)

(** Memory from 0 to the end of 18505 pages above 1 MiB, linked into a free
    list, with the array of print.c at 4096. *)
Lemma demo_memory :
  exists mm l, free_pages mm 1048576 l /\ Forall (in_heap 1048576) l /\ suite_pages <= Z.of_nat (length l) /\
    cstr mm 4096 letters /\ mapped mm 0 1048576.
Proof.
  assert (Hn : exists n, Z.of_nat n = 18504) by (exists (Z.to_nat 18504); apply Z2Nat.id; lia). destruct Hn as [n Hn].
  set (top := 1048576 + 4096 * Z.of_nat (S n)). assert (Htop : top = 76845056) by (unfold top; lia).
  set (m0 := write_bytes (write_bytes ∅ 0 (replicate (Z.to_nat top) 0)) 4096 (letters ++ [0])).
  assert (Hm0 : mapped m0 0 top).
  { assert (Hb : mapped (write_bytes ∅ 0 (replicate (Z.to_nat top) 0)) 0 top).
    { pose proof (bytes_at_mapped _ _ _ (write_bytes_at ∅ 0 (replicate (Z.to_nat top) 0))) as H.
      rewrite length_replicate, Z2Nat.id in H by lia. exact H. }
    assert (Hd : same_dom (write_bytes ∅ 0 (replicate (Z.to_nat top) 0)) m0).
    { apply write_bytes_dom. eapply mapped_sub; [exact Hb| |]; cbn [length app letters replicate]; lia. }
    by rewrite <- Hd. }
  assert (Ha : cstr m0 4096 letters) by (apply cstr_write; [by_eval|by vm_compute]).
  clearbody m0.
  destruct (link_pages n (S n) m0 1048576 0 []) as (mm & _ & Hl & Hd & Hag); try done; try lia.
  { eapply mapped_sub; [exact Hm0| |]; lia. }
  { intros q Hq. by apply elem_of_nil in Hq. }
  rewrite app_nil_r in Hl. exists mm, (pages_from 1048576 (S n)).
  assert (Hp : Forall (fun p => p mod 4096 = 0 /\ 1048576 <= p /\ p + 4096 <= top) (pages_from 1048576 (S n))).
  { apply Forall_forall. intros p Hp. apply elem_of_pages_from in Hp as (i & Hi & ->). split; [|lia].
    replace (1048576 + 4096 * Z.of_nat i) with ((256 + Z.of_nat i) * 4096) by lia. apply Z.mod_mul. lia. }
  split; [split; [done|split; [apply NoDup_pages_from|]]|split; [|split; [|split]]].
  - eapply Forall_impl; [exact Hp|]. intros p (H1 & H2 & H3). split; [done|]. split; [lia|]. rewrite <- Hd.
    eapply mapped_sub; [exact Hm0| |]; lia.
  - eapply Forall_impl; [exact Hp|]. intros p (H1 & H2 & H3). unfold in_heap. lia.
  - unfold pages_from. rewrite length_fmap, length_seq. unfold suite_pages. lia.
  - eapply cstr_frame; [exact Ha|]. intros x Hx. apply Hag. unfold letters in Hx. cbn [length replicate] in Hx. lia.
  - rewrite <- Hd. eapply mapped_sub; [exact Hm0| |]; lia.
Qed.

(** Two processors; the second takes its interrupt as soon as it is sent. *)
Definition demo_sched (st : OnCpu.smp) : list OnCpu.choice :=
  match OnCpu.handler_at st 1 with OnCpu.HEoi => [OnCpu.Irq 1] | _ => [] end ++
  [OnCpu.Call 0 [0]; OnCpu.Call 0 [0]; OnCpu.Call 0 [0]; OnCpu.Irq 1; OnCpu.Irq 1; OnCpu.Call 0 [0]; OnCpu.Call 0 [0]].

Definition demo_image_of (tab : mpstate) : image :=
  mkImage 8192 8 (fun v => 524288 + 16 * v) 524000 4096 tab xapic_ops (fun _ => 16384) (fun _ => true) demo_sched.
Definition demo_image : image := demo_image_of (mkMp [0; 1] 2 0 4276092928).

Lemma demo_layout tab : layout (demo_image_of tab) 1048576.
Proof. split; unfold disjoint_ranges; cbn [demo_image_of im_a im_boot_idt im_reg]; lia. Qed.

Lemma run_step ops iflag st x st1 xs st' :
  OnCpu.step ops iflag st x = Some st1 -> OnCpu.run ops iflag st1 xs = Some st' ->
  OnCpu.run ops iflag st (x :: xs) = Some st'.
Proof. intros E H. cbn [OnCpu.run]. by rewrite E. Qed.

Lemma demo_answers : xapic_ready [0].
Proof. exists [], 0, []. split; [done|]. split; [constructor|reflexivity]. Qed.

(** A call to the second processor, step by step. *)
Lemma demo_call lock dn run ev :
  lock = 0 -> default OnCpu.HNone (run !! 1) = OnCpu.HNone ->
  exists st', OnCpu.run xapic_ops (fun _ => true) (OnCpu.mkSmp lock dn [(1, OnCpu.PLock)] ∅ run ev)
      [OnCpu.Call 0 [0]; OnCpu.Call 0 [0]; OnCpu.Call 0 [0]; OnCpu.Irq 1; OnCpu.Irq 1; OnCpu.Call 0 [0]; OnCpu.Call 0 [0]] = Some st' /\
    OnCpu.callers st' = [(1, OnCpu.PRet)].
Proof.
  intros -> Hh.
  exists (OnCpu.mkSmp 0 1 [(1, OnCpu.PRet)] ∅ (<[1 := OnCpu.HEoi]> (<[1 := OnCpu.HSet]> run))
    (((ev ++ [OnCpu.Sent 0 1]) ++ [OnCpu.Handled 1]) ++ [OnCpu.Returned 0])). split; [|reflexivity].
  apply (run_step _ _ _ _ (OnCpu.mkSmp 1 dn [(1, OnCpu.PClear)] ∅ run ev)); [reflexivity|].
  apply (run_step _ _ _ _ (OnCpu.mkSmp 1 0 [(1, OnCpu.PSend)] ∅ run ev)); [reflexivity|].
  apply (run_step _ _ _ _ (OnCpu.mkSmp 1 0 [(1, OnCpu.PWait)] {[1]} run (ev ++ [OnCpu.Sent 0 1]))).
  { destruct (OnCpu.send_posts xapic_ops xapic_ready 256 [0] 1 ∅ demo_answers ltac:(lia)) as (s & E & P).
    cbn [OnCpu.step]. unfold OnCpu.__on_cpu. cbn [OnCpu.callers lookup list_lookup OnCpu.irr]. rewrite E, P.
    rewrite (right_id_L ∅ (∪)). reflexivity. }
  apply (run_step _ _ _ _ (OnCpu.mkSmp 1 0 [(1, OnCpu.PWait)] ∅ (<[1 := OnCpu.HSet]> run) (ev ++ [OnCpu.Sent 0 1]))).
  { cbn [OnCpu.step]. unfold OnCpu.ipi, OnCpu.handler_at. cbn [OnCpu.running OnCpu.irr]. rewrite Hh.
    rewrite bool_decide_true by set_solver. rewrite difference_diag_L. reflexivity. }
  apply (run_step _ _ _ _ (OnCpu.mkSmp 1 1 [(1, OnCpu.PWait)] ∅ (<[1 := OnCpu.HEoi]> (<[1 := OnCpu.HSet]> run))
    ((ev ++ [OnCpu.Sent 0 1]) ++ [OnCpu.Handled 1]))).
  { cbn [OnCpu.step]. unfold OnCpu.ipi, OnCpu.handler_at. cbn [OnCpu.running]. rewrite lookup_insert_eq. reflexivity. }
  apply (run_step _ _ _ _ (OnCpu.mkSmp 1 1 [(1, OnCpu.PUnlock)] ∅ (<[1 := OnCpu.HEoi]> (<[1 := OnCpu.HSet]> run))
    ((ev ++ [OnCpu.Sent 0 1]) ++ [OnCpu.Handled 1]))); [reflexivity|].
  by eapply run_step.
Qed.

Lemma demo_processors tab :
  OnCpu.on_cpu_dest tab 1 = Ok 1 -> processors (demo_image_of tab) xapic_ready 256 1.
Proof.
  intros Hdest. split.
  - intros v Hv. unfold fault_vectors in Hv. rewrite !elem_of_cons, elem_of_nil in Hv. cbn [demo_image_of im_stub].
    unfold word_ok. lia.
  - cbn. lia.
  - unfold word_ok. cbn. lia.
  - exact Hdest.
  - apply xapic_sender.
  - lia.
  - intros [lock dn cs ir run ev]. cbn [OnCpu.callers OnCpu.ipi_lock]. intros -> Hlock [Hirr Hset]. cbn [OnCpu.irr] in Hirr.
    subst ir. specialize (Hset 1). cbn [demo_image_of im_sched im_ops im_iflag]. unfold demo_sched.
    destruct (OnCpu.handler_at _ 1) eqn:Hh; [|done|]; (split; [repeat constructor; apply demo_answers|]).
    + by apply demo_call.
    + destruct (demo_call lock dn (<[1 := OnCpu.HNone]> run) ev Hlock) as (st' & E & C); [by rewrite lookup_insert_eq|].
      exists st'. split; [|done]. eapply run_step; [|exact E]. cbn [OnCpu.step]. unfold OnCpu.ipi. rewrite Hh. reflexivity.
Qed.

(** The machine: the counter wraps at the fourth reading. *)
Lemma suite_machine :
  exists m, ready demo_image 1048576 suite_pages suite_inputs m /\ text m = [] /\
    readings m = 4294967000 :: [4294967100; 4294967295] ++ (8589934592 + 44) :: [].
Proof.
  destruct demo_memory as (mm & l & Hf & HP & Hl & Ha & Hm).
  exists (mkMachine (mkHeap mm (mkSerial 0 0 (mkIo (replicate (Z.to_nat 1001) 96) [])) 1048576 0 0 true 0 0 0 0)
    (mkIdt false (replicate 256 Hnull) (0, 0)) (OnCpu.mkSmp 0 0 [] ∅ ∅ []) [4294967000; 4294967100; 4294967295; 8589934592 + 44]
    0 (replicate 10 0) 0 0 0 0 0 0 0 0 []).
  split; [split|split; reflexivity].
  - split; [unfold room, vtop; cbn [p_heap vfree_top]; rewrite Z.eqb_refl; unfold suite_pages; by_eval|]. by exists l.
  - split; cbn [p_heap p_idt p_smp p_gdtr hmem hlock].
    + change (1001 <= Z.of_nat (length (replicate (Z.to_nat 1001) 96))). rewrite length_replicate, Z2Nat.id; lia.
    + exact Ha.
    + eapply mapped_sub; [exact Hm| |]; cbn [demo_image demo_image_of im_boot_idt]; lia.
    + reflexivity.
    + intros j. eapply mapped_sub; [exact Hm| |]; cbn [demo_image demo_image_of im_reg]; lia.
    + reflexivity.
    + split; [reflexivity|by_eval].
    + split; [reflexivity|]. split; [reflexivity|]. by intros c.
Qed.

Lemma suite_transcript_witness :
  exists m m', harness_main false 3 m (benchmarks demo_image) = Ok m' /\ ready demo_image 1048576 0 0 m' /\
    text m' = text m ++ transcript (spec_row <$> suite demo_image).
Proof.
  destruct suite_machine as (m & Hm & _ & Hr). exists m.
  apply (suite_transcript demo_image 1048576 xapic_ready 256 1 3 m 0 0 4294967000 [4294967100; 4294967295] (8589934592 + 44) []).
  - exact (demo_layout _).
  - by apply demo_processors.
  - exact Hm.
  - lia.
  - lia.
  - exact Hr.
  - repeat constructor; vm_compute; discriminate.
  - vm_compute. reflexivity.
  - simpl. lia.
Defined.

Lemma hyperbench_report_witness :
  exists m m', harness_main false 3 m (benchmarks demo_image) = Ok m' /\
    host_main (mkHio (text m') (concat (tsc_of <$> replicate 14 (mkTimes 100 150 200 1250))) []) None =
    Ok (mkHio [] [] (host_output None (zip (spec_brow <$> suite demo_image) (replicate 14 (mkTimes 100 150 200 1250))))).
Proof.
  destruct suite_machine as (m & Hm & Ht & Hr). exists m.
  apply (hyperbench_report demo_image 1048576 xapic_ready 256 1 3 m [] None (replicate 14 (mkTimes 100 150 200 1250))
    4294967000 [4294967100; 4294967295] (8589934592 + 44) []).
  - exact (demo_layout _).
  - by apply demo_processors.
  - exact Hm.
  - exact Ht.
  - constructor.
  - exact Hr.
  - repeat constructor; vm_compute; discriminate.
  - vm_compute. reflexivity.
  - simpl. lia.
  - exact I.
  - reflexivity.
Defined.

(** The demo machine has enough for any single benchmark. *)
Lemma ready_fewer im low n k n' k' m : n' <= n -> k' <= k -> ready im low n k m -> ready im low n' k' m.
Proof.
  intros Hn Hk [(Hr & l & Hf & HP & Hl) Hb]. split; [|by eapply base_mono]. split; [by eapply room_less|].
  exists l. split; [done|]. split; [done|lia].
Qed.

Lemma kernels_measure_witness :
  exists m init m1 m2 m3 m4 t, b_init (bench_ipi demo_image) = Some init /\ init m = Ok m1 /\
    b_control (bench_ipi demo_image) m1 = Ok m2 /\ b_benchmark (bench_ipi demo_image) m2 = Ok m3 /\
    b_cleanup (bench_ipi demo_image) m3 = Ok m4 /\ p_trace m2 = p_trace m1 /\ p_trace m3 = p_trace m2 ++ t /\
    Z.of_nat (length (filter (fun o => is_ipi o = true) t)) = 100.
Proof.
  destruct suite_machine as (m & Hm & _). exists m.
  apply (kernels_measure demo_image 1048576 xapic_ready 256 1 (spec_ipi demo_image) m).
  - exact (demo_layout _).
  - by apply demo_processors.
  - cbn [suite]. do 7 apply list_elem_of_further. apply list_elem_of_here.
  - eapply ready_fewer; [| |exact Hm]; by vm_compute.
Defined.

Lemma cold_access_pages_witness :
  exists m init m1 m2 t, b_init bench_memory_cold = Some init /\ init m = Ok m1 /\
    b_benchmark bench_memory_cold m1 = Ok m2 /\ p_trace m2 = p_trace m1 ++ t /\
    t = (fun i => OLoad (4096 * (16384 + Z.of_nat i))) <$> seq 0 (Z.to_nat COLD_ACCESS) /\ NoDup t.
Proof.
  destruct suite_machine as (m & Hm & _). exists m.
  apply (cold_access_pages demo_image 1048576 0 0 m).
  - exact (demo_layout _).
  - lia.
  - eapply ready_fewer; [| |exact Hm]; by vm_compute.
Defined.

Lemma hot_access_pages_witness :
  exists m init m1 m2 cr3 t, b_init bench_memory_hot = Some init /\ init m = Ok m1 /\
    b_benchmark bench_memory_hot m1 = Ok m2 /\ p_trace m1 = p_trace m ++ OCr3 cr3 :: t /\
    p_trace m2 = p_trace m1 ++ t /\
    t = (fun i => OLoad (1048576 + 4096 * Z.of_nat i)) <$> seq 0 (Z.to_nat HOT_ACCESS) /\ NoDup t.
Proof.
  destruct suite_machine as (m & Hm & _). exists m.
  apply (hot_access_pages demo_image 1048576 0 0 m).
  - exact (demo_layout _).
  - lia.
  - eapply ready_fewer; [| |exact Hm]; by vm_compute.
Defined.

