(* ===== verification/Main.v ===== *)
(** * x86_64/main.c: main

    The kernel from the boot loader's jump to the shutdown, as the Makefile
    builds it (without __BARE_METAL): [main] calls the allocator (Heap), the
    APIC (Apic), the search for processors (Mp), [startothers] (Boot), the
    harness on the table of benchmarks (Harness, Bench) and
    [platform_shutdown] (Boot), on one memory and one log of device accesses.

    The theorem composes theirs: the memory the boot loader describes and the
    table of the BIOS are all that a run needs, and what the host prints of it
    is fixed. *)

From stdpp Require Import base gmap list numbers strings.
From Stdlib Require Import ZArith Lia.
From S2P Require Import Prelude Mem CString Printf Serial Stdio Heap PageTable Mp Desc Apic Smp Ipi Boot.
From S2P Require Import Harness Bench Host Protocol Suite.

#[local] Open Scope Z_scope.

(** The image with what the boot fixes: the processors and the APIC's
    operations. *)
Definition booted (im : image) (tab : mpstate) (ops : apic_ops) : image :=
  mkImage (im_boot_idt im) (im_cs im) (im_stub im) (im_ipi_entry im) (im_a im) tab ops (im_reg im)
    (im_iflag im) (im_sched im).

Section Main.

(** The address of [_HEAP_START], the entry code, the APIC id of the boot
    processor and the ECX of leaf 1 of CPUID; the rounds that [mpinit] and the
    wait of the harness may take. *)
Context (im : image) (heap_start sipi_entry size me ecx : Z) (mp_fuel wait_fuel : nat).

(** Up to [mpinit]. *)
Definition detect (m : machine) (mbi : Z) : res (heap * serial * mpstate) :=
  h ← early_mem_init (p_heap m) heap_start mbi;
  let s := with_io (hser h) (mask_pic_interrupts (ser_io (hser h))) in
  s ← enable_apic s;
  '(s, tab) ← mpinit mp_fuel (hmem h) s no_cpus;
  Ok (h, s, tab).

(** The call of [startothers] with the processors taking steps in the order
    [xs]; it must be over at the end of [xs]. *)
Definition call_startothers (xs : list bchoice) (h : heap) (s : serial) (tab : mpstate) : res boot :=
  st ← brun sipi_entry size tab me (im_boot_idt im) ecx (bstart tab me (hmem h) s) xs;
  if decide (b_pc st = BEnd) then Ok st else Err Fuel.

(** A started processor that has not come to its [enable_x2apic] yet does so
    during the harness: it stores to [apic_ops] the value that is there. *)
Definition main (xs : list bchoice) (m : machine) (mbi : Z) : res machine :=
  '(h, s, tab) ← detect m mbi;
  st ← call_startothers xs h s tab;
  '(ops, i, _) ← enable_x2apic (b_ops st) (ser_io (b_ser st)) ecx;
  let m := with_heap m (set_ser (set_mem h (b_mem st)) (with_io (b_ser st) i)) in
  m ← harness_main false wait_fuel m (benchmarks (booted im tab ops));
  i ← platform_shutdown (ports m);
  Ok (with_ports m i).

End Main.

(** ** What a run starts from *)

(** The BIOS's tables, in memory below [top]: the processors of [es], with the
    boot processor [me] as the entry [self]. *)
Record described (m : mem) (top la : Z) (es : list mpentry) (me : Z) (self : nat) : Prop := {
  de_found : exists low mp conf, low ⊆ m /\ (forall x, is_Some (low !! x) -> x < top) /\
    found_at low mp conf (44 + Z.of_nat (length (table_bytes es))) la /\ bytes_at low (conf + 44) (table_bytes es);
  de_entries : Forall entry_ok es;
  de_nodup : NoDup (proc_ids es);
  de_range : Forall (fun a => 0 <= a < 256) (proc_ids es);
  de_count : (length (proc_ids es) <= 64)%nat;
  de_self : proc_ids es !! self = Some me;
}.

(** The boot loader's information, memory for [n] pages above the image, and
    the image with the entry code in it; the kernel's globals are as the image
    has them. *)
Record loaded (im : image) (heap_start sipi_entry : Z) (code : list Z) (n : nat) (mbi upper : Z) (m : machine) : Prop := {
  lo_info : exists addr lens, bootinfo_at (hmem (p_heap m)) mbi upper addr lens;
  lo_start : 0 < heap_start;
  lo_upper : upper * 1024 = page_up heap_start + 4096 * Z.of_nat n /\ 0 <= upper <= 2 ^ 22;
  lo_pages : mapped (hmem (p_heap m)) (page_up heap_start) (4096 * Z.of_nat n);
  lo_code : entry_code sipi_entry code (hmem (p_heap m)) /\ sipi_entry + Z.of_nat (length code) <= page_up heap_start;
  lo_array : 1131 <= im_a im;
  lo_first : first_mem_init (p_heap m) = false;
  lo_vfree : vfree_top (p_heap m) = 0;
}.

(** ** The steps *)

Lemma table_of_ok la es me self m top :
  described m top la es me self -> table_ok (table_of la es) me (proc_ids es) self.
Proof.
  intros [_ _ Hnd Hr Hc Hs]. destruct (table_of_facts la es) as (_ & H1 & H2 & H3 & _).
  split; try done; [lia|]. rewrite H2, Z.min_r, Nat2Z.id by lia.
  apply list_eq. intros i. destruct (Nat.lt_ge_cases i (length (proc_ids es))) as [Hi|Hi].
  - destruct (lookup_lt_is_Some_2 (proc_ids es) i Hi) as [a Ha]. rewrite lookup_take_lt by done.
    rewrite Ha. apply H3; [done|lia].
  - rewrite lookup_take_ge by done. symmetry. by apply lookup_ge_None.
Qed.

(** The operations that [enable_x2apic] leaves on processors of one kind. *)
Definition ops_of (ecx : Z) : apic_ops := if negb (Z.land ecx (Z.shiftl 1 21) =? 0) then x2apic_ops else xapic_ops.

Lemma step_ops sipi_entry size tab me boot_idt ecx st x st' :
  Z.land ecx (Z.shiftl 1 21) = 0 -> bstep sipi_entry size tab me boot_idt ecx st x = Ok st' -> b_ops st' = b_ops st.
Proof.
  intros He Hs. destruct x as [ans|a ans]; cbn [bstep] in Hs.
  - unfold startothers in Hs. destruct (b_pc st).
    + by apply res_bind_ok in Hs as (m & _ & [= <-]).
    + destruct (_ <? _); [|by injection Hs as <-]. apply res_bind_ok in Hs as ([ser i] & _ & Hs).
      destruct (_ =? _); [by injection Hs as <-|]. apply res_bind_ok in Hs as (id & _ & Hs).
      by apply res_bind_ok in Hs as ([m s] & _ & [= <-]).
    + by apply res_bind_ok in Hs as (v & _ & [= <-]).
    + done.
  - unfold mpenter in Hs. destruct (b_aps st !! a) as [[]|]; try done.
    + by injection Hs as <-.
    + apply res_bind_ok in Hs as ([s1 i] & _ & Hs). apply res_bind_ok in Hs as ([s2 j] & _ & Hs).
      by apply res_bind_ok in Hs as (s3 & _ & [= <-]).
    + by apply res_bind_ok in Hs as (s4 & _ & [= <-]).
    + by apply res_bind_ok in Hs as ([s1 i] & _ & [= <-]).
    + unfold enable_x2apic in Hs. rewrite He in Hs. change (negb (0 =? 0)) with false in Hs. cbn iota in Hs.
      mret_in Hs. by injection Hs as <-.
Qed.

Lemma brun_ops sipi_entry size tab me boot_idt ecx xs : forall st st',
  Z.land ecx (Z.shiftl 1 21) = 0 -> brun sipi_entry size tab me boot_idt ecx st xs = Ok st' -> b_ops st' = b_ops st.
Proof.
  induction xs as [|x xs IH]; intros st st' He; cbn [brun]; [by intros [= <-]|].
  intros (st1 & Hs & Hr)%res_bind_ok. rewrite (IH _ _ He Hr). by eapply step_ops.
Qed.

(** The boot processor's own [enable_x2apic]. *)
Lemma x2apic_run st ecx :
  (Z.land ecx (Z.shiftl 1 21) = 0 -> b_ops st = xapic_ops) -> io_in (ser_io (b_ser st)) <> [] ->
  exists i r, enable_x2apic (b_ops st) (ser_io (b_ser st)) ecx = Ok (ops_of ecx, i, r) /\
    Z.of_nat (length (io_in (ser_io (b_ser st)))) - 1 <= Z.of_nat (length (io_in i)) /\
    sent (io_log i) = sent (io_log (ser_io (b_ser st))).
Proof.
  intros Hops Hin. unfold enable_x2apic, ops_of. destruct (Z.eqb_spec (Z.land ecx (Z.shiftl 1 21)) 0) as [He|He]; cbn [negb].
  - rewrite Hops by done. eexists _, _. split; [done|]. split; [lia|done].
  - unfold rdmsr, take_answer. destruct (io_in (ser_io (b_ser st))) as [|v rest]; [done|]. mret.
    eexists _, _. split; [done|]. cbn [wrmsr record io_in io_log length]. split; [lia|].
    rewrite !sent_app. cbn [sent omap list_omap sent_of]. by rewrite !app_nil_r.
Qed.

(** The messages up to [mpinit]. *)
Definition apic_line : list Z := bytes_of_string "enabling apic" ++ [CR].

Lemma detect_run im heap_start sipi_entry code n mbi upper m la es me self fuel :
  loaded im heap_start sipi_entry code n mbi upper m -> (0 < n)%nat ->
  described (hmem (p_heap m)) (page_up heap_start) la es me self -> (length es < fuel)%nat ->
  exists h s, detect heap_start fuel m mbi = Ok (h, s, table_of la es) /\
    free_pages (hmem h) (freelist h) (pages_from (page_up heap_start) n) /\
    said (hser (p_heap m)) s (mem_upper_text upper ++ apic_line ++ [LF]) /\
    agree_outside (page_up heap_start) (upper * 1024) (hmem (p_heap m)) (hmem h) /\
    same_dom (hmem (p_heap m)) (hmem h) /\ vfree_top h = 0 /\ hlock h = hlock (p_heap m).
Proof.
  intros [(addr & lens & Hi) Hs [Hu Hur] Hp _ _ Hfi Hv] Hn [(low & mp & conf & Hsub & Htop & Hf & Hb) Hes _ _ _ _] Hfuel.
  destruct (early_mem_init_links (p_heap m) heap_start mbi upper addr lens n) as
    (h & E & Hfree & _ & _ & _ & Hser & Ha & Hd & Hv' & Hl); try done; [lia|].
  unfold detect. rewrite E. mret. cbv zeta. unfold enable_apic. rewrite say_plain; [|by vm_compute|vm_compute; lia]. mret.
  assert (Hsub' : low ⊆ hmem h).
  { apply map_subseteq_spec. intros x v Hx. rewrite Ha; [by eapply lookup_weaken|].
    left. apply Htop. by rewrite Hx. }
  rewrite (reads_mpinit _ _ _ _ _ _ Hsub' (mpinit_run low mp conf _ la es _ fuel Hf Hes Hb eq_refl Hfuel)). mret.
  eexists h, _. split; [done|]. split; [done|]. split; [|by rewrite Hv', Hl].
  split; [by rewrite Hser|]. unfold xapic_write, mmio_write, record. cbn [with_io ser_io io_log].
  rewrite sent_app, sent_send. cbn [with_io ser_io]. unfold mask_pic_interrupts, outb, port_out. cbn [io_log].
  rewrite Hser, !sent_app, sent_send. unfold apic_line. cbn [sent omap list_omap sent_of]. rewrite !app_nil_r. by rewrite <- !app_assoc.
Qed.

(** The lines that the boot prints, which the host passes over. *)
Definition mem_upper_line (upper : Z) : list Z := bytes_of_string "mbi->mem_upper = " ++ num_text (u64 (u64 (upper * 1024))) 16.
Definition hello_line (k : nat) : list Z :=
  bytes_of_string "cpu" ++ dec_text (Z.of_nat k) ++ bytes_of_string ": starting " ++ dec_text (Z.of_nat k) ++ [CR].
Definition boot_lines (upper : Z) (self n : nat) : list (list Z) :=
  [mem_upper_line upper; apic_line] ++
  concat ((fun k => [hello_line k; apic_line]) <$> filter (fun j => j <> self) (seq 0 n)).

Lemma boot_lines_text upper self n :
  lines (boot_lines upper self n) = (mem_upper_text upper ++ apic_line ++ [LF]) ++ hellos self n.
Proof.
  assert (H1 : lines [mem_upper_line upper; apic_line] = mem_upper_text upper ++ apic_line ++ [LF]).
  { unfold lines, mem_upper_text, mem_upper_line. cbn [fmap list_fmap concat]. by rewrite app_nil_r, <- !app_assoc. }
  assert (H2 : forall k, lines [hello_line k; apic_line] = hello k).
  { intros k. unfold lines, hello, greeting, enabling, hello_line, apic_line. cbn [fmap list_fmap concat]. by rewrite app_nil_r, <- !app_assoc. }
  unfold boot_lines, hellos. rewrite lines_app, H1. f_equal.
  induction (filter _ (seq 0 n)) as [|k l IH]; [done|]. cbn [fmap list_fmap concat].
  by rewrite lines_app, IH, H2.
Qed.

Lemma plain_line_app t1 t2 : plain_line (t1 ++ t2) <-> plain_line t1 /\ plain_line t2.
Proof. apply Forall_app. Qed.

Lemma plain_number n base : 0 <= n -> 1 < base <= 16 -> plain_line (num_text n base).
Proof. intros Hn Hb. eapply Forall_impl; [by apply num_text_plain|]. unfold LF. simpl. lia. Qed.

Lemma boot_lines_passed upper self n : passed pin_line (boot_lines upper self n).
Proof.
  assert (Hd : forall k, plain_line (dec_text (Z.of_nat k))).
  { intros k. unfold dec_text. rewrite (proj2 (Z.ltb_ge _ _)) by lia. apply plain_number; lia. }
  assert (Ha : plain_line apic_line /\ apic_line <> pin_line) by (split; [by_eval|done]).
  unfold passed, boot_lines. apply Forall_app. split.
  - constructor; [|by constructor]. split; [|done]. apply plain_line_app. split; [by_eval|].
    apply plain_number; [apply u64_range|lia].
  - apply Forall_concat, Forall_fmap, Forall_forall. intros k _. constructor; [|by constructor].
    split; [|done]. unfold hello_line. rewrite !plain_line_app. repeat (split; [first [apply Hd|by_eval]|]). by_eval.
Qed.

Lemma entry_code_below sipi_entry code top last m m' :
  entry_code sipi_entry code m -> sipi_entry + Z.of_nat (length code) <= top -> same_dom m m' ->
  agree_outside top last m m' -> entry_code sipi_entry code m'.
Proof.
  intros [Hc [H1 H2 H3 _]] Ht Hd Ha. split; [done|]. split; [by rewrite <- Hd| |by rewrite <- Hd|done].
  eapply bytes_at_frame; [|exact H2]. intros x Hx. apply Ha. lia.
Qed.

(** The machine that the harness finds. *)
Lemma booted_ready im heap_start sipi_entry code n mbi upper m k h st s i :
  loaded im heap_start sipi_entry code n mbi upper m -> base im k m -> layout im (page_up heap_start) ->
  suite_pages <= Z.of_nat n ->
  free_pages (hmem h) (freelist h) (pages_from (page_up heap_start) n) ->
  agree_outside (page_up heap_start) (upper * 1024) (hmem (p_heap m)) (hmem h) ->
  same_dom (hmem (p_heap m)) (hmem h) -> vfree_top h = 0 -> hlock h = hlock (p_heap m) ->
  kept code (hmem h) (b_mem st) -> k - 1 <= Z.of_nat (length (io_in i)) ->
  ready im (page_up heap_start) suite_pages (k - 1) (with_heap m (set_ser (set_mem h (b_mem st)) (with_io s i))).
Proof.
  intros Hlo Hb Hlay Hn (Hl & Hnd & Hok) Ha Hd Hv Hlk [Kd Kx] Hi.
  pose proof (la_a _ _ Hlay) as [_ Hat]. pose proof (lo_array _ _ _ _ _ _ _ _ Hlo) as Harr.
  destruct (lo_code _ _ _ _ _ _ _ _ Hlo) as [[(_ & Hcl & Hce) _] Hct]. change warm_reset_vector with 1127 in *.
  destruct (lo_upper _ _ _ _ _ _ _ _ Hlo) as [Hu Hur].
  assert (Hp : forall p, p ∈ pages_from (page_up heap_start) n -> page_up heap_start <= p < 2 ^ 32).
  { intros p Hp. apply elem_of_pages_from in Hp as (j & Hj & ->). lia. }
  split.
  - split.
    + unfold room, vtop. mfields. hfields. rewrite Hv. by vm_compute.
    + exists (pages_from (page_up heap_start) n). split; [|split].
      * split; [|split; [done|]]; mfields; hfields.
        -- eapply linked_frame; [|exact Hl]. intros p Hpp. apply load64_frame. intros x Hx. apply Kx.
           specialize (Hp p Hpp). lia.
        -- eapply Forall_impl; [exact Hok|]. intros p. by apply page_ok_dom.
      * apply Forall_forall. exact Hp.
      * unfold pages_from. rewrite length_fmap, length_seq. done.
  - destruct Hb as [H1 H2 H3 H4 H5 H6 H7 H8]. split; mfields; hfields; try done.
    + eapply cstr_frame; [exact H2|]. intros x Hx. unfold letters in Hx. cbn [length replicate] in Hx.
      rewrite Kx, Ha by lia. done.
    + by rewrite <- Kd, <- Hd.
    + intros j. by rewrite <- Kd, <- Hd.
    + by rewrite Hlk.
Qed.

(** The accesses of [platform_shutdown]; [v] is what the port answers. *)
Definition shutdown_log (v : Z) : list io_event :=
  [EvOut 4 3320 2147486592; EvIn 1 3324 (u8 v); EvOut 1 3324 (u8 (Z.lor (u8 v) 1));
   EvOut 4 3320 2147486528; EvOut 4 3324 28673; EvOut 2 28676 8192].

Lemma shutdown_run i :
  0 < Z.of_nat (length (io_in i)) ->
  exists i' v, platform_shutdown i = Ok i' /\ io_log i' = io_log i ++ shutdown_log v /\ sent (io_log i') = sent (io_log i).
Proof.
  intros Hi. unfold platform_shutdown, outl, outw, outb, inb, port_out, port_in. cbn [io_in io_log].
  destruct (io_in i) as [|v rest]; [simpl in Hi; lia|]. mret. cbn [io_in io_log].
  assert (Hlog : forall v l, (((((l ++ [EvOut 4 (u16 3320) (u32 2147486592)]) ++ [EvIn 1 (u16 3324) (u8 v)]) ++
      [EvOut 1 (u16 3324) (u8 (Z.lor (u8 v) 1))]) ++ [EvOut 4 (u16 3320) (u32 2147486528)]) ++
      [EvOut 4 (u16 3324) (u32 28673)]) ++ [EvOut 2 (u16 28676) (u16 8192)] = l ++ shutdown_log v).
  { intros. by rewrite <- !app_assoc. }
  rewrite Hlog. eexists _, v. split; [done|]. cbn [io_log]. split; [done|].
  rewrite sent_app. cbn. by rewrite app_nil_r.
Qed.

Lemma booted_self im tab ops : im_tab im = tab -> im_ops im = ops -> booted im tab ops = im.
Proof. destruct im. by intros <- <-. Qed.

(** [startothers] can end. *)
Lemma startothers_can_end im sipi_entry code me ecx h s tab ids self :
  table_ok tab me ids self -> entry_code sipi_entry code (hmem h) ->
  exists xs st, Forall bchoice_ok xs /\
    call_startothers im sipi_entry (Z.of_nat (length code)) me ecx xs h s tab = Ok st.
Proof.
  intros Htab Hent. set (st0 := bstart tab me (hmem h) s).
  pose proof (brun_binv _ _ _ _ (im_boot_idt im) ecx _ _ _ s [] st0 Htab Hent (Forall_nil_2 _) eq_refl) as Hinv.
  destruct Htab as [H1 H2 H3 H4 H5 H6], Hent as [Hc Hm].
  destruct (boot_ends_anywhere sipi_entry code tab me (im_boot_idt im) ecx ids self (hmem h) s H1 H2 H3 H4 H5 H6 Hc st0 Hinv)
    as (st & (xs & Hok & Hrun) & Hend).
  exists xs, st. split; [done|]. unfold call_startothers. fold st0. rewrite Hrun. mret. by rewrite decide_True.
Qed.

(** However [startothers] ends, the rest of [main] runs. *)
Lemma main_after im heap_start sipi_entry code me ecx mp_fuel wait_fuel n mbi upper m la es self
    apic_ready limit dest c mid w rest h s xs st :
  let top := page_up heap_start in
  let tab := table_of la es in
  loaded im heap_start sipi_entry code n mbi upper m -> suite_pages <= Z.of_nat n ->
  described (hmem (p_heap m)) top la es me self ->
  im_tab im = tab -> im_ops im = ops_of ecx -> layout im top -> processors im apic_ready limit dest ->
  base im (suite_inputs + 2) m ->
  readings m = c :: mid ++ w :: rest -> Forall (fun v => u32 c <= u32 v) mid -> u32 w < u32 c ->
  (length mid < wait_fuel)%nat ->
  detect heap_start mp_fuel m mbi = Ok (h, s, tab) ->
  free_pages (hmem h) (freelist h) (pages_from top n) ->
  said (hser (p_heap m)) s (mem_upper_text upper ++ apic_line ++ [LF]) ->
  agree_outside top (upper * 1024) (hmem (p_heap m)) (hmem h) -> same_dom (hmem (p_heap m)) (hmem h) ->
  vfree_top h = 0 -> hlock h = hlock (p_heap m) ->
  Forall bchoice_ok xs -> call_startothers im sipi_entry (Z.of_nat (length code)) me ecx xs h s tab = Ok st ->
  exists m' l v, main im heap_start sipi_entry (Z.of_nat (length code)) me ecx mp_fuel wait_fuel xs m mbi = Ok m' /\
    text m' = text m ++ lines (boot_lines upper self (length (proc_ids es))) ++ transcript (spec_row <$> suite im) /\
    io_log (ports m') = l ++ shutdown_log v.
Proof.
  intros top tab Hlo Hn Hde Htab Hops Hlay Hproc Hbase Hr Hmid Hw Hf Hdet Hfree [Hin Htext] Ha Hd Hv Hl Hxs Hcall.
  unfold main. rewrite Hdet. mret. rewrite Hcall. mret.
  unfold call_startothers in Hcall. apply res_bind_ok in Hcall as (st1 & Hrun & Hcall).
  destruct (decide (b_pc st1 = BEnd)) as [Hend|]; [injection Hcall as ->|done].
  assert (Hent : entry_code sipi_entry code (hmem h))
    by (destruct (lo_code _ _ _ _ _ _ _ _ Hlo); by eapply entry_code_below).
  destruct (brun_ended _ _ _ _ _ _ _ _ _ _ _ _ (table_of_ok _ _ _ _ _ _ Hde) Hent Hxs Hrun Hend) as [[Hin' Htext'] Hkept].
  pose proof (ba_inputs _ _ _ Hbase) as Hinp. change (io_in (ports m)) with (io_in (ser_io (hser (p_heap m)))) in Hinp.
  rewrite <- Hin, <- Hin' in Hinp. unfold suite_inputs in Hinp.
  destruct (x2apic_run st ecx) as (i & r & -> & Hi & Hs).
  { intros He. by rewrite (brun_ops _ _ _ _ _ _ _ _ _ He Hrun). }
  { intros E. rewrite E in Hinp. simpl in Hinp. lia. }
  mret. rewrite booted_self by done.
  pose proof (booted_ready im heap_start sipi_entry code n mbi upper m (suite_inputs + 2) h st (b_ser st) i Hlo Hbase
    Hlay Hn Hfree Ha Hd Hv Hl Hkept ltac:(unfold suite_inputs; lia)) as Hready.
  set (m1 := with_heap m _) in *.
  destruct (suite_run im top apic_ready limit dest wait_fuel m1 0 1 c mid w rest) as (m2 & -> & [_ Hb2] & T2); try done.
  mret. destruct (shutdown_run (ports m2)) as (i2 & v & -> & Hlog & Hsent); [pose proof (ba_inputs _ _ _ Hb2); lia|]. mret.
  exists (with_ports m2 i2), (io_log (ports m2)), v. split; [done|]. split; [|exact Hlog].
  transitivity (text m2); [exact Hsent|]. rewrite T2, app_assoc, boot_lines_text. f_equal.
  transitivity (sent (io_log i)); [done|]. by rewrite Hs, Htext', Htext, <- !app_assoc.
Qed.

(** ** Claims *)

(** The whole program: on a machine whose boot loader describes enough
    memory and whose BIOS describes the processors, [main] reaches
    [startothers]; the processors can run so that it ends; and however they
    run until it ends, [main] runs the fourteen benchmarks and shuts the
    machine down. It prints the lines of the boot, one greeting for each
    other processor in the order of the table, and the transcript of the
    table, and the host program makes of it fourteen lines with the
    categories, names and counts of the benchmarks and the times between
    their marks. *)
Theorem main_report im heap_start sipi_entry code me ecx mp_fuel wait_fuel n mbi upper m la es self
    apic_ready limit dest pin ts c mid w rest :
  let tab := table_of la es in
  loaded im heap_start sipi_entry code n mbi upper m -> suite_pages <= Z.of_nat n ->
  described (hmem (p_heap m)) (page_up heap_start) la es me self -> (length es < mp_fuel)%nat ->
  im_tab im = tab -> im_ops im = ops_of ecx -> layout im (page_up heap_start) ->
  processors im apic_ready limit dest -> base im (suite_inputs + 2) m -> text m = [] ->
  readings m = c :: mid ++ w :: rest -> Forall (fun v => u32 c <= u32 v) mid -> u32 w < u32 c ->
  (length mid < wait_fuel)%nat -> pin_ok pin -> length ts = 14%nat ->
  exists h s, detect heap_start mp_fuel m mbi = Ok (h, s, tab) /\
    (exists xs st, Forall bchoice_ok xs /\
       call_startothers im sipi_entry (Z.of_nat (length code)) me ecx xs h s tab = Ok st) /\
    forall xs st, Forall bchoice_ok xs ->
      call_startothers im sipi_entry (Z.of_nat (length code)) me ecx xs h s tab = Ok st ->
      exists m' l v, main im heap_start sipi_entry (Z.of_nat (length code)) me ecx mp_fuel wait_fuel xs m mbi = Ok m' /\
        text m' = lines (boot_lines upper self (length (proc_ids es))) ++ transcript (spec_row <$> suite im) /\
        io_log (ports m') = l ++ shutdown_log v /\
        host_main (mkHio (text m') (concat (tsc_of <$> ts)) []) pin =
          Ok (mkHio [] [] (host_output pin (zip (spec_brow <$> suite im) ts))).
Proof.
  intros tab Hlo Hn Hde Hfuel Htab Hops Hlay Hproc Hbase Ht Hr Hmid Hw Hf Hp Hts.
  destruct (detect_run im heap_start sipi_entry code n mbi upper m la es me self mp_fuel Hlo) as
    (h & s & Hdet & Hfree & Hsaid & Ha & Hd & Hv & Hl); [unfold suite_pages in Hn; lia|done|done|].
  exists h, s. split; [done|]. split.
  - apply (startothers_can_end im sipi_entry code me ecx h s tab (proc_ids es) self); [by eapply table_of_ok|].
    destruct (lo_code _ _ _ _ _ _ _ _ Hlo). by eapply entry_code_below.
  - intros xs st Hxs Hcall.
    destruct (main_after im heap_start sipi_entry code me ecx mp_fuel wait_fuel n mbi upper m la es self apic_ready limit
      dest c mid w rest h s xs st Hlo Hn Hde Htab Hops Hlay Hproc Hbase Hr Hmid Hw Hf Hdet Hfree Hsaid Ha Hd Hv Hl Hxs Hcall)
      as (m' & l & v & Hm & T & L).
    rewrite Ht in T. exists m', l, v. split; [done|]. split; [done|]. split; [done|]. rewrite T.
    apply host_reads_suite; [apply boot_lines_passed|done|done].
Qed.

(** ** Witnesses *)

Definition demo_cpus : list mpentry := [EProc 0 (replicate 18 0); EProc 1 (replicate 18 0); EIoapic 2 (replicate 6 0)].
Definition demo_info : list Z :=
  replicate 8 0 ++ le_bytes 4 75044 ++ replicate 32 0 ++ le_bytes 4 24 ++ le_bytes 4 2304.

(** The BIOS's tables, the boot loader's information, the array of print.c and
    an entry code of three bytes. *)
Definition demo_small : mem :=
  write_bytes (write_bytes (write_bytes (write_bytes (demo_machine (table_bytes demo_cpus)) 2048 demo_info)
    2304 (replicate 12 0 ++ le_bytes 8 76845056 ++ replicate 4 0)) 4096 (letters ++ [0])) 5000 demo_entry.

(** The machine: 1 MiB and 18505 pages of memory. *)
Lemma demo_guest :
  exists n m, Z.of_nat n = 18505 /\
    loaded (demo_image_of (table_of 4276092928 demo_cpus)) 1048576 5000 demo_entry n 2048 75044 m /\
    described (hmem (p_heap m)) 1048576 4276092928 demo_cpus 0 0 /\
    base (demo_image_of (table_of 4276092928 demo_cpus)) (suite_inputs + 2) m /\ text m = [] /\
    readings m = 4294967000 :: [4294967100; 4294967295] ++ (8589934592 + 44) :: [].
Proof.
  assert (Hn : exists n, Z.of_nat n = 18505) by (exists (Z.to_nat 18505); apply Z2Nat.id; lia). destruct Hn as [n Hn].
  set (zeros := write_bytes ∅ 0 (replicate (Z.to_nat 76845056) 0) : mem).
  assert (Hz : mapped (demo_small ∪ zeros) 0 76845056).
  { intros x Hx. rewrite lookup_union. apply union_is_Some. right.
    pose proof (bytes_at_mapped _ _ _ (write_bytes_at ∅ 0 (replicate (Z.to_nat 76845056) 0))) as H.
    rewrite length_replicate, Z2Nat.id in H by lia. by apply H. }
  assert (Hs : demo_small ⊆ demo_small ∪ zeros) by apply map_union_subseteq_l.
  clearbody zeros. generalize dependent (demo_small ∪ zeros). intros mm Hz Hs.
  exists n, (mkMachine (mkHeap mm (mkSerial 0 0 (mkIo (replicate (Z.to_nat 1003) 96) [])) 0 0 0 false 0 0 0 0)
    (mkIdt false (replicate 256 Hnull) (0, 0)) (OnCpu.mkSmp 0 0 [] ∅ ∅ []) [4294967000; 4294967100; 4294967295; 8589934592 + 44]
    0 (replicate 10 0) 0 0 0 0 0 0 0 0 []).
  split; [exact Hn|]. split; [|split; [|split; [|split; reflexivity]]].
  - split; cbn [p_heap hmem first_mem_init vfree_top].
    + assert (Hload : forall k a v, load_le k demo_small a = Ok v -> load_le k mm a = Ok v)
        by (intros k a v; by apply reads_load_le).
      exists 2304, [76845056]. split.
      * apply Hload. vm_compute. reflexivity.
      * apply Hload. vm_compute. reflexivity.
      * apply Hload. vm_compute. reflexivity.
      * intros [|i] len Hi; [|discriminate Hi]. injection Hi as <-. apply Hload. vm_compute. reflexivity.
      * simpl. lia.
    + lia.
    + rewrite Hn. split; [reflexivity|lia].
    + rewrite Hn. eapply mapped_sub; [exact Hz| |]; by vm_compute.
    + split; [|by vm_compute]. split; [split; [by_eval|split; by_eval]|]. split; [|apply (bytes_at_weaken _ _ _ _ Hs)| |intros []].
      * eapply mapped_sub; [exact Hz| |]; by vm_compute.
      * apply bytes_at_b_spec. vm_compute. reflexivity.
      * eapply mapped_sub; [exact Hz| |]; by vm_compute.
    + by vm_compute.
    + reflexivity.
    + reflexivity.
  - split; cbn [p_heap hmem].
    + exists demo_small, 651264, 1280. split; [exact Hs|]. clear. split; [|split].
      * intros x Hx. enough (H : Forall (fun x => x < 1048576) (map_to_list demo_small).*1); [|by_eval].
        rewrite Forall_forall in H. apply H. destruct Hx as [v Hx]. apply list_elem_of_fmap. exists (x, v).
        split; [reflexivity|]. by apply elem_of_map_to_list.
      * apply (demo_found demo_small (table_bytes demo_cpus) 92 _ eq_refl eq_refl); vm_compute; reflexivity.
      * by_eval.
    + repeat constructor.
    + by_eval.
    + by_eval.
    + simpl. lia.
    + reflexivity.
  - split; cbn [p_heap p_idt p_smp p_gdtr hmem hlock].
    + change (1003 <= Z.of_nat (length (replicate (Z.to_nat 1003) 96))). rewrite length_replicate, Z2Nat.id; lia.
    + split; [|clear; by_eval|by vm_compute]. apply (bytes_at_weaken _ _ _ _ Hs), bytes_at_b_spec. vm_compute. reflexivity.
    + eapply mapped_sub; [exact Hz| |]; cbn [demo_image_of im_boot_idt]; lia.
    + reflexivity.
    + intros j. eapply mapped_sub; [exact Hz| |]; cbn [demo_image_of im_reg]; lia.
    + reflexivity.
    + split; [reflexivity|by_eval].
    + split; [reflexivity|]. split; [reflexivity|]. by intros c.
Qed.

Lemma main_report_witness :
  exists m xs st h s m' l v,
    call_startothers (demo_image_of (table_of 4276092928 demo_cpus)) 5000 3 0 0 xs h s (table_of 4276092928 demo_cpus) = Ok st /\
    main (demo_image_of (table_of 4276092928 demo_cpus)) 1048576 5000 3 0 0 4 3 xs m 2048 = Ok m' /\
    text m' = lines (boot_lines 75044 0 2) ++ transcript (spec_row <$> suite demo_image) /\
    io_log (ports m') = l ++ shutdown_log v.
Proof.
  destruct demo_guest as (n & m & Hn & Hlo & Hde & Hb & Ht & Hr). exists m.
  destruct (main_report (demo_image_of (table_of 4276092928 demo_cpus)) 1048576 5000 demo_entry 0 0 4 3 n 2048 75044 m
    4276092928 demo_cpus 0 xapic_ready 256 1 None (replicate 14 (mkTimes 100 150 200 1250))
    4294967000 [4294967100; 4294967295] (8589934592 + 44) []) as (h & s & _ & (xs & st & Hxs & Hcall) & Hall).
  - exact Hlo.
  - rewrite Hn. vm_compute. discriminate.
  - exact Hde.
  - simpl. lia.
  - reflexivity.
  - reflexivity.
  - apply demo_layout.
  - apply demo_processors. reflexivity.
  - exact Hb.
  - exact Ht.
  - exact Hr.
  - repeat constructor; vm_compute; discriminate.
  - vm_compute. reflexivity.
  - simpl. lia.
  - exact I.
  - reflexivity.
  - destruct (Hall xs st Hxs Hcall) as (m' & l & v & Hm & T & L & _).
    exists xs, st, h, s, m', l, v. split; [exact Hcall|]. split; [exact Hm|]. split; [exact T|exact L].
Defined.
