(* ===== verification/BareBoot.v ===== *)
(** * The boot of the build with __BARE_METAL

    In this build [printf] writes to the text console (lib/printf.c), and
    [main], [early_mem_init] and [mpsearch] print what they found. The
    functions up to [mpinit] as this build has them, on the heap's memory with
    the screen in it, and what they leave: the same pages, bounds and table of
    processors as in the default build, and their lines on the screen. *)

From stdpp Require Import base gmap list numbers strings.
From Stdlib Require Import ZArith Lia.
From S2P Require Import Layout Prelude Mem CString Printf Serial Console Stdio Heap PageTable Mp Desc Apic Smp Boot Harness Bench Main.

#[local] Open Scope Z_scope.

(** ** Printing *)

(** [console_puts] of a text: the loop over its characters, and the whole. *)
Fixpoint putc_text (m : mem) (c : console) (t : list Z) : res (mem * console) :=
  match t with
  | [] => Ok (m, c)
  | ch :: t' => '(m, c) ← console_putc m c (s8 ch); putc_text m c t'
  end.

Definition puts_text (m : mem) (c : console) (i : io) (t : list Z) : res (mem * console * io) :=
  v ← spin_lock (con_lock c);
  let c := mkConsole v (console_cleared c) (cur_x c) (cur_y c) in
  '(m, c, i) ←
    (if console_cleared c =? 0 then
       '(m, c, i) ← console_init m c i;
       Ok (m, mkConsole (con_lock c) 1 (cur_x c) (cur_y c), i)
     else Ok (m, c, i));
  '(m, c) ← putc_text m c t;
  Ok (m, mkConsole (spin_unlock (con_lock c)) (console_cleared c) (cur_x c) (cur_y c), i).

(** The state: the heap, with the memory and the ports, and the console. *)
Definition bare : Type := heap * console.

(** [printf] of this build, as [say] is that of the default one. *)
Definition tell (x : bare) (fmt va : list Z) : res bare :=
  t ← format no_strs fmt va;
  '(m, c, i) ← puts_text (hmem x.1) x.2 (ser_io (hser x.1)) (take 1999 t);
  Ok (set_ser (set_mem x.1 m) (with_io (hser x.1) i), c).

(** ** heap.c *)

Definition bare_early_mem_init (x : bare) (base_addr mbi : Z) : res bare :=
  mem_upper ← load32 (hmem x.1) (mbi + mbi_mem_upper);
  let end_of_memory := u64 (mem_upper * 1024) in
  x ← tell x (line "mbi->mem_upper = %lx") [end_of_memory];
  x ← (if first_mem_init x.1 then Ok x
       else
         h ← get_memory_map (set_bounds x.1 (heap_base x.1) (heap_end x.1) true) mbi;
         let h := set_bounds h (Z.land (u64 (base_addr + PAGE_SIZE - 1)) page_mask)
                    (Z.land (heap_end h) page_mask) (first_mem_init h) in
         x ← tell (h, x.2) (line "Memory Start: %lx B") [heap_base h];
         x ← tell x (line "Memory End: %lx B") [heap_end h];
         tell x (line "Total Memory: %ld MB") [Z.shiftr (heap_end h) 20]);
  let h := set_free x.1 0 in
  '(h, _) ← get_free_pages h (heap_base h) (u64 (end_of_memory - heap_base h));
  Ok (h, x.2).

(** ** mp.c *)

Definition bare_mpsearch (x : bare) : res (bare * Z) :=
  let m := hmem x.1 in
  let rom x :=
    x ← tell x (line "MP in the BIOS ROM between 0xE0000 and 0xFFFFF") [];
    mp ← mpsearch1 (hmem x.1) 983040 65536;
    Ok (x, mp) in
  h ← load8 m (bda + 15);
  l ← load8 m (bda + 14);
  let p := Z.shiftl (Z.lor (Z.shiftl h 8) l) 4 in
  if negb (p =? 0) then
    mp ← mpsearch1 m p 1024;
    if negb (mp =? 0) then x ← tell x (line "MP in the first KB of the EBDA") []; Ok (x, mp) else rom x
  else
    h ← load8 m (bda + 20);
    l ← load8 m (bda + 19);
    let p := Z.lor (Z.shiftl h 8) l * 1024 in
    mp ← mpsearch1 m (u64 (p - 1024)) 1024;
    if negb (mp =? 0) then x ← tell x (line "MP in the last KB of system base memory") []; Ok (x, mp) else rom x.

Definition bare_mpinit (fuel : nat) (x : bare) (st : mpstate) : res (bare * mpstate) :=
  '(x, mp) ← bare_mpsearch x;
  conf ← mpconf_at (hmem x.1) mp;
  x ← (if conf =? 0 then tell x (bytes_of_string "Expect to run on an SMP") [] else Ok x);
  let m := hmem x.1 in
  lapicaddr ← load32 m (conf + mpconf_lapicaddr);
  len ← load16 m (conf + mpconf_length);
  '(st, ismp) ← mp_loop fuel m (mkMp (cpus st) (ncpu st) (ioapicid st) lapicaddr) true
      (conf + sizeof_mpconf) (conf + len);
  x ← (if negb ismp then tell x (bytes_of_string "Didn't find a suitable machine") [] else Ok x);
  Ok (x, st).

(** ** main.c *)

(** The ports of the state. *)
Definition on_ports (x : bare) (f : io -> io) : bare :=
  (set_ser x.1 (with_io (hser x.1) (f (ser_io (hser x.1)))), x.2).

Definition bare_enable_apic (x : bare) : res bare :=
  x ← tell x (bytes_of_string "enabling apic" ++ [CR; LF]) [];
  Ok (on_ports x (fun s => xapic_write s 240 511)).

(** [main] up to [mpinit]. *)
Definition bare_detect (heap_start : Z) (fuel : nat) (x : bare) (mbi magic : Z) : res (bare * mpstate) :=
  x ← tell x (line "magic = %x, mb_info = %p") [magic; mbi];
  x ← bare_early_mem_init x heap_start mbi;
  let x := on_ports x mask_pic_interrupts in
  x ← bare_enable_apic x;
  bare_mpinit fuel x no_cpus.

(** ** What is printed is on the screen *)

(** The terminal after a text. *)
Definition written (t : term) (l : list Z) : term := foldl term_putc t (s8 <$> l).

Lemma written_app t l1 l2 : written t (l1 ++ l2) = written (written t l1) l2.
Proof. unfold written. by rewrite fmap_app, foldl_app. Qed.

Lemma putc_text_refines l : forall m c t,
  shows m c t ->
  exists m' c', putc_text m c l = Ok (m', c') /\ shows m' c' (written t l) /\ only_vga m m' /\
    con_lock c' = con_lock c /\ console_cleared c' = console_cleared c.
Proof.
  induction l as [|b l IH]; intros m c t Hs; cbn [putc_text]; [by eexists _, _; eauto with hb|].
  destruct (console_putc_refines m c t (s8 b) Hs) as (m1 & c1 & -> & Hs1 & Ho1 & Hk1 & Hc1). mret.
  destruct (IH m1 c1 _ Hs1) as (m2 & c2 & -> & Hs2 & Ho2 & Hk2 & Hc2). eexists _, _. split; [done|]. split; [done|].
  split; [by eapply only_vga_trans|]. split; congruence.
Qed.

(** The loop over a string in memory is the loop over its characters. *)
Lemma putc_loop_text l : forall m c t buf,
  shows m c t -> bytes_at m buf l -> disjoint_ranges vga 4000 buf (Z.of_nat (length l)) ->
  putc_loop (length l) m c buf = putc_text m c l.
Proof.
  induction l as [|b l IH]; intros m c t buf Hs Hb Hd; [done|]. cbn [length putc_loop putc_text].
  apply bytes_at_cons in Hb as [H1 H2]. unfold loadc. rewrite (load8_ok _ _ _ H1). mret.
  destruct (console_putc_refines m c t (s8 b) Hs) as (m1 & c1 & -> & Hs1 & Ho1 & _). mret.
  unfold disjoint_ranges in *. cbn [length] in Hd.
  apply (IH m1 c1 (term_putc t (s8 b))); [done| |lia]. eapply bytes_at_frame; [|exact H2]. intros x Hx. apply Ho1. lia.
Qed.

(** The console before a message. *)
Definition console_ok (m : mem) (c : console) (t : term) : Prop :=
  con_lock c = 0 /\ screen_at m (cells t) /\ (console_cleared c <> 0 -> shows m c t).

Lemma screen_frame m m' l : (forall x, vga <= x < vga + 4000 -> m' !! x = m !! x) -> screen_at m l -> screen_at m' l.
Proof.
  intros Hv (S1 & S2 & S3 & S4). split; [intros x Hx; rewrite Hv by lia; by apply S1|]. split; [done|]. split; [done|].
  intros i v Hi. rewrite <- (S4 i v Hi). apply lookup_lt_Some in Hi. apply load_le_frame. intros x Hx. apply Hv. lia.
Qed.

Lemma console_frame m m' c t : (forall x, vga <= x < vga + 4000 -> m' !! x = m !! x) -> console_ok m c t -> console_ok m' c t.
Proof.
  intros Hv (H1 & H2 & H3). split; [done|]. split; [by apply (screen_frame m)|]. intros Hc. destruct (H3 Hc) as [_ H4].
  split; [by apply (screen_frame m)|done].
Qed.

(** What the screen shows before the first character of a message. *)
Definition screen_of (c : console) (t : term) : term := if console_cleared c =? 0 then blank_term else t.

(** The part of [console_puts] before the characters. *)
Lemma puts_begins m c i t :
  console_ok m c t ->
  exists m1 c1 i1,
    (if console_cleared (mkConsole 1 (console_cleared c) (cur_x c) (cur_y c)) =? 0 then
       '(m, c, i) ← console_init m (mkConsole 1 (console_cleared c) (cur_x c) (cur_y c)) i;
       Ok (m, mkConsole (con_lock c) 1 (cur_x c) (cur_y c), i)
     else Ok (m, mkConsole 1 (console_cleared c) (cur_x c) (cur_y c), i)) = Ok (m1, c1, i1) /\
    shows m1 c1 (screen_of c t) /\ only_vga m m1 /\ console_cleared c1 <> 0 /\ sent (io_log i1) = sent (io_log i) /\
    io_in i1 = io_in i.
Proof.
  intros (Hk & Hs & Ht). unfold screen_of. cbn [console_cleared]. destruct (Z.eqb_spec (console_cleared c) 0) as [Hz|Hz].
  - unfold console_init. destruct (console_clear_spec m (mkConsole 1 (console_cleared c) (cur_x c) (cur_y c)) _ Hs)
      as (m1 & c1 & -> & Hs1 & Ho1 & Hk1). mret. eexists _, _, _. split; [reflexivity|]. split; [done|]. split; [done|].
    split; [done|]. unfold write_reg, outb, outw, port_out. cbn [io_log io_in].
    rewrite ?sent_app. cbn [sent omap list_omap sent_of]. rewrite ?app_nil_r. done.
  - eexists _, _, _. split; [reflexivity|]. split; [by apply Ht|]. by split_and!; try apply only_vga_refl.
Qed.

Lemma puts_text_shows m c i t l :
  console_ok m c t ->
  exists m' c' i', puts_text m c i l = Ok (m', c', i') /\ shows m' c' (written (screen_of c t) l) /\
    con_lock c' = 0 /\ console_cleared c' <> 0 /\ only_vga m m' /\ sent (io_log i') = sent (io_log i) /\ io_in i' = io_in i.
Proof.
  intros Hc. destruct (puts_begins m c i t Hc) as (m1 & c1 & i1 & E & Hs & Ho & Hcl & Hl & Hin). destruct Hc as (Hk & _ & _).
  unfold puts_text, spin_lock. rewrite Hk. change (0 =? 0) with true. mret. rewrite E. mret.
  destruct (putc_text_refines l m1 c1 _ Hs) as (m2 & c2 & -> & Hs2 & Ho2 & Hk2 & Hc2). mret.
  eexists _, _, _. split; [reflexivity|]. split; [done|]. split; [done|]. cbn [console_cleared].
  split; [by rewrite Hc2|]. split; [by eapply only_vga_trans|done].
Qed.

(** [console_puts] of a string is this. *)
Lemma console_puts_text m c i t buf l :
  console_ok m c t -> cstr m buf l -> disjoint_ranges vga 4000 buf (Z.of_nat (length l) + 1) ->
  console_puts m c i buf = puts_text m c i l.
Proof.
  intros Hc Hb Hd. destruct (puts_begins m c i t Hc) as (m1 & c1 & i1 & E & Hs & Ho & _). destruct Hc as (Hk & _ & _).
  unfold console_puts, puts_text, spin_lock. rewrite Hk. change (0 =? 0) with true. mret.
  rewrite (strlen_spec _ _ l) by done. mret. rewrite E. mret. rewrite Nat2Z.id.
  unfold disjoint_ranges in Hd. destruct Hb as [Hb _ _]. apply bytes_at_app in Hb as [Hb _].
  rewrite (putc_loop_text l m1 c1 _ buf Hs); [done| |unfold disjoint_ranges; lia].
  eapply bytes_at_frame; [|exact Hb]. intros x Hx. apply Ho. lia.
Qed.

(** ** The messages *)

Lemma format_whole t : Forall (fun c => c <> chr "%") t -> format no_strs t [] = Ok t.
Proof.
  intros Ht. rewrite <- (app_nil_r t) at 1. rewrite format_plain by done.
  change (format no_strs [] []) with (Ok (A := list Z) []). mret. by rewrite app_nil_r.
Qed.

Lemma format_hex_between t1 t2 a :
  Forall (fun c => c <> chr "%") t1 -> Forall (fun c => c <> chr "%") t2 ->
  format no_strs (t1 ++ [37; 108; 120] ++ t2) [a] = Ok (t1 ++ num_text (u64 a) 16 ++ t2).
Proof. intros H1 H2. rewrite format_plain, format_hex by exact H1. rewrite (format_whole t2 H2). reflexivity. Qed.

(** A pointer. *)
Definition ptr_text (a : Z) : list Z := (if u64 a =? 0 then [] else [48; 120]) ++ num_text (u64 a) 16.

Definition magic_text (magic mbi : Z) : list Z :=
  bytes_of_string "magic = " ++ num_text (u32 magic) 16 ++ bytes_of_string ", mb_info = " ++ ptr_text mbi ++ [LF].
Definition start_text (a : Z) : list Z := bytes_of_string "Memory Start: " ++ num_text (u64 a) 16 ++ bytes_of_string " B" ++ [LF].
Definition end_text (a : Z) : list Z := bytes_of_string "Memory End: " ++ num_text (u64 a) 16 ++ bytes_of_string " B" ++ [LF].
Definition total_text (n : Z) : list Z := bytes_of_string "Total Memory: " ++ dec_text (s64 n) ++ bytes_of_string " MB" ++ [LF].

Lemma format_magic magic mbi :
  format no_strs (line "magic = %x, mb_info = %p") [magic; mbi] = Ok (magic_text magic mbi).
Proof.
  change (line "magic = %x, mb_info = %p") with
    (bytes_of_string "magic = " ++ [37; 120] ++ bytes_of_string ", mb_info = " ++ [37; 112] ++ [LF]).
  rewrite format_plain by by_eval. unfold format. cbn [app]. rewrite format_go_cons. ctests. rewrite format_go_cons. ctests.
  unfold conv_text. ctests. cbn [va_arg]. mret. change (va_unsigned 0 magic) with (u32 magic).
  change (format_go no_strs (bytes_of_string ", mb_info = " ++ [37; 112; LF]) 0 None [mbi]) with
    (format no_strs (bytes_of_string ", mb_info = " ++ [37; 112; LF]) [mbi]).
  rewrite format_plain by by_eval. unfold format. rewrite format_go_cons. ctests. rewrite format_go_cons. ctests.
  unfold conv_text. ctests. cbn [va_arg]. mret.
  change (format_go no_strs [LF] 0 None []) with (Ok (A := list Z) [LF]). mret.
  unfold magic_text, ptr_text, uns_text. cbn [alternate pad npad props0 andb]. change (16 =? 16) with true. change (32 =? 48) with false.
  cbn [andb].
  unfold pad_text. cbn [props0 npad]. rewrite !Z2Nat.nonpos by lia. cbn [replicate app]. rewrite !app_nil_r.
  destruct (u64 mbi =? 0); cbn [negb app]; rewrite ?app_nil_r; reflexivity.
Qed.

Lemma format_total n :
  s64 n <> -9223372036854775808 -> format no_strs (line "Total Memory: %ld MB") [n] = Ok (total_text n).
Proof.
  intros Hn. change (line "Total Memory: %ld MB") with (bytes_of_string "Total Memory: " ++ 37 :: 108 :: 100 :: bytes_of_string " MB" ++ [LF]).
  rewrite format_plain by by_eval. unfold format. rewrite format_go_cons. ctests. rewrite format_go_cons. ctests.
  rewrite format_go_cons. ctests. unfold conv_text. ctests. cbn [va_arg]. mret. change (va_signed (0 + 1) n) with (s64 n).
  unfold int_text. rewrite (proj2 (Z.eqb_neq _ _) Hn). mret. unfold pad_text. cbn [props0 npad]. rewrite !Z2Nat.nonpos by lia.
  cbn [replicate app]. change (format_go no_strs (bytes_of_string " MB" ++ [LF]) 0 None []) with (Ok (bytes_of_string " MB" ++ [LF])). mret.
  unfold total_text, dec_text. by rewrite app_nil_r.
Qed.

(** ** A message *)

Record on_screen (x : bare) (t : term) : Prop := {
  os_shows : shows (hmem x.1) x.2 t;
  os_lock : con_lock x.2 = 0;
  os_cleared : console_cleared x.2 <> 0;
}.

Lemma on_screen_ok x t : on_screen x t -> console_ok (hmem x.1) x.2 t /\ screen_of x.2 t = t.
Proof.
  intros [H1 H2 H3]. split; [split; [done|]; split; [apply H1|done]|]. unfold screen_of. by rewrite (proj2 (Z.eqb_neq _ _) H3).
Qed.

(** [x'] is [x] after messages: only the screen and the ports have changed. *)
Definition told (x x' : bare) : Prop :=
  only_vga (hmem x.1) (hmem x'.1) /\ x'.1 = set_ser (set_mem x.1 (hmem x'.1)) (hser x'.1).

#[local] Instance told_preorder : PreOrder told.
Proof.
  split.
  - intros [h c]. split; [apply only_vga_refl|]. by destruct h.
  - intros [h1 c1] [h2 c2] [h3 c3] [O1 E1] [O2 E2]. cbn [fst] in *. split; [by eapply only_vga_trans|]. rewrite E2, E1. done.
Qed.

Lemma tell_first x t fmt va l :
  console_ok (hmem x.1) x.2 t -> format no_strs fmt va = Ok l -> (length l <= 1999)%nat ->
  exists x', tell x fmt va = Ok x' /\ on_screen x' (written (screen_of x.2 t) l) /\ told x x'.
Proof.
  intros Hc Hf Hl. unfold tell. rewrite Hf. mret. rewrite take_ge by done.
  destruct (puts_text_shows (hmem x.1) x.2 (ser_io (hser x.1)) t l Hc) as (m' & c' & i' & -> & H1 & H2 & H3 & H4 & _). mret.
  eexists. split; [reflexivity|]. split; [by split|]. by split.
Qed.

Lemma tell_next x t fmt va l :
  on_screen x t -> format no_strs fmt va = Ok l -> (length l <= 1999)%nat ->
  exists x', tell x fmt va = Ok x' /\ on_screen x' (written t l) /\ told x x'.
Proof.
  intros Hx Hf Hl. destruct (on_screen_ok x t Hx) as [Hc E]. destruct (tell_first x t fmt va l Hc Hf Hl) as (x' & H1 & H2 & H3).
  rewrite E in H2. by exists x'.
Qed.

(** Memory away from the screen stays. *)
Definition off_screen (low : mem) : Prop := forall x, is_Some (low !! x) -> x < vga \/ vga + 4000 <= x.

Lemma told_sub low x x' : off_screen low -> low ⊆ hmem x.1 -> told x x' -> low ⊆ hmem x'.1.
Proof.
  intros Ho Hs [Hv _]. apply map_subseteq_spec. intros a v Ha. rewrite Hv by (apply Ho; by rewrite Ha). by eapply lookup_weaken.
Qed.

Lemma told_mapped x x' a n : told x x' -> vga + 4000 <= a -> mapped (hmem x.1) a n -> mapped (hmem x'.1) a n.
Proof. intros [Hv _] Ha Hm y Hy. rewrite Hv by lia. by apply Hm. Qed.

Lemma on_screen_frame x x' t :
  on_screen x t -> x'.2 = x.2 -> (forall a, vga <= a < vga + 4000 -> hmem x'.1 !! a = hmem x.1 !! a) -> on_screen x' t.
Proof.
  intros [(Hs & Hok) H2 H3] E Hf. rewrite <- E in H2, H3. split; [|done|done]. rewrite E. split; [|done]. by eapply screen_frame.
Qed.

Lemma get_memory_map_run h mbi upper addr lens :
  bootinfo_at (hmem h) mbi upper addr lens ->
  get_memory_map h mbi = Ok (set_bounds h (heap_base h) (u64 (sum_lengths lens)) (first_mem_init h)).
Proof.
  intros [_ Hlen Haddr Hmap Hfit]. unfold get_memory_map. rewrite Haddr. mret. rewrite Hlen. mret. rewrite u32_small by lia.
  rewrite map_loop_total by (done || lia). done.
Qed.

(** ** [early_mem_init] *)

Definition heap_last (lens : list Z) : Z := Z.land (u64 (sum_lengths lens)) page_mask.

Lemma heap_last_range lens : 0 <= heap_last lens < 2 ^ 64.
Proof.
  unfold heap_last. change page_mask with (2 ^ 64 - 2 ^ 12). rewrite land_mask by lia.
  change (2 ^ 64) with 18446744073709551616. change (2 ^ 12) with 4096. mach.
Qed.

Definition memory_text (upper base : Z) (lens : list Z) : list Z :=
  mem_upper_text upper ++ start_text (page_up base) ++ end_text (heap_last lens) ++ total_text (Z.shiftr (heap_last lens) 20).

(** The four messages, each short enough for the buffer. *)
Lemma memory_messages upper base lens :
  format no_strs (line "mbi->mem_upper = %lx") [u64 (upper * 1024)] = Ok (mem_upper_text upper) /\
  format no_strs (line "Memory Start: %lx B") [page_up base] = Ok (start_text (page_up base)) /\
  format no_strs (line "Memory End: %lx B") [heap_last lens] = Ok (end_text (heap_last lens)) /\
  format no_strs (line "Total Memory: %ld MB") [Z.shiftr (heap_last lens) 20] = Ok (total_text (Z.shiftr (heap_last lens) 20)) /\
  (length (mem_upper_text upper) <= 1999)%nat /\ (length (start_text (page_up base)) <= 1999)%nat /\
  (length (end_text (heap_last lens)) <= 1999)%nat /\ (length (total_text (Z.shiftr (heap_last lens) 20)) <= 1999)%nat.
Proof.
  pose proof (heap_last_range lens) as Hr. set (n := Z.shiftr (heap_last lens) 20).
  assert (Hn : 0 <= n < 2 ^ 44).
  { subst n. rewrite Z.shiftr_div_pow2 by lia. change (2 ^ 64) with 18446744073709551616 in Hr. change (2 ^ 20) with 1048576.
    change (2 ^ 44) with 17592186044416. Z.to_euclidean_division_equations. lia. }
  assert (Hs : s64 n = n) by (change (2 ^ 44) with 17592186044416 in Hn; mach).
  split; [apply (format_hex_between (bytes_of_string "mbi->mem_upper = ") [LF]); by repeat constructor|].
  split; [apply (format_hex_between (bytes_of_string "Memory Start: ") (bytes_of_string " B" ++ [LF])); by repeat constructor|].
  split; [apply (format_hex_between (bytes_of_string "Memory End: ") (bytes_of_string " B" ++ [LF])); by repeat constructor|].
  split; [apply format_total; rewrite Hs; lia|].
  unfold mem_upper_text, start_text, end_text, total_text. rewrite !length_app, Hs.
  pose proof (length_hex (u64 (upper * 1024))). pose proof (length_hex (page_up base)). pose proof (length_hex (heap_last lens)).
  pose proof (length_dec_text n). change (2 ^ 44) with 17592186044416 in Hn.
  repeat match goal with |- context [length (bytes_of_string ?s)] => let k := eval vm_compute in (length (bytes_of_string s)) in
    change (length (bytes_of_string s)) with k end. cbn [length]. lia.
Qed.

Lemma bare_memory low x t base mbi upper addr lens n :
  on_screen x t -> off_screen low -> low ⊆ hmem x.1 -> bootinfo_at low mbi upper addr lens ->
  first_mem_init x.1 = false -> 0 < base -> vga + 4000 <= page_up base ->
  upper * 1024 = page_up base + 4096 * Z.of_nat n -> (0 < n)%nat -> 0 <= upper < 2 ^ 32 ->
  mapped (hmem x.1) (page_up base) (4096 * Z.of_nat n) -> (forall a, is_Some (low !! a) -> a < page_up base) ->
  exists x', bare_early_mem_init x base mbi = Ok x' /\ on_screen x' (written t (memory_text upper base lens)) /\
    low ⊆ hmem x'.1 /\ free_pages (hmem x'.1) (freelist x'.1) (pages_from (page_up base) n) /\
    heap_base x'.1 = page_up base /\ heap_end x'.1 = heap_last lens /\ first_mem_init x'.1 = true /\
    forall a, ~ (vga <= a < vga + 4000) -> a < page_up base \/ upper * 1024 <= a -> hmem x'.1 !! a = hmem x.1 !! a.
Proof.
  intros Hx Hlow Hsub Hbi Hfi Hb Hv Hend Hn Hur Hm Htop.
  assert (Hpu : 0 < page_up base) by (unfold page_up; Z.to_euclidean_division_equations; lia).
  assert (Hbr : 0 <= base < 2 ^ 52) by (unfold page_up in *; Z.to_euclidean_division_equations; lia).
  destruct (memory_messages upper base lens) as (F1 & F2 & F3 & F4 & L1 & L2 & L3 & L4).
  unfold bare_early_mem_init. unfold load32. rewrite (load_mono 4 _ _ _ _ Hsub (bi_upper _ _ _ _ _ Hbi)). mret.
  destruct (tell_next x t _ _ _ Hx F1 L1) as (x1 & -> & S1 & T1). mret.
  assert (E1 : first_mem_init x1.1 = false) by (rewrite (proj2 T1); exact Hfi). rewrite E1.
  rewrite (get_memory_map_run _ mbi upper addr lens) by (hfields; exact (bootinfo_mono _ _ _ _ _ _ (told_sub _ _ _ Hlow Hsub T1) Hbi)).
  mret. hfields. rewrite page_up_mask by done. fold (heap_last lens).
  match goal with |- context [tell (?h, _) _ [page_up base]] => set (h2 := h) end.
  destruct (tell_next (h2, x1.2) _ _ _ _ ltac:(by destruct S1) F2 L2) as (x3 & -> & S3 & T3). mret.
  destruct (tell_next x3 _ _ _ _ S3 F3 L3) as (x4 & -> & S4 & T4). mret.
  destruct (tell_next x4 _ _ _ _ S4 F4 L4) as (x5 & -> & S5 & T5). mret.
  assert (T15 : only_vga (hmem x.1) (hmem x5.1)).
  { eapply only_vga_trans; [apply T1|]. eapply only_vga_trans; [apply T3|]. eapply only_vga_trans; [apply T4|apply T5]. }
  pose proof (transitivity T3 (transitivity T4 T5)) as [_ E5].
  assert (Eb : heap_base x5.1 = page_up base) by (by rewrite E5).
  assert (Ee : heap_end x5.1 = heap_last lens) by (by rewrite E5).
  assert (Ef : first_mem_init x5.1 = true) by (by rewrite E5).
  hfields. rewrite Eb, (u64_small (upper * 1024)) by lia. rewrite Hend, (u64_small (_ - page_up base)) by lia.
  replace (page_up base + 4096 * Z.of_nat n - page_up base) with (4096 * Z.of_nat n) by lia.
  destruct (get_free_pages_links (set_free x5.1 0) (page_up base) n []) as (m' & -> & Hfp & Hd & Ha);
    [hfields; repeat split; constructor|hfields; lia|done|unfold page_up; rewrite Z.mul_comm; by rewrite Z.mod_mul|done|lia| |constructor|].
  { hfields. intros a Ha. rewrite T15 by lia. by apply Hm. }
  mret. eexists. split; [reflexivity|]. unfold memory_text. rewrite !written_app. rewrite app_nil_r in Hfp. unfold agree_outside in Ha.
  revert Ha. hfields. intros Ha. split; [eapply (on_screen_frame x5); [exact S5|done|]; cbn [fst]; hfields; intros a Hr; apply Ha; lia|].
  cbn [fst]. hfields. split; [|split; [exact Hfp|split; [exact Eb|split; [exact Ee|split; [exact Ef|]]]]].
  - apply map_subseteq_spec. intros a v Hl. assert (His : is_Some (low !! a)) by (by rewrite Hl).
    rewrite Ha by (left; by apply Htop). rewrite T15 by (by apply Hlow). by eapply lookup_weaken.
  - intros a H1 H2. rewrite Ha by lia. apply T15. lia.
Qed.

(** ** [mpsearch] *)

(** Where the structure [mp] was found, and what the search prints of it. *)
Inductive mp_message (m : mem) (mp : Z) : list Z -> Prop :=
  | msg_ebda h l :
      load8 m (bda + 15) = Ok h -> load8 m (bda + 14) = Ok l -> Z.shiftl (Z.lor (Z.shiftl h 8) l) 4 <> 0 ->
      mpsearch1 m (Z.shiftl (Z.lor (Z.shiftl h 8) l) 4) 1024 = Ok mp -> mp <> 0 ->
      mp_message m mp (line "MP in the first KB of the EBDA")
  | msg_base h l :
      load8 m (bda + 20) = Ok h -> load8 m (bda + 19) = Ok l ->
      mpsearch1 m (u64 (Z.lor (Z.shiftl h 8) l * 1024 - 1024)) 1024 = Ok mp -> mp <> 0 ->
      mp_message m mp (line "MP in the last KB of system base memory")
  | msg_rom :
      mpsearch1 m 983040 65536 = Ok mp -> mp_message m mp (line "MP in the BIOS ROM between 0xE0000 and 0xFFFFF").

Lemma mp_message_plain m mp msg : mp_message m mp msg -> format no_strs msg [] = Ok msg /\ (length msg <= 1999)%nat.
Proof. intros []; (split; [vm_compute; reflexivity|vm_compute; lia]). Qed.

Lemma bare_mpsearch_run low x t mp :
  on_screen x t -> off_screen low -> low ⊆ hmem x.1 -> mpsearch low = Ok mp ->
  exists x' msg, bare_mpsearch x = Ok (x', mp) /\ mp_message low mp msg /\ on_screen x' (written t msg) /\ told x x'.
Proof.
  intros Hx Hlow Hsub H. unfold mpsearch in H. apply res_bind_ok in H as (h & Hh & H). apply res_bind_ok in H as (l & Hl & H).
  assert (Hr : forall y, told x y -> forall a n v, mpsearch1 low a n = Ok v -> mpsearch1 (hmem y.1) a n = Ok v).
  { intros y Hy a n v. apply (reads_mpsearch1 a n). exact (told_sub low x y Hlow Hsub Hy). }
  pose proof (fun a v => reads_load8 a low (hmem x.1) v Hsub) as H8.
  assert (Htell : forall msg, mp_message low mp msg -> exists x', tell x msg [] = Ok x' /\ on_screen x' (written t msg) /\ told x x').
  { intros msg Hmsg. destruct (mp_message_plain _ _ _ Hmsg) as [F L]. by apply tell_next. }
  assert (Hrom : mpsearch1 low 983040 65536 = Ok mp -> exists x' msg,
    (x ← tell x (line "MP in the BIOS ROM between 0xE0000 and 0xFFFFF") []; mp ← mpsearch1 (hmem x.1) 983040 65536; Ok (x, mp)) = Ok (x', mp) /\
    mp_message low mp msg /\ on_screen x' (written t msg) /\ told x x').
  { intros Hm. pose proof (msg_rom low mp Hm) as Hmsg. destruct (Htell _ Hmsg) as (x' & E & S & T). rewrite E, bind_ok.
    rewrite (Hr x' T _ _ _ Hm), bind_ok. by eexists _, _. }
  apply res_bind_ok in H as (mp1 & Hs & H). unfold bare_mpsearch. rewrite (H8 _ _ Hh), bind_ok, (H8 _ _ Hl), bind_ok.
  destruct (Z.eqb_spec (Z.shiftl (Z.lor (Z.shiftl h 8) l) 4) 0) as [Hz|Hz]; cbn [negb] in Hs |- *.
  - apply res_bind_ok in Hs as (h' & Hh' & Hs). apply res_bind_ok in Hs as (l' & Hl' & Hs).
    rewrite (H8 _ _ Hh'), bind_ok, (H8 _ _ Hl'), bind_ok, (Hr x (reflexivity x) _ _ _ Hs), bind_ok.
    destruct (Z.eqb_spec mp1 0) as [Hp|Hp]; cbn [negb] in H |- *; [by apply Hrom|]. injection H as <-.
    pose proof (msg_base low mp1 h' l' Hh' Hl' Hs Hp) as Hmsg. destruct (Htell _ Hmsg) as (x' & E & S & T). rewrite E, bind_ok.
    by eexists _, _.
  - rewrite (Hr x (reflexivity x) _ _ _ Hs), bind_ok.
    destruct (Z.eqb_spec mp1 0) as [Hp|Hp]; cbn [negb] in H |- *; [by apply Hrom|]. injection H as <-.
    pose proof (msg_ebda low mp1 h l Hh Hl Hz Hs Hp) as Hmsg. destruct (Htell _ Hmsg) as (x' & E & S & T). rewrite E, bind_ok.
    by eexists _, _.
Qed.

Lemma bare_mpinit_run low x t mp conf la es fuel :
  on_screen x t -> off_screen low -> low ⊆ hmem x.1 ->
  found_at low mp conf (44 + Z.of_nat (length (table_bytes es))) la -> Forall entry_ok es ->
  bytes_at low (conf + 44) (table_bytes es) -> (length es < fuel)%nat ->
  exists x' msg, bare_mpinit fuel x no_cpus = Ok (x', table_of la es) /\ mp_message low mp msg /\
    on_screen x' (written t msg) /\ told x x'.
Proof.
  intros Hx Hlow Hsub Hf Hok Hb Hfuel. destruct (bare_mpsearch_run low x t mp Hx Hlow Hsub (fnd_search _ _ _ _ _ Hf)) as (x1 & msg & E & Hm & S & T).
  exists x1, msg. split; [|done]. unfold bare_mpinit. rewrite E. mret. pose proof (told_sub low x x1 Hlow Hsub T) as Hsub1.
  pose proof (mpconfig_found _ _ _ _ _ Hf) as Hc. unfold mpconfig in Hc. rewrite (fnd_search _ _ _ _ _ Hf), bind_ok in Hc.
  rewrite (reads_mpconf_at mp _ _ _ Hsub1 Hc). mret. rewrite (proj2 (Z.eqb_neq _ _) (fnd_conf _ _ _ _ _ Hf)). mret.
  destruct Hf as [_ _ _ _ [_ _ Hl Hla _] _]. unfold load16, load32 in *.
  rewrite (load_mono 4 _ _ _ _ Hsub1 Hla : load_le 4 (hmem x1.1) (conf + mpconf_lapicaddr) = _). mret.
  rewrite (load_mono 2 _ _ _ _ Hsub1 Hl : load_le 2 (hmem x1.1) (conf + mpconf_length) = _). mret.
  replace (conf + (44 + Z.of_nat (length (table_bytes es)))) with (conf + 44 + Z.of_nat (length (table_bytes es))) by lia.
  unfold sizeof_mpconf. rewrite mp_loop_table by first [done|by apply (bytes_at_weaken low)]. mret. done.
Qed.

(** ** The boot *)

(** What the boot loader and the BIOS provide, in memory [low] that is neither
    on the screen nor in the pages: the boot information and the table of the
    processors. *)
Record provided (low : mem) (m : mem) (heap_start mbi upper : Z) (lens : list Z) (n : nat) (mp la : Z) (es : list mpentry) : Prop := {
  pv_low : low ⊆ m /\ off_screen low /\ forall a, is_Some (low !! a) -> a < page_up heap_start;
  pv_info : exists addr, bootinfo_at low mbi upper addr lens;
  pv_table : exists conf, found_at low mp conf (44 + Z.of_nat (length (table_bytes es))) la /\ bytes_at low (conf + 44) (table_bytes es);
  pv_entries : Forall entry_ok es;
  pv_start : 0 < heap_start /\ vga + 4000 <= page_up heap_start;
  pv_pages : upper * 1024 = page_up heap_start + 4096 * Z.of_nat n /\ (0 < n)%nat /\ 0 <= upper < 2 ^ 32 /\
    mapped m (page_up heap_start) (4096 * Z.of_nat n);
}.

Lemma magic_message magic mbi : (length (magic_text magic mbi) <= 1999)%nat.
Proof.
  unfold magic_text, ptr_text. rewrite !length_app. pose proof (length_hex mbi) as H1.
  assert (H2 : (length (num_text (u32 magic) 16) <= 20)%nat).
  { rewrite <- (u64_small (u32 magic)) by mach. apply length_hex. }
  change (length (bytes_of_string "magic = ")) with 8%nat. change (length (bytes_of_string ", mb_info = ")) with 12%nat.
  destruct (u64 mbi =? 0); cbn [length]; lia.
Qed.

(** Pages with the same contents stay free. *)
Lemma free_pages_kept m m' f l :
  (forall p, p ∈ l -> forall a, p <= a < p + 4096 -> m' !! a = m !! a) -> free_pages m f l -> free_pages m' f l.
Proof.
  intros Hk (Hl & Hnd & Hok). split; [|split; [done|]].
  - eapply linked_frame; [|exact Hl]. intros q Hq. apply load64_frame. intros x Hx. apply (Hk q Hq). lia.
  - rewrite Forall_forall in *. intros q Hq. destruct (Hok q Hq) as (H1 & H2 & H3). split; [done|]. split; [done|].
    intros x Hx. rewrite (Hk q Hq) by done. by apply H3.
Qed.

(** What the boot prints in this build. *)
Definition bare_boot_text (magic mbi upper base : Z) (lens msg : list Z) : list Z :=
  magic_text magic mbi ++ memory_text upper base lens ++ apic_line ++ [LF] ++ msg.

Lemma bare_detect_run low h c t heap_start mbi magic upper lens n mp la es fuel :
  console_ok (hmem h) c t -> first_mem_init h = false -> provided low (hmem h) heap_start mbi upper lens n mp la es ->
  (length es < fuel)%nat ->
  exists x msg, bare_detect heap_start fuel (h, c) mbi magic = Ok (x, table_of la es) /\ mp_message low mp msg /\
    on_screen x (written (screen_of c t) (bare_boot_text magic mbi upper heap_start lens msg)) /\
    free_pages (hmem x.1) (freelist x.1) (pages_from (page_up heap_start) n) /\
    heap_base x.1 = page_up heap_start /\ heap_end x.1 = heap_last lens /\
    forall a, ~ (vga <= a < vga + 4000) -> a < page_up heap_start \/ upper * 1024 <= a -> hmem x.1 !! a = hmem h !! a.
Proof.
  intros Hc Hfi [(Hsub & Hlow & Htop) (addr & Hbi) (conf & Hf & Hb) Hes (Hs & Hv) (Hend & Hn & Hu & Hm)] Hfuel. unfold bare_detect.
  destruct (tell_first (h, c) t _ _ _ Hc (format_magic magic mbi) (magic_message magic mbi)) as (x1 & -> & S1 & T1). mret.
  destruct (bare_memory low x1 _ heap_start mbi upper addr lens n S1 Hlow (told_sub low (h, c) x1 Hlow Hsub T1) Hbi)
    as (x2 & -> & S2 & Hsub2 & Hfp & Hhb & Hhe & Hf1 & Hfr); try done.
  { rewrite (proj2 T1). exact Hfi. }
  { by apply (told_mapped (h, c)). }
  mret. unfold bare_enable_apic.
  destruct (tell_next (on_ports x2 mask_pic_interrupts) _ (bytes_of_string "enabling apic" ++ [CR; LF]) [] (apic_line ++ [LF])
    ltac:(destruct S2; by split)) as (x3 & -> & S3 & T3); [vm_compute; reflexivity|vm_compute; lia|]. mret.
  destruct (bare_mpinit_run low (on_ports x3 (fun s => xapic_write s 240 511)) (written _ (apic_line ++ [LF])) mp conf la es fuel
    ltac:(destruct S3; by split) Hlow) as (x4 & msg & -> & Hmsg & S4 & T4);
    [exact (told_sub low (on_ports x2 mask_pic_interrupts) x3 Hlow Hsub2 T3)|done|done|done|done|].
  exists x4, msg. split; [done|]. split; [done|].
  split; [unfold bare_boot_text; rewrite !written_app in *; exact S4|].
  destruct T3 as [O3 E3], T4 as [O4 E4].
  assert (Ha : forall a, ~ (vga <= a < vga + 4000) -> hmem x4.1 !! a = hmem x2.1 !! a).
  { intros a Ha. rewrite O4 by lia. exact (O3 a ltac:(lia)). }
  assert (Efree : freelist x4.1 = freelist x2.1) by (rewrite E4; cbn [on_ports fst]; hfields; rewrite E3; reflexivity).
  assert (Ebase : heap_base x4.1 = heap_base x2.1) by (rewrite E4; cbn [on_ports fst]; hfields; rewrite E3; reflexivity).
  assert (Eend : heap_end x4.1 = heap_end x2.1) by (rewrite E4; cbn [on_ports fst]; hfields; rewrite E3; reflexivity).
  rewrite Efree, Ebase, Eend. split; [|split; [exact Hhb|split; [exact Hhe|]]].
  - apply (free_pages_kept (hmem x2.1)); [|exact Hfp]. intros p Hp a Hpa. apply Ha.
    apply list_elem_of_fmap in Hp as (i & -> & _). lia.
  - intros a H1 H2. rewrite Ha, Hfr by done. apply (proj1 T1 a). lia.
Qed.

(** ** Claims *)

(** C27: [printf] in the build with __BARE_METAL shows on the text console the
    text that its format denotes, cut to the 1999 characters that fit its
    buffer, as a terminal shows it, on a screen that the first message clears;
    it sends nothing on the serial line, returns the length of the whole text
    and changes memory only inside its frame and on the screen. This is what
    [tell] does, with which the boot prints. *)
Theorem printf_shows use_serial m s buf strs fmt l va txt t :
  mapped m buf BUFSZ ->
  (forall a t, strs a = Some t -> cstr m a t /\ disjoint_ranges buf BUFSZ a (Z.of_nat (length t) + 1)) ->
  cstr m fmt l -> disjoint_ranges buf BUFSZ fmt (Z.of_nat (length l) + 1) ->
  format strs l va = Ok txt -> Forall (fun c => 0 < c < 256) txt -> Z.of_nat (length txt) <= INT_MAX ->
  console_ok m (so_console s) t -> disjoint_ranges vga 4000 buf BUFSZ ->
  exists m1 m' c' i', agree_outside buf (buf + BUFSZ) m m1 /\
    puts_text m1 (so_console s) (ser_io (so_serial s)) (take 1999 txt) = Ok (m', c', i') /\
    printf use_serial true m s buf fmt va = Ok (m', mkStdio (with_io (so_serial s) i') c', Z.of_nat (length txt)) /\
    shows m' c' (written (screen_of (so_console s) t) (take 1999 txt)) /\ con_lock c' = 0 /\
    sent (io_log i') = sent (io_log (ser_io (so_serial s))) /\ only_vga m1 m'.
Proof.
  intros Hm Hs Hf Hd Ht Hc Hl Hcon Hv. unfold printf.
  rewrite (vsnprintf_emit m buf BUFSZ strs ltac:(by vm_compute) Hm Hs fmt l va txt) by done. mret.
  change (Z.to_nat (BUFSZ - 1)) with 1999%nat. set (m1 := write_bytes m buf (take 1999 txt ++ [0])).
  assert (Hout : agree_outside buf (buf + BUFSZ) m m1).
  { intros x Hx. apply write_bytes_out. unfold BUFSZ in Hx. rewrite length_app, length_take. cbn [length]. lia. }
  assert (Hvga : forall x, vga <= x < vga + 4000 -> m1 !! x = m !! x) by (intros x Hx; apply Hout; unfold disjoint_ranges in Hv; lia).
  assert (Hok : console_ok m1 (so_console s) t) by (by apply (console_frame m)).
  assert (Hb : cstr m1 buf (take 1999 txt)).
  { split; [apply write_bytes_at|by apply Forall_take|rewrite length_take; lia]. }
  destruct (puts_text_shows m1 (so_console s) (ser_io (so_serial s)) t (take 1999 txt) Hok)
    as (m' & c' & i' & E & H1 & H2 & H3 & H4 & H5 & _).
  exists m1, m', c', i'. split; [exact Hout|]. split; [exact E|].
  rewrite (console_puts_text m1 _ _ t buf (take 1999 txt) Hok Hb), E; [by mret|].
  unfold disjoint_ranges, BUFSZ in *. rewrite length_take. lia.
Qed.

(** C18: the build with __BARE_METAL boots as the default one does: on a
    machine whose boot loader and BIOS describe memory and processors, away
    from the screen, [main] in both builds gets to [startothers] with the
    pages above the kernel free, the same bounds of the heap and the same
    table of processors; in this build the screen then shows the magic number,
    the bounds and the amount of memory, and the area in which the floating
    pointer structure was found. *)
Theorem bare_boot low h c t m heap_start mbi magic upper lens n mp la es fuel :
  console_ok (hmem h) c t -> console_cleared c = 0 -> first_mem_init h = false -> p_heap m = h ->
  provided low (hmem h) heap_start mbi upper lens n mp la es -> (length es < fuel)%nat ->
  let good h' := free_pages (hmem h') (freelist h') (pages_from (page_up heap_start) n) /\
    heap_base h' = page_up heap_start /\ heap_end h' = heap_last lens in
  (exists x msg, bare_detect heap_start fuel (h, c) mbi magic = Ok (x, table_of la es) /\ mp_message low mp msg /\
     on_screen x (written blank_term (bare_boot_text magic mbi upper heap_start lens msg)) /\ good x.1) /\
  exists h' s, detect heap_start fuel m mbi = Ok (h', s, table_of la es) /\ good h'.
Proof.
  intros Hc Hz Hfi Hh Hp Hfuel good. split.
  - destruct (bare_detect_run low h c t heap_start mbi magic upper lens n mp la es fuel Hc Hfi Hp Hfuel)
      as (x & msg & H1 & H2 & H3 & H4 & H5 & H6 & _). unfold screen_of in H3. rewrite Hz in H3. by exists x, msg.
  - destruct Hp as [(Hsub & Hlow & Htop) (addr & Hbi) (conf & Hf & Hb) Hes (Hs & Hv) (Hend & Hn & Hu & Hm)].
    destruct (early_mem_init_links h heap_start mbi upper addr lens n Hfi (bootinfo_mono _ _ _ _ _ _ Hsub Hbi) Hs Hend Hn Hu Hm)
      as (h' & E & G1 & G2 & G3 & _ & _ & Ha & _).
    unfold detect. rewrite Hh, E. mret. cbv zeta. unfold enable_apic. rewrite say_plain; [|by vm_compute|vm_compute; lia]. mret.
    assert (Hsub' : low ⊆ hmem h').
    { apply map_subseteq_spec. intros x v Hx. rewrite Ha; [by eapply lookup_weaken|]. left. apply Htop. by rewrite Hx. }
    rewrite (reads_mpinit _ _ _ _ _ _ Hsub' (mpinit_run low mp conf _ la es _ fuel Hf Hes Hb eq_refl Hfuel)). mret.
    eexists h', _. split; [reflexivity|]. by split_and!.
Qed.

(** ** Witnesses *)

(** The structures of Layout; the screen, and four pages from 1 MiB on. *)
Definition demo_memory : mem := demo_firmware ∪ (demo_vga ∪ write_bytes ∅ 1048576 (replicate (Z.to_nat 16384) 0)).

Lemma demo_vga_screen : console_ok demo_vga demo_console blank_term.
Proof. split; [reflexivity|]. split; [exact demo_screen|]. intros H. by destruct H. Qed.

Lemma demo_memory_screen : console_ok demo_memory demo_console blank_term.
Proof.
  apply (console_frame demo_vga); [|exact demo_vga_screen]. intros x Hx. unfold demo_memory.
  transitivity ((demo_vga ∪ write_bytes ∅ 1048576 (replicate (Z.to_nat 16384) 0)) !! x).
  - apply lookup_union_r, eq_None_not_Some. intros H%demo_firmware_where. unfold vga in Hx. lia.
  - apply lookup_union_l. rewrite write_bytes_out; [apply lookup_empty|]. unfold vga in Hx. lia.
Qed.

Lemma demo_provided : provided demo_firmware demo_memory 1048000 2048 1040 [1064960] 4 651264 4276092928 demo_entries.
Proof.
  split.
  - split; [apply map_union_subseteq_l|]. split; intros x Hx; apply demo_firmware_where in Hx; [left; unfold vga; lia|].
    change (page_up 1048000) with 1048576. lia.
  - exists 2304. split; [vm_compute; reflexivity..| |simpl; lia]. intros [|i] len Hi; [|discriminate Hi]. injection Hi as <-.
    vm_compute. reflexivity.
  - exists 1280. split; [|by_eval].
    apply (demo_found _ (table_bytes demo_entries) 100 _ eq_refl eq_refl); vm_compute; reflexivity.
  - repeat constructor; (by left || by right || done || lia).
  - split; [lia|]. vm_compute. discriminate.
  - split; [reflexivity|]. split; [lia|]. split; [lia|]. change (page_up 1048000) with 1048576.
    do 2 apply union_mapped. apply replicate_mapped. lia.
Qed.

Definition bare_machine : machine :=
  mkMachine (demo_heap demo_memory) (mkIdt false (replicate 256 Hnull) (0, 0)) (OnCpu.mkSmp 0 0 [] ∅ ∅ []) []
    0 (replicate 10 0) 0 0 0 0 0 0 0 0 [].

Lemma bare_boot_witness :
  exists x msg h' s, bare_detect 1048000 5 (demo_heap demo_memory, demo_console) 2048 732803074 = Ok (x, table_of 4276092928 demo_entries) /\
    mp_message demo_firmware 651264 msg /\ free_pages (hmem x.1) (freelist x.1) [1048576; 1052672; 1056768; 1060864] /\
    detect 1048000 5 bare_machine 2048 = Ok (h', s, table_of 4276092928 demo_entries).
Proof.
  destruct (bare_boot demo_firmware (demo_heap demo_memory) demo_console blank_term bare_machine
    1048000 2048 732803074 1040 [1064960] 4 651264 4276092928 demo_entries 5 demo_memory_screen eq_refl eq_refl eq_refl
    demo_provided ltac:(simpl; lia)) as [(x & msg & H1 & H2 & _ & (H3 & _)) (h' & s & H4 & _)].
  exists x, msg, h', s. split; [exact H1|]. split; [exact H2|]. split; [exact H3|exact H4].
Defined.

(** The format of Stdio, with a screen. *)
Definition demo_both : mem := demo_printf ∪ demo_vga.

Lemma demo_both_screen : console_ok demo_both demo_console blank_term.
Proof.
  apply (console_frame demo_vga); [|exact demo_vga_screen]. intros x Hx. unfold demo_both. apply lookup_union_r.
  unfold demo_printf. apply lookup_union_None. unfold vga in Hx.
  change (replicate 2000 0) with (replicate (Z.to_nat 2000) 0).
  split; rewrite !write_bytes_out; first [apply lookup_empty|rewrite ?length_app, ?length_replicate; simpl length; lia].
Qed.

Lemma printf_shows_witness :
  exists m' c' i', printf false true demo_both demo_stdio 4096 100 [42; 200; 255] =
    Ok (m', mkStdio (with_io (so_serial demo_stdio) i') c', 17) /\
    shows m' c' (written blank_term (bytes_of_string "[   42|cpu |0xff]")).
Proof.
  destruct (printf_shows false demo_both demo_stdio 4096 demo_strs 100 demo_fmt [42; 200; 255]
    (bytes_of_string "[   42|cpu |0xff]") blank_term) as (m1 & m' & c' & i' & _ & _ & H & Hs & _).
  - apply mapped_b_spec. vm_compute. reflexivity.
  - unfold demo_strs. intros a t. destruct (Z.eqb_spec a 200) as [->|]; [|discriminate].
    intros [= <-]. split; [by_eval|right; vm_compute; congruence].
  - by_eval.
  - right. vm_compute. congruence.
  - reflexivity.
  - by_eval.
  - vm_compute. congruence.
  - exact demo_both_screen.
  - right. vm_compute. congruence.
  - exists m', c', i'. split; [exact H|exact Hs].
Defined.
