(* ===== verification/Kernel.v ===== *)
(** * The kernel from the boot loader's jump

    The entry code (Cstart) and [main] (Main) on one memory: what the boot
    loader, the BIOS and the image provide is enough for a run from the first
    instruction to the shutdown. *)

From stdpp Require Import base gmap list numbers strings.
From Stdlib Require Import ZArith Lia.
From S2P Require Import Prelude Mem CString Printf Serial Stdio Heap PageTable Mp Desc Apic Smp Ipi Boot Segment Cpu Cstart Start.
From S2P Require Import Harness Bench Host Protocol Suite Main.

#[local] Open Scope Z_scope.

Definition set_memory (m : machine) (mm : mem) : machine := with_heap m (set_mem (p_heap m) mm).

(** ** More memory does not hurt *)

Lemma loaded_mono im heap_start sipi_entry code n mbi upper m mm :
  hmem (p_heap m) ⊆ mm -> loaded im heap_start sipi_entry code n mbi upper m ->
  loaded im heap_start sipi_entry code n mbi upper (set_memory m mm).
Proof.
  intros Hs [(addr & lens & Hi) H2 H3 H4 [[H5 [L1 L2 L3 L4]] H6] H7 H8 H9]. split; try done.
  - exists addr, lens. by eapply bootinfo_mono.
  - by eapply mapped_mono.
  - split; [|done]. split; [done|]. split; [by eapply mapped_mono|by eapply bytes_at_weaken|by eapply mapped_mono|done].
Qed.

Lemma described_mono m mm top la es me self :
  m ⊆ mm -> described m top la es me self -> described mm top la es me self.
Proof.
  intros Hs [(low & mp & conf & H1 & H2) H3 H4 H5 H6 H7]. split; try done.
  exists low, mp, conf. split; [by etransitivity|done].
Qed.

Lemma base_mono_mem im k m mm : hmem (p_heap m) ⊆ mm -> base im k m -> base im k (set_memory m mm).
Proof.
  intros Hs [H1 H2 H3 H4 H5 H6 H7 H8]. split; try done.
  - destruct H2 as [C1 C2 C3]. split; [by eapply bytes_at_weaken|done|].
    cbn. done.
  - by eapply mapped_mono.
  - intros j. by eapply mapped_mono.
Qed.

(** ** The image stays *)

(** Above what the start of the processors writes, below the pages. *)
Definition image_low (sy : symbols) (top : Z) : Prop := Forall (fun r => 1131 <= r.1 /\ r.1 + r.2 <= top) (image_ranges sy).

Lemma image_detected sy top last m m' :
  image_low sy top -> agree_outside top last m m' -> image_ok sy m -> image_ok sy m'.
Proof.
  intros Hl Ha. apply image_frame. eapply Forall_impl; [exact Hl|]. intros r [_ Hr] x Hx. apply Ha. lia.
Qed.

Lemma image_kept sy top code m m' : image_low sy top -> kept code m m' -> image_ok sy m -> image_ok sy m'.
Proof.
  intros Hl [_ Hk]. apply image_frame. eapply Forall_impl; [exact Hl|]. intros r [Hr _] x Hx. apply Hk. lia.
Qed.

(** The entry code does not write the image. *)
Lemma image_entered sy m m' :
  start_ok sy m -> (forall x, ~ scratch sy x -> m' !! x = m !! x) -> image_ok sy m -> image_ok sy m'.
Proof.
  intros [_ _ (_ & _ & A1) (_ & _ & A2) (_ & A3 & _) _ _ _] Hk. apply image_frame. unfold apart in *.
  rewrite Forall_forall in A1, A2, A3. apply Forall_forall. intros r Hr x Hx. apply Hk. unfold scratch.
  specialize (A1 r Hr). specialize (A2 r Hr). specialize (A3 r Hr). unfold disjoint_ranges in *. lia.
Qed.

(** What the entry code leaves of a memory apart from its own. *)
Lemma entry_keeps sy (m0 m m' : mem) :
  m0 ⊆ m -> (forall x, scratch sy x -> m0 !! x = None) -> (forall x, ~ scratch sy x -> m' !! x = m !! x) -> m0 ⊆ m'.
Proof.
  intros Hs H0 Hk. apply map_subseteq_spec. intros x v Hx. rewrite Hk; [by eapply lookup_weaken|].
  intros Hx'. rewrite H0 in Hx by done. discriminate Hx.
Qed.

(** A start one instruction at a time ends as a call of [startothers] does. *)
Lemma sys_run_ended im sy cr4_bits reset sipi_entry code tab me ecx ids self h s ys y :
  startable sy cr4_bits reset sipi_entry code (hmem h) -> table_ok tab me ids self -> Forall bchoice_ok ys ->
  sys_run sy cr4_bits reset sipi_entry code tab me (im_boot_idt im) ecx (sys_start tab me (hmem h) s) ys = Ok y ->
  (exists zs y', Forall bchoice_ok zs /\
     sys_run sy cr4_bits reset sipi_entry code tab me (im_boot_idt im) ecx y zs = Ok y' /\ b_pc (y_boot y') = BEnd) /\
  (b_pc (y_boot y) = BEnd -> exists xs st, Forall bchoice_ok xs /\
     call_startothers im sipi_entry (Z.of_nat (length code)) me ecx xs h s tab = Ok st /\
     y_boot y = see st (b_stacktop (y_boot y)) (b_mem (y_boot y))).
Proof.
  intros Hsb Htab Hys Hrun. destruct (sys_run_sim _ _ _ _ _ _ _ _ _ _ _ _ _ _ _ Hsb Htab Hys Hrun) as (xs & st & Hxs & Hr & Hi & Hs).
  split.
  - destruct Hsb as [H1 H2 H3 H4 H5 H6].
    destruct (sim_ends sy cr4_bits reset sipi_entry code tab me _ ecx ids self _ s H1 Htab H3 H4 H2 H5 H6 y st Hi Hs)
      as (y' & (zs & Hzs & Hz) & Hend). by exists zs, y'.
  - intros Hend. pose proof (sim_view _ _ _ _ Hs) as V. exists xs, st. split; [done|]. split; [|exact V].
    unfold call_startothers. rewrite Hr, bind_ok. rewrite V in Hend. cbn [see b_pc] in Hend. by rewrite Hend.
Qed.

(** ** Claims *)

(** C1: the whole program: on a machine whose boot loader describes enough
    memory and whose BIOS describes the processors, with the image in place, a
    register that sgdt and sidt can store through without harm ([layout]) and
    processors that let the calls of the IPI benchmark return ([processors]),
    the code from [entry] reaches [main] in 64-bit mode on the identity
    mapping; with the argument that it passes [main] reaches [startothers];
    the processors can run so that it ends; and however they run until it
    ends, [main] runs the fourteen benchmarks and shuts the machine down. A
    start in which the other processors execute their entry code one
    instruction at a time, in any order, is one of these: it does not fault,
    can be brought to its end, and ends with the table and the messages of a
    run from which [main] goes on. The kernel prints the lines of the boot, one
    greeting for each other processor in the order of the table, and the
    transcript of the table, and the host program makes of it fourteen lines
    with the categories, names and counts of the benchmarks and the times
    between their marks. *)
Theorem kernel_report sy cr4_bits reset c0 mem0 fuel
    im heap_start sipi_entry code me ecx mp_fuel wait_fuel n upper m la es self apic_ready limit dest pin ts c mid w rest :
  let tab := table_of la es in
  symbols_ok sy -> image_ok sy mem0 -> start_ok sy mem0 -> reset_ok cr4_bits c0 -> seg_l c0 = false -> seg_d c0 = true ->
  (25 <= fuel)%nat -> image_low sy (page_up heap_start) ->
  assembled sy sipi_entry code -> stacks_ok sy sipi_entry code mem0 ->
  (forall x, stacks sy x -> ~ scratch sy x /\ x < page_up heap_start) ->
  (forall a, reset_ok cr4_bits (reset a) /\ seg_l (reset a) = false /\ seg_d (reset a) = false /\ length (sregs (reset a)) = 5%nat) ->
  hmem (p_heap m) ⊆ mem0 -> (forall x, scratch sy x -> hmem (p_heap m) !! x = None) ->
  loaded im heap_start sipi_entry code n (u32 (rbx c0)) upper m -> suite_pages <= Z.of_nat n ->
  described (hmem (p_heap m)) (page_up heap_start) la es me self -> (length es < mp_fuel)%nat ->
  im_tab im = tab -> im_ops im = ops_of ecx -> layout im (page_up heap_start) ->
  processors im apic_ready limit dest -> base im (suite_inputs + 2) m -> text m = [] ->
  readings m = c :: mid ++ w :: rest -> Forall (fun v => u32 c <= u32 v) mid -> u32 w < u32 c ->
  (length mid < wait_fuel)%nat -> pin_ok pin -> length ts = 14%nat ->
  exists c1 mem1, run_from sy cr4_bits fuel c0 mem0 Entry = Ok (c1, mem1, Some Cstart.Main) /\ c_ready sy c1 mem1 MainRet /\
    exists h s, detect heap_start mp_fuel (set_memory m mem1) (rdi c1) = Ok (h, s, tab) /\
    (forall ys y, Forall bchoice_ok ys ->
       sys_run sy cr4_bits reset sipi_entry code tab me (im_boot_idt im) ecx (sys_start tab me (hmem h) s) ys = Ok y ->
       (exists zs y', Forall bchoice_ok zs /\
          sys_run sy cr4_bits reset sipi_entry code tab me (im_boot_idt im) ecx y zs = Ok y' /\ b_pc (y_boot y') = BEnd) /\
       (b_pc (y_boot y) = BEnd -> exists xs st, Forall bchoice_ok xs /\
          call_startothers im sipi_entry (Z.of_nat (length code)) me ecx xs h s tab = Ok st /\
          y_boot y = see st (b_stacktop (y_boot y)) (b_mem (y_boot y)))) /\
    (exists xs st, Forall bchoice_ok xs /\
       call_startothers im sipi_entry (Z.of_nat (length code)) me ecx xs h s tab = Ok st) /\
    forall xs st, Forall bchoice_ok xs ->
      call_startothers im sipi_entry (Z.of_nat (length code)) me ecx xs h s tab = Ok st ->
      exists m' l v,
        main im heap_start sipi_entry (Z.of_nat (length code)) me ecx mp_fuel wait_fuel xs (set_memory m mem1) (rdi c1) = Ok m' /\
        text m' = lines (boot_lines upper self (length (proc_ids es))) ++ transcript (spec_row <$> suite im) /\
        io_log (ports m') = l ++ shutdown_log v /\
        host_main (mkHio (text m') (concat (tsc_of <$> ts)) []) pin =
          Ok (mkHio [] [] (host_output pin (zip (spec_brow <$> suite im) ts))).
Proof.
  intros tab Hsy Hi Hs Hr Hsl Hsd Hfu Hlow Has Hsk Hst Hre Hsub Hscr Hlo Hn Hde Hmf Htab Hops Hlay Hproc Hbase Ht Hrd Hmid Hw Hwf Hp Hts.
  replace fuel with (25 + (fuel - 25))%nat by lia.
  destruct (entry_run sy cr4_bits Hsy (fuel - 25) c0 mem0 Hi Hs Hr Hsl Hsd) as (c1 & mem1 & E1 & R1 & Edi & _ & _ & Hk).
  exists c1, mem1. split; [exact E1|]. split; [exact R1|]. rewrite Edi.
  pose proof (entry_keeps sy _ _ _ Hsub Hscr Hk) as Hsub1.
  destruct (main_report im heap_start sipi_entry code me ecx mp_fuel wait_fuel n (u32 (rbx c0)) upper (set_memory m mem1)
    la es self apic_ready limit dest pin ts c mid w rest) as (h & s & Hdet & Hends & Hall);
    [by apply loaded_mono|done|by eapply described_mono|done|done|done|done|done|by apply base_mono_mem|done|done|done|done|done|done|done|].
  exists h, s. split; [exact Hdet|]. split; [|done].
  pose proof (loaded_mono _ _ _ _ _ _ _ _ _ Hsub1 Hlo) as Hlo1. pose proof (described_mono _ _ _ _ _ _ _ Hsub1 Hde) as Hde1.
  destruct (detect_run im heap_start sipi_entry code n (u32 (rbx c0)) upper (set_memory m mem1) la es me self mp_fuel Hlo1)
    as (h' & s' & Hdet' & _ & _ & Ha & Hd & _); [unfold suite_pages in Hn; lia|done|done|].
  rewrite Hdet in Hdet'. injection Hdet' as <- <-.
  destruct (lo_code _ _ _ _ _ _ _ _ Hlo1) as [Hent Hbelow].
  assert (Hsb : startable sy cr4_bits reset sipi_entry code (hmem h)).
  { split; [done| |by eapply entry_code_below|done| |done].
    - eapply image_detected; [exact Hlow|exact Ha|]. eapply image_entered; [exact Hs|exact Hk|exact Hi].
    - eapply (stacks_frame sy sipi_entry code mem0); [exact Hsk|]. intros x Hx. destruct (Hst x Hx) as [Hx1 Hx2].
      rewrite Ha by lia. by apply Hk. }
  intros ys y Hys Hrun. eapply sys_run_ended; [exact Hsb|by eapply table_of_ok|exact Hys|exact Hrun].
Qed.

(** ** Witnesses *)

(** As the machine of Main, with the pages from 4 MiB on: the image of Cstart is
    below them. *)
Definition kernel_info : list Z :=
  replicate 8 0 ++ le_bytes 4 78116 ++ replicate 32 0 ++ le_bytes 4 24 ++ le_bytes 4 2304.

Definition kernel_small : mem :=
  write_bytes (write_bytes (write_bytes (write_bytes (write_bytes (demo_machine (table_bytes demo_cpus)) 2048 kernel_info)
    2304 (replicate 12 0 ++ le_bytes 8 79990784 ++ replicate 4 0)) 4096 (letters ++ [0])) 0x10009c (le_bytes 4 smp_stacktop))
    0x1000a0 demo_bytes.

Lemma kernel_small_below x : is_Some (kernel_small !! x) -> x < 1048832.
Proof.
  intros Hx. enough (H : Forall (fun x => x < 1048832) (map_to_list kernel_small).*1); [|by_eval].
  rewrite Forall_forall in H. apply H. destruct Hx as [v Hx]. apply list_elem_of_fmap. exists (x, v).
  split; [reflexivity|]. by apply elem_of_map_to_list.
Qed.

(** What a memory needs to be that machine's. *)
Record kernel_mem (mm : mem) : Prop := {
  km_low : mapped mm 0 20000;
  km_stacks : mapped mm 397304 258056;
  km_pages : mapped mm 4194304 75796480;
  km_small : kernel_small ⊆ mm;
  km_none : forall x, 1048832 <= x < 4194304 -> mm !! x = None;
}.

Lemma kernel_mem_exists : exists mm, kernel_mem mm.
Proof.
  exists (kernel_small ∪ (write_bytes ∅ 0 (replicate (Z.to_nat 20000) 0) ∪ (write_bytes ∅ 397304 (replicate (Z.to_nat 258056) 0) ∪
    write_bytes ∅ 4194304 (replicate (Z.to_nat 75796480) 0)))).
  assert (Ho : forall a n x, 0 <= n -> x < a \/ a + n <= x -> write_bytes ∅ a (replicate (Z.to_nat n) 0) !! x = None).
  { intros a n x Hn Hx. rewrite write_bytes_out; [apply lookup_empty|]. rewrite length_replicate, Z2Nat.id; lia. }
  assert (Hl : forall (m1 m2 : mem) a n, mapped m1 a n -> mapped (m1 ∪ m2) a n).
  { intros m1 m2 a n H x Hx. rewrite lookup_union. apply union_is_Some. left. by apply H. }
  split.
  - apply union_mapped, Hl, replicate_mapped. lia.
  - do 2 apply union_mapped. apply Hl, replicate_mapped. lia.
  - do 3 apply union_mapped. apply replicate_mapped. lia.
  - apply map_union_subseteq_l.
  - intros x Hx. apply lookup_union_None. split.
    + apply eq_None_not_Some. intros Hs. apply kernel_small_below in Hs. lia.
    + apply lookup_union_None. split; [apply Ho; lia|]. apply lookup_union_None. split; apply Ho; lia.
Qed.

Definition kernel_machine (mm : mem) : machine :=
  mkMachine (mkHeap mm (mkSerial 0 0 (mkIo (replicate (Z.to_nat 1003) 96) [])) 0 0 0 false 0 0 0 0)
    (mkIdt false (replicate 256 Hnull) (0, 0)) (OnCpu.mkSmp 0 0 [] ∅ ∅ []) [4294967000; 4294967100; 4294967295; 8589934592 + 44]
    0 (replicate 10 0) 0 0 0 0 0 0 0 0 [].

Definition kernel_image : image := demo_image_of (table_of 4276092928 demo_cpus).

Lemma kernel_loaded mm n :
  kernel_mem mm -> Z.of_nat n = 18505 -> loaded kernel_image 4194304 0x1000a0 demo_bytes n 2048 78116 (kernel_machine mm).
Proof.
  intros [Hz _ Hp Hs _] Hn. split; cbn [p_heap hmem first_mem_init vfree_top kernel_machine].
  - assert (Hload : forall k a v, load_le k kernel_small a = Ok v -> load_le k mm a = Ok v) by (intros k a v; by apply load_mono).
    exists 2304, [79990784]. split.
    + apply Hload. vm_compute. reflexivity.
    + apply Hload. vm_compute. reflexivity.
    + apply Hload. vm_compute. reflexivity.
    + intros [|i] len Hi; [|discriminate Hi]. injection Hi as <-. apply Hload. vm_compute. reflexivity.
    + simpl. lia.
  - lia.
  - rewrite Hn. split; [reflexivity|lia].
  - rewrite Hn. exact Hp.
  - split; [|by vm_compute]. split; [split; [by_eval|split; by_eval]|]. split; [|apply (bytes_at_weaken _ _ _ _ Hs)| |intros []].
    + eapply mapped_sub; [exact Hz| |]; by vm_compute.
    + apply bytes_at_b_spec. vm_compute. reflexivity.
    + eapply mapped_sub; [exact Hz| |]; by vm_compute.
  - by vm_compute.
  - reflexivity.
  - reflexivity.
Qed.

Lemma kernel_described mm : kernel_mem mm -> described mm 4194304 4276092928 demo_cpus 0 0.
Proof.
  intros [_ _ _ Hs _]. split.
  - exists kernel_small, 651264, 1280. split; [exact Hs|]. split; [intros x Hx; apply kernel_small_below in Hx; lia|]. clear. split.
    + apply (demo_found kernel_small (table_bytes demo_cpus) 92 _ eq_refl eq_refl); vm_compute; reflexivity.
    + by_eval.
  - repeat constructor.
  - by_eval.
  - by_eval.
  - simpl. lia.
  - reflexivity.
Qed.

Lemma kernel_base mm : kernel_mem mm -> base kernel_image (suite_inputs + 2) (kernel_machine mm).
Proof.
  intros [Hz _ _ Hs _]. split; cbn [p_heap p_idt p_smp p_gdtr hmem hlock kernel_machine].
  - change (1003 <= Z.of_nat (length (replicate (Z.to_nat 1003) 96))). rewrite length_replicate, Z2Nat.id; lia.
  - split; [|clear; by_eval|by vm_compute]. apply (bytes_at_weaken _ _ _ _ Hs), bytes_at_b_spec. vm_compute. reflexivity.
  - eapply mapped_sub; [exact Hz| |]; cbn [kernel_image demo_image_of im_boot_idt]; lia.
  - reflexivity.
  - intros j. eapply mapped_sub; [exact Hz| |]; cbn [kernel_image demo_image_of im_reg]; lia.
  - reflexivity.
  - split; [reflexivity|by_eval].
  - split; [reflexivity|]. split; [reflexivity|]. by intros c.
Qed.

Lemma kernel_layout : layout kernel_image 4194304.
Proof. split; unfold disjoint_ranges; cbn [kernel_image demo_image_of im_a im_boot_idt im_reg]; lia. Qed.

(** The image beside it. *)
Definition kernel_all (mm : mem) : mem := mm ∪ Cstart.demo_image 0xa0000.

Lemma kernel_all_image mm x :
  kernel_mem mm -> 1048832 <= x < 4194304 -> kernel_all mm !! x = Cstart.demo_image 0xa0000 !! x.
Proof. intros Hm Hx. unfold kernel_all. by rewrite lookup_union, (km_none _ Hm), (left_id_L None (∪)). Qed.

Lemma kernel_image_ok mm : kernel_mem mm -> image_ok demo_symbols (kernel_all mm).
Proof.
  intros Hm. eapply image_frame; [|exact demo_image_ok]. repeat (apply Forall_cons; split;
    [intros x Hx; cbn [fst snd demo_symbols sy_ptl2 sy_ptl3 sy_ptl4 sy_pt_root sy_gdt64_desc sy_gdt64] in Hx;
     apply kernel_all_image; [done|lia]|]). done.
Qed.

Lemma kernel_start_ok mm : kernel_mem mm -> start_ok demo_symbols (kernel_all mm).
Proof.
  intros Hm. destruct demo_start_ok as [S1 S2 S3 S4 (S5 & S6 & S7) S8 S9 S10]. split; try done.
  - eapply bytes_at_frame; [|exact S1]. intros x Hx. rewrite length_replicate in Hx. cbn [demo_symbols sy_mb_boot_info] in Hx.
    apply kernel_all_image; [done|lia].
  - eapply bytes_at_frame; [|exact S2]. intros x Hx. rewrite length_replicate in Hx. cbn [demo_symbols sy_mb_magic] in Hx.
    apply kernel_all_image; [done|lia].
  - split; [exact S5|]. split; [exact S6|]. intros x Hx. cbn [demo_symbols sy_stacktop] in Hx.
    rewrite kernel_all_image by (done || lia). apply S7. exact Hx.
Qed.

Lemma kernel_image_low : image_low demo_symbols 4194304.
Proof.
  repeat (apply Forall_cons; split; [cbn [fst snd demo_symbols sy_ptl2 sy_ptl3 sy_ptl4 sy_pt_root sy_gdt64_desc sy_gdt64]; lia|]). done.
Qed.

(** The boot loader's registers: the information is at 2048. *)
Definition loader_cpu : x86 := set_reg demo_bsp RBX 2048.

Lemma loader_reset : reset_ok 0x6f0 loader_cpu.
Proof. by destruct (proj1 demo_reset). Qed.

Lemma kernel_stacks mm : kernel_mem mm -> stacks_ok demo_symbols 0x1000a0 demo_bytes (kernel_all mm).
Proof.
  intros [_ Hst _ Hs _]. apply demo_stacks_ok.
  - apply (load_mono 4 mm); [apply map_union_subseteq_l|]. apply (load_mono 4 kernel_small); [exact Hs|]. vm_compute. reflexivity.
  - eapply mapped_mono; [apply map_union_subseteq_l|exact Hst].
Qed.

Lemma kernel_stacks_low x : stacks demo_symbols x -> ~ scratch demo_symbols x /\ x < 4194304.
Proof.
  intros [Hx|(k & Hk & Hx)]; unfold scratch; cbn [demo_symbols sy_mb_boot_info sy_mb_magic sy_stacktop sy_smp_stacktop] in *; [lia|].
  pose proof (demo_slot k Hk). lia.
Qed.

Lemma kernel_report_witness :
  exists mm c1 mem1 h s xs st zs y' m' l v,
    run_from demo_symbols 0x6f0 25 loader_cpu (kernel_all mm) Entry = Ok (c1, mem1, Some Cstart.Main) /\
    call_startothers kernel_image 0x1000a0 54 0 0 xs h s (table_of 4276092928 demo_cpus) = Ok st /\
    sys_run demo_symbols 0x6f0 (fun _ => demo_ap) 0x1000a0 demo_bytes (table_of 4276092928 demo_cpus) 0 (im_boot_idt kernel_image) 0
      (sys_start (table_of 4276092928 demo_cpus) 0 (hmem h) s) zs = Ok y' /\ b_pc (y_boot y') = BEnd /\
    main kernel_image 4194304 0x1000a0 54 0 0 4 3 xs (set_memory (kernel_machine mm) mem1) (rdi c1) = Ok m' /\
    text m' = lines (boot_lines 78116 0 2) ++ transcript (spec_row <$> suite kernel_image) /\
    io_log (ports m') = l ++ shutdown_log v.
Proof.
  destruct kernel_mem_exists as [mm Hm]. exists mm.
  assert (Hn : exists n, Z.of_nat n = 18505) by (exists (Z.to_nat 18505); apply Z2Nat.id; lia). destruct Hn as [n Hn].
  destruct (kernel_report demo_symbols 0x6f0 (fun _ => demo_ap) loader_cpu (kernel_all mm) 25 kernel_image 4194304 0x1000a0 demo_bytes 0 0 4 3 n 78116
    (kernel_machine mm) 4276092928 demo_cpus 0 xapic_ready 256 1 None (replicate 14 (mkTimes 100 150 200 1250))
    4294967000 [4294967100; 4294967295] (8589934592 + 44) [])
    as (c1 & mem1 & E1 & _ & h & s & _ & Hsys & (xs & st & Hxs & Hcall) & Hall).
  - exact demo_symbols_ok.
  - exact (kernel_image_ok mm Hm).
  - exact (kernel_start_ok mm Hm).
  - exact loader_reset.
  - reflexivity.
  - reflexivity.
  - apply le_n.
  - exact kernel_image_low.
  - exact demo_assembled.
  - exact (kernel_stacks mm Hm).
  - exact kernel_stacks_low.
  - intros a. exact demo_aps.
  - apply map_union_subseteq_l.
  - intros x Hx. apply (km_none mm Hm). unfold scratch in Hx.
    cbn [demo_symbols sy_mb_boot_info sy_mb_magic sy_stacktop] in Hx. lia.
  - exact (kernel_loaded mm n Hm Hn).
  - rewrite Hn. vm_compute. discriminate.
  - exact (kernel_described mm Hm).
  - simpl. lia.
  - reflexivity.
  - reflexivity.
  - exact kernel_layout.
  - apply demo_processors. reflexivity.
  - exact (kernel_base mm Hm).
  - reflexivity.
  - reflexivity.
  - repeat constructor; vm_compute; discriminate.
  - vm_compute. reflexivity.
  - simpl. lia.
  - exact I.
  - reflexivity.
  - destruct (Hall xs st Hxs Hcall) as (m' & l & v & Hmain & T & L & _).
    destruct (Hsys [] _ (Forall_nil_2 _) eq_refl) as [(zs & y' & _ & Hz & Hend) _].
    exists c1, mem1, h, s, xs, st, zs, y', m', l, v. split; [exact E1|]. split; [exact Hcall|].
    split; [exact Hz|]. split; [exact Hend|]. split; [exact Hmain|]. split; [exact T|exact L].
Defined.
